(* ===== verification/_CoqProject ===== *)
-Q . S2P
Prelude.v
PyStr.v
PyFloat.v
PyDict.v
PyTime.v
TrailingNewline.v
Md5.v
Json.v
World.v
RuntimeHistory.v
TestModel.v
StateManager.v
TestExecutor.v
RunNames.v
Returns.v
ReportGenerator.v
Runner.v
Retries.v
Strategy.v
RunInvariant.v
Verdict.v
RunCost.v
Resume.v
Argparse.v
RetryArgs.v
RunTestsArgs.v
RunTests.v
ReleaseFile.v
CommandLine.v
HistoryRace.v
SaveRace.v
LogRace.v
DelayedInit.v
Kube.v
Restarter.v
RestartController.v
PodRestarter.v
PodController.v
StsWebhook.v
Operator.v
Webhooks.v
OperatorMain.v
