(* ===== verification/Prelude.v ===== *)
(** * Verification of the Stackable commons-operator repository

    The repository holds two programs for developers, a hook, and the operator:

    - scripts/auto-retry-tests.py runs the integration tests and retries those that
      failed, first several at once and then one by one.  It keeps the durations of
      tests and the state of an interrupted run in JSON files.
    - scripts/run-tests installs what the tests need from a release file, which it may
      patch, generates the tests and runs them.  The first program starts it once per
      test run.
    - scripts/ensure_one_trailing_newline.py is a pre-commit hook.
    - rust/operator-binary is the operator.  One controller annotates the pod
      templates of StatefulSets with the versions of the ConfigMaps and Secrets they
      use, so that Kubernetes restarts the Pods when one of them changes; another
      evicts Pods at their expiry; a webhook annotates StatefulSets as they are
      created.

    ** How code is modelled

    Python code is a computation of the monad [M] below: a function of the state that
    returns or raises an exception ([result]) and leaves a new state, which it also
    does when it raises.  [wp] is the weakest precondition of a computation, with one
    rule for each way of composing them.  Strings are lists of code points (PyStr.v),
    floats are binary64 numbers (PyFloat.v), dictionaries keep the order of insertion
    (PyDict.v), dates are records of fields (PyTime.v).  Rust functions return an
    [outcome] (Kube.v): a value, an error or a panic.

    What a program asks the outside for (files, clock, subprocesses, the order in
    which the threads of a pool run) is answered by a class: [Env] in World.v for the
    retry runner, [ShellEnv] in RunTests.v for run-tests.  An answer depends on a
    counter that each question advances, so that it may change from one question to
    the next, and theorems hold for all answers.  One answer of [Env] says whether
    another thread of the pool adds a test to the runtime history while this one copies
    it ([env_history_changed]); the copy then raises RuntimeError.  The exception
    [Untyped] is none of Python's: it marks where a value of a JSON file has a type with
    which the model does not go on, although the program does.  The state records what the programs
    do: the files written and the commands started, in order.  The libraries of the
    operator are classes with the laws that are relied on ([Oneshot], [JsonPatch],
    [ApiServer]; also [JsonObjects] in SaveRace.v, for Python's json) or without any ([Chrono], [EvictApi], [KubeClient]), each with an
    instance on which the theorems are tried.

    ** The files

    - Prelude.v: the monad, [wp] and its tactics, lemmas on lists.
    - PyStr.v, PyFloat.v, PyDict.v, PyTime.v, Md5.v, Json.v: what the programs use of
      Python and its standard library.
    - TrailingNewline.v: the hook, [process_lines], [main] and its unit tests.
    - World.v: files, clock and subprocesses.
    - RuntimeHistory.v, TestModel.v, StateManager.v, TestExecutor.v,
      ReportGenerator.v, Runner.v: scripts/auto-retry-tests.py, a file per class, in
      the order of the source; methods have the names they have there.  A class's
      attributes that methods change are the record [runner] of TestModel.v.
    - Retries.v, Strategy.v: what the loops of the retry runner, a round of retries
      and a whole run achieve.  RunInvariant.v: what every run keeps true, however it
      ends.  Verdict.v: what a run concludes when tests behave the same each time.
      RunCost.v: how many runs of the suite and of each test it may start.  Resume.v: [--resume],
      from the state file to the end of the run.  RunNames.v: which attempts share
      a log file or a work directory.
    - HistoryRace.v: the threads of a pool at [update_runtime_history], one statement
      per step, with the objects of the dictionary shared.
    - SaveRace.v: threads that save the same file, one piece of the text per step.
      LogRace.v: threads that run tests, with their log files and the runtime history.  Returns.v: what cannot
      raise as long as files can be opened.
    - Argparse.v: reading a command line, for any parser (class [Parser]);
      RetryArgs.v and RunTestsArgs.v: the parsers of the two programs.
    - RunTests.v: scripts/run-tests.
    - ReleaseFile.v: what patching makes of a release file.
    - CommandLine.v: that run-tests reads the command lines that the retry runner
      builds, and which extra arguments it does not.
    - DelayedInit.v: utils/delayed_init.rs, as a step relation on tasks.
    - Kube.v, Restarter.v, PodRestarter.v: reconciling, in
      restart_controller/statefulset.rs and restart_controller/pod.rs.
    - RestartController.v: [start] of restart_controller/statefulset.rs, events of the
      three reflectors, listings included, that arrive while reconciliations are at
      their [await]s, as a step relation.
    - PodController.v: [start] of restart_controller/pod.rs, over time: Pods that come
      and go, reconciliations that are due, evictions that are answered later.
    - StsWebhook.v: webhooks/restarter_mutate_sts.rs, its handler; Webhooks.v: how it
      is registered, and which webhooks webhooks/mod.rs serves.
    - Operator.v: the webhook and the controller of StatefulSets together.
    - OperatorMain.v: main.rs, the order of starting and how the parts end.

    ** What the theorems show

    The retry runner: retries return under every schedule and record exactly what was
    run; a test that has passed is not run again; a test is called failed only after
    the attempts left to it; the namespace of a failed test is deleted only if asked
    for; the exit code is 1 exactly when a summary says failed; saved state and saved
    histories are read back unchanged; a history holds the latest fifty durations of
    at least thirty seconds; log files have safe names, and different ones for
    different attempts (when the tests' names differ in more than a slash); the report
    accounts for every test.  A run starts the suite at most once and each failed test
    at most as often as the attempts allow; a resumed run goes on from what was saved,
    with the attempts that are left, and one without a usable state file does nothing.  However a run ends, its summaries and histories are well formed, and one
    that returns leaves a summary for exactly the failed tests.  If a test's outcome
    is always the same and there are serial attempts, verdicts and exit code do not
    depend on schedules, nor on results that threads lose: the tests that pass alone are
    flaky, the others failed, and the exit code is 0 exactly if all of them pass.
    Concurrent updates for different tests are not lost, and all updates end.  Its
    command line can express every set of arguments whose values are plain.

    run-tests: it succeeds only after each command it was to start has, in order;
    temporary files that could be written are removed; a patched release file has the versions asked for
    and is otherwise the same; its options are those meant by the retry runner.

    The hook: one newline at the end, every line but the blank ones at the end as it
    was (line endings apart), and running it twice is running it once.

    The operator: annotations are those of the referenced objects, so that their
    changes restart Pods and other changes do not; however events and
    reconciliations interleave, no change that has an event of its own is missed, and
    the controller comes to rest with all annotations current of the StatefulSets asked
    for since a listing last ended; the webhook's patch applies and
    anticipates what the controller asks for; a Pod is evicted exactly when its
    earliest expiry has passed, none that expired is forgotten, and a prompt controller
    evicts in time; readers of a [DelayedInit] agree.  The webhook is asked for
    the StatefulSets that the controller watches, and the controller does not restart
    the Pods of a StatefulSet that the webhook has annotated until something that it
    refers to changes.

    Other theorems show what the code does where that seems not to be meant: updates
    of one test's history by two threads, saving while another thread inserts or
    saves, extra arguments that run-tests rejects, no workers, an interrupted run that
    is resumed (its results and its attempts), tests that share a log file (one deletes the
    namespace of the other), a suite that fails without a failed test, an
    operator with an empty version, a temporary file that cannot be removed or not be
    written, a StatefulSet without a specification, stores that are handed out while
    they are empty, listings whose end asks for nothing, two readers of a [DelayedInit].

    ** Bounds

    No definition takes fuel.  Loops over lists recurse on the list; the loops over
    [range(1, n + 1)] recurse on the attempts left, [Z.to_nat n], which is their exact
    number; so each function is total.  The step relations are proved to end where
    they should ([controller_drains], [updates_terminate]).  The constants of the code (fifty durations,
    thirty seconds, a hundred characters, eight digits of a digest) are definitions of
    RuntimeHistory.v.  Python's integers are unbounded, hence [Z].

    ** What is not modelled

    Printing and logging.  Writing a file in several steps: a write happens or fails;
    only SaveRace.v looks at the pieces (and run-tests' temporary file is created before
    it is written).
    In the retry runner's model the tasks of a pool run one after the other, in any
    order and completing in any order; their interleaving is modelled for the files
    and objects that they share: the runtime history (HistoryRace.v), its file
    (SaveRace.v) and the logs (LogRace.v, which also shows that interleaved tests get
    the results that they get one after the other, or fail for the one reason that
    [env_history_changed] stands for).  State files with values of other types than the
    program's own are followed only as far as [Untyped] allows.  Options of [argparse]
    that the programs do not use.  Regular-expression replacements with escapes, which only a version with a
    backslash leads to, are a parameter.  In the operator: what the controller
    library does below the events (the assumptions are in RestartController.v and
    PodController.v), what the webhook server and the framework that main.rs starts do
    inside, the conversions (library code), the shutdown signal of the controllers.  Deployment, build files, documentation and test
    definitions. *)

From stdpp Require Export base tactics option list numbers sorting.
From stdpp Require Export gmap.
From Stdlib Require Export ZifyBool.

#[export] Set Default Goal Selector "!".
#[export] Set Warnings "-clear-no-such-hyp,-register-all".

(** ** Exceptions

    The exceptions the modelled code raises, catches or lets through.  A
    constructor carries what a handler of the source inspects. *)

Inductive exn :=
  | FileNotFoundError
  | PermissionError
  | OtherOSError
  | UnicodeDecodeError
  | JSONDecodeError
  | FileOperationError
  | ValueError
  | TypeError
  | KeyError
  | AttributeError
  | IndexError
  | RuntimeError
  | CalledProcessError (stderr : option (list N))
  | TestRunnerException
  | Untyped.  (** no exception of Python: the model stops here, see Json.v *)

#[global] Instance exn_eq_dec : EqDecision exn.
Proof. solve_decision. Defined.

(** ** Results and the state-and-exception monad *)

Inductive result (A : Type) :=
  | Ok (a : A)
  | Raise (e : exn).
Arguments Ok {A} a.
Arguments Raise {A} e.

#[global] Instance result_eq_dec `{EqDecision A} : EqDecision (result A).
Proof. solve_decision. Defined.

Definition result_bind {A B} (r : result A) (f : A → result B) : result B :=
  match r with
  | Ok a => f a
  | Raise e => Raise e
  end.

Definition result_of_option {A} (e : exn) (o : option A) : result A :=
  match o with
  | Some a => Ok a
  | None => Raise e
  end.

Definition is_ok {A} (r : result A) : bool :=
  match r with
  | Ok _ => true
  | Raise _ => false
  end.

(** [M S A]: a Python statement sequence that reads and writes a state [S]
    and ends with a value or an exception.  The state survives an exception. *)
Definition M (S A : Type) : Type := S → result A * S.

Section monad.
Context {S : Type}.

Definition ret {A} (a : A) : M S A := λ s, (Ok a, s).

Definition bind {A B} (m : M S A) (k : A → M S B) : M S B := λ s,
  match m s with
  | (Ok a, s') => k a s'
  | (Raise e, s') => (Raise e, s')
  end.

Definition raise {A} (e : exn) : M S A := λ s, (Raise e, s).

(** [try m except e => h e] *)
Definition catch {A} (m : M S A) (h : exn → M S A) : M S A := λ s,
  match m s with
  | (Ok a, s') => (Ok a, s')
  | (Raise e, s') => h e s'
  end.

Definition get : M S S := λ s, (Ok s, s).
Definition gets {A} (f : S → A) : M S A := λ s, (Ok (f s), s).
Definition modify (f : S → S) : M S unit := λ s, (Ok tt, f s).
Definition lift {A} (r : result A) : M S A := λ s, (r, s).

(** [for x in l: body x] *)
Fixpoint for_each {A} (l : list A) (body : A → M S unit) : M S unit :=
  match l with
  | [] => ret tt
  | x :: l' => bind (body x) (λ _, for_each l' body)
  end.

(** [[body x for x in l]] *)
Fixpoint map_each {A B} (l : list A) (body : A → M S B) : M S (list B) :=
  match l with
  | [] => ret []
  | x :: l' => bind (body x) (λ y, bind (map_each l' body) (λ ys, ret (y :: ys)))
  end.

End monad.

Declare Scope py_scope.
Delimit Scope py_scope with py.

Notation "x <- m ;; k" := (bind m (λ x, k))
  (at level 100, m at next level, right associativity, only parsing) : py_scope.
Notation "m ;;; k" := (bind m (λ _, k))
  (at level 100, right associativity, only parsing) : py_scope.

(** ** Hoare-style specifications

    [wp m Q s]: running [m] from [s] ends in a value or exception and a state
    that satisfy [Q].  All programs of the development are total, so this is
    total correctness. *)

Section wp.
Context {S : Type}.

Definition wp {A} (m : M S A) (Q : result A → S → Prop) (s : S) : Prop :=
  Q (m s).1 (m s).2.

Lemma wp_mono {A} (m : M S A) (Q Q' : result A → S → Prop) s :
  wp m Q s → (∀ r s', Q r s' → Q' r s') → wp m Q' s.
Proof. unfold wp. auto. Qed.

Lemma wp_ret {A} (a : A) Q (s : S) : Q (Ok a) s → wp (ret a) Q s.
Proof. done. Qed.

Lemma wp_raise {A} e (Q : result A → S → Prop) s : Q (Raise e) s → wp (raise e) Q s.
Proof. done. Qed.

Lemma wp_bind {A B} (m : M S A) (k : A → M S B) Q s :
  wp m (λ r s', match r with
                | Ok a => wp (k a) Q s'
                | Raise e => Q (Raise e) s'
                end) s →
  wp (bind m k) Q s.
Proof. unfold wp, bind. destruct (m s) as [[a|e] s']; done. Qed.

Lemma wp_catch {A} (m : M S A) (h : exn → M S A) Q s :
  wp m (λ r s', match r with
                | Ok a => Q (Ok a) s'
                | Raise e => wp (h e) Q s'
                end) s →
  wp (catch m h) Q s.
Proof. unfold wp, catch. destruct (m s) as [[a|e] s']; done. Qed.

Lemma wp_get Q (s : S) : Q (Ok s) s → wp get Q s.
Proof. done. Qed.

Lemma wp_gets {A} (f : S → A) Q s : Q (Ok (f s)) s → wp (gets f) Q s.
Proof. done. Qed.

Lemma wp_modify (f : S → S) Q s : Q (Ok tt) (f s) → wp (modify f) Q s.
Proof. done. Qed.

Lemma wp_lift {A} (r : result A) Q (s : S) : Q r s → wp (lift r) Q s.
Proof. done. Qed.

(** The loop rule: [I done todo s] is the invariant with the elements already
    visited and those left. *)
Lemma wp_for_each {A} (l : list A) (body : A → M S unit)
    (I : list A → list A → S → Prop) (E : exn → S → Prop) Q s :
  I [] l s →
  (∀ pre x post s', l = pre ++ x :: post → I pre (x :: post) s' →
     wp (body x) (λ r s'', match r with
                           | Ok _ => I (pre ++ [x]) post s''
                           | Raise e => E e s''
                           end) s') →
  (∀ s', I l [] s' → Q (Ok tt) s') →
  (∀ e s', E e s' → Q (Raise e) s') →
  wp (for_each l body) Q s.
Proof.
  intros Hinit Hstep Hdone Hexn.
  cut (∀ todo pre s', l = pre ++ todo → I pre todo s' → wp (for_each todo body) Q s').
  { intros H. by apply (H l []). }
  induction todo as [|x todo IH]; intros pre s' Hl HI; simpl.
  { apply wp_ret, Hdone. rewrite app_nil_r in Hl. by subst. }
  apply wp_bind. eapply wp_mono; [by eapply Hstep|].
  intros [[]|e] s'' H; [|by apply Hexn].
  apply (IH (pre ++ [x])); [|done]. by rewrite <-app_assoc.
Qed.

End wp.

(** [wp_step] performs one monadic step of a [wp] goal. *)
Ltac wp_step :=
  lazymatch goal with
  | |- wp (bind _ _) _ _ => apply wp_bind
  | |- wp (ret _) _ _ => apply wp_ret
  | |- wp (raise _) _ _ => apply wp_raise
  | |- wp (catch _ _) _ _ => apply wp_catch
  | |- wp get _ _ => apply wp_get
  | |- wp (gets _) _ _ => apply wp_gets
  | |- wp (modify _) _ _ => apply wp_modify
  | |- wp (lift _) _ _ => apply wp_lift
  end.
Ltac wp_steps := repeat (wp_step; cbn beta iota).

(** Case analysis on the calls a successful chain of [result_bind]s made. *)
Ltac bind_inv H :=
  repeat match type of H with
  | result_bind ?r _ = Ok _ =>
      let E := fresh "E" in
      destruct r eqn:E; cbn beta iota delta [result_bind] in H; [|discriminate H]
  end.

(** ** Lists *)

Create HintDb dev discriminated.

Section lists.
Context {A : Type}.

Lemma filter_all_true (P : A → Prop) `{!∀ x, Decision (P x)} l :
  Forall P l → filter P l = l.
Proof.
  induction 1 as [|x l Hx _ IH]; [done|]. by rewrite filter_cons_True, IH.
Qed.

Lemma Forall_filter_self (P : A → Prop) `{!∀ x, Decision (P x)} l : Forall P (filter P l).
Proof. apply Forall_forall. by intros x [? _]%list_elem_of_filter. Qed.

Lemma existsb_false_Forall (f : A → bool) l :
  existsb f l = false ↔ Forall (λ x, f x = false) l.
Proof.
  induction l as [|x l IH]; simpl; [split; auto|].
  rewrite orb_false_iff, Forall_cons, IH. done.
Qed.

Lemma existsb_true_Exists (f : A → bool) l :
  existsb f l = true ↔ Exists (λ x, f x = true) l.
Proof.
  induction l as [|x l IH]; simpl; [by rewrite Exists_nil|].
  rewrite orb_true_iff, Exists_cons, IH. done.
Qed.

(** Python's [l[-n:]] for [n > 0]: the last [n] elements, or all of them. *)
Definition last_n (n : nat) (l : list A) : list A := drop (length l - n) l.

Lemma length_last_n n (l : list A) : length (last_n n l) = min n (length l).
Proof. unfold last_n. rewrite length_drop. lia. Qed.

Lemma last_n_suffix n (l : list A) : last_n n l `suffix_of` l.
Proof. exists (take (length l - n) l). unfold last_n. by rewrite take_drop. Qed.

Lemma last_n_all n (l : list A) : length l ≤ n → last_n n l = l.
Proof. intros H. unfold last_n. by replace (length l - n) with 0 by lia. Qed.

Lemma last_n_app n (l k : list A) :
  length k ≤ n → last_n n (l ++ k) = last_n (n - length k) l ++ k.
Proof.
  intros H. unfold last_n. rewrite length_app, drop_app.
  replace (length l + length k - n - length l) with 0 by lia.
  rewrite drop_0. do 2 f_equal. lia.
Qed.

Lemma Forall_last_n (P : A → Prop) n l : Forall P l → Forall P (last_n n l).
Proof. apply Forall_drop. Qed.

End lists.

#[export] Hint Resolve Forall_last_n Forall_app_2 : dev.

(** Destruct the first [match] or [if] scrutinee of the goal, keeping the equation. *)
Ltac case_on := case_match; simplify_eq/=; try done.

(** Replacing an element changes a sum by the difference. *)
Lemma sum_list_insert {A} (f : A → nat) (l : list A) i x y :
  l !! i = Some x → sum_list_with f (<[i := y]> l) + f x = sum_list_with f l + f y.
Proof.
  revert i. induction l as [|z l IH]; intros [|i]; simpl; [done..| |].
  - intros [= ->]. lia.
  - intros H. specialize (IH i H). lia.
Qed.
