(* ===== verification/PyStr.v ===== *)
(** Python (and Rust) strings: sequences of Unicode code points, with the
    [str] operations, the two regular-expression shapes and the decimal
    printing the modelled code uses. *)

From S2P Require Import Prelude.
From Stdlib Require Import Decimal DecimalZ DecimalFacts DecimalPos.

(** ** Representation and literals *)

Abbreviation str := (list N).

(** UTF-8, both ways: literals are decoded when they are parsed, and
    [str.encode()] is [utf8_encode]. *)
Fixpoint utf8_decode (bs : list Byte.byte) : str :=
  let n := Byte.to_N in
  let tail b := N.land (n b) 63 in
  match bs with
  | [] => []
  | b1 :: r1 =>
      if (n b1 <? 128)%N then n b1 :: utf8_decode r1
      else match r1 with
      | [] => []
      | b2 :: r2 =>
          if (n b1 <? 224)%N then
            (N.land (n b1) 31 * 64 + tail b2)%N :: utf8_decode r2
          else match r2 with
          | [] => []
          | b3 :: r3 =>
              if (n b1 <? 240)%N then
                (N.land (n b1) 15 * 4096 + tail b2 * 64 + tail b3)%N :: utf8_decode r3
              else match r3 with
              | [] => []
              | b4 :: r4 =>
                  (N.land (n b1) 7 * 262144 + tail b2 * 4096 + tail b3 * 64 + tail b4)%N
                    :: utf8_decode r4
              end
          end
      end
  end.

(** The bytes, as numbers, of one code point. *)
Definition utf8_char (c : N) : list N :=
  (if c <? 128 then [c]
   else if c <? 2048 then [192 + c / 64; 128 + c mod 64]
   else if c <? 65536 then [224 + c / 4096; 128 + c / 64 mod 64; 128 + c mod 64]
   else [240 + c / 262144; 128 + c / 4096 mod 64; 128 + c / 64 mod 64; 128 + c mod 64])%N.

Definition utf8_encode (s : str) : list N := mjoin (utf8_char <$> s).

Definition pystr := str.
Inductive literal := Literal (s : str).
Definition lit (s : str) : str := s.
Definition parse_literal (bs : list Byte.byte) : literal := Literal (utf8_decode bs).
Definition print_literal (l : literal) : option (list Byte.byte) :=
  match l with Literal s => Some (omap Byte.of_N (utf8_encode s)) end.

Declare Scope str_scope.
Delimit Scope str_scope with str.
#[warnings="-via-type-mismatch,-via-type-remapping"]
String Notation pystr parse_literal print_literal
  (via literal mapping [lit => Literal]) : str_scope.
#[global] Open Scope str_scope.

Definition newline : str := [10%N].

Example literal_is_code_points : "a✓b" = [97; 10003; 98]%N.
Proof. reflexivity. Qed.

(** ** Character classes *)

(** [str.isspace] on one code point: what [\s] matches in a [str] pattern. *)
Definition is_space (c : N) : bool :=
  ((9 <=? c) && (c <=? 13) || (28 <=? c) && (c <=? 32) || (c =? 133) || (c =? 160)
   || (c =? 5760) || (8192 <=? c) && (c <=? 8202) || (c =? 8232) || (c =? 8233)
   || (c =? 8239) || (c =? 8287) || (c =? 12288))%N.

(** [\w] on the code points of ASCII and Latin-1; the letters beyond U+00FF are
    not in the table. *)
Definition is_word (c : N) : bool :=
  ((48 <=? c) && (c <=? 57) || (65 <=? c) && (c <=? 90) || (c =? 95)
   || (97 <=? c) && (c <=? 122) || (c =? 170) || (c =? 178) || (c =? 179) || (c =? 181)
   || (c =? 185) || (c =? 186) || (188 <=? c) && (c <=? 190)
   || (192 <=? c) && (c <=? 214) || (216 <=? c) && (c <=? 246)
   || (248 <=? c) && (c <=? 255))%N.

(** [str.lower] on ASCII letters. *)
Definition lower (s : str) : str :=
  (λ c, if (65 <=? c) && (c <=? 90) then c + 32 else c)%N <$> s.

(** ** Searching and rewriting *)

Fixpoint startswith (p s : str) : bool :=
  match p, s with
  | [], _ => true
  | c :: p', d :: s' => (c =? d)%N && startswith p' s'
  | _ :: _, [] => false
  end.

(** [p in s] *)
Fixpoint contains (p s : str) : bool :=
  startswith p s || match s with [] => false | _ :: s' => contains p s' end.

(** [s.replace(c, d)] for one-character strings. *)
Definition replace_char (c d : N) (s : str) : str :=
  (λ x, if (x =? c)%N then d else x) <$> s.

(** [s.split(c)] for a one-character separator: never empty. *)
Fixpoint split_char (c : N) (s : str) : list str :=
  match s with
  | [] => [[]]
  | x :: s' =>
      if (x =? c)%N then [] :: split_char c s'
      else match split_char c s' with
           | [] => [[x]]
           | w :: ws => (x :: w) :: ws
           end
  end.

(** [sep.join(l)] *)
Fixpoint join (sep : str) (l : list str) : str :=
  match l with
  | [] => []
  | [w] => w
  | w :: l' => w ++ sep ++ join sep l'
  end.

(** [s.rstrip(c)] *)
Fixpoint rstrip_char (c : N) (s : str) : str :=
  match s with
  | [] => []
  | x :: s' =>
      match rstrip_char c s' with
      | [] => if (x =? c)%N then [] else [x]
      | t => x :: t
      end
  end.

(** Universal newlines: what [open(..., "r")] does to the text it reads. *)
Fixpoint universal_newlines (s : str) : str :=
  match s with
  | [] => []
  | c :: s' =>
      if (c =? 13)%N then
        match s' with
        | d :: s'' => if (d =? 10)%N then 10%N :: universal_newlines s''
                      else 10%N :: universal_newlines s'
        | [] => [10%N]
        end
      else c :: universal_newlines s'
  end.

(** The lines of a text with their terminating ["\n"], as iterating over a text
    file (or [readlines]) produces them. *)
Fixpoint lines_keep (s : str) : list str :=
  match s with
  | [] => []
  | c :: s' =>
      if (c =? 10)%N then newline :: lines_keep s'
      else match lines_keep s' with
           | [] => [[c]]
           | l :: ls => (c :: l) :: ls
           end
  end.

(** The longest prefix of characters in [cls]. *)
Fixpoint span (cls : N → bool) (s : str) : str :=
  match s with
  | [] => []
  | c :: s' => if cls c then c :: span cls s' else []
  end.

(** The regular expression [lit(cls+)], [lit] without metacharacters: the group
    of the match that starts where [s] starts. *)
Definition match_lit_plus (lit : str) (cls : N → bool) (s : str) : option str :=
  if startswith lit s then
    match span cls (drop (length lit) s) with
    | [] => None
    | g => Some g
    end
  else None.

(** [re.search(lit(cls+), s).group(1)]: the leftmost match. *)
Fixpoint re_search (lit : str) (cls : N → bool) (s : str) : option str :=
  match match_lit_plus lit cls s with
  | Some g => Some g
  | None => match s with
            | [] => None
            | _ :: s' => re_search lit cls s'
            end
  end.

(** [re.findall(lit(cls+), s)]: the groups of the successive matches that do
    not overlap.  [skip] counts the characters the last match still covers. *)
Fixpoint re_findall_from (lit : str) (cls : N → bool) (skip : nat) (s : str) : list str :=
  match s with
  | [] => []
  | _ :: s' =>
      match skip with
      | S k => re_findall_from lit cls k s'
      | O => match match_lit_plus lit cls s with
             | Some g => g :: re_findall_from lit cls (length lit + length g - 1) s'
             | None => re_findall_from lit cls 0 s'
             end
      end
  end.

Definition re_findall (lit : str) (cls : N → bool) (s : str) : list str :=
  re_findall_from lit cls 0 s.

(** ** Decimal numbers *)

Fixpoint uint_to_str (d : Decimal.uint) : str :=
  match d with
  | Decimal.Nil => []
  | Decimal.D0 d => 48%N :: uint_to_str d
  | Decimal.D1 d => 49%N :: uint_to_str d
  | Decimal.D2 d => 50%N :: uint_to_str d
  | Decimal.D3 d => 51%N :: uint_to_str d
  | Decimal.D4 d => 52%N :: uint_to_str d
  | Decimal.D5 d => 53%N :: uint_to_str d
  | Decimal.D6 d => 54%N :: uint_to_str d
  | Decimal.D7 d => 55%N :: uint_to_str d
  | Decimal.D8 d => 56%N :: uint_to_str d
  | Decimal.D9 d => 57%N :: uint_to_str d
  end.

(** [str(z)] of an [int]. *)
Definition str_of_Z (z : Z) : str :=
  match Z.to_int z with
  | Decimal.Pos d => uint_to_str d
  | Decimal.Neg d => "-" ++ uint_to_str d
  end.

Definition str_of_nat (n : nat) : str := str_of_Z (Z.of_nat n).

(** [str(b)] of a [bool]. *)
Definition str_of_bool (b : bool) : str := if b then "True" else "False".

(** Truth value of an optional string: [None] and [""] are false. *)
Definition truthy (o : option str) : bool :=
  match o with
  | Some (_ :: _) => true
  | _ => false
  end.

(** ** Lemmas *)

Lemma startswith_spec p s : startswith p s = true ↔ ∃ t, s = p ++ t.
Proof.
  revert s. induction p as [|c p IH]; intros s; simpl.
  { split; [|done]. intros _. by exists s. }
  destruct s as [|d s]; [by split; [|intros [? ?]]|].
  rewrite andb_true_iff, N.eqb_eq, IH. split.
  - intros [-> [t ->]]. by exists t.
  - intros [t [= -> ->]]. eauto.
Qed.

Lemma startswith_app p s : startswith p (p ++ s) = true.
Proof. apply startswith_spec. eauto. Qed.

Lemma contains_unfold p s :
  contains p s = startswith p s || match s with [] => false | _ :: s' => contains p s' end.
Proof. by destruct s. Qed.

Lemma contains_spec p s : contains p s = true ↔ ∃ a b, s = a ++ p ++ b.
Proof.
  induction s as [|c s IH]; rewrite contains_unfold, orb_true_iff, startswith_spec.
  - split; [intros [[t Ht]|]; [by exists [], t|done]|].
    intros (a & b & Hab). left. destruct a; [|done]. by exists b.
  - rewrite IH. split.
    + intros [[t Ht]|(a & b & ->)]; [by exists [], t|by exists (c :: a), b].
    + intros ([|x a] & b & Hab); simplify_eq/=; [left; eauto|right; eauto].
Qed.

Lemma length_replace_char c d s : length (replace_char c d s) = length s.
Proof. apply length_fmap. Qed.

Lemma replace_char_absent c d s : c ≠ d → c ∉ replace_char c d s.
Proof.
  intros Hne (x & Hx & _)%list_elem_of_fmap.
  destruct (N.eqb_spec x c); simplify_eq.
Qed.

Lemma replace_char_id c d s : c ∉ s → replace_char c d s = s.
Proof.
  intros H. unfold replace_char. rewrite <-(list_fmap_id s) at 2.
  apply list_fmap_ext. intros i x Hx. case_on.
  apply list_elem_of_lookup_2 in Hx. apply N.eqb_eq in H0. by subst.
Qed.

Lemma split_char_ne c s : split_char c s ≠ [].
Proof.
  destruct s as [|x s]; simpl; [done|]. destruct (_ =? _)%N; [done|].
  by destruct (split_char c s).
Qed.

Lemma split_char_absent c s w : w ∈ split_char c s → c ∉ w.
Proof.
  revert w. induction s as [|x s IH]; intros w; simpl.
  { rewrite list_elem_of_singleton. intros ->. apply not_elem_of_nil. }
  destruct (N.eqb_spec x c) as [->|Hne].
  { rewrite elem_of_cons. intros [->|?]; [apply not_elem_of_nil|auto]. }
  destruct (split_char c s) as [|v ws].
  { rewrite list_elem_of_singleton. intros ->. rewrite list_elem_of_singleton. congruence. }
  rewrite elem_of_cons. intros [->|Hw]; [|by apply IH; right].
  apply not_elem_of_cons. split; [congruence|]. apply IH. left.
Qed.

Lemma join_cons sep w l :
  l ≠ [] → join sep (w :: l) = w ++ sep ++ join sep l.
Proof. by destruct l. Qed.

Lemma join_split_char c s : join [c] (split_char c s) = s.
Proof.
  induction s as [|x s IH]; [done|]; simpl.
  destruct (N.eqb_spec x c) as [->|].
  - rewrite join_cons by apply split_char_ne. by rewrite IH.
  - destruct (split_char c s) as [|w ws] eqn:E; [by destruct (split_char_ne c s)|].
    rewrite <-IH. by destruct ws.
Qed.

Lemma length_split_char c s : length (split_char c s) = S (count_occ N.eq_dec s c).
Proof.
  induction s as [|x s IH]; [done|]; simpl.
  destruct (N.eqb_spec x c) as [->|].
  - destruct (N.eq_dec c c); simpl; congruence.
  - destruct (N.eq_dec x c); [done|].
    destruct (split_char c s); simpl in *; congruence.
Qed.

Lemma span_Forall cls s : Forall (λ c, cls c = true) (span cls s).
Proof. induction s as [|c s IH]; simpl; [done|]. case_on. by constructor. Qed.

Lemma span_prefix cls s : ∃ t, s = span cls s ++ t ∧ span cls t = [].
Proof.
  induction s as [|c s (t & Hs & Ht)]; [by exists []|]; simpl.
  destruct (cls c) eqn:E; simpl.
  - exists t. by rewrite <-Hs.
  - exists (c :: s). simpl. by rewrite E.
Qed.

Lemma span_app cls g t :
  Forall (λ c, cls c = true) g → span cls t = [] → span cls (g ++ t) = g.
Proof. intros Hg Ht. induction Hg as [|c g Hc _ IH]; simpl; [done|]. by rewrite Hc, IH. Qed.

Lemma span_nil cls t : span cls t = [] ↔ ∀ c t', t = c :: t' → cls c = false.
Proof.
  destruct t as [|c t]; simpl; [by split|].
  destruct (cls c) eqn:E; (split; [try done; intros _ ? ? [= <- <-]; done|]); [|done].
  intros H. specialize (H c t eq_refl). congruence.
Qed.

(** A match: [lit], then a maximal non-empty run of [cls] characters. *)
Definition matches_at (lit : str) (cls : N → bool) (s g : str) : Prop :=
  ∃ t, s = lit ++ g ++ t ∧ g ≠ [] ∧ Forall (λ c, cls c = true) g ∧ span cls t = [].

Lemma match_lit_plus_spec lit cls s g :
  match_lit_plus lit cls s = Some g ↔ matches_at lit cls s g.
Proof.
  unfold match_lit_plus, matches_at. split.
  - destruct (startswith lit s) eqn:E; [|done].
    apply startswith_spec in E as [u ->]. rewrite drop_app_length.
    destruct (span_prefix cls u) as (t & Hu & Ht). pose proof (span_Forall cls u) as HF.
    destruct (span cls u) as [|c g'] eqn:Es; [done|]. intros [= <-].
    exists t. split_and!; [by f_equal|done..].
  - intros (t & -> & Hg & HF & Ht).
    rewrite startswith_app, drop_app_length, span_app by done. by destruct g.
Qed.

Lemma re_search_unfold lit cls s :
  re_search lit cls s = match match_lit_plus lit cls s with
                        | Some g => Some g
                        | None => match s with
                                  | [] => None
                                  | _ :: s' => re_search lit cls s'
                                  end
                        end.
Proof. by destruct s. Qed.

Lemma re_search_sound lit cls s g :
  re_search lit cls s = Some g → ∃ pre post, s = pre ++ post ∧ matches_at lit cls post g.
Proof.
  induction s as [|c s IH]; rewrite re_search_unfold;
    destruct (match_lit_plus _ _ _) eqn:E; intros; simplify_eq.
  1,2: by eexists [], _; split; [done|]; apply match_lit_plus_spec.
  destruct IH as (pre & post & -> & Hm); [done|]. by exists (c :: pre), post.
Qed.

Lemma re_search_none lit cls s :
  re_search lit cls s = None ↔ ∀ pre post g, s = pre ++ post → ¬ matches_at lit cls post g.
Proof.
  induction s as [|c s IH]; rewrite re_search_unfold;
    destruct (match_lit_plus lit cls _) as [g|] eqn:E.
  1,3: apply match_lit_plus_spec in E; split; [done|]; intros H; by destruct (H [] _ g eq_refl).
  - split; [|done]. intros _ pre post g Hs Hm.
    apply symmetry, app_nil in Hs as [-> ->]. apply match_lit_plus_spec in Hm. congruence.
  - rewrite IH. split; intros H pre post g Hs Hm.
    + destruct pre as [|x pre]; simplify_eq/=.
      { apply match_lit_plus_spec in Hm. congruence. }
      by eapply H.
    + apply (H (c :: pre) post g); [by subst|done].
Qed.

Lemma re_findall_from_sound lit cls k s g :
  g ∈ re_findall_from lit cls k s → ∃ pre post, s = pre ++ post ∧ matches_at lit cls post g.
Proof.
  revert k. induction s as [|c s IH]; intros k; simpl; [by rewrite elem_of_nil|].
  assert (Hs : ∀ k, g ∈ re_findall_from lit cls k s →
    ∃ pre post, c :: s = pre ++ post ∧ matches_at lit cls post g).
  { intros k' (pre & post & -> & Hm)%IH. by exists (c :: pre), post. }
  destruct k as [|k]; [|apply Hs].
  destruct (match_lit_plus _ _ _) as [g'|] eqn:E; [|apply Hs].
  rewrite elem_of_cons. intros [->|H]; [|by eapply Hs].
  exists [], (c :: s). split; [done|]. by apply match_lit_plus_spec.
Qed.

Lemma matches_at_unique lit cls s g g' :
  matches_at lit cls s g → matches_at lit cls s g' → g = g'.
Proof. rewrite <-!match_lit_plus_spec. congruence. Qed.

(** What keeps two occurrences apart: no character of [lit] outside the class is
    its last one or is followed by the first character of [lit]. *)
Definition separable (lit : str) (cls : N → bool) : bool :=
  forallb (λ i, match lit !! i with
                | Some c => cls c || match lit !! S i with
                                     | Some d => negb (bool_decide (lit !! 0 = Some d))
                                     | None => false
                                     end
                | None => true
                end) (seq 0 (length lit)).

Lemma separable_spec lit cls i c :
  separable lit cls = true → lit !! i = Some c → cls c = false →
  ∃ d, lit !! S i = Some d ∧ lit !! 0 ≠ Some d.
Proof.
  unfold separable. rewrite forallb_forall. intros H Hi Hc.
  assert (Hin : In i (seq 0 (length lit))) by (apply in_seq; apply lookup_lt_Some in Hi; lia).
  specialize (H i Hin). rewrite Hi, Hc in H. simpl in H.
  destruct (lit !! S i) as [d|]; [|done].
  exists d. split; [done|]. by apply negb_true_iff, bool_decide_eq_false in H.
Qed.

(** A match does not reach over a later occurrence that follows a character
    outside the class. *)
Lemma match_before lit cls pre c rest g g' :
  separable lit cls = true → cls c = false → lit ≠ [] →
  matches_at lit cls (pre ++ c :: rest) g' → matches_at lit cls rest g →
  length lit + length g' ≤ S (length pre).
Proof.
  intros Hsep Hc Hne (t & Hs & Hg' & HF & _) (u & Hr & _).
  destruct (decide (length lit + length g' ≤ length pre)) as [|Hlt]; [lia|].
  assert (Hl : (lit ++ g' ++ t) !! length pre = Some c) by (rewrite <-Hs; by apply list_lookup_middle).
  destruct (decide (length lit ≤ length pre)) as [Hle|Hgt].
  { rewrite lookup_app_r, lookup_app_l in Hl by lia.
    rewrite Forall_lookup in HF. apply HF in Hl. congruence. }
  rewrite lookup_app_l in Hl by lia.
  destruct (separable_spec _ _ _ _ Hsep Hl Hc) as (d & Hd & Hd0). exfalso. apply Hd0.
  assert (Hn : (lit ++ g' ++ t) !! S (length pre) = Some d) by by apply lookup_app_l_Some.
  rewrite <-Hs, lookup_app_r in Hn by lia.
  replace (S (length pre) - length pre) with 1 in Hn by lia. simpl in Hn.
  rewrite Hr in Hn. by destruct lit.
Qed.

(** [findall] finds every occurrence at the start or after a character outside
    the class. *)
Lemma re_findall_from_complete lit cls k s pre rest g :
  separable lit cls = true → lit ≠ [] → s = pre ++ rest → matches_at lit cls rest g →
  k ≤ length pre → (∀ c, last pre = Some c → cls c = false) →
  g ∈ re_findall_from lit cls k s.
Proof.
  intros Hsep Hne. revert k pre. induction s as [|c s IH]; intros k pre Hs Hm Hk Hb.
  { apply symmetry, app_nil in Hs as [-> ->]. destruct Hm as (t & Ht & _). by destruct lit. }
  simpl. destruct pre as [|c' pre]; simplify_eq/=.
  - destruct k; [|lia]. apply match_lit_plus_spec in Hm as ->. left.
  - assert (Hb' : ∀ c, last pre = Some c → cls c = false).
    { intros d Hd. apply Hb. by destruct pre. }
    destruct k as [|k].
    2: { by apply (IH k pre); [|..|lia|]. }
    destruct (match_lit_plus _ _ _) as [g'|] eqn:E.
    2: { by apply (IH 0 pre); [|..|lia|]. }
    right. apply (IH _ pre); [done..| |done].
    apply match_lit_plus_spec in E.
    destruct pre as [|x pre _] using rev_ind.
    + pose proof (match_before lit cls [] c' rest g g' Hsep (Hb c' eq_refl) Hne E Hm). simpl in *. lia.
    + rewrite <-app_assoc, app_comm_cons in E.
      rewrite app_comm_cons in Hb. specialize (Hb x). rewrite last_snoc in Hb.
      pose proof (match_before lit cls (c' :: pre) x rest g g' Hsep (Hb eq_refl) Hne E Hm).
      rewrite length_app. simpl in *. lia.
Qed.

(** Printing an integer is injective. *)
#[global] Instance uint_to_str_inj : Inj (=) (=) uint_to_str.
Proof.
  intros d. induction d; intros [] H; simpl in H; try discriminate H; [done|..];
    injection H as H; f_equal; auto.
Qed.

Lemma uint_to_str_digit d c : c ∈ uint_to_str d → (48 <= c <= 57)%N.
Proof.
  induction d; simpl; rewrite ?elem_of_nil, ?elem_of_cons; [done|..];
    (intros [->|?]; [lia|auto]).
Qed.

#[global] Instance str_of_Z_inj : Inj (=) (=) str_of_Z.
Proof.
  intros x y H. rewrite <-(DecimalZ.of_to x), <-(DecimalZ.of_to y). f_equal.
  assert (Hneg : ∀ d e, uint_to_str d ≠ "-" ++ uint_to_str e).
  { intros d e E. assert (Hin : 45%N ∈ uint_to_str d) by (rewrite E; left).
    apply uint_to_str_digit in Hin. lia. }
  unfold str_of_Z in H. destruct (Z.to_int x), (Z.to_int y).
  - by apply (inj _) in H as ->.
  - by apply Hneg in H.
  - by apply symmetry, Hneg in H.
  - apply app_inv_head in H. by apply (inj uint_to_str) in H as ->.
Qed.

Lemma str_of_Z_char z c : c ∈ str_of_Z z → c = 45%N ∨ (48 <= c <= 57)%N.
Proof.
  unfold str_of_Z. destruct (Z.to_int z); [right; by eapply uint_to_str_digit|].
  rewrite elem_of_app. intros [->%list_elem_of_singleton|H]; [by left|right].
  by eapply uint_to_str_digit.
Qed.

Lemma not_elem_of_Forall (c : N) s : c ∉ s ↔ Forall (λ x, x ≠ c) s.
Proof. rewrite Forall_forall. naive_solver. Qed.

(** ** Lines *)

Lemma lines_keep_app_newline l s :
  10%N ∉ l → lines_keep (l ++ newline ++ s) = (l ++ newline) :: lines_keep s.
Proof.
  induction l as [|c l IH]; [done|].
  rewrite not_elem_of_cons, <-!app_comm_cons. intros [Hc Hl].
  cbn [lines_keep]. rewrite IH by done. destruct (N.eqb_spec c 10); congruence.
Qed.

(** The shape of the lines of a text: all end with a newline, the last perhaps
    not, and contain no other. *)
Definition full_line (l : str) : Prop := ∃ l', l = l' ++ newline ∧ 10%N ∉ l'.

Lemma lines_keep_shape s :
  mjoin (lines_keep s) = s ∧
  (∃ ls last, lines_keep s = ls ++ last ∧ Forall full_line ls ∧
     (last = [] ∨ (∃ l, last = [l] ∧ (10%N ∉ l) ∧ l ≠ []))).
Proof.
  induction s as [|c s (Hj & ls & la & Hs & Hls & Hla)]; simpl.
  { split; [done|]. exists [], []. split_and!; [done|constructor|by left]. }
  destruct (N.eqb_spec c 10) as [->|Hc].
  { simpl. rewrite Hj. split; [done|]. exists (newline :: ls), la. rewrite Hs.
    split_and!; [done| |done]. constructor; [|done]. exists []. split; [done|apply not_elem_of_nil]. }
  rewrite Hs in *. destruct ls as [|l ls]; simpl in *.
  - destruct Hla as [->|(l & -> & Hl & Hne)]; simpl in *.
    + subst. split; [done|]. exists [], [[c]]. split_and!; [done|constructor|].
      right. exists [c]. split_and!; [done| |done]. rewrite list_elem_of_singleton. congruence.
    + rewrite List.app_nil_r in Hj. subst. rewrite List.app_nil_r. split; [done|].
      exists [], [c :: s]. split_and!; [done|constructor|].
      right. eexists. split_and!; [done| |done]. rewrite not_elem_of_cons. naive_solver.
  - rewrite Hj. split; [done|]. exists ((c :: l) :: ls), la. split_and!; [done| |done].
    inversion Hls as [|? ? (l' & -> & Hl')]; subst. constructor; [|done].
    exists (c :: l'). rewrite not_elem_of_cons. naive_solver.
Qed.

Lemma lines_keep_full ls : Forall full_line ls → lines_keep (mjoin ls) = ls.
Proof.
  induction 1 as [|? ls (l & -> & Hl) _ IH]; simpl; [done|].
  by rewrite <-app_assoc, lines_keep_app_newline, IH.
Qed.

Lemma universal_newlines_no_cr s : 13%N ∉ universal_newlines s.
Proof.
  cut (∀ n s, length s ≤ n → 13%N ∉ universal_newlines s); [intros H; by eapply H|].
  clear s. induction n as [|n IH]; intros [|c s] Hn; simpl in *; try lia;
    try apply not_elem_of_nil.
  destruct (N.eqb_spec c 13).
  - destruct s as [|d s]; [by rewrite list_elem_of_singleton|].
    simpl in Hn. case_match; rewrite not_elem_of_cons; (split; [done|]).
    + apply IH. lia.
    + apply (IH (d :: s)). simpl. lia.
  - rewrite not_elem_of_cons. split; [congruence|]. apply IH. lia.
Qed.

Lemma universal_newlines_id s : 13%N ∉ s → universal_newlines s = s.
Proof.
  induction s as [|c s IH]; [done|]. rewrite not_elem_of_cons. intros [Hc Hs]. simpl.
  destruct (N.eqb_spec c 13); [congruence|]. f_equal. auto.
Qed.
