(* ===== verification/PyFloat.v ===== *)
(** Python floats: IEEE 754 binary64 through the executable specification of
    the Standard Library ([SpecFloat], no primitive floats and no axioms), with
    the comparisons, [statistics] functions, list extrema, sorting and
    [:.1f] formatting the modelled code uses. *)

From S2P Require Import Prelude PyStr.
From Stdlib Require Import SpecFloat.

#[local] Open Scope Z_scope.

(** ** Binary64 *)

Abbreviation float := spec_float.

Definition prec : Z := 53.
Definition emax : Z := 1024.

Definition fadd : float → float → float := SFadd prec emax.
Definition fsub : float → float → float := SFsub prec emax.
Definition fmul : float → float → float := SFmul prec emax.
Definition fdiv : float → float → float := SFdiv prec emax.
Definition flt : float → float → bool := SFltb.
Definition fle : float → float → bool := SFleb.

(** [float(z)] *)
Definition float_of_Z (z : Z) : float := binary_normalize prec emax z 0 false.

(** [num / den] for integers with [0 < den]: the correctly rounded quotient,
    which is also what a decimal literal denotes. *)
Definition float_of_ratio (num den : Z) : float :=
  if num =? 0 then S754_zero false
  else
    let '(m, e, l) := SFdiv_core_binary prec emax (Z.abs num) 0 den 0 in
    binary_round_aux prec emax (num <? 0) m e l.

Definition fzero : float := S754_zero false.

Definition is_finite (x : float) : bool :=
  match x with
  | S754_zero _ | S754_finite _ _ _ => true
  | _ => false
  end.

Definition is_nan (x : float) : bool :=
  match x with S754_nan => true | _ => false end.

#[global] Instance float_eq_dec : EqDecision float.
Proof. solve_decision. Defined.

(** ** Exact values: [m * 2 ^ e] *)

Definition exact (x : float) : Z * Z :=
  match x with
  | S754_finite s m e => (if s then Zneg m else Zpos m, e)
  | _ => (0, 0)
  end.

Definition exact_add (x y : Z * Z) : Z * Z :=
  let e := Z.min x.2 y.2 in
  (x.1 * 2 ^ (x.2 - e) + y.1 * 2 ^ (y.2 - e), e).

Definition exact_sum (l : list float) : Z * Z :=
  foldr (λ x acc, exact_add (exact x) acc) (0, 0) l.

(** ** [statistics.mean], [statistics.median], [min], [max]

    [mean] sums exactly (as fractions) and rounds once; a non-finite element
    makes it the rounded sum of the non-finite elements over the length. *)

Definition mean (l : list float) : float :=
  let n := Z.of_nat (length l) in
  match filter (λ x, is_finite x = false) l with
  | [] =>
      let '(m, e) := exact_sum l in
      if 0 <=? e then float_of_ratio (m * 2 ^ e) n
      else float_of_ratio m (n * 2 ^ (- e))
  | odd => fdiv (foldl fadd fzero odd) (float_of_Z n)
  end.

(** Stable insertion by [<], the only comparison [sorted] uses. *)
Section sorting.
Context {A : Type} (lt : A → A → bool).

Fixpoint insert_stable (x : A) (l : list A) : list A :=
  match l with
  | [] => [x]
  | y :: l' => if lt y x then y :: insert_stable x l' else x :: l
  end.

Definition sort_stable (l : list A) : list A := foldr insert_stable [] l.

End sorting.

(** [sorted(l)] *)
Definition fsorted : list float → list float := sort_stable flt.

(** [l.sort(key=snd, reverse=True)]: descending, elements with equal keys in
    their original order. *)
Definition sort_desc {A} (l : list (A * float)) : list (A * float) :=
  sort_stable (λ x y, flt y.2 x.2) l.

Definition median (l : list float) : float :=
  let s := fsorted l in
  let n := length l in
  let at_ i := nth i s fzero in
  if Nat.even n
  then fdiv (fadd (at_ (n / 2 - 1)%nat) (at_ (n / 2)%nat)) (float_of_Z 2)
  else at_ (n / 2)%nat.

Definition fmin_list (x : float) (l : list float) : float :=
  foldl (λ a b, if flt b a then b else a) x l.

Definition fmax_list (x : float) (l : list float) : float :=
  foldl (λ a b, if flt a b then b else a) x l.

(** ** Formatting *)

(** The quotient of [num / den] rounded to nearest, ties to even, for
    [0 <= num] and [0 < den]. *)
Definition div_round_even (num den : Z) : Z :=
  let q := num / den in
  let r := num mod den in
  match 2 * r ?= den with
  | Lt => q
  | Gt => q + 1
  | Eq => if Z.even q then q else q + 1
  end.

(** [f"{x:.1f}"]: the exact value rounded to one decimal, ties to even. *)
Definition fmt1 (x : float) : str :=
  match x with
  | S754_nan => "nan"
  | S754_infinity s => (if s then "-" else "") ++ "inf"
  | S754_zero s => (if s then "-" else "") ++ "0.0"
  | S754_finite s m e =>
      let tenths :=
        if 0 <=? e then 10 * Zpos m * 2 ^ e
        else div_round_even (10 * Zpos m) (2 ^ (- e)) in
      (if s then "-" else "") ++ str_of_Z (tenths / 10) ++ "." ++ str_of_Z (tenths mod 10)
  end.

Example fmt1_third : fmt1 (float_of_ratio 100 3) = "33.3".
Proof. vm_compute. reflexivity. Qed.
Example fmt1_tie : fmt1 (float_of_ratio 5 20) = "0.2".
Proof. vm_compute. reflexivity. Qed.
Example mean_30_31 : mean [float_of_Z 30; float_of_Z 31] = float_of_ratio 61 2.
Proof. vm_compute. reflexivity. Qed.
Example median_even : median [float_of_Z 50; float_of_Z 30; float_of_Z 33] = float_of_Z 33.
Proof. vm_compute. reflexivity. Qed.

(** ** Order lemmas *)

Definition not_nan (x : float) : Prop := is_nan x = false.

(** [rank]: an order embedding of the non-NaN floats' comparison into
    lexicographic triples of integers. *)
Definition rank (x : float) : Z * Z * Z :=
  match x with
  | S754_infinity true => (-2, 0, 0)
  | S754_finite true m e => (-1, - e, Zneg m)
  | S754_zero _ | S754_nan => (0, 0, 0)
  | S754_finite false m e => (1, e, Zpos m)
  | S754_infinity false => (2, 0, 0)
  end.

Definition rank_lt (x y : Z * Z * Z) : Prop :=
  x.1.1 < y.1.1 ∨ x.1.1 = y.1.1 ∧ (x.1.2 < y.1.2 ∨ x.1.2 = y.1.2 ∧ x.2 < y.2).

Lemma flt_rank x y : not_nan x → not_nan y → flt x y = true ↔ rank_lt (rank x) (rank y).
Proof.
  unfold not_nan, flt, SFltb, rank_lt.
  destruct x as [[]|[]| |[] mx ex], y as [[]|[]| |[] my ey]; try done;
    intros _ _; simpl; try (split; [done|lia]); try (split; [lia|done]);
    change (Pos.compare_cont Eq mx my) with (Pos.compare mx my);
    destruct (Z.compare_spec ex ey), (Pos.compare_spec mx my); simpl;
    (split; [done || lia|done || lia]).
Qed.

Lemma fle_rank x y : not_nan x → not_nan y → fle x y = true ↔ ¬ rank_lt (rank y) (rank x).
Proof.
  unfold not_nan, fle, SFleb, rank_lt.
  destruct x as [[]|[]| |[] mx ex], y as [[]|[]| |[] my ey]; try done;
    intros _ _; simpl; try (split; [done|lia]); try (split; [lia|done]);
    change (Pos.compare_cont Eq mx my) with (Pos.compare mx my);
    destruct (Z.compare_spec ex ey), (Pos.compare_spec mx my); simpl;
    (split; [done || lia|done || lia]).
Qed.

Lemma fle_not_nan x y : fle x y = true → not_nan x ∧ not_nan y.
Proof. by destruct x as [| | |], y as [| | |]. Qed.

Lemma flt_not_nan x y : flt x y = true → not_nan x ∧ not_nan y.
Proof. by destruct x as [| | |], y as [| | |]. Qed.

Lemma fle_refl x : not_nan x → fle x x = true.
Proof. intros H. apply fle_rank; [done..|]. unfold rank_lt. lia. Qed.

Lemma fle_trans x y z : fle x y = true → fle y z = true → fle x z = true.
Proof.
  intros H1 H2. destruct (fle_not_nan _ _ H1), (fle_not_nan _ _ H2).
  rewrite fle_rank in H1, H2 |- * by done. unfold rank_lt in *. lia.
Qed.

Lemma flt_fle x y : flt x y = true → fle x y = true.
Proof.
  intros H. destruct (flt_not_nan _ _ H).
  rewrite flt_rank in H by done. rewrite fle_rank by done. unfold rank_lt in *. lia.
Qed.

Lemma flt_false_fle x y : not_nan x → not_nan y → flt x y = false → fle y x = true.
Proof.
  intros Hx Hy H. apply fle_rank; [done..|]. rewrite <-flt_rank by done. congruence.
Qed.
