(* ===== verification/PyDict.v ===== *)
(** Python dictionaries with string keys: insertion-ordered association lists.
    Iterating over a dictionary visits the keys in the order in which they were
    first inserted, and assigning to an existing key keeps its place. *)

From S2P Require Import Prelude PyStr.

Abbreviation dict V := (list (str * V)).

Section dict.
Context {V : Type}.
Implicit Types (d : dict V) (k : str) (v : V).

(** [d.get(k)] *)
Fixpoint dget k d : option V :=
  match d with
  | [] => None
  | (k', v) :: d' => if decide (k' = k) then Some v else dget k d'
  end.

(** [k in d] *)
Definition dmem k d : bool := bool_decide (is_Some (dget k d)).

(** [d[k] = v] *)
Fixpoint dset k v d : dict V :=
  match d with
  | [] => [(k, v)]
  | (k', v') :: d' => if decide (k' = k) then (k', v) :: d' else (k', v') :: dset k v d'
  end.

(** [d.keys()] and [d.values()] *)
Definition dkeys d : list str := d.*1.
Definition dvalues d : list V := d.*2.

(** The dictionary display [{k: v, ...}] evaluated in order. *)
Definition dict_of (l : list (str * V)) : dict V :=
  foldl (λ d kv, dset kv.1 kv.2 d) [] l.

(** What every dictionary satisfies: one entry per key. *)
Definition wf d : Prop := NoDup (dkeys d).

Lemma dget_dset_eq k v d : dget k (dset k v d) = Some v.
Proof.
  induction d as [|[k' v'] d IH]; simpl; [by rewrite decide_True|].
  destruct (decide (k' = k)); simpl; [by rewrite decide_True|by rewrite decide_False].
Qed.

Lemma dget_dset_ne k k' v d : k ≠ k' → dget k' (dset k v d) = dget k' d.
Proof.
  intros Hne. induction d as [|[k'' v''] d IH]; simpl; [by rewrite decide_False|].
  destruct (decide (k'' = k)) as [->|]; simpl; [by rewrite !decide_False|by rewrite IH].
Qed.

Lemma dget_dset k k' v d :
  dget k' (dset k v d) = if decide (k = k') then Some v else dget k' d.
Proof. case_decide; subst; [apply dget_dset_eq|by apply dget_dset_ne]. Qed.

Lemma dget_None k d : dget k d = None ↔ k ∉ dkeys d.
Proof.
  induction d as [|[k' v] d IH]; simpl; [split; [intros _; apply not_elem_of_nil|done]|].
  rewrite not_elem_of_cons, <-IH. case_decide; [|naive_solver].
  split; [done|]. naive_solver.
Qed.

Lemma dget_is_Some k d : is_Some (dget k d) ↔ k ∈ dkeys d.
Proof.
  destruct (decide (k ∈ dkeys d)) as [H|H].
  - split; [done|]. intros _. destruct (dget k d) eqn:E; [done|].
    by apply dget_None in E.
  - split; [|done]. intros [v Hv]. apply dget_None in H. congruence.
Qed.

Lemma dmem_true k d : dmem k d = true ↔ k ∈ dkeys d.
Proof. unfold dmem. by rewrite bool_decide_eq_true, dget_is_Some. Qed.

Lemma dmem_false k d : dmem k d = false ↔ dget k d = None.
Proof.
  unfold dmem. rewrite bool_decide_eq_false, eq_None_not_Some. done.
Qed.

Lemma dget_elem_of k v d : dget k d = Some v → (k, v) ∈ d.
Proof.
  induction d as [|[k' v'] d IH]; simpl; [done|].
  case_decide; intros; simplify_eq; [left|right; auto].
Qed.

Lemma elem_of_dget k v d : wf d → (k, v) ∈ d → dget k d = Some v.
Proof.
  unfold wf. induction d as [|[k' v'] d IH]; simpl; [by rewrite elem_of_nil|].
  rewrite NoDup_cons, elem_of_cons. intros [Hk Hd] [?|Hin]; simplify_eq.
  { by rewrite decide_True. }
  rewrite decide_False; [auto|]. intros ->. apply Hk, (list_elem_of_fmap_2 fst _ _ Hin).
Qed.

Lemma dkeys_dset_in k v d : k ∈ dkeys d → dkeys (dset k v d) = dkeys d.
Proof.
  induction d as [|[k' v'] d IH]; simpl; [by rewrite elem_of_nil|].
  rewrite elem_of_cons. intros H. case_decide; simpl; [done|]. f_equal. naive_solver.
Qed.

Lemma dkeys_dset_new k v d : k ∉ dkeys d → dkeys (dset k v d) = dkeys d ++ [k].
Proof.
  induction d as [|[k' v'] d IH]; simpl; [done|].
  rewrite not_elem_of_cons. intros [? ?]. rewrite decide_False by done.
  simpl. f_equal. auto.
Qed.

Lemma elem_of_dkeys_dset k k' v d : k' ∈ dkeys (dset k v d) ↔ k' = k ∨ k' ∈ dkeys d.
Proof.
  destruct (decide (k ∈ dkeys d)).
  - rewrite dkeys_dset_in by done. naive_solver.
  - rewrite dkeys_dset_new by done. set_solver.
Qed.

Lemma wf_dset k v d : wf d → wf (dset k v d).
Proof.
  unfold wf. intros H. destruct (decide (k ∈ dkeys d)).
  - by rewrite dkeys_dset_in.
  - rewrite dkeys_dset_new by done. apply NoDup_app. split_and!; [done| |apply NoDup_singleton].
    intros x Hx ->%list_elem_of_singleton. done.
Qed.

Lemma dset_dset k v v' d : dset k v (dset k v' d) = dset k v d.
Proof.
  induction d as [|[k' w] d IH]; simpl; [by rewrite decide_True|].
  destruct (decide (k' = k)); simpl; [by rewrite decide_True|].
  rewrite decide_False by done. by rewrite IH.
Qed.

Lemma Forall_dset (P : str * V → Prop) k v d : P (k, v) → Forall P d → Forall P (dset k v d).
Proof.
  intros Hkv. induction 1 as [|[k' v'] d ? ? IH]; simpl; [by constructor|].
  case_decide; subst; by constructor.
Qed.

Lemma dset_new k v d : k ∉ dkeys d → dset k v d = d ++ [(k, v)].
Proof.
  induction d as [|[k' v'] d IH]; simpl; [done|].
  rewrite not_elem_of_cons. intros [? ?]. rewrite decide_False by done. f_equal. auto.
Qed.

Lemma wf_nil : wf [].
Proof. apply NoDup_nil_2. Qed.

(** Loading the entries of a dictionary one by one rebuilds it. *)
Lemma foldl_dset_app (l d : dict V) :
  NoDup (dkeys (d ++ l)) → foldl (λ d kv, dset kv.1 kv.2 d) d l = d ++ l.
Proof.
  revert d. induction l as [|[k v] l IH]; intros d H; simpl; [by rewrite app_nil_r|].
  unfold dkeys in H. rewrite fmap_app in H. apply NoDup_app in H as (H1 & H2 & H3).
  rewrite dset_new.
  - rewrite IH; rewrite <-app_assoc; [done|]. unfold dkeys. rewrite fmap_app.
    by apply NoDup_app.
  - intros Hk. apply (H2 k Hk). left.
Qed.

Lemma dict_of_id d : wf d → dict_of d = d.
Proof. intros H. by apply foldl_dset_app. Qed.

End dict.

(** Comprehension over the entries: [{k: f(v) for k, v in d.items()}]. *)
Definition dmap {V W} (f : V → W) (d : dict V) : dict W := (λ kv, (kv.1, f kv.2)) <$> d.

Lemma dkeys_dmap {V W} (f : V → W) (d : dict V) : dkeys (dmap f d) = dkeys d.
Proof. unfold dkeys, dmap. rewrite <-list_fmap_compose. by apply list_fmap_ext. Qed.

Lemma dget_dmap {V W} (f : V → W) k (d : dict V) : dget k (dmap f d) = f <$> dget k d.
Proof.
  induction d as [|[k' v] d IH]; simpl; [done|]. by case_decide.
Qed.

Lemma wf_dmap {V W} (f : V → W) (d : dict V) : wf d → wf (dmap f d).
Proof. unfold wf. by rewrite dkeys_dmap. Qed.

#[export] Hint Resolve wf_nil wf_dset wf_dmap : dev.
