(* ===== verification/PyTime.v ===== *)
(** Python's naive [datetime] and [timedelta]: the fields, [isoformat] and
    [fromisoformat], the [strftime] formats the code uses, and subtraction. *)

From S2P Require Import Prelude PyStr.

#[local] Open Scope Z_scope.

(** ** Definitions *)

Record datetime := mkDatetime {
  year : Z; month : Z; day : Z;
  hour : Z; minute : Z; second : Z; microsecond : Z;
}.

#[global] Instance datetime_eq_dec : EqDecision datetime.
Proof. solve_decision. Defined.

Definition is_leap (y : Z) : bool :=
  (y mod 4 =? 0) && (negb (y mod 100 =? 0) || (y mod 400 =? 0)).

Definition days_in_month (y m : Z) : Z :=
  if m =? 2 then (if is_leap y then 29 else 28)
  else if (m =? 4) || (m =? 6) || (m =? 9) || (m =? 11) then 30 else 31.

Definition datetime_ok (d : datetime) : bool :=
  (1 <=? year d) && (year d <=? 9999) && (1 <=? month d) && (month d <=? 12)
  && (1 <=? day d) && (day d <=? days_in_month (year d) (month d))
  && (0 <=? hour d) && (hour d <=? 23) && (0 <=? minute d) && (minute d <=? 59)
  && (0 <=? second d) && (second d <=? 59)
  && (0 <=? microsecond d) && (microsecond d <=? 999999).

(** The last [w] decimal digits of [z]: ["%0<w>d"] for [0 <= z < 10 ^ w]. *)
Fixpoint digits (w : nat) (z : Z) : str :=
  match w with
  | O => []
  | S w' => digits w' (z / 10) ++ [(48 + Z.to_N (z mod 10))%N]
  end.

(** [d.isoformat()]: the microseconds are left out when they are zero. *)
Definition isoformat (d : datetime) : str :=
  digits 4 (year d) ++ "-" ++ digits 2 (month d) ++ "-" ++ digits 2 (day d) ++ "T"
  ++ digits 2 (hour d) ++ ":" ++ digits 2 (minute d) ++ ":" ++ digits 2 (second d)
  ++ (if microsecond d =? 0 then [] else "." ++ digits 6 (microsecond d)).

(** [w] digits and what follows them. *)
Fixpoint read_digits (w : nat) (acc : Z) (s : str) : option (Z * str) :=
  match w with
  | O => Some (acc, s)
  | S w' =>
      match s with
      | c :: s' =>
          if ((48 <=? c) && (c <=? 57))%N
          then read_digits w' (acc * 10 + Z.of_N (c - 48)) s'
          else None
      | [] => None
      end
  end.

Definition read_char (c : N) (s : str) : option str :=
  match s with
  | d :: s' => if (c =? d)%N then Some s' else None
  | [] => None
  end.

(** [datetime.fromisoformat] on the format [isoformat] writes (the only one the
    program reads back); any other text is a [ValueError]. *)
Definition fromisoformat (s : str) : result datetime :=
  result_of_option ValueError (
    '(y, s) ← read_digits 4 0 s; s ← read_char 45 s;
    '(mo, s) ← read_digits 2 0 s; s ← read_char 45 s;
    '(d, s) ← read_digits 2 0 s; s ← read_char 84 s;
    '(h, s) ← read_digits 2 0 s; s ← read_char 58 s;
    '(mi, s) ← read_digits 2 0 s; s ← read_char 58 s;
    '(sec, s) ← read_digits 2 0 s;
    us ← match s with
         | [] => Some 0
         | _ => s ← read_char 46 s;
                '(us, s) ← read_digits 6 0 s;
                match s with [] => Some us | _ => None end
         end;
    let dt := mkDatetime y mo d h mi sec us in
    if datetime_ok dt then Some dt else None).

(** [strftime("%Y%m%d_%H%M%S")] and [strftime("%Y-%m-%d %H:%M:%S")]. *)
Definition strftime_compact (d : datetime) : str :=
  str_of_Z (year d) ++ digits 2 (month d) ++ digits 2 (day d) ++ "_"
  ++ digits 2 (hour d) ++ digits 2 (minute d) ++ digits 2 (second d).

Definition strftime_seconds (d : datetime) : str :=
  str_of_Z (year d) ++ "-" ++ digits 2 (month d) ++ "-" ++ digits 2 (day d) ++ " "
  ++ digits 2 (hour d) ++ ":" ++ digits 2 (minute d) ++ ":" ++ digits 2 (second d).

(** [strftime("%Y%m%d_%H%M%S_%f")[:-3]]: milliseconds. *)
Definition strftime_millis (d : datetime) : str :=
  strftime_compact d ++ "_" ++ take 3 (digits 6 (microsecond d)).

(** Days before a date in the proleptic Gregorian calendar. *)
Definition days_before_month (y m : Z) : Z :=
  foldr Z.add 0 (days_in_month y <$> (Z.of_nat <$> seq 1 (Z.to_nat (m - 1)))).

Definition toordinal (d : datetime) : Z :=
  let y := year d - 1 in
  y * 365 + y / 4 - y / 100 + y / 400 + days_before_month (year d) (month d) + day d.

Definition to_microseconds (d : datetime) : Z :=
  (((toordinal d * 24 + hour d) * 60 + minute d) * 60 + second d) * 1000000 + microsecond d.

(** [str(b - a)] *)
Definition str_timedelta (us : Z) : str :=
  let days := us / 86400000000 in
  let r := us mod 86400000000 in
  let secs := r / 1000000 in
  (if days =? 0 then []
   else str_of_Z days ++ " day" ++ (if Z.abs days =? 1 then "" else "s") ++ ", ")
  ++ str_of_Z (secs / 3600) ++ ":" ++ digits 2 (secs / 60 mod 60) ++ ":" ++ digits 2 (secs mod 60)
  ++ (if r mod 1000000 =? 0 then [] else "." ++ digits 6 (r mod 1000000)).

Definition datetime_sub (b a : datetime) : Z := to_microseconds b - to_microseconds a.

Example isoformat_example :
  isoformat (mkDatetime 2026 3 16 9 5 7 40) = "2026-03-16T09:05:07.000040".
Proof. vm_compute. reflexivity. Qed.
Example timedelta_example :
  str_timedelta (datetime_sub (mkDatetime 2024 3 1 0 0 1 0) (mkDatetime 2024 2 28 23 59 59 500000))
  = "1 day, 0:00:01.500000".
Proof. vm_compute. reflexivity. Qed.

(** ** Lemmas *)

Lemma read_digits_digits w z acc s :
  0 <= z < 10 ^ Z.of_nat w →
  read_digits w acc (digits w z ++ s) = Some (acc * 10 ^ Z.of_nat w + z, s).
Proof.
  (* Generalise: reading [w] digits and then [v] more. *)
  assert (Hgen : ∀ w v z acc s, 0 <= z < 10 ^ Z.of_nat w →
    read_digits (w + v) acc (digits w z ++ s) =
    read_digits v (acc * 10 ^ Z.of_nat w + z) s).
  { clear. induction w as [|w IH]; intros v z acc s Hz.
    { simpl in *. do 2 f_equal. lia. }
    assert (Hp : 10 ^ Z.of_nat (S w) = 10 * 10 ^ Z.of_nat w)
      by (rewrite Nat2Z.inj_succ, Z.pow_succ_r; lia).
    cbn [digits]. rewrite <-app_assoc.
    replace (S w + v)%nat with (w + S v)%nat by lia.
    rewrite IH by (split; [apply Z.div_pos; lia|apply Z.div_lt_upper_bound; lia]).
    simpl. pose proof (Z.mod_pos_bound z 10 ltac:(lia)) as Hm.
    case_match eqn:E; [|apply andb_false_iff in E; rewrite !N.leb_gt in E; lia].
    f_equal. rewrite Hp. pose proof (Z.div_mod z 10 ltac:(lia)). lia. }
  intros Hz. rewrite <-(Nat.add_0_r w) at 1. by rewrite Hgen.
Qed.

Lemma read_digits_0 w z s :
  0 <= z < 10 ^ Z.of_nat w → read_digits w 0 (digits w z ++ s) = Some (z, s).
Proof. intros Hz. by rewrite read_digits_digits. Qed.

Lemma read_char_cons c s : read_char c (c :: s) = Some s.
Proof. simpl. by rewrite N.eqb_refl. Qed.

(** Reading back what [isoformat] wrote. *)
Lemma fromisoformat_isoformat d :
  datetime_ok d = true → fromisoformat (isoformat d) = Ok d.
Proof.
  intros Hok. destruct d as [y mo d h mi sec us]. pose proof Hok as Hok'.
  unfold datetime_ok in Hok'. cbn in Hok'. rewrite !andb_true_iff, !Z.leb_le in Hok'.
  assert (Hd : days_in_month y mo <= 31) by (unfold days_in_month; repeat case_match; lia).
  unfold fromisoformat, isoformat.
  cbn [year month day hour minute second microsecond].
  rewrite read_digits_0 by lia. cbn [mbind option_bind app lit].
  rewrite read_char_cons. cbn [mbind option_bind].
  do 4 (rewrite read_digits_0 by lia; cbn [mbind option_bind app lit];
    rewrite read_char_cons; cbn [mbind option_bind]).
  rewrite read_digits_0 by lia. cbn [mbind option_bind].
  destruct (Z.eqb_spec us 0) as [->|Hus].
  - cbn [mbind option_bind]. by rewrite Hok.
  - cbn [app lit]. rewrite read_char_cons. cbn [mbind option_bind].
    rewrite <-(app_nil_r (digits 6 us)), read_digits_0 by lia.
    cbn [mbind option_bind]. by rewrite Hok.
Qed.
