(* ===== verification/TrailingNewline.v ===== *)
(** scripts/ensure_one_trailing_newline.py: trims the blank lines at the end of
    a file and leaves exactly one newline. *)

From S2P Require Import Prelude PyStr.

(** ** Definitions *)

(** [line[-1:] == "\n"] *)
Definition has_trailing_newline (line : str) : bool :=
  match last line with
  | Some c => (c =? 10)%N
  | None => false
  end.

(** [re.match(r"^\s*$", line)]: [$] also matches before a final newline, which
    is itself white space, so a line matches when it is all white space. *)
Definition BLANK_LINE_REGEX_PATTERN (line : str) : bool := forallb is_space line.

(** The [for line in lines[::-1]] loop: [rev] is what is left of [lines[::-1]]. *)
Fixpoint count_trailing_blank (rev : list str) (trim_count : nat) : nat :=
  match rev with
  | [] => trim_count
  | line :: rev' =>
      if BLANK_LINE_REGEX_PATTERN line
      then count_trailing_blank rev' (S trim_count)
      else trim_count
  end.

Definition process_lines (lines : list str) : result (list str) :=
  let trim_count := count_trailing_blank (reverse lines) 0 in
  let cutoff_index := length lines - trim_count in
  let new_lines := take cutoff_index lines in
  match last new_lines with
  | None => Raise IndexError
  | Some l =>
      let new_lines :=
        if has_trailing_newline l then new_lines
        else take (length new_lines - 1) new_lines ++ [l ++ newline] in
      Ok (new_lines ++ [[]])
  end.

(** Reading the file, processing its lines, joining them. *)
Definition ensure_text (content : str) : result str :=
  result_bind (process_lines (lines_keep (universal_newlines content)))
    (λ lines, Ok (mjoin lines)).

(** The [__main__] block: the exit code, or the exception that ends the
    interpreter, and the file system after it. *)
Definition main (argv : list str) (fs : gmap str str) : result Z * gmap str str :=
  match argv with
  | [_; file_name] =>
      match fs !! file_name with
      | None => (Raise FileNotFoundError, fs)
      | Some content =>
          match ensure_text content with
          | Raise e => (Raise e, fs)
          | Ok out => (Ok 0%Z, <[file_name := out]> fs)
          end
      end
  | _ => (Ok 1%Z, fs)
  end.

(** ** The script's unit tests

    A test is true when its assertions hold; an exception, an index out of range
    among them, makes it fail. *)
Module TestCoreMethods.

Definition on_lines (lines : list str) (test : list str → bool) : bool :=
  match process_lines lines with Ok processed_lines => test processed_lines | Raise _ => false end.

(** [test(l[i])] *)
Definition at_index (l : list str) (i : nat) (test : str → bool) : bool :=
  match l !! i with Some x => test x | None => false end.

(** [len(l) == n] and [l[-1] == ""] *)
Definition ends_empty (n : nat) (l : list str) : bool :=
  (length l =? n) && match last l with Some x => bool_decide (x = []) | None => false end.

Definition test_trailing_new_line : bool :=
  has_trailing_newline ("something" ++ newline) && has_trailing_newline newline &&
  negb (has_trailing_newline "nope").

Definition test_trailing_real_line : bool :=
  on_lines ["bla" ++ newline; "useful"] (λ processed_lines,
    (length processed_lines =? 3) &&
    at_index processed_lines 0 has_trailing_newline &&
    at_index processed_lines 1 has_trailing_newline &&
    at_index processed_lines 2 (λ l, negb (has_trailing_newline l))).

Definition test_lots_of_empties : bool :=
  on_lines ["bla" ++ newline; newline; newline; newline; newline] (ends_empty 2).

Definition test_one_trailing_new_line : bool :=
  on_lines ["bla" ++ newline; newline] (ends_empty 2).

Definition test_one_trailing_blank_line : bool :=
  on_lines ["bla" ++ newline; []] (ends_empty 2).

Example tests_pass :
  test_trailing_new_line && test_trailing_real_line && test_lots_of_empties &&
  test_one_trailing_new_line && test_one_trailing_blank_line = true.
Proof. reflexivity. Qed.

End TestCoreMethods.

(** ** Lines *)

Abbreviation blank := BLANK_LINE_REGEX_PATTERN.

Lemma count_trailing_blank_add l n :
  count_trailing_blank l n = count_trailing_blank l 0 + n.
Proof.
  revert n. induction l as [|x l IH]; intros n; simpl; [done|].
  case_match; [|done]. rewrite (IH (S n)), (IH 1). lia.
Qed.

(** The loop removes the maximal blank tail. *)
Lemma trim_spec lines :
  ∃ kept tail, lines = kept ++ tail ∧ Forall (λ l, blank l = true) tail ∧
    (∀ l, last kept = Some l → blank l = false) ∧
    take (length lines - count_trailing_blank (reverse lines) 0) lines = kept.
Proof.
  induction lines as [|x lines IH] using rev_ind.
  { by exists [], []. }
  destruct IH as (kept & tail & -> & Htail & Hkept & Htake).
  rewrite reverse_app. cbn. destruct (blank x) eqn:E.
  - exists kept, (tail ++ [x]). rewrite app_assoc. split_and!; [done| |done|].
    { by apply Forall_app_2; [|constructor]. }
    rewrite count_trailing_blank_add, (length_app (kept ++ tail)). cbn [length].
    rewrite take_app_le by lia. etrans; [|exact Htake]. f_equal. lia.
  - exists ((kept ++ tail) ++ [x]), []. rewrite app_nil_r. split_and!; [done|constructor| |].
    { intros l. rewrite last_snoc. by intros [= <-]. }
    by rewrite Nat.sub_0_r, firstn_all.
Qed.

Lemma has_trailing_newline_spec l :
  has_trailing_newline l = true ↔ ∃ l', l = l' ++ newline.
Proof.
  unfold has_trailing_newline. induction l as [|c l IH] using rev_ind.
  { split; [done|]. intros [l' H]. by destruct l'. }
  rewrite last_snoc, N.eqb_eq. split.
  - intros ->. by exists l.
  - by intros [l' [-> [= ->]]%app_inj_2].
Qed.

Lemma blank_app a b : blank (a ++ b) = blank a && blank b.
Proof. apply forallb_app. Qed.

Lemma blank_mjoin ls : blank (mjoin ls) = forallb blank ls.
Proof. induction ls as [|l ls IH]; [done|]. simpl. by rewrite blank_app, IH. Qed.

Lemma forallb_blank ls : forallb blank ls = true ↔ Forall (λ l, blank l = true) ls.
Proof. rewrite forallb_forall, Forall_forall. setoid_rewrite list_elem_of_In. done. Qed.

Lemma blank_universal_newlines s : blank (universal_newlines s) = blank s.
Proof.
  cut (∀ n s, length s ≤ n → blank (universal_newlines s) = blank s); [eauto|].
  clear s. induction n as [|n IH]; intros [|c s] Hn; simpl in *; try done; [lia|].
  destruct (N.eqb_spec c 13) as [->|].
  - destruct s as [|d s]; [done|]. simpl in Hn. destruct (N.eqb_spec d 10) as [->|].
    + simpl. apply IH. lia.
    + etrans; [|apply (IH (d :: s)); simpl; lia]. done.
  - simpl. by rewrite IH by lia.
Qed.

(** What [process_lines] computes, by the last line that is kept. *)
Lemma process_lines_spec lines :
  ∃ kept tail, lines = kept ++ tail ∧ Forall (λ l, blank l = true) tail ∧
    match last kept with
    | None => process_lines lines = Raise IndexError
    | Some l => blank l = false ∧
        process_lines lines =
          Ok ((if has_trailing_newline l then kept
               else take (length kept - 1) kept ++ [l ++ newline]) ++ [[]])
    end.
Proof.
  destruct (trim_spec lines) as (kept & tail & Hl & Htail & Hkept & Htake).
  exists kept, tail. split_and!; [done..|]. unfold process_lines. rewrite Htake.
  destruct (last kept); [|done]. split; [by apply Hkept|done].
Qed.

(** The lines of a text whose last non-blank line is [l]: what the script
    writes, as text. *)
Lemma ensure_text_cases content :
  let text := universal_newlines content in
  (blank text = true ∧ ensure_text content = Raise IndexError) ∨
  (∃ init l tail, Forall full_line init ∧ (10%N ∉ l) ∧ blank l = false ∧ blank tail = true ∧
     (text = mjoin init ++ l ++ newline ++ tail ∨ text = mjoin init ++ l ∧ tail = []) ∧
     ensure_text content = Ok (mjoin init ++ l ++ newline)).
Proof.
  intros text. unfold ensure_text. fold text.
  destruct (lines_keep_shape text) as (Hj & ls & la & Hs & Hls & Hla).
  destruct (process_lines_spec (lines_keep text)) as (kept & tail & Hkt & Htail & Hspec).
  destruct kept as [|l kept _] using rev_ind.
  { left. simpl in *. rewrite Hspec. split; [|done].
    rewrite <-Hj, Hkt, blank_mjoin. by apply forallb_blank. }
  rewrite last_snoc in Hspec. destruct Hspec as [Hl Hp]. right.
  assert (Hk : Forall full_line (kept ++ [l]) ∨
    Forall full_line kept ∧ tail = [] ∧ 10%N ∉ l).
  { rewrite Hkt in Hs. destruct Hla as [->|(m & -> & Hm & _)].
    { rewrite app_nil_r in Hs. left. rewrite <-Hs in Hls. by apply Forall_app in Hls as [? _]. }
    destruct tail as [|t tail _] using rev_ind.
    - rewrite app_nil_r in Hs. apply app_inj_2 in Hs as [<- [= ->]]; [|done]. by right.
    - rewrite app_assoc in Hs. apply app_inj_2 in Hs as [<- _]; [|done].
      left. by apply Forall_app in Hls as [? _]. }
  rewrite Hp. rewrite Hkt in Hj. rewrite !join_app in Hj. simpl in Hj.
  destruct Hk as [Hk|(Hk & -> & Hnl)].
  - apply Forall_app in Hk as [Hk (l' & -> & Hl')%Forall_singleton].
    exists kept, l', (mjoin tail). rewrite blank_app in Hl.
    assert (has_trailing_newline (l' ++ newline) = true) as -> by (apply has_trailing_newline_spec; eauto).
    split_and!; [done..| |by rewrite blank_mjoin; apply forallb_blank| |].
    + by rewrite andb_true_r in Hl.
    + left. rewrite <-Hj. by rewrite app_nil_r, <-!app_assoc.
    + simpl. by rewrite !join_app; simpl; rewrite !app_nil_r.
  - exists kept, l, []. split_and!; [done..| |].
    + right. rewrite <-Hj. by rewrite !app_nil_r.
    + assert (has_trailing_newline l = false) as ->.
      { apply not_true_iff_false. intros [l' ->]%has_trailing_newline_spec.
        apply Hnl, elem_of_app. right. left. }
      simpl. rewrite length_app. cbn [length].
      rewrite take_app_le, firstn_all2 by lia.
      by rewrite !join_app; simpl; rewrite !app_nil_r.
Qed.

(** Whole lines end with a newline. *)
Lemma full_lines_end ls : Forall full_line ls → mjoin ls = [] ∨ last (mjoin ls) = Some 10%N.
Proof.
  destruct ls as [|l ls _] using rev_ind; [by left|].
  intros [_ (l' & -> & _)%Forall_singleton]%Forall_app. right.
  rewrite join_app. cbn. rewrite app_nil_r, app_assoc. apply last_snoc.
Qed.

(** ** Theorems *)

(** C18: trimming: the script fails with [IndexError] exactly when the file is all white
    space.  Otherwise the text it read (in which every line ending is a newline) is
    some whole lines [init], then a line [l] that has a character other than white
    space, then nothing or a newline and a white [tail]; and it writes [init] and [l]
    with every character they have, trailing spaces included, and one newline. *)
Theorem ensure_text_correct (content : str) :
  match ensure_text content with
  | Raise e => e = IndexError ∧ forallb is_space content = true
  | Ok out =>
      forallb is_space content = false ∧
      ∃ init l tail,
        (init = [] ∨ last init = Some 10%N) ∧ (10%N ∉ l) ∧ forallb is_space l = false ∧
        forallb is_space tail = true ∧
        (universal_newlines content = init ++ l ∨
         universal_newlines content = init ++ l ++ newline ++ tail) ∧
        out = init ++ l ++ newline
  end.
Proof.
  rewrite <-blank_universal_newlines.
  destruct (ensure_text_cases content)
    as [[Hb ->]|(init & l & tail & Hinit & Hnl & Hl & Htail & Htext & ->)]; [done|].
  split.
  - destruct Htext as [->|[-> _]]; rewrite !blank_app, Hl; by rewrite ?andb_false_r.
  - exists (mjoin init), l, tail. split_and!; [by apply full_lines_end|done..|naive_solver|done].
Qed.

(** Running the script again changes nothing. *)
Theorem ensure_text_idempotent (content out : str) :
  ensure_text content = Ok out → ensure_text out = Ok out.
Proof.
  destruct (ensure_text_cases content)
    as [[_ ->]|(init & l & tail & Hinit & Hnl & Hl & _ & Htext & ->)]; [done|].
  intros [= <-]. set (out := mjoin init ++ l ++ newline).
  assert (Hcr : 13%N ∉ out).
  { pose proof (universal_newlines_no_cr content) as H. unfold out.
    rewrite !elem_of_app. intros [Hx|[Hx|Hx%list_elem_of_singleton]]; [| |done];
      apply H; destruct Htext as [->|[-> _]]; rewrite !elem_of_app; auto. }
  assert (Hout : out = mjoin (init ++ [l ++ newline])).
  { unfold out. rewrite join_app. simpl. by rewrite app_nil_r. }
  unfold ensure_text. rewrite universal_newlines_id by done.
  rewrite Hout at 1. rewrite lines_keep_full.
  2: { apply Forall_app_2; [done|]. constructor; [|done]. by exists l. }
  destruct (process_lines_spec (init ++ [l ++ newline])) as (kept & tl & Hkt & Htl & Hspec).
  assert (tl = []) as ->.
  { destruct tl as [|x tl _] using rev_ind; [done|]. rewrite app_assoc in Hkt.
    apply app_inj_2 in Hkt as [_ [= <-]]; [|done].
    apply Forall_app in Htl as [_ [Hx _]%Forall_cons]. by rewrite blank_app, Hl in Hx. }
  rewrite app_nil_r in Hkt. subst kept. rewrite last_snoc in Hspec.
  destruct Hspec as [_ ->].
  assert (has_trailing_newline (l ++ newline) = true) as -> by (apply has_trailing_newline_spec; eauto).
  simpl. by rewrite join_app, <-Hout, app_nil_r.
Qed.

Lemma ensure_text_idempotent_witness :
  ensure_text ("a" ++ newline ++ newline) = Ok ("a" ++ newline) ∧
  ensure_text ("a" ++ newline) = Ok ("a" ++ newline).
Proof.
  split; [reflexivity|].
  apply (ensure_text_idempotent ("a" ++ newline ++ newline)). reflexivity.
Defined.

(** The script writes only the file it was given, only when it succeeds, and
    exits with 1 exactly when it is not given one argument. *)
Theorem main_effect (argv : list str) (fs : gmap str str) :
  match main argv fs with
  | (Ok code, fs') =>
      (code = 1%Z ∧ fs' = fs ∧ length argv ≠ 2) ∨
      (code = 0%Z ∧ ∃ prog file content out, argv = [prog; file] ∧
         fs !! file = Some content ∧ ensure_text content = Ok out ∧ fs' = <[file := out]> fs)
  | (Raise e, fs') => fs' = fs ∧ length argv = 2 ∧ (e = FileNotFoundError ∨ e = IndexError)
  end.
Proof.
  unfold main. destruct argv as [|prog [|file [|]]]; simpl; try by left.
  destruct (fs !! file) as [content|] eqn:E; [|naive_solver].
  destruct (ensure_text_cases content) as [[_ H]|(? & ? & ? & _ & _ & _ & _ & _ & H)].
  { rewrite H. naive_solver. }
  rewrite H. right. split; [done|]. naive_solver.
Qed.
