(* ===== verification/Md5.v ===== *)
(** MD5 (RFC 1321), which [hashlib.md5] computes: the name of a log file for a
    long test name ends with the first digits of the digest of the name. *)

From S2P Require Import Prelude PyStr.

#[local] Open Scope Z_scope.

(** ** 32-bit words *)

Definition word (z : Z) : Z := z mod 2 ^ 32.
Definition add32 (a b : Z) : Z := word (a + b).
Definition not32 (a : Z) : Z := Z.lxor a (2 ^ 32 - 1).
Definition rotl32 (a s : Z) : Z := Z.lor (word (Z.shiftl a s)) (Z.shiftr a (32 - s)).

(** Little-endian bytes of the low [8 n] bits, and back. *)
Fixpoint le_bytes (n : nat) (z : Z) : list Z :=
  match n with
  | O => []
  | S n' => Z.land z 255 :: le_bytes n' (Z.shiftr z 8)
  end.

Fixpoint le_word (bs : list Z) : Z :=
  match bs with
  | [] => 0
  | b :: bs' => b + 256 * le_word bs'
  end.

(** ** Tables *)

(** [floor(2^32 * abs(sin(i + 1)))] *)
Definition K : list Z :=
  [0xd76aa478; 0xe8c7b756; 0x242070db; 0xc1bdceee; 0xf57c0faf; 0x4787c62a; 0xa8304613; 0xfd469501;
   0x698098d8; 0x8b44f7af; 0xffff5bb1; 0x895cd7be; 0x6b901122; 0xfd987193; 0xa679438e; 0x49b40821;
   0xf61e2562; 0xc040b340; 0x265e5a51; 0xe9b6c7aa; 0xd62f105d; 0x02441453; 0xd8a1e681; 0xe7d3fbc8;
   0x21e1cde6; 0xc33707d6; 0xf4d50d87; 0x455a14ed; 0xa9e3e905; 0xfcefa3f8; 0x676f02d9; 0x8d2a4c8a;
   0xfffa3942; 0x8771f681; 0x6d9d6122; 0xfde5380c; 0xa4beea44; 0x4bdecfa9; 0xf6bb4b60; 0xbebfbc70;
   0x289b7ec6; 0xeaa127fa; 0xd4ef3085; 0x04881d05; 0xd9d4d039; 0xe6db99e5; 0x1fa27cf8; 0xc4ac5665;
   0xf4292244; 0x432aff97; 0xab9423a7; 0xfc93a039; 0x655b59c3; 0x8f0ccc92; 0xffeff47d; 0x85845dd1;
   0x6fa87e4f; 0xfe2ce6e0; 0xa3014314; 0x4e0811a1; 0xf7537e82; 0xbd3af235; 0x2ad7d2bb; 0xeb86d391].

(** The rotation of step [i]: four amounts per round. *)
Definition shift_amount (i : nat) : Z :=
  nth (i mod 4) (nth (i / 16) [[7; 12; 17; 22]; [5; 9; 14; 20]; [4; 11; 16; 23]; [6; 10; 15; 21]] []) 0.

(** ** Compression *)

Definition md5_step (m : list Z) (st : Z * Z * Z * Z) (i : nat) : Z * Z * Z * Z :=
  let '(a, b, c, d) := st in
  let '(f, g) :=
    match (i / 16)%nat with
    | 0%nat => (Z.lor (Z.land b c) (Z.land (not32 b) d), i)
    | 1%nat => (Z.lor (Z.land d b) (Z.land (not32 d) c), (5 * i + 1) mod 16)%nat
    | 2%nat => (Z.lxor b (Z.lxor c d), (3 * i + 5) mod 16)%nat
    | _ => (Z.lxor c (Z.lor b (not32 d)), (7 * i) mod 16)%nat
    end in
  let f := add32 (add32 (add32 f a) (nth i K 0)) (nth g m 0) in
  (d, add32 b (rotl32 f (shift_amount i)), b, c).

Definition md5_block (st : Z * Z * Z * Z) (block : list Z) : Z * Z * Z * Z :=
  let m := (λ i, le_word (take 4 (drop (4 * i) block))) <$> seq 0 16 in
  let '(a0, b0, c0, d0) := st in
  let '(a, b, c, d) := foldl (md5_step m) st (seq 0 64) in
  (add32 a0 a, add32 b0 b, add32 c0 c, add32 d0 d).

(** ** Padding and digest *)

(** One bit, then zeros up to 56 modulo 64, then the length in bits. *)
Definition md5_pad (bs : list Z) : list Z :=
  let n := length bs in
  bs ++ [128] ++ replicate (Z.to_nat ((55 - Z.of_nat n) mod 64)) 0 ++ le_bytes 8 (8 * Z.of_nat n).

Definition md5_init : Z * Z * Z * Z := (0x67452301, 0xefcdab89, 0x98badcfe, 0x10325476).

Definition md5_digest (bs : list Z) : list Z :=
  let p := md5_pad bs in
  let blocks := (λ i, take 64 (drop (64 * i) p)) <$> seq 0 (length p / 64) in
  let '(a, b, c, d) := foldl md5_block md5_init blocks in
  le_bytes 4 a ++ le_bytes 4 b ++ le_bytes 4 c ++ le_bytes 4 d.

Definition hex_digit (z : Z) : N := Z.to_N (if z <? 10 then 48 + z else 87 + z).

Definition hexdigest (bs : list Z) : str :=
  mjoin ((λ b, [hex_digit (b / 16); hex_digit (b mod 16)]) <$> bs).

(** [hashlib.md5(s.encode()).hexdigest()] *)
Definition md5_hexdigest (s : str) : str :=
  hexdigest (md5_digest (Z.of_N <$> utf8_encode s)).

Example md5_empty : md5_hexdigest "" = "d41d8cd98f00b204e9800998ecf8427e".
Proof. vm_compute. reflexivity. Qed.
Example md5_alphabet :
  md5_hexdigest "abcdefghijklmnopqrstuvwxyz" = "c3fcd3d76192e4007dfb496cca67e13b".
Proof. vm_compute. reflexivity. Qed.
Example md5_two_blocks :
  md5_hexdigest "12345678901234567890123456789012345678901234567890123456789012345678901234567890"
  = "57edf4a22be3c955ac49da2e2107b67a".
Proof. vm_compute. reflexivity. Qed.

(** ** Lemmas *)

Lemma length_le_bytes n z : length (le_bytes n z) = n.
Proof. revert z. induction n as [|n IH]; intros z; simpl; [done|]. by rewrite IH. Qed.

Lemma length_hexdigest bs : length (hexdigest bs) = (2 * length bs)%nat.
Proof.
  induction bs as [|b bs IH]; [done|].
  change (hexdigest (b :: bs)) with ([hex_digit (b / 16); hex_digit (b mod 16)] ++ hexdigest bs).
  rewrite length_app, IH. cbn [length]. lia.
Qed.

Lemma length_md5_digest bs : length (md5_digest bs) = 16%nat.
Proof.
  unfold md5_digest. destruct (foldl _ _ _) as [[[a b] c] d].
  by rewrite !length_app, !length_le_bytes.
Qed.

Lemma length_md5_hexdigest s : length (md5_hexdigest s) = 32%nat.
Proof. unfold md5_hexdigest. by rewrite length_hexdigest, length_md5_digest. Qed.

Lemma le_bytes_range n z b : b ∈ le_bytes n z → 0 <= b < 256.
Proof.
  revert z. induction n as [|n IH]; intros z; simpl; [by rewrite elem_of_nil|].
  rewrite elem_of_cons. intros [->|H]; [|by eapply IH].
  change 255 with (Z.ones 8). rewrite Z.land_ones by lia. apply Z.mod_pos_bound. lia.
Qed.

Lemma md5_digest_range bs b : b ∈ md5_digest bs → 0 <= b < 256.
Proof.
  unfold md5_digest. destruct (foldl _ _ _) as [[[a1 b1] c1] d1].
  rewrite !elem_of_app. intros [H|[H|[H|H]]]; by eapply le_bytes_range.
Qed.

(** A hexadecimal digit is a lower-case one: no separator, no white space. *)
Definition is_hex (c : N) : bool :=
  ((48 <=? c) && (c <=? 57) || (97 <=? c) && (c <=? 102))%N.

Lemma hex_digit_is_hex z : 0 <= z < 16 → is_hex (hex_digit z) = true.
Proof.
  intros Hz. unfold is_hex, hex_digit. destruct (Z.ltb_spec z 10);
    rewrite orb_true_iff, !andb_true_iff, !N.leb_le; lia.
Qed.

Lemma hexdigest_hex bs :
  (∀ b, b ∈ bs → 0 <= b < 256) → Forall (λ c, is_hex c = true) (hexdigest bs).
Proof.
  induction bs as [|b bs IH]; intros H; [constructor|].
  assert (0 <= b < 256) by (apply H; left).
  change (hexdigest (b :: bs)) with ([hex_digit (b / 16); hex_digit (b mod 16)] ++ hexdigest bs).
  apply Forall_app_2; [|apply IH; intros; apply H; by right].
  repeat constructor; apply hex_digit_is_hex.
  - split; [apply Z.div_pos; lia|apply Z.div_lt_upper_bound; lia].
  - apply Z.mod_pos_bound. lia.
Qed.

Lemma md5_hexdigest_hex s : Forall (λ c, is_hex c = true) (md5_hexdigest s).
Proof. apply hexdigest_hex, md5_digest_range. Qed.
