(* ===== verification/Json.v ===== *)
(** JSON documents, as [json.dump] takes them and [json.load] gives them back:
    the document of a file is the value that was dumped into it (floats are
    printed so that they read back exactly).  Each persisted type has an encoder
    and a decoder, and a round-trip law between them. *)

From S2P Require Import Prelude PyStr PyFloat PyDict.

(** ** Values *)

Inductive json :=
  | JNull
  | JBool (b : bool)
  | JInt (z : Z)
  | JFloat (x : float)
  | JStr (s : str)
  | JList (l : list json)
  | JObj (d : list (str * json)).

(** Truth value: [not state_data] in the callers of [json.load]. *)
Definition json_truthy (j : json) : bool :=
  match j with
  | JNull => false
  | JBool b => b
  | JInt z => negb (z =? 0)%Z
  | JFloat x => negb (SpecFloat.SFeqb x fzero)
  | JStr s => bool_decide (s ≠ [])
  | JList l => match l with [] => false | _ => true end
  | JObj d => match d with [] => false | _ => true end
  end.

(** ** What Python does with a value

    These are the operations that fail on some types. *)

(** [j[k]] for a string [k]: [TypeError] on a value that is no object; then
    [KeyError] on a missing key, see [field]. *)
Definition as_obj (j : json) : result (dict json) :=
  match j with JObj d => Ok d | _ => Raise TypeError end.

(** [j.items()] and [j.get(..)] *)
Definition items (j : json) : result (dict json) :=
  match j with JObj d => Ok d | _ => Raise AttributeError end.

(** [for x in j]: the keys of an object, the characters of a string. *)
Definition iter_json (j : json) : result (list json) :=
  match j with
  | JList l => Ok l
  | JObj d => Ok (JStr <$> dkeys d)
  | JStr s => Ok ((λ c, JStr [c]) <$> s)
  | _ => Raise TypeError
  end.

(** [len(j)] *)
Definition len_json (j : json) : result nat := result_bind (iter_json j) (λ l, Ok (length l)).

(** ** Values that are stored

    Python stores a value whatever its type, where the model's records have the type
    that the program's own files have.  At a value of another type the model stops,
    with the result [Raise Untyped], for which no handler of the program is taken:
    what the program does from there is not modelled, and nothing is claimed of it. *)

Definition as_list (j : json) : result (list json) :=
  match j with JList l => Ok l | _ => Raise Untyped end.
Definition as_dict (j : json) : result (dict json) :=
  match j with JObj d => Ok d | _ => Raise Untyped end.
Definition as_str (j : json) : result str :=
  match j with JStr s => Ok s | _ => Raise Untyped end.
Definition as_int (j : json) : result Z :=
  match j with JInt z => Ok z | _ => Raise Untyped end.
Definition as_bool (j : json) : result bool :=
  match j with JBool b => Ok b | _ => Raise Untyped end.
Definition as_float (j : json) : result float :=
  match j with JFloat x => Ok x | _ => Raise Untyped end.
Definition as_opt_str (j : json) : result (option str) :=
  match j with JNull => Ok None | JStr s => Ok (Some s) | _ => Raise Untyped end.

(** A value that is compared with a float: other numbers can be, but then stay what
    they are. *)
Definition as_number (j : json) : result float :=
  match j with
  | JFloat x => Ok x
  | JInt _ | JBool _ => Raise Untyped
  | _ => Raise TypeError
  end.

Definition field (k : str) (d : dict json) : result json :=
  result_of_option KeyError (dget k d).

Fixpoint result_map {A B} (f : A → result B) (l : list A) : result (list B) :=
  match l with
  | [] => Ok []
  | x :: l' => result_bind (f x) (λ y, result_bind (result_map f l') (λ ys, Ok (y :: ys)))
  end.

Notation "x <-? r ;; k" := (result_bind r (λ x, k))
  (at level 100, r at next level, right associativity, only parsing) : py_scope.

(** ** Codecs *)

(** What saving promises to loading. *)
Class Codec (A : Type) := {
  encode_json : A → json;
  decode_json : json → result A;
  decode_encode_json : ∀ a : A, decode_json (encode_json a) = Ok a;
}.

Definition opt_str_json (o : option str) : json :=
  match o with Some s => JStr s | None => JNull end.

#[export] Instance str_codec : Codec str :=
  {| encode_json := JStr; decode_json := as_str; decode_encode_json := λ _, eq_refl |}.
#[export] Instance int_codec : Codec Z :=
  {| encode_json := JInt; decode_json := as_int; decode_encode_json := λ _, eq_refl |}.
#[export] Instance float_codec : Codec float :=
  {| encode_json := JFloat; decode_json := as_float; decode_encode_json := λ _, eq_refl |}.
#[export, program] Instance opt_str_codec : Codec (option str) :=
  {| encode_json := opt_str_json; decode_json := as_opt_str |}.
Next Obligation. by intros []. Qed.

Lemma result_map_encode {A B} (enc : A → B) (dec : B → result A) l :
  (∀ a, dec (enc a) = Ok a) → result_map dec (enc <$> l) = Ok l.
Proof. intros H. induction l as [|a l IH]; [done|]. csimpl. rewrite H. csimpl. by rewrite IH. Qed.

Section containers.
Context {A : Type} `{!Codec A}.

#[export, program] Instance list_codec : Codec (list A) := {|
  encode_json l := JList (encode_json <$> l);
  decode_json j := result_bind (as_list j) (result_map decode_json);
|}.
Next Obligation. intros l. simpl. apply result_map_encode, decode_encode_json. Qed.

(** A dictionary: one member per key, in order. *)
Definition encode_dict (d : dict A) : json := JObj (dmap encode_json d).

Definition decode_entry (kv : str * json) : result (str * A) :=
  result_bind (decode_json kv.2) (λ v, Ok (kv.1, v)).

Definition decode_dict (j : json) : result (dict A) :=
  result_bind (as_dict j) (λ d, result_bind (result_map decode_entry d) (λ l, Ok (dict_of l))).

Lemma decode_encode_dict (d : dict A) : wf d → decode_dict (encode_dict d) = Ok d.
Proof.
  intros Hd. unfold decode_dict, encode_dict. simpl. unfold dmap.
  rewrite (result_map_encode (λ kv, (kv.1, encode_json kv.2)) decode_entry).
  - simpl. by rewrite dict_of_id.
  - intros [k v]. unfold decode_entry. simpl. by rewrite decode_encode_json.
Qed.

End containers.
