(* ===== verification/World.v ===== *)
(** The world outside the retry runner: file system, clock, environment
    variables and subprocesses.

    What the world answers is the class [Env]: one function per kind of question,
    indexed by a counter that every question advances, so an answer may change
    from one question to the next.  What the program does to the world is the
    record [world]: the files it wrote and the trace of commands it started. *)

From S2P Require Import Prelude PyStr PyFloat PyDict PyTime Json.

(** ** State *)

(** The content of a file: a text, a document dumped by [json.dump], or bytes
    that do not decode. *)
Inductive file :=
  | FText (s : str)
  | FJson (j : json)
  | FUndecodable.

Inductive event :=
  | EvRun (command_args : list str)      (** a test run was started *)
  | EvKubectl (command_args : list str)  (** kubectl was started *)
  | EvRmtree (dir : str).                (** a work directory was removed *)

#[global] Instance event_eq_dec : EqDecision event.
Proof. solve_decision. Defined.

Record world := mkWorld {
  fs : gmap str file;
  clock : nat;
  trace : list event;
}.

Class Env := {
  (** [datetime.now()] and [time.time()] *)
  env_now : nat → datetime;
  env_time : nat → float;
  (** [os.getcwd()] and [os.environ] *)
  env_cwd : str;
  env_environ : dict str;
  (** [Path(p).exists()] for paths the program did not write *)
  env_exists : nat → str → bool;
  (** the exception with which [open] fails, if it does *)
  env_open_fault : nat → str → option exn;
  (** [subprocess.run] with the output sent to a file: the exception of a command
      that cannot be started, or exit code and output ([None]: undecodable) *)
  env_subprocess : nat → list str → option (dict str) → result (Z * option str);
  (** [subprocess.run(capture_output=True)]: exit code and standard error *)
  env_command : nat → list str → result (Z * str);
  (** the exceptions with which [Path.mkdir(exist_ok=True)] and [shutil.rmtree]
      fail, if they do *)
  env_mkdir_fault : nat → str → option exn;
  env_rmtree_fault : nat → str → option exn;
  (** whether another thread of the pool has added a test to the runtime history while
      this one went through it *)
  env_history_changed : nat → bool;
  (** [Path.stat().st_mtime] *)
  env_mtime : nat → str → float;
  (** [json.load] on a text that [json.dump] did not write, and the text that
      [json.dump] writes *)
  env_json_loads : str → result json;
  env_json_dumps : json → str;
  (** the order in which [n] concurrent tasks run, finish or are listed *)
  env_order : nat → nat → list nat;
  env_order_perm : ∀ t n, env_order t n ≡ₚ seq 0 n;
}.

(** ** Operations *)

Section ops.
Context {env : Env}.

Definition tick : M world nat := λ w,
  (Ok (clock w), mkWorld (fs w) (S (clock w)) (trace w)).

Definition emit (ev : event) : M world unit :=
  modify (λ w, mkWorld (fs w) (clock w) (trace w ++ [ev])).

Local Open Scope py_scope.

Definition now : M world datetime := t <- tick ;; ret (env_now t).
Definition time : M world float := t <- tick ;; ret (env_time t).
Definition exists_ (path : str) : M world bool := t <- tick ;; ret (env_exists t path).

(** [Path(path).mkdir(exist_ok=True)]; directories are not part of [fs]. *)
Definition mkdir (path : str) : M world unit :=
  t <- tick ;;
  match env_mkdir_fault t path with
  | Some e => raise e
  | None => ret tt
  end.

(** [open(path, "r")]: the file's content. *)
Definition open_read (path : str) : M world file :=
  t <- tick ;;
  match env_open_fault t path with
  | Some e => raise e
  | None => w <- get ;; lift (result_of_option FileNotFoundError (fs w !! path))
  end.

(** [open(path, "w")], writing [content] and closing. *)
Definition open_write (path : str) (content : file) : M world unit :=
  t <- tick ;;
  match env_open_fault t path with
  | Some e => raise e
  | None => modify (λ w, mkWorld (<[path := content]> (fs w)) (clock w) (trace w))
  end.

(** [open(path, "r").read()] *)
Definition read_text (path : str) : M world str :=
  f <- open_read path ;;
  match f with
  | FText s => ret (universal_newlines s)
  | FJson j => ret (env_json_dumps j)
  | FUndecodable => raise UnicodeDecodeError
  end.

(** [json.load(open(path, "r"))] *)
Definition read_json (path : str) : M world json :=
  f <- open_read path ;;
  match f with
  | FJson j => ret j
  | FText s => lift (env_json_loads s)
  | FUndecodable => raise UnicodeDecodeError
  end.

(** The permutation of [l] the scheduler picks. *)
Definition reorder {A} (l : list A) : M world (list A) :=
  t <- tick ;; ret (omap (l !!.) (env_order t (length l))).

End ops.

(** [str(Path(s))]: empty and ["."] components are dropped. *)
Definition path_of (s : str) : str :=
  let comps := filter (λ c, c ≠ [] ∧ c ≠ ".") (split_char 47 s) in
  if startswith "/" s then "/" ++ join "/" comps
  else match comps with [] => "." | _ => join "/" comps end.

(** [str(Path(dir) / name)], [dir] as [path_of] gives it. *)
Definition path_join (dir name : str) : str :=
  if decide (dir = ".") then name
  else if decide (dir = "/") then "/" ++ name
  else dir ++ "/" ++ name.

(** ** Lemmas *)

(** The trace only grows: what a computation may do to the world. *)
Definition extends (w w' : world) : Prop :=
  clock w ≤ clock w' ∧ trace w `prefix_of` trace w'.

#[global] Instance extends_preorder : PreOrder extends.
Proof.
  split; [by split|]. intros x y z [H1 H2] [H3 H4]. split; [lia|by etrans].
Qed.

(** What reading the world leaves as it was. *)
Definition same_but_clock (w w' : world) : Prop :=
  fs w' = fs w ∧ trace w' = trace w ∧ clock w ≤ clock w'.

#[global] Instance same_but_clock_preorder : PreOrder same_but_clock.
Proof. unfold same_but_clock. split; [by split|]. intros ??? (?&?&?) (?&?&?). split_and!; congruence || lia. Qed.

Lemma omap_lookup_perm {A} (l : list A) (p : list nat) :
  p ≡ₚ seq 0 (length l) → omap (l !!.) p ≡ₚ l.
Proof.
  intros Hp. transitivity (omap (l !!.) (seq 0 (length l))).
  { by apply omap_Permutation. }
  apply reflexive_eq. clear Hp.
  assert (Hgen : ∀ pre, omap ((pre ++ l) !!.) (seq (length pre) (length l)) = l).
  { induction l as [|x l IH]; intros pre; [done|]. cbn.
    rewrite list_lookup_middle by done. f_equal.
    specialize (IH (pre ++ [x])). rewrite length_app in IH. cbn in IH.
    rewrite Nat.add_1_r, <-app_assoc in IH. exact IH. }
  apply (Hgen []).
Qed.

Section lemmas.
Context {env : Env}.

Lemma wp_tick Q w :
  Q (Ok (clock w)) (mkWorld (fs w) (S (clock w)) (trace w)) → wp tick Q w.
Proof. done. Qed.

Lemma wp_reorder {A} (l : list A) Q w :
  (∀ l' w', l' ≡ₚ l → same_but_clock w w' → Q (Ok l') w') → wp (reorder l) Q w.
Proof.
  intros H. unfold reorder. apply wp_bind, wp_tick. cbn beta iota. apply wp_ret, H.
  - apply omap_lookup_perm, env_order_perm.
  - unfold same_but_clock. simpl. auto with lia.
Qed.

Lemma wp_open_read path Q w :
  (∀ r w', same_but_clock w w' →
     (∀ f, r = Ok f → fs w !! path = Some f) → Q r w') →
  wp (open_read path) Q w.
Proof.
  intros H. unfold open_read. apply wp_bind, wp_tick. cbn beta iota.
  assert (Hs : same_but_clock w (mkWorld (fs w) (S (clock w)) (trace w)))
    by (unfold same_but_clock; simpl; auto with lia).
  case_match; [by apply wp_raise, H|].
  wp_steps. apply H; [done|]. simpl. intros f. by destruct (fs w !! path); intros [= ->].
Qed.

Lemma wp_read_text path Q w :
  (∀ r w', same_but_clock w w' → Q r w') → wp (read_text path) Q w.
Proof.
  intros H. unfold read_text. apply wp_bind, wp_open_read.
  intros [f|e] w' Hw _; [|by apply H].
  destruct f; wp_steps; by apply H.
Qed.

Lemma wp_open_write path content Q w :
  (∀ r w', trace w' = trace w → clock w ≤ clock w' →
     (match r with
      | Ok _ => fs w' = <[path := content]> (fs w)
      | Raise _ => fs w' = fs w
      end) → Q r w') →
  wp (open_write path content) Q w.
Proof.
  intros H. unfold open_write. apply wp_bind, wp_tick. cbn beta iota.
  case_match; [apply wp_raise|apply wp_modify]; apply H; simpl; auto with lia.
Qed.

End lemmas.

(** ** A concrete environment

    Nothing fails, time stands still, tasks run in order, and test runs answer
    as [run] says.  Used to evaluate the development on concrete inputs. *)

Definition scripted_env (run : nat → list str → result (Z * option str)) : Env := {|
  env_now _ := mkDatetime 2026 3 16 9 0 0 0;
  env_time _ := float_of_Z 1000;
  env_cwd := "/repo";
  env_environ := [("PATH", "/usr/bin")];
  env_exists _ _ := false;
  env_open_fault _ _ := None;
  env_subprocess t cmd _ := run t cmd;
  env_command _ _ := Ok (0%Z, "");
  env_mkdir_fault _ _ := None;
  env_rmtree_fault _ _ := None;
  env_history_changed _ := false;
  env_mtime _ _ := fzero;
  env_json_loads _ := Raise JSONDecodeError;
  env_json_dumps _ := "";
  env_order _ n := seq 0 n;
  env_order_perm _ _ := reflexivity _;
|}.

Definition quiet_env : Env := scripted_env (λ _ _, Ok (0%Z, Some "")).

Definition empty_world : world := mkWorld ∅ 0 [].

(** The line a failed test leaves in the log of the whole suite. *)
Definition fail_line (t : str) : str := "    --- FAIL: kuttl/harness/" ++ t ++ " (20.00s)" ++ newline.

(** The whole suite reports [tests] as failed, a single test answers as [single]
    says. *)
Definition suite_env (tests : list str) (single : str → result (Z * option str)) : Env :=
  scripted_env (λ _ cmd,
    match cmd with
    | _ :: flag :: t :: _ =>
        if decide (flag = "--test") then single t
        else Ok (1%Z, Some (mjoin (fail_line <$> tests)))
    | _ => Ok (1%Z, Some (mjoin (fail_line <$> tests)))
    end).
