(* ===== verification/RuntimeHistory.v ===== *)
(** The [RuntimeHistory] class of scripts/auto-retry-tests.py: the recorded
    durations of one test and the statistics over them. *)

From S2P Require Import Prelude PyStr PyFloat PyDict PyTime Json World.

(** ** Constants *)

Module TestConstants.

Definition MIN_RUNTIME_THRESHOLD : float := float_of_Z 30.
Definition MAX_RUNTIME_HISTORY : nat := 50.
Definition MAX_TEST_NAME_LENGTH : nat := 100.
Definition HASH_SUFFIX_LENGTH : nat := 8.
Definition DEFAULT_PARALLEL_WORKERS : Z := 2.

(** [NAMESPACE_PATTERN] is [Creating namespace: (kuttl-test-[^\s]+)]: the literal
    text before the class, and how much of it belongs to the group. *)
Definition NAMESPACE_PREFIX : str := "Creating namespace: kuttl-test-".
Definition NAMESPACE_GROUP_PREFIX : str := "kuttl-test-".

(** [FAILED_TEST_PATTERN] is [--- FAIL: kuttl/harness/([^\s]+)]. *)
Definition FAILED_TEST_PREFIX : str := "--- FAIL: kuttl/harness/".

(** The class [[^\s]]. *)
Definition not_space (c : N) : bool := negb (is_space c).

End TestConstants.

Import TestConstants.

(** ** The class *)

Record RuntimeHistory := mkRuntimeHistory {
  rh_test_name : str;
  runtimes : list float;
  last_updated : str;
}.

(** [duration >= TestConstants.MIN_RUNTIME_THRESHOLD] *)
Definition long_enough (duration : float) : bool := fle MIN_RUNTIME_THRESHOLD duration.

(** The new list of durations when a duration is recorded. *)
Definition push_runtime (duration : float) (l : list float) : list float :=
  let l := l ++ [duration] in
  if decide (MAX_RUNTIME_HISTORY < length l) then last_n MAX_RUNTIME_HISTORY l else l.

Section methods.
Context {env : Env}.
Local Open Scope py_scope.

Definition add_runtime (duration : float) (self : RuntimeHistory) : M world RuntimeHistory :=
  if long_enough duration then
    t <- now ;;
    ret (mkRuntimeHistory (rh_test_name self) (push_runtime duration (runtimes self)) (isoformat t))
  else ret self.

End methods.

Definition get_average_runtime (self : RuntimeHistory) : float :=
  match runtimes self with [] => fzero | _ => mean (runtimes self) end.

Definition get_median_runtime (self : RuntimeHistory) : float :=
  match runtimes self with [] => fzero | _ => median (runtimes self) end.

Definition get_runtime_range (self : RuntimeHistory) : float * float :=
  match runtimes self with
  | [] => (fzero, fzero)
  | x :: l => (fmin_list x l, fmax_list x l)
  end.

Definition estimate_remaining_time (self : RuntimeHistory) : float := get_average_runtime self.

(** [asdict(history)] and [RuntimeHistory(test_name=..., ...)] *)
Definition history_json (h : RuntimeHistory) : json :=
  JObj [("test_name", JStr (rh_test_name h));
        ("runtimes", encode_json (runtimes h));
        ("last_updated", JStr (last_updated h))].

(** ** Invariant *)

(** Every duration is long enough, and at most [MAX_RUNTIME_HISTORY] are kept. *)
Definition history_ok (h : RuntimeHistory) : Prop :=
  Forall (λ x, long_enough x = true) (runtimes h) ∧ length (runtimes h) ≤ MAX_RUNTIME_HISTORY.

(** ** Lemmas *)

Lemma push_runtime_last_n x l :
  length l ≤ MAX_RUNTIME_HISTORY → push_runtime x l = last_n MAX_RUNTIME_HISTORY (l ++ [x]).
Proof.
  intros H. unfold push_runtime. case_decide; [done|].
  symmetry. apply last_n_all. lia.
Qed.

Lemma length_push_runtime x l : length l ≤ MAX_RUNTIME_HISTORY → length (push_runtime x l) ≤ MAX_RUNTIME_HISTORY.
Proof. intros H. rewrite push_runtime_last_n, length_last_n by done. lia. Qed.

(** Keeping the last [n] after each push keeps the last [n] of everything. *)
Lemma last_n_last_n_app {A} n (l k : list A) : last_n n (last_n n l ++ k) = last_n n (l ++ k).
Proof.
  unfold last_n. rewrite !length_app, length_drop.
  destruct (decide (length l ≤ n)) as [H|H].
  { replace (length l - n) with 0 by lia. by rewrite drop_0, Nat.sub_0_r. }
  rewrite (drop_app (drop _ _)), (drop_app l), drop_drop, length_drop. f_equal; f_equal; lia.
Qed.

Lemma foldl_push_runtime ds l :
  length l ≤ MAX_RUNTIME_HISTORY →
  foldl (λ l x, push_runtime x l) l ds = last_n MAX_RUNTIME_HISTORY (l ++ ds).
Proof.
  revert l. induction ds as [|x ds IH]; intros l H; simpl.
  { by rewrite app_nil_r, last_n_all. }
  rewrite IH by by apply length_push_runtime.
  rewrite push_runtime_last_n by done. by rewrite last_n_last_n_app, <-app_assoc.
Qed.

Section wp_methods.
Context {env : Env}.

Lemma wp_add_runtime d h Q w :
  (∀ h' w', same_but_clock w w' →
     rh_test_name h' = rh_test_name h →
     runtimes h' = (if long_enough d then push_runtime d (runtimes h) else runtimes h) →
     (long_enough d = false → h' = h) →
     Q (Ok h') w') → wp (add_runtime d h) Q w.
Proof.
  intros H. unfold add_runtime. destruct (long_enough d).
  - unfold now. wp_steps. apply wp_tick. cbn beta iota. wp_steps.
    apply H; try done. unfold same_but_clock. simpl. auto with lia.
  - wp_steps. by apply H.
Qed.

Lemma add_runtime_ok d h w :
  history_ok h →
  match add_runtime d h w with
  | (Ok h', _) => history_ok h'
  | _ => False
  end.
Proof.
  intros [Hl Hn]. cut (wp (add_runtime d h) (λ r _, match r with Ok h' => history_ok h' | _ => False end) w).
  { unfold wp. by destruct (add_runtime d h w) as [[] ?]. }
  apply wp_add_runtime. intros h' w' _ _ Hr _. unfold history_ok. rewrite Hr.
  destruct (long_enough d) eqn:E; [|done]. split; [|by apply length_push_runtime].
  rewrite push_runtime_last_n by done. auto with dev.
Qed.

End wp_methods.

(** [foldl] over a total monadic step. *)
Fixpoint add_runtimes {env : Env} (ds : list float) (h : RuntimeHistory) : M world RuntimeHistory :=
  match ds with
  | [] => ret h
  | d :: ds => bind (add_runtime d h) (add_runtimes ds)
  end.

(** ** Theorems *)

(** A history keeps exactly the most recent fifty durations of at least
    thirty seconds among all those ever reported, in order. *)
Theorem add_runtime_keeps_most_recent {env : Env} (ds : list float) (h : RuntimeHistory) (w : world)
    (Hok : history_ok h) :
  ∃ h' w', add_runtimes ds h w = (Ok h', w') ∧ history_ok h' ∧
    runtimes h' = last_n MAX_RUNTIME_HISTORY (runtimes h ++ filter (λ x, long_enough x = true) ds).
Proof.
  cut (wp (add_runtimes ds h) (λ r _, ∃ h', r = Ok h' ∧ history_ok h' ∧
    runtimes h' = foldl (λ l x, push_runtime x l) (runtimes h) (filter (λ x, long_enough x = true) ds)) w).
  { intros (h' & Hr & Hh & Hf). exists h', (add_runtimes ds h w).2.
    split_and!; [by rewrite <-Hr; destruct (add_runtimes ds h w)|done|].
    rewrite Hf. apply foldl_push_runtime, Hok. }
  revert h w Hok. induction ds as [|d ds IH]; intros h w Hok; simpl.
  { apply wp_ret. eauto. }
  apply wp_bind, wp_add_runtime. intros h' w' _ _ Hr _. eapply wp_mono.
  { apply IH. destruct Hok as [Hl Hn]. split.
    - rewrite Hr. destruct (long_enough d) eqn:E; [|done].
      rewrite push_runtime_last_n by done. auto with dev.
    - rewrite Hr. destruct (long_enough d); [by apply length_push_runtime|done]. }
  cbn beta. intros r w'' (h'' & -> & Hh & Hf). eexists. split_and!; [done..|].
  rewrite Hf, Hr, filter_cons. by destruct (long_enough d).
Qed.

Lemma add_runtime_keeps_most_recent_witness :
  history_ok (mkRuntimeHistory "t" [float_of_Z 31] "") ∧
  ∃ h' w', add_runtimes (env := quiet_env) [float_of_Z 40; float_of_Z 5]
             (mkRuntimeHistory "t" [float_of_Z 31] "") empty_world = (Ok h', w') ∧
    history_ok h' ∧
    runtimes h' = last_n MAX_RUNTIME_HISTORY
      ([float_of_Z 31] ++ filter (λ x, long_enough x = true) [float_of_Z 40; float_of_Z 5]).
Proof.
  assert (history_ok (mkRuntimeHistory "t" [float_of_Z 31] "")) as H.
  { split; [repeat constructor|vm_compute; lia]. }
  split; [exact H|].
  apply (add_runtime_keeps_most_recent (env := quiet_env) [float_of_Z 40; float_of_Z 5]
           (mkRuntimeHistory "t" [float_of_Z 31] "") empty_world H).
Defined.
