(* ===== verification/TestModel.v ===== *)
(** The data of scripts/auto-retry-tests.py: command line, results, summaries,
    the runner's state, and their JSON forms. *)

From S2P Require Import Prelude PyStr PyFloat PyDict PyTime Json World RuntimeHistory.

(** ** Results and summaries *)

Record TestResult := mkTestResult {
  test_name : str;
  attempt : Z;
  attempt_type : str;
  success : bool;
  namespace : option str;
  duration : float;
  log_file : option str;
  failed_step : option str;
}.

Record TestSummary := mkTestSummary {
  ts_test_name : str;
  initial_result : TestResult;
  retry_results : list TestResult;
  final_status : str;
  total_attempts : Z;
  final_namespace : option str;
}.

#[global] Instance TestResult_eq_dec : EqDecision TestResult.
Proof. solve_decision. Defined.

#[global] Instance TestSummary_eq_dec : EqDecision TestSummary.
Proof. solve_decision. Defined.

(** [any(result.success for result in l)] *)
Definition any_success (l : list TestResult) : bool := existsb success l.

(** ** Command line *)

Record args := mkArgs {
  parallel : Z;
  venv : option str;
  extra_args : list str;
  attempts_parallel : Z;
  attempts_serial : Z;
  delete_failed_namespaces : bool;
  output_dir : str;
  resume : option str;
  rerun_failed : option str;
}.

(** What [main]'s parser yields for an empty command line. *)
Definition default_args : args :=
  mkArgs TestConstants.DEFAULT_PARALLEL_WORKERS None [] 1 2 false "test-results" None None.

(** ** The runner

    The attributes of [AutoRetryTestRunner] that change during a run, with the
    [runtime_history] of its [StateManager]; the constant ones ([args] and the
    paths derived from [output_dir]) are arguments of the operations. *)

Record runner := mkRunner {
  results : list TestResult;
  test_summaries : dict TestSummary;
  start_time : datetime;
  failed_tests : list str;
  parallel_attempts_done : Z;
  serial_attempts_done : dict Z;
  initial_result_log : option str;
  runtime_history : dict RuntimeHistory;
}.

Definition set_results v r := mkRunner v (test_summaries r) (start_time r) (failed_tests r)
  (parallel_attempts_done r) (serial_attempts_done r) (initial_result_log r) (runtime_history r).
Definition set_test_summaries v r := mkRunner (results r) v (start_time r) (failed_tests r)
  (parallel_attempts_done r) (serial_attempts_done r) (initial_result_log r) (runtime_history r).
Definition set_start_time v r := mkRunner (results r) (test_summaries r) v (failed_tests r)
  (parallel_attempts_done r) (serial_attempts_done r) (initial_result_log r) (runtime_history r).
Definition set_failed_tests v r := mkRunner (results r) (test_summaries r) (start_time r) v
  (parallel_attempts_done r) (serial_attempts_done r) (initial_result_log r) (runtime_history r).
Definition set_parallel_attempts_done v r := mkRunner (results r) (test_summaries r) (start_time r)
  (failed_tests r) v (serial_attempts_done r) (initial_result_log r) (runtime_history r).
Definition set_serial_attempts_done v r := mkRunner (results r) (test_summaries r) (start_time r)
  (failed_tests r) (parallel_attempts_done r) v (initial_result_log r) (runtime_history r).
Definition set_initial_result_log v r := mkRunner (results r) (test_summaries r) (start_time r)
  (failed_tests r) (parallel_attempts_done r) (serial_attempts_done r) v (runtime_history r).
Definition set_runtime_history v r := mkRunner (results r) (test_summaries r) (start_time r)
  (failed_tests r) (parallel_attempts_done r) (serial_attempts_done r) (initial_result_log r) v.

(** The whole state of a run. *)
Record state := mkState { wd : world; rn : runner }.

(** Run a computation on the world, or update the runner, in the whole state. *)
Definition on_world {A} (m : M world A) : M state A := λ s,
  let '(r, w) := m (wd s) in (r, mkState w (rn s)).
Definition on_runner (f : runner → runner) : M state unit :=
  modify (λ s, mkState (wd s) (f (rn s))).

Lemma wp_on_world {A} (m : M world A) Q s :
  wp m (λ r w, Q r (mkState w (rn s))) (wd s) → wp (on_world m) Q s.
Proof. unfold wp, on_world. by destruct (m (wd s)). Qed.

Lemma wp_on_runner f Q s :
  Q (Ok tt) (mkState (wd s) (f (rn s))) → wp (on_runner f) Q s.
Proof. done. Qed.

(** ** JSON forms: [asdict(x)] and [X(..x)] *)

Definition result_json (r : TestResult) : json :=
  JObj [("test_name", JStr (test_name r)); ("attempt", JInt (attempt r));
        ("attempt_type", JStr (attempt_type r)); ("success", JBool (success r));
        ("namespace", opt_str_json (namespace r)); ("duration", JFloat (duration r));
        ("log_file", opt_str_json (log_file r)); ("failed_step", opt_str_json (failed_step r))].

(** The keyword arguments of [TestResult]'s constructor. *)
Definition result_fields : list str :=
  ["test_name"; "attempt"; "attempt_type"; "success"; "namespace"; "duration"; "log_file";
   "failed_step"].

(** A required keyword argument: [TypeError] when it is missing. *)
Definition required {A} (dec : json → result A) (k : str) (d : dict json) : result A :=
  match dget k d with Some j => dec j | None => Raise TypeError end.

(** A keyword argument with a default. *)
Definition optional {A} (dec : json → result A) (dflt : A) (k : str) (d : dict json) : result A :=
  match dget k d with Some j => dec j | None => Ok dflt end.

Local Open Scope py_scope.

(** [TestResult(..d)]: [TypeError] on an unexpected or missing keyword. *)
Definition result_of_json (j : json) : result TestResult :=
  d <-? as_obj j ;;
  if forallb (λ k, bool_decide (k ∈ result_fields)) (dkeys d) then
    n <-? required as_str "test_name" d ;;
    a <-? required as_int "attempt" d ;;
    t <-? required as_str "attempt_type" d ;;
    s <-? required as_bool "success" d ;;
    ns <-? optional as_opt_str None "namespace" d ;;
    du <-? optional as_float fzero "duration" d ;;
    lf <-? optional as_opt_str None "log_file" d ;;
    fst <-? optional as_opt_str None "failed_step" d ;;
    Ok (mkTestResult n a t s ns du lf fst)
  else Raise TypeError.

Definition summary_json (s : TestSummary) : json :=
  JObj [("test_name", JStr (ts_test_name s)); ("initial_result", result_json (initial_result s));
        ("retry_results", JList (result_json <$> retry_results s));
        ("final_status", JStr (final_status s)); ("total_attempts", JInt (total_attempts s));
        ("final_namespace", opt_str_json (final_namespace s))].

(** The body of [load_state]'s loop over the saved summaries. *)
Definition summary_of_json (j : json) : result TestSummary :=
  d <-? as_obj j ;;
  ij <-? field "initial_result" d ;;
  initial <-? result_of_json ij ;;
  rj <-? field "retry_results" d ;;
  rl <-? iter_json rj ;;
  retries <-? result_map result_of_json rl ;;
  nj <-? field "test_name" d ;;
  n <-? as_str nj ;;
  sj <-? field "final_status" d ;;
  st <-? as_str sj ;;
  tj <-? field "total_attempts" d ;;
  t <-? as_int tj ;;
  ns <-? optional as_opt_str None "final_namespace" d ;;
  Ok (mkTestSummary n initial retries st t ns).

(** The constructor takes back what [asdict] gave. *)
Lemma result_of_result_json r : result_of_json (result_json r) = Ok r.
Proof. by destruct r as [? ? ? ? [|] ? [|] [|]]. Qed.

Arguments result_json : simpl never.
Arguments result_of_json : simpl never.

#[export] Instance TestResult_codec : Codec TestResult := {|
  encode_json := result_json;
  decode_json := result_of_json;
  decode_encode_json := result_of_result_json;
|}.

Lemma summary_of_summary_json s : summary_of_json (summary_json s) = Ok s.
Proof.
  destruct s as [n i r st t ns].
  assert (summary_of_json (summary_json (mkTestSummary n i r st t ns)) =
    result_bind (result_of_json (result_json i)) (λ i,
      result_bind (result_map result_of_json (result_json <$> r)) (λ r,
        Ok (mkTestSummary n i r st t ns)))) as -> by by destruct ns.
  rewrite result_of_result_json. simpl.
  by rewrite (result_map_encode result_json result_of_json) by apply result_of_result_json.
Qed.

Arguments summary_json : simpl never.
Arguments summary_of_json : simpl never.

#[export] Instance TestSummary_codec : Codec TestSummary := {|
  encode_json := summary_json;
  decode_json := summary_of_json;
  decode_encode_json := summary_of_summary_json;
|}.
