(* ===== verification/StateManager.v ===== *)
(** The [StateManager] class of scripts/auto-retry-tests.py: guarded JSON file
    operations, the runtime history, and saving and restoring a run. *)

From S2P Require Import Prelude PyStr PyFloat PyDict PyTime Json World RuntimeHistory TestModel.

(** ** Paths *)

Definition state_file (dir : str) : str := path_join dir "test_run_state.json".
Definition runtime_file (dir : str) : str := path_join dir "runtime_history.json".

Section StateManager.
Context {env : Env}.
Local Open Scope py_scope.

(** ** Guarded file operations *)

(** The context manager [safe_file_operation]: [body] is the [open] and what the
    [with] block does with the file. *)
Definition safe_file_operation {A} (mode : str) (body : M world A) : M world A :=
  catch body (λ e,
    match e with
    | FileNotFoundError =>
        if decide (mode = "r") then raise FileOperationError else raise FileNotFoundError
    | _ => raise FileOperationError
    end).

(** The value returned is [None] or the document for ["load"], a boolean for
    ["save"]. *)
Definition safe_json_operation (operation : str) (file_path : str) (data : json) : M world json :=
  catch
    (if decide (operation = "load") then
       safe_file_operation "r" (read_json file_path)
     else if decide (operation = "save") then
       safe_file_operation "w" (open_write file_path (FJson data)) ;;;
       ret (JBool true)
     else raise ValueError)
    (λ e,
      match e with
      | FileOperationError => ret (if decide (operation = "load") then JNull else JBool false)
      | _ => raise e
      end).

(** ** Runtime history *)

(** What [load_runtime_history] makes of one entry: [None] when no duration is
    long enough. *)
Definition load_history_entry (data : json) : result (option RuntimeHistory) :=
  d <-? as_obj data ;;
  rj <-? field "runtimes" d ;;
  rl <-? iter_json rj ;;
  all <-? result_map as_number rl ;;
  match filter (λ x, long_enough x = true) all with
  | [] => Ok None
  | filtered_runtimes =>
      nj <-? field "test_name" d ;;
      n <-? as_str nj ;;
      uj <-? field "last_updated" d ;;
      u <-? as_str uj ;;
      Ok (Some (mkRuntimeHistory n filtered_runtimes u))
  end.

Definition save_runtime_history (dir : str) : M state json :=
  s <- get ;;
  on_world (safe_json_operation "save" (runtime_file dir)
    (JObj (dmap history_json (runtime_history (rn s))))).

(** The loop over the loaded entries; the result is [loaded_count]. *)
Fixpoint load_history_entries (l : list (str * json)) (loaded_count : nat) : M state nat :=
  match l with
  | [] => ret loaded_count
  | (test_name, data) :: l' =>
      o <- lift (load_history_entry data) ;;
      match o with
      | Some h =>
          on_runner (λ r, set_runtime_history (dset test_name h (runtime_history r)) r) ;;;
          load_history_entries l' (S loaded_count)
      | None => load_history_entries l' loaded_count
      end
  end.

Definition load_runtime_history (dir : str) : M state unit :=
  history_data <- on_world (safe_json_operation "load" (runtime_file dir) JNull) ;;
  if json_truthy history_data then
    d <- lift (items history_data) ;;
    loaded_count <- load_history_entries d 0 ;;
    if decide (0 < loaded_count) then save_runtime_history dir ;;; ret tt else ret tt
  else ret tt.

(** [if test_name not in self.runtime_history: ...] *)
Definition ensure_history_entry (test_name : str) : M state unit :=
  s <- get ;;
  if dmem test_name (runtime_history (rn s)) then ret tt
  else
    t <- on_world now ;;
    on_runner (λ r, set_runtime_history
      (dset test_name (mkRuntimeHistory test_name [] (isoformat t)) (runtime_history r)) r).

(** Going through [self.runtime_history] to copy it, in a thread of a pool
    ([concurrent]) or not: advancing the iterator raises [RuntimeError] if another thread
    has inserted a test.  HistoryRace.v has the statements of all threads interleaved,
    and shows that this is all that can happen. *)
Definition go_through_history (concurrent : bool) : M state unit :=
  if concurrent then
    t <- on_world tick ;;
    if env_history_changed t then raise RuntimeError else ret tt
  else ret tt.

Definition update_runtime_history (concurrent : bool) (dir : str) (test_name : str) (duration : float) :
    M state unit :=
  ensure_history_entry test_name ;;;
  s <- get ;;
  match dget test_name (runtime_history (rn s)) with
  | None => raise KeyError
  | Some h =>
      h' <- on_world (add_runtime duration h) ;;
      on_runner (λ r, set_runtime_history (dset test_name h' (runtime_history r)) r) ;;;
      go_through_history concurrent ;;;
      save_runtime_history dir ;;; ret tt
  end.

Definition get_estimated_runtime (test_name : str) (r : runner) : float :=
  match dget test_name (runtime_history r) with
  | Some h => get_average_runtime h
  | None => fzero
  end.

(** ** Saving and restoring a run *)

Definition build_configuration_dict (a : args) : json :=
  JObj [("parallel", JInt (parallel a)); ("attempts_parallel", JInt (attempts_parallel a));
        ("attempts_serial", JInt (attempts_serial a));
        ("delete_failed_namespaces", JBool (delete_failed_namespaces a));
        ("venv", opt_str_json (venv a)); ("extra_args", encode_json (extra_args a));
        ("output_dir", JStr (output_dir a))].

Definition build_state_data (a : args) (r : runner) : json :=
  JObj [("start_time", JStr (isoformat (start_time r)));
        ("failed_tests", encode_json (failed_tests r));
        ("parallel_attempts_done", JInt (parallel_attempts_done r));
        ("serial_attempts_done", encode_dict (serial_attempts_done r));
        ("initial_result_log", opt_str_json (initial_result_log r));
        ("configuration", build_configuration_dict a);
        ("test_summaries", encode_dict (test_summaries r));
        ("all_results", encode_json (results r))].

Definition save_state (a : args) : M state json :=
  s <- get ;;
  on_world (safe_json_operation "save" (state_file (output_dir a)) (build_state_data a (rn s))).

(** The loop over the saved summaries. *)
Fixpoint restore_summaries (l : list (str * json)) : M state unit :=
  match l with
  | [] => ret tt
  | (name, summary_dict) :: l' =>
      summary <- lift (summary_of_json summary_dict) ;;
      on_runner (λ r, set_test_summaries (dset name summary (test_summaries r)) r) ;;;
      restore_summaries l'
  end.

(** [datetime.fromisoformat] reads more than [isoformat] writes. *)
Definition read_start_time (j : json) : result datetime :=
  match j with
  | JStr s => match fromisoformat s with Ok t => Ok t | Raise _ => Raise Untyped end
  | _ => Raise TypeError
  end.

(** The [try] block of [load_state]: the runner's attributes are assigned one
    after the other, so a malformed document leaves the first ones changed. *)
Definition restore_state (state_data : json) : M state unit :=
  d <- lift (as_obj state_data) ;;
  t <- lift (j <-? field "start_time" d ;; read_start_time j) ;;
  on_runner (set_start_time t) ;;;
  f <- lift (j <-? field "failed_tests" d ;; decode_json j) ;;
  on_runner (set_failed_tests f) ;;;
  p <- lift (j <-? field "parallel_attempts_done" d ;; as_int j) ;;
  on_runner (set_parallel_attempts_done p) ;;;
  c <- lift (j <-? field "serial_attempts_done" d ;; decode_dict j) ;;
  on_runner (set_serial_attempts_done c) ;;;
  i <- lift (optional as_opt_str None "initial_result_log" d) ;;
  on_runner (set_initial_result_log i) ;;;
  sums <- lift (j <-? field "test_summaries" d ;; items j) ;;
  restore_summaries sums ;;;
  rs <- lift (j <-? field "all_results" d ;; l <-? iter_json j ;; result_map result_of_json l) ;;
  on_runner (set_results rs).

(** Where the [try] block checks what it reads, whatever the types of the values that
    are only stored: the keys that must be there, the keyword arguments of [TestResult],
    what is iterated over, and [len(runner.failed_tests)]. *)
Definition rejected_result (j : json) : bool :=
  match j with
  | JObj d => negb (forallb (λ k, bool_decide (k ∈ result_fields)) (dkeys d) &&
                    forallb (λ k, dmem k d) ["test_name"; "attempt"; "attempt_type"; "success"])
  | _ => true
  end.

Definition rejected_results (j : json) : bool :=
  match iter_json j with Ok l => existsb rejected_result l | Raise _ => true end.

(** [d[k]] fails, or what is done with it does. *)
Definition rejected_field (k : str) (rejects : json → bool) (d : dict json) : bool :=
  match dget k d with Some j => rejects j | None => true end.

Definition rejected_summary (j : json) : bool :=
  match j with
  | JObj d =>
      rejected_field "initial_result" rejected_result d ||
      rejected_field "retry_results" rejected_results d ||
      negb (forallb (λ k, dmem k d) ["test_name"; "final_status"; "total_attempts"])
  | _ => true
  end.

Definition rejected (state_data : json) : bool :=
  match state_data with
  | JObj d =>
      rejected_field "start_time" (λ j, match j with JStr _ => false | _ => true end) d ||
      rejected_field "failed_tests" (λ j, negb (is_ok (len_json j))) d ||
      negb (forallb (λ k, dmem k d) ["parallel_attempts_done"; "serial_attempts_done"]) ||
      rejected_field "test_summaries"
        (λ j, match j with JObj sums => existsb rejected_summary (dvalues sums) | _ => true end) d ||
      rejected_field "all_results" rejected_results d
  | _ => true
  end.

(** When the model stopped at a value of another type, but the [try] block raises
    further on, then this is what happens (and the attributes of the runner, which the
    program does not use any more then, are as they were when the model stopped). *)
Definition load_state (path : str) : M state bool :=
  state_data <- on_world (safe_json_operation "load" path JNull) ;;
  if json_truthy state_data then
    catch (restore_state state_data ;;; ret true)
      (λ e, if decide (e = Untyped ∧ rejected state_data = false) then raise Untyped else ret false)
  else ret false.

(** [self.output_dir.glob("**/test_run_state.json")] over the files the program
    knows, in the order the file system lists them. *)
Definition is_state_file_in (dir path : str) : bool :=
  bool_decide (path = state_file dir) ||
  (startswith (path_join dir "") path &&
   startswith (reverse "/test_run_state.json") (reverse path)).

(** [max(state_files, key=mtime)]: the first of the most recent ones. *)
Fixpoint latest (best : str * float) (l : list (str * float)) : str :=
  match l with
  | [] => best.1
  | p :: l' => latest (if flt best.2 p.2 then p else best) l'
  end.

Definition find_latest_state_file (dir : str) : M world (option str) :=
  w <- get ;;
  state_files <- reorder (filter (λ p, is_state_file_in dir p = true) (map_to_list (fs w)).*1) ;;
  match state_files with
  | [] => ret None
  | _ =>
      stamped <- map_each state_files (λ p, t <- tick ;; ret (p, env_mtime t p)) ;;
      match stamped with
      | [] => ret None
      | p :: l => ret (Some (latest p l))
      end
  end.

Definition load_failed_tests_from_state (dir : str) (path : option str) : M world (list str) :=
  path <- match path with
          | Some p => ret (Some p)
          | None => find_latest_state_file dir
          end ;;
  match path with
  | None => ret []
  | Some p =>
      state_data <- safe_json_operation "load" p JNull ;;
      if json_truthy state_data then
        lift (d <-? items state_data ;;
              optional (λ j, n <-? len_json j ;; decode_json j) [] "failed_tests" d)
      else ret []
  end.

End StateManager.

(** ** Lemmas on the guarded operations *)

Section wp_ops.
Context {env : Env}.

(** Loading never raises and changes no file. *)
Lemma wp_safe_load path Q w :
  (∀ j w', same_but_clock w w' → Q (Ok j) w') →
  wp (safe_json_operation "load" path JNull) Q w.
Proof.
  intros H. unfold safe_json_operation. apply wp_catch. rewrite decide_True by done.
  unfold safe_file_operation, read_json. apply wp_catch, wp_bind, wp_open_read.
  assert (Hjson : ∀ (e : exn) w', same_but_clock w w' →
    wp (match e with FileNotFoundError => if decide ("r" = "r") then raise FileOperationError
        else raise FileNotFoundError | _ => raise FileOperationError end)
      (λ (r : result json) s', match r with
        | Ok a => Q (Ok a) s'
        | Raise e => wp (match e with FileOperationError =>
            ret (if decide ("load" = "load") then JNull else JBool false) | _ => raise e end) Q s'
        end) w').
  { intros e w' Hw. destruct e; rewrite ?decide_True by done; apply wp_raise; cbn beta iota;
      apply wp_ret; by apply H. }
  intros [f|e] w' Hw _; [|by apply Hjson].
  destruct f; [apply wp_lift|apply wp_ret|apply wp_raise].
  - destruct (env_json_loads s); [by apply H|by apply Hjson].
  - by apply H.
  - by apply (Hjson UnicodeDecodeError).
Qed.

(** Loading a document that is there, when [open] does not fail. *)
Lemma safe_load_ok path j w :
  env_open_fault (clock w) path = None → fs w !! path = Some (FJson j) →
  safe_json_operation "load" path JNull w = (Ok j, mkWorld (fs w) (S (clock w)) (trace w)).
Proof.
  intros Hf Hj. unfold safe_json_operation, safe_file_operation, read_json, open_read.
  rewrite decide_True by done. unfold catch, bind, tick. rewrite Hf. cbn.
  by rewrite Hj.
Qed.

(** Saving writes the document or nothing, and lets only [FileNotFoundError] out. *)
Lemma wp_safe_save path j Q w :
  (∀ w', trace w' = trace w → clock w ≤ clock w' → fs w' = <[path := FJson j]> (fs w) →
     Q (Ok (JBool true)) w') →
  (∀ w', same_but_clock w w' → Q (Ok (JBool false)) w') →
  (∀ w', same_but_clock w w' → Q (Raise FileNotFoundError) w') →
  wp (safe_json_operation "save" path j) Q w.
Proof.
  intros Hok Hfail Hraise. unfold safe_json_operation. apply wp_catch.
  rewrite decide_False, decide_True by done.
  unfold safe_file_operation. apply wp_bind, wp_catch, wp_open_write.
  intros [[]|e] w' Ht Hc Hfs.
  { cbn beta iota. apply wp_ret. by apply Hok. }
  assert (Hs : same_but_clock w w') by done.
  destruct e; try (apply wp_raise; cbn beta iota;
    rewrite decide_False by done; apply wp_ret; by apply Hfail).
  rewrite decide_False by done. apply wp_raise. cbn beta iota. apply wp_raise. by apply Hraise.
Qed.

Lemma safe_save_ok path j w :
  env_open_fault (clock w) path = None →
  safe_json_operation "save" path j w =
    (Ok (JBool true), mkWorld (<[path := FJson j]> (fs w)) (S (clock w)) (trace w)).
Proof.
  intros Hf. unfold safe_json_operation, safe_file_operation, open_write.
  rewrite decide_False, decide_True by done. unfold catch, bind, tick. by rewrite Hf.
Qed.

End wp_ops.

(** ** The runtime history *)

(** Every entry only holds durations that are long enough. *)
Definition histories_ok (d : dict RuntimeHistory) : Prop :=
  wf d ∧ Forall (λ kv, Forall (λ x, long_enough x = true) (runtimes kv.2)) d.

Lemma load_history_entry_json h :
  Forall (λ x, long_enough x = true) (runtimes h) →
  load_history_entry (history_json h) =
    Ok (match runtimes h with [] => None | _ => Some h end).
Proof.
  destruct h as [n l u]. simpl. intros Hl.
  assert (load_history_entry (history_json (mkRuntimeHistory n l u)) =
    result_bind (result_map as_number (JFloat <$> l)) (λ all,
      match filter (λ x, long_enough x = true) all with
      | [] => Ok None
      | l' => Ok (Some (mkRuntimeHistory n l' u))
      end)) as -> by done.
  rewrite (result_map_encode JFloat as_number) by done. simpl.
  rewrite filter_all_true by done. by destruct l.
Qed.

(** An entry that loads satisfies the invariant. *)
Lemma load_history_entry_ok data h :
  load_history_entry data = Ok (Some h) → Forall (λ x, long_enough x = true) (runtimes h).
Proof.
  unfold load_history_entry. intros H. bind_inv H.
  pose proof (Forall_filter_self (λ x, long_enough x = true) a2) as HF.
  destruct (filter (λ x, long_enough x = true) a2); [done|]. bind_inv H. by simplify_eq.
Qed.

Section history.
Context {env : Env}.

(** What the loading loop does to the runner: it adds entries to the history,
    keeps its invariant, and changes nothing else. *)
Lemma wp_load_history_entries l n Q s :
  histories_ok (runtime_history (rn s)) →
  (∀ r h, histories_ok h → Q r (mkState (wd s) (set_runtime_history h (rn s)))) →
  wp (load_history_entries l n) Q s.
Proof.
  revert n s. induction l as [|[k data] l IH]; intros n [w r] Hh HQ; simpl.
  { apply wp_ret. simpl in HQ. replace r with (set_runtime_history (runtime_history r) r) by by destruct r.
    by apply HQ. }
  apply wp_bind, wp_lift. simpl in *. destruct (load_history_entry data) as [[h|]|e] eqn:E.
  - apply wp_bind, wp_on_runner. simpl. destruct Hh as [Hwf HF].
    apply IH; simpl.
    + split; [by apply wf_dset|]. apply Forall_dset; [|done]. by eapply load_history_entry_ok.
    + intros r' h' Hh'. by apply HQ.
  - by apply IH.
  - replace r with (set_runtime_history (runtime_history r) r) by by destruct r. by apply HQ.
Qed.

(** Loading entries that were saved: those with a duration come back. *)
Lemma load_history_entries_json (d : dict RuntimeHistory) n w r :
  Forall (λ kv, Forall (λ x, long_enough x = true) (runtimes kv.2)) d →
  load_history_entries (dmap history_json d) n (mkState w r) =
    let kept := filter (λ kv, runtimes kv.2 ≠ []) d in
    (Ok (n + length kept),
     mkState w (set_runtime_history
       (foldl (λ h kv, dset kv.1 kv.2 h) (runtime_history r) kept) r)).
Proof.
  intros HF. revert n r. induction HF as [|[k h] d Hh HF IH]; intros n r; simpl.
  { rewrite Nat.add_0_r. by destruct r. }
  unfold bind at 1, lift. simpl in Hh. rewrite load_history_entry_json by done.
  rewrite filter_cons. simpl.
  destruct (runtimes h) eqn:E.
  - rewrite decide_False by (intros []; done). apply IH.
  - rewrite decide_True by done. unfold bind, on_runner, modify. simpl.
    change (fmap _ d) with (dmap history_json d). rewrite IH. simpl. repeat f_equal. lia.
Qed.

End history.

Section update.
Context {env : Env}.

(** The effect of recording a duration: only the entry of that test changes, only
    the history file is written, and only [FileNotFoundError] escapes. *)
Definition update_effect (dir name : str) (d : float) (s s' : state) : Prop :=
  ∃ h', rn s' = set_runtime_history (dset name h' (runtime_history (rn s))) (rn s) ∧
    (let old := match dget name (runtime_history (rn s)) with
                | Some h => runtimes h | None => [] end in
     runtimes h' = if long_enough d then push_runtime d old else old) ∧
    trace (wd s') = trace (wd s) ∧ clock (wd s) ≤ clock (wd s') ∧
    (∀ p, p ≠ runtime_file dir → fs (wd s') !! p = fs (wd s) !! p).

(** What saving the history does: one file, no other effect. *)
Lemma wp_save_runtime_history dir Q s :
  (∀ r w, r = Raise FileNotFoundError ∨ is_ok r = true →
     trace w = trace (wd s) → clock (wd s) ≤ clock w →
     (∀ p, p ≠ runtime_file dir → fs w !! p = fs (wd s) !! p) →
     Q r (mkState w (rn s))) →
  wp (save_runtime_history dir) Q s.
Proof.
  intros HQ. unfold save_runtime_history. wp_steps. apply wp_on_world, wp_safe_save.
  - intros w H1 H2 H3. apply HQ; auto. intros p Hp. by rewrite H3, lookup_insert_ne.
  - intros w (H1 & H2 & H3). apply HQ; auto. congruence.
  - intros w (H1 & H2 & H3). apply HQ; auto. congruence.
Qed.

Lemma save_runtime_history_ok dir w r :
  env_open_fault (clock w) (runtime_file dir) = None →
  save_runtime_history dir (mkState w r) =
    (Ok (JBool true),
     mkState (mkWorld (<[runtime_file dir := FJson (JObj (dmap history_json (runtime_history r)))]> (fs w))
       (S (clock w)) (trace w)) r).
Proof.
  intros H. unfold save_runtime_history, bind, get, on_world. cbn [wd rn].
  by rewrite safe_save_ok.
Qed.

(** After [ensure_history_entry] there is an entry, the old one or an empty one. *)
Lemma wp_ensure_history_entry name Q s :
  (∀ w h hs, same_but_clock (wd s) w → dget name hs = Some h →
     runtimes h = match dget name (runtime_history (rn s)) with Some h => runtimes h | None => [] end →
     (∀ h', dset name h' hs = dset name h' (runtime_history (rn s))) →
     Q (Ok tt) (mkState w (set_runtime_history hs (rn s)))) →
  wp (ensure_history_entry name) Q s.
Proof.
  intros HQ. destruct s as [w r]. unfold ensure_history_entry. wp_steps. simpl in *.
  destruct (dmem name (runtime_history r)) eqn:E.
  - apply dmem_true, dget_is_Some in E as [h Hh]. wp_steps.
    replace r with (set_runtime_history (runtime_history r) r) by by destruct r.
    by eapply HQ; [|done|rewrite Hh|].
  - apply dmem_false in E. apply wp_bind, wp_on_world. unfold now. apply wp_bind, wp_tick.
    cbn beta iota. apply wp_ret. cbn beta iota. apply wp_on_runner. simpl.
    eapply HQ; [unfold same_but_clock; simpl; auto with lia|apply dget_dset_eq|by rewrite E|].
    intros h'. apply dset_dset.
Qed.

(** How recording ends: [RuntimeError] only in a pool, when the history was changed. *)
Definition update_end (concurrent : bool) (r : result unit) : Prop :=
  r = Ok tt ∨ r = Raise FileNotFoundError ∨
  r = Raise RuntimeError ∧ concurrent = true ∧ ∃ t, env_history_changed t = true.

Lemma wp_go_through_history concurrent Q s :
  (∀ w, same_but_clock (wd s) w → Q (Ok tt) (mkState w (rn s))) →
  (∀ w t, same_but_clock (wd s) w → concurrent = true → env_history_changed t = true →
     Q (Raise RuntimeError) (mkState w (rn s))) →
  wp (go_through_history concurrent) Q s.
Proof.
  intros HQ HE. unfold go_through_history. destruct s as [w r]. destruct concurrent; [|apply wp_ret, HQ; reflexivity].
  apply wp_bind, wp_on_world, wp_tick. cbn beta iota.
  assert (same_but_clock w (mkWorld (fs w) (S (clock w)) (trace w))) as Hw
    by (unfold same_but_clock; simpl; auto with lia).
  destruct (env_history_changed _) eqn:E; [apply wp_raise; by eapply HE|by apply wp_ret, HQ].
Qed.

Lemma wp_update_runtime_history concurrent dir name d Q s :
  (∀ r s', update_effect dir name d s s' → update_end concurrent r → Q r s') →
  wp (update_runtime_history concurrent dir name d) Q s.
Proof.
  intros HQ. unfold update_runtime_history. apply wp_bind, wp_ensure_history_entry.
  intros w h hs (Hfs & Htr & Hck) Hget Hrt Hset. wp_steps. simpl. rewrite Hget.
  apply wp_bind, wp_on_world, wp_add_runtime. intros h' w' (Hfs' & Htr' & Hck') _ Hrt' _. simpl.
  apply wp_bind, wp_on_runner. simpl. rewrite Hset.
  assert (Hchanged : ∀ w'' r, same_but_clock w' w'' → update_end concurrent r →
    Q r (mkState w'' (set_runtime_history (dset name h' (runtime_history (rn s))) (rn s)))).
  { intros w'' r (Hfs'' & Htr'' & Hck'') Hr. apply HQ; [|done]. simpl in *. exists h'. simpl. rewrite <-Hrt.
    split_and!; [done|done|congruence|lia|]. intros p _. congruence. }
  apply wp_bind, wp_go_through_history; simpl in *.
  2: { intros w'' t Hw'' Hc Ht. apply Hchanged; [done|]. right; right. eauto. }
  intros w1 (Hfs1 & Htr1 & Hck1). cbn beta iota. clear Hchanged.
  apply wp_bind, wp_save_runtime_history. simpl. intros r w'' Hr Htr'' Hck'' Hfs''.
  assert (He : update_effect dir name d s
    (mkState w'' (set_runtime_history (dset name h' (runtime_history (rn s))) (rn s)))).
  { simpl in *. exists h'. simpl. rewrite <-Hrt. split_and!; [done|done|congruence|lia|].
    intros p Hp. rewrite Hfs'' by done. congruence. }
  destruct r as [j|e]; [apply wp_ret|]; apply HQ; [done|by left|done|].
  destruct Hr as [[= ->]|]; [by right; left|done].
Qed.

Lemma update_effect_ok dir name d s s' :
  update_effect dir name d s s' → histories_ok (runtime_history (rn s)) →
  histories_ok (runtime_history (rn s')).
Proof.
  intros (h' & Hrn & Hrt & _) [Hwf HF]. rewrite Hrn. simpl. split; [by apply wf_dset|].
  apply Forall_dset; [|done]. simpl. rewrite Hrt.
  assert (Hold : Forall (λ x, long_enough x = true)
    (match dget name (runtime_history (rn s)) with Some h => runtimes h | None => [] end)).
  { destruct (dget name _) eqn:E; [|constructor].
    apply dget_elem_of in E. rewrite Forall_forall in HF. by apply (HF _ E). }
  destruct (long_enough d) eqn:E; [|done]. unfold push_runtime.
  case_decide; auto with dev.
Qed.

End update.

(** ** Theorems *)

(** Whatever durations are reported, whether or not the history file can be written,
    and even when another thread changes the history, the runtime history keeps one entry per test and only durations
    of at least thirty seconds; recording touches only that test's entry and no
    file but the history's. *)
Theorem update_runtime_history_invariant {env : Env} (concurrent : bool) (dir name : str) (d : float) (s : state)
    (Hok : histories_ok (runtime_history (rn s))) :
  let '(r, s') := update_runtime_history concurrent dir name d s in
  update_end concurrent r ∧
  histories_ok (runtime_history (rn s')) ∧
  (∀ k, k ≠ name → dget k (runtime_history (rn s')) = dget k (runtime_history (rn s))) ∧
  (∀ p, p ≠ runtime_file dir → fs (wd s') !! p = fs (wd s) !! p).
Proof.
  cut (wp (update_runtime_history concurrent dir name d) (λ r s',
    update_end concurrent r ∧ histories_ok (runtime_history (rn s')) ∧
    (∀ k, k ≠ name → dget k (runtime_history (rn s')) = dget k (runtime_history (rn s))) ∧
    (∀ p, p ≠ runtime_file dir → fs (wd s') !! p = fs (wd s) !! p)) s).
  { unfold wp. by destruct (update_runtime_history concurrent dir name d s). }
  apply wp_update_runtime_history. intros r s' He Hr.
  pose proof (update_effect_ok _ _ _ _ _ He Hok) as Hok'.
  destruct He as (h' & Hrn & _ & _ & _ & Hfs). split_and!; [done|done| |done].
  intros k Hk. rewrite Hrn. simpl. by apply dget_dset_ne.
Qed.

(** C19: a history that was saved is restored by the next run: every entry with a
    recorded duration comes back unchanged and in place, the others are dropped,
    and nothing else of the runner changes. *)
Theorem runtime_history_roundtrip {env : Env} (dir : str) (s : state) (r0 : runner)
    (Hopen : ∀ t p, env_open_fault t p = None)
    (Hok : histories_ok (runtime_history (rn s))) (Hfresh : runtime_history r0 = []) :
  let s1 := (save_runtime_history dir s).2 in
  ∃ w2, load_runtime_history dir (mkState (wd s1) r0) =
    (Ok tt, mkState w2 (set_runtime_history
      (filter (λ kv, runtimes kv.2 ≠ []) (runtime_history (rn s))) r0)).
Proof.
  destruct s as [w r], Hok as [Hwf HF]. rewrite save_runtime_history_ok by done.
  cbv zeta. cbn [snd wd rn] in *. set (w1 := mkWorld _ _ _).
  unfold load_runtime_history. unfold bind at 1, on_world. cbn [wd rn].
  rewrite (safe_load_ok _ (JObj (dmap history_json (runtime_history r))));
    [|done|by unfold w1; simpl; rewrite lookup_insert_eq].
  unfold json_truthy. set (w2 := mkWorld _ _ _).
  destruct (dmap history_json (runtime_history r)) as [|kv l] eqn:E.
  { exists w2. unfold ret. do 2 f_equal. unfold dmap in E. apply fmap_nil_inv in E. rewrite E.
    rewrite filter_nil, <-Hfresh. by destruct r0. }
  rewrite <-E. unfold bind at 1, lift, items. unfold bind at 1.
  rewrite load_history_entries_json by done. cbv zeta. rewrite Hfresh.
  set (kept := filter _ (runtime_history r)).
  assert (wf kept) as Hkept
    by (eapply sublist_NoDup; [exact Hwf|apply fmap_sublist, sublist_filter]).
  change (foldl _ [] kept) with (dict_of kept). rewrite dict_of_id by done.
  case_decide.
  - unfold bind. rewrite save_runtime_history_ok by done. by eexists.
  - by exists w2.
Qed.

Lemma runtime_history_roundtrip_witness :
  let r := mkRunner [] [] (mkDatetime 2026 3 16 9 0 0 0) [] 0 [] None
             [("a", mkRuntimeHistory "a" [float_of_Z 40] "u"); ("b", mkRuntimeHistory "b" [] "v")] in
  let r0 := set_runtime_history [] r in
  ∃ w2, load_runtime_history (env := quiet_env) "out"
      (mkState (wd (save_runtime_history (env := quiet_env) "out" (mkState empty_world r)).2) r0) =
    (Ok tt, mkState w2 (set_runtime_history
      (filter (λ kv, runtimes kv.2 ≠ []) (runtime_history r)) r0)).
Proof.
  intros r r0.
  apply (runtime_history_roundtrip (env := quiet_env) "out" (mkState empty_world r) r0).
  - done.
  - split.
    + apply NoDup_cons. split; [by rewrite list_elem_of_singleton|apply NoDup_singleton].
    + repeat constructor.
  - done.
Defined.

Lemma update_runtime_history_invariant_witness :
  let s := mkState empty_world (mkRunner [] [] (mkDatetime 2026 3 16 9 0 0 0) [] 0 [] None []) in
  let '(r, s') := update_runtime_history (env := quiet_env) true "out" "a" (float_of_Z 40) s in
  update_end (env := quiet_env) true r ∧
  histories_ok (runtime_history (rn s')) ∧
  (∀ k, k ≠ "a" → dget k (runtime_history (rn s')) = dget k (runtime_history (rn s))) ∧
  (∀ p, p ≠ runtime_file "out" → fs (wd s') !! p = fs (wd s) !! p).
Proof.
  apply (update_runtime_history_invariant (env := quiet_env) true "out" "a" (float_of_Z 40)).
  split; [apply wf_nil|constructor].
Defined.

(** ** Saving and restoring a run *)

(** What a runner satisfies for its state file to restore it. *)
Definition runner_ok (r : runner) : Prop :=
  wf (test_summaries r) ∧ wf (serial_attempts_done r) ∧ datetime_ok (start_time r) = true.

(** The runner [r0] after restoring what [r] saved: everything but the runtime
    history, which has a file of its own. *)
Definition restored (r r0 : runner) : runner :=
  mkRunner (results r) (test_summaries r) (start_time r) (failed_tests r)
    (parallel_attempts_done r) (serial_attempts_done r) (initial_result_log r) (runtime_history r0).

Lemma restore_summaries_json (d : dict TestSummary) w r0 :
  restore_summaries (dmap encode_json d) (mkState w r0) =
    (Ok tt, mkState w (set_test_summaries
      (foldl (λ d kv, dset kv.1 kv.2 d) (test_summaries r0) d) r0)).
Proof.
  revert r0. induction d as [|[k s] d IH]; intros r0; simpl.
  { by destruct r0. }
  change (list_fmap _ _ _ d) with (dmap encode_json d).
  unfold bind at 1, lift. rewrite summary_of_summary_json.
  unfold bind, on_runner, modify. cbn [wd rn]. by rewrite IH.
Qed.

Lemma restore_build_state a r w r0 :
  runner_ok r → test_summaries r0 = [] →
  restore_state (build_state_data a r) (mkState w r0) = (Ok tt, mkState w (restored r r0)).
Proof.
  intros (Hs & Hc & Ht) Hfresh.
  assert (restore_state (build_state_data a r) =
    bind (lift (read_start_time (JStr (isoformat (start_time r))))) (λ t,
    bind (on_runner (set_start_time t)) (λ _,
    bind (lift (decode_json (encode_json (failed_tests r)))) (λ f,
    bind (on_runner (set_failed_tests f)) (λ _,
    bind (on_runner (set_parallel_attempts_done (parallel_attempts_done r))) (λ _,
    bind (lift (decode_dict (encode_dict (serial_attempts_done r)))) (λ c,
    bind (on_runner (set_serial_attempts_done c)) (λ _,
    bind (lift (as_opt_str (opt_str_json (initial_result_log r)))) (λ i,
    bind (on_runner (set_initial_result_log i)) (λ _,
    bind (restore_summaries (dmap encode_json (test_summaries r))) (λ _,
    bind (lift (result_map result_of_json (result_json <$> results r))) (λ rs,
    on_runner (set_results rs))))))))))))) as -> by done.
  unfold read_start_time. rewrite fromisoformat_isoformat, decode_encode_json, decode_encode_dict by done.
  rewrite (result_map_encode result_json result_of_json) by apply result_of_result_json.
  assert (as_opt_str (opt_str_json (initial_result_log r)) = Ok (initial_result_log r)) as ->
    by by destruct (initial_result_log r).
  unfold bind, lift, on_runner, modify. cbn [wd rn].
  rewrite restore_summaries_json. cbn. rewrite Hfresh.
  change (foldl _ [] (test_summaries r)) with (dict_of (test_summaries r)).
  by rewrite dict_of_id.
Qed.

(** C15: resuming restores exactly what was saved: results, summaries, start time,
    failed tests, both attempt counters and the initial log, in a runner that
    keeps its own runtime history. *)
Theorem state_roundtrip {env : Env} (a : args) (s : state) (r0 : runner)
    (Hopen : ∀ t p, env_open_fault t p = None)
    (Hok : runner_ok (rn s)) (Hfresh : test_summaries r0 = []) :
  let '(saved, s1) := save_state a s in
  saved = Ok (JBool true) ∧ rn s1 = rn s ∧
  ∃ w2, load_state (state_file (output_dir a)) (mkState (wd s1) r0) =
    (Ok true, mkState w2 (restored (rn s) r0)).
Proof.
  destruct s as [w r]. unfold save_state, bind, get, on_world. cbn [wd rn] in *.
  rewrite safe_save_ok by done. split_and!; [done..|].
  set (w1 := mkWorld _ _ _). unfold load_state, bind at 1, on_world. cbn [wd rn].
  rewrite (safe_load_ok _ (build_state_data a r));
    [|done|by unfold w1; simpl; rewrite lookup_insert_eq].
  change (json_truthy (build_state_data a r)) with true. cbv iota beta.
  unfold catch, bind. rewrite restore_build_state by done. by eexists.
Qed.

Lemma state_roundtrip_witness :
  let res := mkTestResult "t" 1 "serial" false (Some "kuttl-test-x") (float_of_Z 40) None None in
  let r := mkRunner [res] [("t", mkTestSummary "t" res [res] "failed" 2 None)]
             (mkDatetime 2026 3 16 9 0 0 0) ["t"; "u"] 1 [("t", 2%Z)] (Some "log") [] in
  let r0 := set_test_summaries [] (set_failed_tests [] r) in
  let '(saved, s1) := save_state (env := quiet_env) default_args (mkState empty_world r) in
  saved = Ok (JBool true) ∧ rn s1 = r ∧
  ∃ w2, load_state (env := quiet_env) (state_file (output_dir default_args)) (mkState (wd s1) r0) =
    (Ok true, mkState w2 (restored r r0)).
Proof.
  intros res r r0.
  apply (state_roundtrip (env := quiet_env) default_args (mkState empty_world r) r0).
  - done.
  - split_and!; [apply NoDup_singleton|apply NoDup_singleton|reflexivity].
  - reflexivity.
Defined.
