(* ===== verification/TestExecutor.v ===== *)
(** The [TestExecutor] class of scripts/auto-retry-tests.py: building the command
    of a test run, running it, and reading its log. *)

From S2P Require Import Prelude PyStr PyFloat PyDict PyTime Md5 Json World RuntimeHistory.
From S2P Require Import TestModel StateManager.

Import TestConstants.

(** ** Names *)

Definition format_duration (seconds : float) : str :=
  if flt seconds (float_of_Z 60) then fmt1 seconds ++ "s"
  else if flt seconds (float_of_Z 3600) then fmt1 (fdiv seconds (float_of_Z 60)) ++ "m"
  else fmt1 (fdiv seconds (float_of_Z 3600)) ++ "h".

(** [max_length] is 60 unless a caller says otherwise; it is at least 3. *)
Definition shorten_test_name (test_name : str) (max_length : nat) : str :=
  if decide (length test_name ≤ max_length) then test_name
  else
    let parts := split_char 44 test_name in
    match parts with
    | first :: _ :: _ :: _ => first ++ "..." ++ default [] (last parts)
    | _ => take (max_length - 3) test_name ++ "..."
    end.

Definition create_safe_log_filename (test_name : str) (attempt : Z) (attempt_type : str) : str :=
  let safe_test_name := replace_char 47 95 test_name in
  let safe_test_name :=
    if decide (MAX_TEST_NAME_LENGTH < length safe_test_name) then
      let hash_suffix := take HASH_SUFFIX_LENGTH (md5_hexdigest test_name) in
      take (MAX_TEST_NAME_LENGTH - 9) safe_test_name ++ "_" ++ hash_suffix
    else safe_test_name in
  safe_test_name ++ "_attempt_" ++ str_of_Z attempt ++ "_" ++ attempt_type ++ ".txt".

(** ** Command line of a run *)

Definition build_test_command (a : args) (test_name : option str) (skip_delete : bool)
    (work_dir : option str) : list str :=
  ["scripts/run-tests"]
  ++ (if negb (parallel a =? 0)%Z && negb (truthy test_name)
      then ["--parallel"; str_of_Z (parallel a)] else [])
  ++ (if skip_delete then ["--skip-delete"] else [])
  ++ (if truthy test_name then ["--test"; default [] test_name] else [])
  ++ (if truthy work_dir then ["--work-dir"; default [] work_dir] else [])
  ++ extra_args a.

(** ** Reading logs *)

(** The class [[\w\-]]. *)
Definition step_char (c : N) : bool := is_word c || (c =? 45)%N.

Section TestExecutor.
Context {env : Env}.
Local Open Scope py_scope.

Definition setup_test_environment (a : args) : M world (option (dict str)) :=
  if truthy (venv a) then
    let v := default [] (venv a) in
    let venv_bin := path_join (path_of v) "bin" in
    e <- exists_ venv_bin ;;
    if e then
      match dget "PATH" env_environ with
      | None => raise KeyError
      | Some p =>
          ret (Some (dset "VIRTUAL_ENV" v (dset "PATH" (venv_bin ++ ":" ++ p) env_environ)))
      end
    else ret None
  else ret None.

Definition extract_test_namespace_from_log_file (log_file : str) : M world (option str) :=
  catch
    (content <- read_text log_file ;;
     ret (app NAMESPACE_GROUP_PREFIX <$> re_search NAMESPACE_PREFIX not_space content))
    (λ _, ret None).

Definition extract_failed_step (log_file : str) : M world (option str) :=
  catch
    (content <- read_text log_file ;;
     match re_search "failed in step " step_char content with
     | Some g => ret (Some ("failed in step " ++ g))
     | None => ret (Some "Could not find failed step")
     end)
    (λ _, ret (Some "Could not find failed step")).

Definition parse_failed_tests (content : str) : list str :=
  re_findall FAILED_TEST_PREFIX not_space content.

Definition parse_failed_tests_from_log (log_file : str) : M world (list str) :=
  catch (content <- read_text log_file ;; ret (parse_failed_tests content)) (λ _, ret []).

(** ** Deleting a namespace *)

Definition delete_test_namespace (namespace : option str) : M world bool :=
  if truthy namespace then
    let command_args := ["kubectl"; "delete"; "namespace"; default [] namespace] in
    t <- tick ;;
    match env_command t command_args with
    | Raise _ => ret false
    | Ok (returncode, _) =>
        emit (EvKubectl command_args) ;;;
        ret (returncode =? 0)%Z
    end
  else ret false.

(** ** Running *)

Definition log_header (command_args : list str) : str :=
  "Command: " ++ join " " command_args ++ newline
  ++ "Working directory: " ++ env_cwd ++ newline
  ++ replicate 80 61%N ++ newline ++ newline.

(** The [with open(log_file, "w")] block: the exit code. *)
Definition run_logged (command_args : list str) (vars : option (dict str)) (log_file : str) : M world Z :=
  let header := log_header command_args in
  open_write log_file (FText header) ;;;
  t <- tick ;;
  match env_subprocess t command_args vars with
  | Raise e => raise e
  | Ok (returncode, output) =>
      emit (EvRun command_args) ;;;
      modify (λ w, mkWorld
        (<[log_file := match output with
                       | Some o => FText (header ++ o)
                       | None => FUndecodable
                       end]> (fs w)) (clock w) (trace w)) ;;;
      ret returncode
  end.

(** [if work_dir and Path(work_dir).exists(): shutil.rmtree(work_dir)] *)
Definition cleanup_work_dir (work_dir : str) : M world unit :=
  if truthy (Some work_dir) then
    e <- exists_ work_dir ;;
    if e then
      t <- tick ;;
      match env_rmtree_fault t work_dir with
      | Some _ => ret tt
      | None => emit (EvRmtree work_dir)
      end
    else ret tt
  else ret tt.

Definition work_dir_name (test_name : option str) (attempt : Z) (attempt_type timestamp : str) : str :=
  if truthy test_name then
    let safe_test_name := replace_char 44 95 (replace_char 47 95 (default [] test_name)) in
    "tests/_work_" ++ safe_test_name ++ "_" ++ str_of_Z attempt ++ "_" ++ attempt_type ++ "_" ++ timestamp
  else
    "tests/_work_full_suite_" ++ str_of_Z attempt ++ "_" ++ attempt_type ++ "_" ++ timestamp.

(** Where the log goes. *)
Definition log_path (dir : str) (test_name : option str) (attempt : Z) (attempt_type : str) : M world str :=
  if truthy test_name then
    ret (path_join (path_join dir "retries")
           (create_safe_log_filename (default [] test_name) attempt attempt_type))
  else
    t <- now ;;
    ret (path_join dir ("full_suite_" ++ attempt_type ++ "_" ++ strftime_compact t ++ ".txt")).

(** Recording the duration of an individual test; parallel attempts are made by the
    threads of a pool, all others by the main thread alone. *)
Definition record_runtime (dir : str) (test_name : option str) (attempt_type : str) (d : float) : M state unit :=
  if truthy test_name && bool_decide (test_name ≠ Some "full_suite")
  then update_runtime_history (bool_decide (attempt_type = "parallel")) dir (default [] test_name) d
  else ret tt.

(** A passed run that was told to keep its namespace deletes it. *)
Definition cleanup_namespace (test_name : option str) (skip_delete : bool) (r : TestResult) : M world unit :=
  if truthy test_name && skip_delete && success r && truthy (namespace r)
  then delete_test_namespace (namespace r) ;;; ret tt
  else ret tt.

Definition run_single_test_suite (a : args) (test_name : option str) (skip_delete : bool)
    (attempt : Z) (attempt_type : str) : M state TestResult :=
  t <- on_world now ;;
  let work_dir := work_dir_name test_name attempt attempt_type (strftime_millis t) in
  let command_args := build_test_command a test_name skip_delete (Some work_dir) in
  log_file <- on_world (log_path (output_dir a) test_name attempt attempt_type) ;;
  environment_vars <- on_world (setup_test_environment a) ;;
  start_time <- on_world time ;;
  returncode <- on_world (run_logged command_args environment_vars log_file) ;;
  end_time <- on_world time ;;
  let duration := fsub end_time start_time in
  let success := (returncode =? 0)%Z in
  namespace <- on_world (extract_test_namespace_from_log_file log_file) ;;
  failed_step <- (if success then ret None else on_world (extract_failed_step log_file)) ;;
  let test_result := mkTestResult
    (if truthy test_name then default [] test_name else "full_suite")
    attempt attempt_type success namespace duration (Some log_file) failed_step in
  record_runtime (output_dir a) test_name attempt_type duration ;;;
  on_world (cleanup_namespace test_name skip_delete test_result) ;;;
  on_world (cleanup_work_dir work_dir) ;;;
  ret test_result.

End TestExecutor.

Example shorten_commas :
  shorten_test_name "restarter_openshift-false,hadoop-3.3.4,zookeeper-3.8.0_with-a-long-suffix" 60
  = "restarter_openshift-false...zookeeper-3.8.0_with-a-long-suffix".
Proof. vm_compute. reflexivity. Qed.

Example parse_two_failures :
  parse_failed_tests ("--- FAIL: kuttl (41s)" ++ newline ++ "    --- FAIL: kuttl/harness/a_b-1 (20s)"
    ++ newline ++ "    --- PASS: kuttl/harness/c (20s)" ++ newline
    ++ "    --- FAIL: kuttl/harness/d,e (1s)" ++ newline) = ["a_b-1"; "d,e"].
Proof. vm_compute. reflexivity. Qed.

(** ** What each step may do *)

Section wp_executor.
Context {env : Env}.

Lemma wp_now Q w : (∀ t w', same_but_clock w w' → Q (Ok t) w') → wp now Q w.
Proof.
  intros H. unfold now. apply wp_bind, wp_tick. cbn beta iota. apply wp_ret, H.
  unfold same_but_clock. simpl. auto with lia.
Qed.

Lemma wp_time Q w : (∀ t w', same_but_clock w w' → Q (Ok t) w') → wp time Q w.
Proof.
  intros H. unfold time. apply wp_bind, wp_tick. cbn beta iota. apply wp_ret, H.
  unfold same_but_clock. simpl. auto with lia.
Qed.

Lemma wp_exists p Q w : (∀ b w', same_but_clock w w' → Q (Ok b) w') → wp (exists_ p) Q w.
Proof.
  intros H. unfold exists_. apply wp_bind, wp_tick. cbn beta iota. apply wp_ret, H.
  unfold same_but_clock. simpl. auto with lia.
Qed.

Lemma wp_log_path dir tn n ty Q w :
  (∀ p w', same_but_clock w w' → Q (Ok p) w') → wp (log_path dir tn n ty) Q w.
Proof.
  intros H. unfold log_path. destruct (truthy tn); [by apply wp_ret, H|].
  apply wp_bind, wp_now. intros t w' Hw. cbn beta iota. by apply wp_ret, H.
Qed.

Lemma wp_setup_test_environment a Q w :
  (∀ r w', same_but_clock w w' → Q r w') → wp (setup_test_environment a) Q w.
Proof.
  intros H. unfold setup_test_environment. destruct (truthy (venv a)); [|by apply wp_ret, H].
  apply wp_bind, wp_exists. intros [] w' Hw; cbn beta iota; [|by apply wp_ret, H].
  destruct (dget _ _); [apply wp_ret|apply wp_raise]; by apply H.
Qed.

Lemma wp_extract_namespace p Q w :
  (∀ o w', same_but_clock w w' → Q (Ok o) w') → wp (extract_test_namespace_from_log_file p) Q w.
Proof.
  intros H. unfold extract_test_namespace_from_log_file. apply wp_catch, wp_bind, wp_read_text.
  intros [c|e] w' Hw; wp_steps; by apply H.
Qed.

Lemma wp_extract_failed_step p Q w :
  (∀ o w', same_but_clock w w' → Q (Ok o) w') → wp (extract_failed_step p) Q w.
Proof.
  intros H. unfold extract_failed_step. apply wp_catch, wp_bind, wp_read_text.
  intros [c|e] w' Hw; [|wp_steps; by apply H].
  cbn beta iota. destruct (re_search _ _ _); wp_steps; by apply H.
Qed.

Lemma wp_parse_failed_tests_from_log p Q w :
  (∀ l w', same_but_clock w w' → Q (Ok l) w') → wp (parse_failed_tests_from_log p) Q w.
Proof.
  intros H. unfold parse_failed_tests_from_log. apply wp_catch, wp_bind, wp_read_text.
  intros [c|e] w' Hw; wp_steps; by apply H.
Qed.

(** A test run leaves exactly one [EvRun] behind when it could be started. *)
Lemma wp_run_logged cmd vars p Q w :
  (∀ r w', clock w ≤ clock w' →
     trace w' = trace w ++ (if is_ok r then [EvRun cmd] else []) →
     (∀ q, q ≠ p → fs w' !! q = fs w !! q) → Q r w') →
  wp (run_logged cmd vars p) Q w.
Proof.
  intros H. unfold run_logged. apply wp_bind, wp_open_write.
  intros [[]|e] w1 Ht Hc Hfs; cbn beta iota.
  2: { apply H; [done|by rewrite Ht, app_nil_r|by rewrite Hfs]. }
  apply wp_bind, wp_tick. cbn beta iota. destruct (env_subprocess _ _ _) as [[code out]|e].
  - unfold emit. wp_steps. apply H; simpl; [lia|by rewrite Ht|].
    intros q Hq. by rewrite lookup_insert_ne, Hfs, lookup_insert_ne.
  - apply wp_raise, H; simpl; [lia|by rewrite Ht, app_nil_r|].
    intros q Hq. by rewrite Hfs, lookup_insert_ne.
Qed.

Definition delete_event (ns : str) : event := EvKubectl ["kubectl"; "delete"; "namespace"; ns].

Lemma wp_cleanup_namespace tn skip r Q w :
  (∀ w' evs, clock w ≤ clock w' → fs w' = fs w → trace w' = trace w ++ evs →
     evs = [] ∨ (truthy tn && skip && success r = true ∧
                 ∃ ns, namespace r = Some ns ∧ ns ≠ [] ∧ evs = [delete_event ns]) →
     Q (Ok tt) w') →
  wp (cleanup_namespace tn skip r) Q w.
Proof.
  intros H. unfold cleanup_namespace.
  destruct (truthy tn && skip && success r && truthy (namespace r)) eqn:E.
  2: { apply wp_ret, (H _ []); [done|done|by rewrite app_nil_r|by left]. }
  apply andb_true_iff in E as [E Hns]. unfold delete_test_namespace. rewrite Hns.
  apply wp_bind, wp_bind, wp_tick. cbn beta iota.
  destruct (env_command _ _) as [[code err]|e].
  - unfold emit. wp_steps. eapply H; simpl; [lia|done|done|]. right. split; [done|].
    destruct (namespace r) as [[|c ns]|]; [done| |done]. by exists (c :: ns).
  - wp_steps. apply (H _ []); simpl; [lia|done|by rewrite app_nil_r|by left].
Qed.

Lemma wp_cleanup_work_dir d Q w :
  (∀ w' evs, clock w ≤ clock w' → fs w' = fs w → trace w' = trace w ++ evs →
     evs = [] ∨ evs = [EvRmtree d] → Q (Ok tt) w') →
  wp (cleanup_work_dir d) Q w.
Proof.
  intros H. unfold cleanup_work_dir.
  destruct (truthy (Some d)); [|by apply wp_ret, (H _ []); [| |rewrite app_nil_r|left]].
  apply wp_bind, wp_exists. intros [] w1 (Hfs & Ht & Hc); cbn beta iota.
  2: { apply wp_ret, (H _ []); [done|done|by rewrite Ht, app_nil_r|by left]. }
  apply wp_bind, wp_tick. cbn beta iota. destruct (env_rmtree_fault _ _).
  - apply wp_ret, (H _ []); simpl; [lia|done|by rewrite Ht, app_nil_r|by left].
  - unfold emit. apply wp_modify, (H _ [EvRmtree d]); simpl; [lia|done|by rewrite Ht|by right].
Qed.

(** Only the runtime history of the runner changes, and it stays well formed. *)
Definition history_step (r r' : runner) : Prop :=
  (∃ hs, r' = set_runtime_history hs r) ∧
  (histories_ok (runtime_history r) → histories_ok (runtime_history r')).

#[global] Instance history_step_preorder : PreOrder history_step.
Proof.
  split.
  - intros r. split; [by exists (runtime_history r); destruct r|done].
  - intros x y z [[h1 ->] H1] [[h2 ->] H2]. split; [by exists h2|auto].
Qed.

Lemma wp_record_runtime dir tn ty d Q s :
  (∀ r s', history_step (rn s) (rn s') → trace (wd s') = trace (wd s) →
     clock (wd s) ≤ clock (wd s') → update_end (bool_decide (ty = "parallel")) r → Q r s') →
  wp (record_runtime dir tn ty d) Q s.
Proof.
  intros H. unfold record_runtime.
  destruct (_ && _); [|apply wp_ret, H; [reflexivity|done|done|by left]].
  apply wp_update_runtime_history. intros r s' He Hr.
  pose proof (update_effect_ok _ _ _ _ _ He) as Hok.
  destruct He as (h' & Hrn & _ & Ht & Hc & _). apply H; auto.
  split; [|done]. rewrite Hrn. eauto.
Qed.

End wp_executor.

(** ** What a run does *)

(** The name a result carries. *)
Definition result_name (tn : option str) : str :=
  if truthy tn then default [] tn else "full_suite".

(** The events of a run: it is started once; afterwards its namespace may be
    deleted (only that of a passed run told to keep it) and its work directory
    removed. *)
Definition run_events (a : args) (tn : option str) (skip : bool) (r : TestResult) (evs : list event) : Prop :=
  ∃ wdir nsev rmev,
    evs = [EvRun (build_test_command a tn skip (Some wdir))] ++ nsev ++ rmev ∧
    (nsev = [] ∨ (truthy tn && skip && success r = true ∧
       ∃ ns, namespace r = Some ns ∧ ns ≠ [] ∧ nsev = [delete_event ns])) ∧
    (rmev = [] ∨ rmev = [EvRmtree wdir]).

Definition run_effect (a : args) (tn : option str) (skip : bool) (n : Z) (ty : str)
    (s : state) (r : result TestResult) (s' : state) : Prop :=
  history_step (rn s) (rn s') ∧ clock (wd s) ≤ clock (wd s') ∧
  ∃ evs, trace (wd s') = trace (wd s) ++ evs ∧
    match r with
    | Ok res =>
        test_name res = result_name tn ∧ attempt res = n ∧ attempt_type res = ty ∧
        (success res = true → failed_step res = None) ∧ run_events a tn skip res evs
    | Raise _ => evs = [] ∨ ∃ wdir, evs = [EvRun (build_test_command a tn skip (Some wdir))]
    end.

Lemma wp_run_single_test_suite {env : Env} a tn skip n ty Q s :
  (∀ r s', run_effect a tn skip n ty s r s' → Q r s') →
  wp (run_single_test_suite a tn skip n ty) Q s.
Proof.
  intros HQ. destruct s as [w r]. unfold run_single_test_suite.
  assert (Hraise : ∀ e w', trace w' = trace w → clock w ≤ clock w' → Q (Raise e) (mkState w' r)).
  { intros e w' Ht Hc. apply HQ. split_and!; [reflexivity|done|].
    exists []. rewrite app_nil_r. auto. }
  apply wp_bind, wp_on_world, wp_now. intros t w1 (_ & Ht1 & Hc1). cbn beta iota zeta.
  apply wp_bind, wp_on_world, wp_log_path. intros p w2 (_ & Ht2 & Hc2). cbn beta iota zeta.
  apply wp_bind, wp_on_world, wp_setup_test_environment.
  intros [vars|e] w3 (_ & Ht3 & Hc3); cbn beta iota zeta; [|apply Hraise; simpl in *; [congruence|lia]].
  apply wp_bind, wp_on_world, wp_time. intros t4 w4 (_ & Ht4 & Hc4). cbn beta iota zeta.
  apply wp_bind, wp_on_world, wp_run_logged. intros rc w5 Hc5 Ht5 _.
  simpl in *. rewrite Ht4, Ht3, Ht2, Ht1 in Ht5.
  destruct rc as [code|e]; simpl in Ht5; [|rewrite app_nil_r in Ht5; apply Hraise; [done|lia]].
  apply wp_bind, wp_on_world, wp_time. intros t6 w6 (_ & Ht6 & Hc6). cbn beta iota zeta.
  apply wp_bind, wp_on_world, wp_extract_namespace. intros ns w7 (_ & Ht7 & Hc7). cbn beta iota zeta.
  apply wp_bind. simpl in *.
  eapply (wp_mono _ (λ fs s', ∃ o w8, fs = Ok o ∧ s' = mkState w8 r ∧ same_but_clock w7 w8 ∧
    ((code =? 0)%Z = true → o = None))).
  { destruct (code =? 0)%Z.
    - apply wp_ret. exists None, w7. by split_and!.
    - apply wp_on_world, wp_extract_failed_step. intros o w8 Hw8. exists o, w8. by split_and!. }
  intros ? ? (o & w8 & -> & -> & (_ & Ht8 & Hc8) & Ho). cbn beta iota zeta.
  apply wp_bind, wp_record_runtime. simpl. intros rr [w9 r9] Hstep Ht9 Hc9 Hrr. simpl in *.
  assert (Htr : trace w9 = trace w ++
    [EvRun (build_test_command a tn skip (Some (work_dir_name tn n ty (strftime_millis t))))]) by congruence.
  destruct rr as [[]|e].
  2: { apply HQ. split_and!; [done|simpl; lia|]. eexists. split; [exact Htr|]. eauto. }
  apply wp_bind, wp_on_world, wp_cleanup_namespace. simpl.
  intros w10 nsev Hc10 _ Ht10 Hns. cbn beta iota zeta.
  apply wp_bind, wp_on_world, wp_cleanup_work_dir. simpl.
  intros w11 rmev Hc11 _ Ht11 Hrm. apply wp_ret, HQ. split_and!; [done|simpl; lia|].
  eexists. split; [simpl; rewrite Ht11, Ht10, Htr, <-!app_assoc; done|].
  split_and!; [done..|]. eexists _, nsev, rmev. split_and!; done.
Qed.

(** ** Theorems *)

(** C10: a single run starts run-tests exactly once, with the command built for it;
    afterwards it deletes a namespace only when the test passed and had been told
    to keep it, so the namespace of a failed run always survives; it changes
    nothing of the runner but the runtime history, even when it raises. *)
Theorem run_single_test_suite_effect {env : Env} (a : args) (tn : option str) (skip : bool)
    (n : Z) (ty : str) (s : state) :
  let '(r, s') := run_single_test_suite a tn skip n ty s in
  (∃ hs, rn s' = set_runtime_history hs (rn s)) ∧
  ∃ evs, trace (wd s') = trace (wd s) ++ evs ∧
    match r with
    | Ok res =>
        test_name res = (if truthy tn then default [] tn else "full_suite") ∧
        attempt res = n ∧ attempt_type res = ty ∧
        (success res = true → failed_step res = None) ∧
        ∃ wdir nsev rmev,
          evs = [EvRun (build_test_command a tn skip (Some wdir))] ++ nsev ++ rmev ∧
          (nsev = [] ∨ truthy tn = true ∧ skip = true ∧ success res = true ∧
             ∃ ns, namespace res = Some ns ∧ nsev = [delete_event ns]) ∧
          (rmev = [] ∨ rmev = [EvRmtree wdir])
    | Raise _ => evs = [] ∨ ∃ wdir, evs = [EvRun (build_test_command a tn skip (Some wdir))]
    end.
Proof.
  cut (wp (run_single_test_suite a tn skip n ty) (run_effect a tn skip n ty s) s).
  2: { by apply wp_run_single_test_suite. }
  unfold wp. destruct (run_single_test_suite a tn skip n ty s) as [r s']. simpl.
  intros ([Hh _] & _ & evs & Ht & Hr). split; [done|]. exists evs. split; [done|].
  destruct r; [|done]. destruct Hr as (? & ? & ? & ? & wdir & nsev & rmev & He & Hns & Hrm).
  split_and!; [done..|]. exists wdir, nsev, rmev. split_and!; [done| |done].
  destruct Hns as [|[E (ns & ? & _ & ?)]]; [by left|right].
  rewrite !andb_true_iff in E. naive_solver.
Qed.

(** C20: parsing a log reports only names that a FAIL line of the log shows, whole,
    and reports each of them: every name that follows the literal text at the
    start of the log or after white space. *)
Theorem parse_failed_tests_correct (content name : str) :
  (name ∈ parse_failed_tests content →
     ∃ pre post, content = pre ++ "--- FAIL: kuttl/harness/" ++ name ++ post ∧
       name ≠ [] ∧ Forall (λ c, is_space c = false) name ∧
       (∀ c post', post = c :: post' → is_space c = true)) ∧
  (∀ pre post, content = pre ++ "--- FAIL: kuttl/harness/" ++ name ++ post →
     name ≠ [] → Forall (λ c, is_space c = false) name →
     (∀ c post', post = c :: post' → is_space c = true) →
     (∀ c, last pre = Some c → is_space c = true) →
     name ∈ parse_failed_tests content).
Proof.
  assert (Hcls : ∀ l, Forall (λ c, not_space c = true) l ↔ Forall (λ c, is_space c = false) l).
  { intros l. apply Forall_iff. intros c. unfold not_space. by rewrite negb_true_iff. }
  split.
  - intros (pre & ? & -> & t & -> & Hne & HF & Ht)%re_findall_from_sound.
    exists pre, t. split_and!; [done|done|by apply Hcls|].
    intros c t' ->. rewrite span_nil in Ht. specialize (Ht c t' eq_refl).
    unfold not_space in Ht. by apply negb_false_iff.
  - intros pre post -> Hne HF Hpost Hpre.
    eapply (re_findall_from_complete _ _ 0 _ pre); [reflexivity|done|done| |lia|].
    + exists post. split_and!; [done|done|by apply Hcls|].
      apply span_nil. intros c t' ->. unfold not_space. by rewrite (Hpost c t').
    + intros c Hc. unfold not_space. by rewrite (Hpre c Hc).
Qed.

(** A log file name contains no path separator and has bounded length whatever
    the test is called; a name of at most a hundred characters is kept as it is
    but for its slashes. *)
Theorem create_safe_log_filename_safe (test_name : str) (attempt : Z) (attempt_type : str)
    (Hty : 47%N ∉ attempt_type) :
  (47%N ∉ create_safe_log_filename test_name attempt attempt_type) ∧
  length (create_safe_log_filename test_name attempt attempt_type)
    ≤ 100 + 14 + length (str_of_Z attempt) + length attempt_type ∧
  (length test_name ≤ 100 →
   create_safe_log_filename test_name attempt attempt_type =
     replace_char 47 95 test_name ++ "_attempt_" ++ str_of_Z attempt ++ "_" ++ attempt_type ++ ".txt").
Proof.
  assert (Hslash : 47%N ∉ replace_char 47 95 test_name) by by apply replace_char_absent.
  assert (Hhash : 47%N ∉ md5_hexdigest test_name).
  { intros Hin. pose proof (md5_hexdigest_hex test_name) as HF.
    rewrite Forall_forall in HF. by specialize (HF _ Hin). }
  assert (Hnum : 47%N ∉ str_of_Z attempt) by (intros [|]%str_of_Z_char; [done|lia]).
  unfold create_safe_log_filename. rewrite length_replace_char.
  unfold MAX_TEST_NAME_LENGTH, HASH_SUFFIX_LENGTH. split_and!.
  - rewrite not_elem_of_Forall in *.
    assert (∀ l, forallb (λ x, negb (x =? 47)%N) l = true → Forall (λ x, x ≠ 47%N) l) as Hlit.
    { intros l Hl. apply Forall_forall. intros x Hx ->. rewrite forallb_forall in Hl.
      apply list_elem_of_In, Hl in Hx. done. }
    repeat case_decide; repeat apply Forall_app_2; auto using Forall_take.
  - case_decide; rewrite !length_app, ?length_take, ?length_replace_char, ?length_md5_hexdigest;
      unfold lit; cbn [length]; lia.
  - intros Hlen. by rewrite decide_False by lia.
Qed.

Lemma create_safe_log_filename_safe_witness :
  (47%N ∉ ("serial" : str)) ∧
  ((47%N ∉ create_safe_log_filename "a/b" 1 "serial") ∧
   length (create_safe_log_filename "a/b" 1 "serial")
     ≤ 100 + 14 + length (str_of_Z 1) + length ("serial" : str) ∧
   (length ("a/b" : str) ≤ 100 →
    create_safe_log_filename "a/b" 1 "serial" =
      replace_char 47 95 "a/b" ++ "_attempt_" ++ str_of_Z 1 ++ "_" ++ "serial" ++ ".txt")).
Proof.
  assert (47%N ∉ ("serial" : str)) as H by (apply (bool_decide_unpack _); vm_compute; done).
  split; [exact H|]. apply (create_safe_log_filename_safe "a/b" 1 "serial" H).
Defined.
