(* ===== verification/RunNames.v ===== *)
(** Which runs of scripts/auto-retry-tests.py share a file: when the log files, and
    when the work directories, of two attempts have the same name. *)

From S2P Require Import Prelude PyStr Md5 PyTime RuntimeHistory TestExecutor.
Import TestConstants.

(** ** Names made of parts *)

Lemma app_cons_inj {A} (c : A) (l l' r r' : list A) :
  c ∉ r → c ∉ r' → l ++ c :: r = l' ++ c :: r' → l = l' ∧ r = r'.
Proof.
  intros Hr Hr'. revert l'. induction l as [|x l IH]; intros [|y l']; cbn.
  - by intros [= ->].
  - intros [= -> ->]. destruct Hr. apply elem_of_app. right. left.
  - intros [= -> <-]. destruct Hr'. apply elem_of_app. right. left.
  - intros [= -> H]. by destruct (IH _ H) as [-> ->].
Qed.

Lemma str_of_Z_no_underscore z : 95%N ∉ str_of_Z z.
Proof. intros [|]%str_of_Z_char; [done|lia]. Qed.

(** A name, a number and the type of an attempt, joined by underscores. *)
Lemma attempt_name_inj (s s' : str) (n n' : Z) (ty ty' : str) :
  95%N ∉ ty → 95%N ∉ ty' →
  s ++ "_" ++ str_of_Z n ++ "_" ++ ty = s' ++ "_" ++ str_of_Z n' ++ "_" ++ ty' →
  s = s' ∧ n = n' ∧ ty = ty'.
Proof.
  intros Hty Hty' H. assert ((s ++ "_" ++ str_of_Z n) ++ 95%N :: ty =
    (s' ++ "_" ++ str_of_Z n') ++ 95%N :: ty') as H' by (rewrite <-!app_assoc; exact H).
  apply app_cons_inj in H' as [H' ->]; [|done..].
  change (s ++ 95%N :: str_of_Z n = s' ++ 95%N :: str_of_Z n') in H'.
  apply app_cons_inj in H' as [-> Hn%(inj _)]; auto using str_of_Z_no_underscore.
Qed.

(** The part of a log's name that stands for the test. *)
Definition log_stem (t : str) : str :=
  if decide (MAX_TEST_NAME_LENGTH < length t) then
    take (MAX_TEST_NAME_LENGTH - 9) (replace_char 47 95 t) ++ "_" ++ take HASH_SUFFIX_LENGTH (md5_hexdigest t)
  else replace_char 47 95 t.

Lemma log_name_inj (t t' : str) (n n' : Z) (ty ty' : str) :
  95%N ∉ ty → 95%N ∉ ty' →
  create_safe_log_filename t n ty = create_safe_log_filename t' n' ty' ↔
  log_stem t = log_stem t' ∧ n = n' ∧ ty = ty'.
Proof.
  intros Hty Hty'.
  assert (∀ t n ty, create_safe_log_filename t n ty =
    ((log_stem t ++ "_attempt") ++ "_" ++ str_of_Z n ++ "_" ++ ty) ++ ".txt") as Heq.
  { intros. unfold create_safe_log_filename, log_stem. rewrite length_replace_char, <-!app_assoc. done. }
  rewrite !Heq. split; [|by intros (-> & -> & ->)].
  intros [(H & -> & ->)%attempt_name_inj _]%app_inj_2; [|done..].
  by apply app_inj_2 in H as [-> _].
Qed.

(** ** The theorem *)

(** C21: two attempts share a log file, or a work directory, exactly when number and
    type of the attempt are the same and the tests' names become the same: for the
    log, by the replacement of their slashes, where of a name longer than a hundred
    characters only the first ninety-one remain, with an underscore and eight digits of
    the name's hash (so it can also become the same as a name of a hundred); for the
    directory, by the replacement of slashes and commas, and when the attempts were
    started in the same millisecond.  The time is no part of a log's name: "a/b" and
    "a_b" always share their logs. *)
Theorem attempts_kept_apart (t t' : str) (n n' : Z) (ty ty' ts ts' : str)
    (Ht : t ≠ [] ∧ t' ≠ []) (Hty : (95%N ∉ ty) ∧ (95%N ∉ ty')) (Hts : length ts = length ts') :
  (work_dir_name (Some t) n ty ts = work_dir_name (Some t') n' ty' ts' ↔
     replace_char 44 95 (replace_char 47 95 t) = replace_char 44 95 (replace_char 47 95 t') ∧
     n = n' ∧ ty = ty' ∧ ts = ts') ∧
  (length t ≤ 100 → length t' ≤ 100 →
   (create_safe_log_filename t n ty = create_safe_log_filename t' n' ty' ↔
      replace_char 47 95 t = replace_char 47 95 t' ∧ n = n' ∧ ty = ty')) ∧
  (100 < length t → 100 < length t' →
   (create_safe_log_filename t n ty = create_safe_log_filename t' n' ty' ↔
      take 91 (replace_char 47 95 t) = take 91 (replace_char 47 95 t') ∧
      take 8 (md5_hexdigest t) = take 8 (md5_hexdigest t') ∧ n = n' ∧ ty = ty')) ∧
  (length t ≤ 100 → 100 < length t' →
   (create_safe_log_filename t n ty = create_safe_log_filename t' n' ty' ↔
      replace_char 47 95 t = take 91 (replace_char 47 95 t') ++ "_" ++ take 8 (md5_hexdigest t') ∧
      n = n' ∧ ty = ty')).
Proof.
  destruct Ht as [Ht Ht'], Hty as [Hty Hty']. split_and!.
  - unfold work_dir_name. destruct t as [|c t], t' as [|c' t']; [done..|]. cbn [truthy from_option]; unfold id.
    split; [|by intros (-> & -> & -> & ->)]. intros H%(inj (app _)).
    rewrite !app_assoc in H. apply app_inj_2 in H as [H ->]; [|done].
    apply app_inj_2 in H as [H _]; [|done]. rewrite <-!app_assoc in H.
    by apply attempt_name_inj in H as (-> & -> & ->).
  - intros Hl Hl'. rewrite log_name_inj by done. unfold log_stem, MAX_TEST_NAME_LENGTH.
    by rewrite !decide_False by lia.
  - intros Hl Hl'. rewrite log_name_inj by done. unfold log_stem, MAX_TEST_NAME_LENGTH, HASH_SUFFIX_LENGTH.
    rewrite !decide_True by lia. change (100 - 9) with 91. split; [|by intros (-> & -> & -> & ->)].
    intros ([-> H]%app_inj_1 & -> & ->); [by apply (inj (app _)) in H as ->|].
    rewrite !length_take, !length_replace_char. lia.
  - intros Hl Hl'. rewrite log_name_inj by done. unfold log_stem, MAX_TEST_NAME_LENGTH, HASH_SUFFIX_LENGTH.
    by rewrite decide_False, decide_True by lia.
Qed.

Lemma attempts_kept_apart_witness :
  let ts := strftime_millis (mkDatetime 2026 3 16 9 0 0 1000) in
  let ts' := strftime_millis (mkDatetime 2026 3 16 9 0 0 2000) in
  work_dir_name (Some "smoke,a") 1 "serial" ts ≠ work_dir_name (Some "smoke,a") 1 "serial" ts' ∧
  create_safe_log_filename "a/b" 1 "serial" = create_safe_log_filename "a_b" 1 "serial".
Proof.
  intros ts ts'.
  assert (95%N ∉ ("serial" : str)) as Hty by (apply (bool_decide_unpack _); vm_compute; done).
  assert (length ts = length ts') as Hts by (vm_compute; reflexivity).
  split.
  - intros H. destruct (attempts_kept_apart "smoke,a" "smoke,a" 1 1 "serial" "serial" ts ts') as [H1 _];
      [done|done|done|]. apply H1 in H as (_ & _ & _ & H). vm_compute in H. discriminate.
  - destruct (attempts_kept_apart "a/b" "a_b" 1 1 "serial" "serial" ts ts') as (_ & H2 & _ & _); [done..|].
    apply H2; [cbn; lia|cbn; lia|]. split; [vm_compute; reflexivity|done].
Defined.
