(* ===== verification/Returns.v ===== *)
(** Computations that always return: what of scripts/auto-retry-tests.py cannot raise
    when files can be opened. *)

From S2P Require Import Prelude PyStr PyFloat PyDict PyTime Json World RuntimeHistory TestModel.
From S2P Require Import StateManager TestExecutor.

Lemma wp_both {S A} (m : M S A) (Q1 Q2 Q : result A → S → Prop) s :
  wp m Q1 s → wp m Q2 s → (∀ r s', Q1 r s' → Q2 r s' → Q r s') → wp m Q s.
Proof. unfold wp. auto. Qed.

(** ** Never raising *)

(** [m] returns, and its value satisfies [P]. *)
Definition returns {S A} (m : M S A) (P : A → Prop) : Prop := ∀ s, ∃ x, (m s).1 = Ok x ∧ P x.

Section returns.
Context {S : Type}.

Lemma returns_ret {A} (x : A) (P : A → Prop) : P x → returns (S := S) (ret x) P.
Proof. intros Hx s. by exists x. Qed.

Lemma returns_bind {A B} (m : M S A) (k : A → M S B) P P' :
  returns m P → (∀ x, P x → returns (k x) P') → returns (bind m k) P'.
Proof.
  intros Hm Hk s. destruct (Hm s) as (x & Hx & HP). unfold bind.
  destruct (m s) as [r s1]. simpl in Hx. subst r. by apply Hk.
Qed.

Lemma returns_get (P : S → Prop) : (∀ s, P s) → returns get P.
Proof. intros HP s. by exists s. Qed.

Lemma returns_catch {A} (m : M S A) h P : returns m P → returns (catch m h) P.
Proof.
  intros Hm s. destruct (Hm s) as (x & Hx & HP). unfold catch.
  destruct (m s) as [r s1]. simpl in Hx. subst r. by exists x.
Qed.

End returns.

Lemma returns_on_world {A} (m : M world A) P : returns m P → returns (on_world m) P.
Proof. intros Hm s. destruct (Hm (wd s)) as (x & Hx & HP). exists x. unfold on_world. destruct (m (wd s)). done. Qed.

Lemma returns_wp {S A} (m : M S A) P Q s : returns m P → wp m (λ r s', ∀ x, r = Ok x → P x → Q r s') s → wp m Q s.
Proof. intros Hm HQ. destruct (Hm s) as (x & Hx & HP). unfold wp in *. by eapply HQ. Qed.

(** ** When files can be opened *)

Section openable.
Context {env : Env} (a : args).
Hypothesis openable : ∀ t path, env_open_fault t path = None.

Lemma returns_open_write path f : returns (open_write path f) (λ _, True).
Proof. intros w. exists tt. unfold open_write, bind, tick. by rewrite openable. Qed.

Lemma returns_save path j : returns (safe_json_operation "save" path j) (λ _, True).
Proof. intros w. rewrite safe_save_ok by apply openable. by eexists. Qed.

(** Then recording only fails in a pool, when another thread changes the history. *)
Lemma wp_record_runtime_ok dir tn ty d Q s :
  (∀ r s', history_step (rn s) (rn s') → r = Ok tt ∨ r = Raise RuntimeError ∧
     ty = "parallel" ∧ (∃ t, env_history_changed t = true) → Q r s') →
  wp (record_runtime dir tn ty d) Q s.
Proof.
  intros HQ. eapply (wp_both _ (λ r s', history_step (rn s) (rn s') ∧ update_end (bool_decide (ty = "parallel")) r)
    (λ r s', r ≠ Raise FileNotFoundError)).
  - by apply wp_record_runtime.
  - unfold record_runtime. destruct (_ && _); [|by apply wp_ret].
    unfold update_runtime_history. apply wp_bind, wp_ensure_history_entry. intros w h hs _ Hget _ _.
    wp_steps. simpl. rewrite Hget. apply wp_bind, wp_on_world, wp_add_runtime. intros h' w' _ _ _ _. simpl.
    apply wp_bind, wp_on_runner, wp_bind, wp_go_through_history; [intros w1 _; cbn beta iota|done].
    apply wp_bind. unfold save_runtime_history. apply wp_bind, wp_get. cbn beta iota.
    eapply returns_wp; [apply returns_on_world, returns_save|]. unfold wp. by intros x -> _.
  - intros r s' [Hs [->|[->|(-> & Hty & Ht)]]] Hr; [apply HQ; [done|by left]|done|].
    apply HQ; [done|right]. by apply bool_decide_eq_true in Hty.
Qed.

Lemma returns_setup :
  (truthy (venv a) = true → is_Some (dget "PATH" env_environ)) → returns (setup_test_environment a) (λ _, True).
Proof.
  intros Hp. unfold setup_test_environment. destruct (truthy (venv a)) eqn:E.
  - destruct (Hp eq_refl) as [p Hpath]. rewrite Hpath.
    eapply returns_bind; [apply (returns_bind _ _ (λ _, True) (λ _, True));
      [by intros w; eexists|intros; by apply returns_ret]|].
    intros [] _; by apply returns_ret.
  - by apply returns_ret.
Qed.

End openable.
