(* ===== verification/ReportGenerator.v ===== *)
(** The [ReportGenerator] class of scripts/auto-retry-tests.py: the text report,
    the JSON report, and the runtime overview. *)

From S2P Require Import Prelude PyStr PyFloat PyDict PyTime Json World RuntimeHistory TestModel.
From S2P Require Import StateManager TestExecutor.

(** ** Text *)

(** The class has its own copy of [TestExecutor.format_duration]. *)
Definition format_duration (seconds : float) : str :=
  if flt seconds (float_of_Z 60) then fmt1 seconds ++ "s"
  else if flt seconds (float_of_Z 3600) then fmt1 (fdiv seconds (float_of_Z 60)) ++ "m"
  else fmt1 (fdiv seconds (float_of_Z 3600)) ++ "h".

(** [c * n] *)
Definition rule (c : N) (n : nat) : str := replicate n c.

(** [summaries of runner.test_summaries.values() with final_status == status] *)
Definition with_status (status : str) (r : runner) : list TestSummary :=
  filter (λ s, final_status s = status) (dvalues (test_summaries r)).

(** [((passed + flaky) / max(1, total)) * 100] *)
Definition success_rate (passed flaky total : nat) : float :=
  fmul (float_of_ratio (Z.of_nat (passed + flaky)) (Z.max 1 (Z.of_nat total))) (float_of_Z 100).

(** The block of one flaky test. *)
Definition flaky_lines (hist : dict RuntimeHistory) (s : TestSummary) : list str :=
  match filter (λ r, success r = true) (retry_results s) with
  | [] => []
  | ok :: _ =>
      ["  ✓ " ++ ts_test_name s;
       "    Passed on attempt " ++ str_of_Z (attempt ok) ++ " (" ++ attempt_type ok ++ ")";
       "    Total attempts: " ++ str_of_Z (total_attempts s)]
      ++ (match dget (ts_test_name s) hist with
          | Some h =>
              ["    Runtime: " ++ format_duration (duration ok)
               ++ " (avg: " ++ format_duration (get_average_runtime h) ++ ")"]
          | None => ["    Runtime: " ++ format_duration (duration ok)]
          end)
      ++ [""]
  end.

(** The block of one failed test. *)
Definition failed_lines (hist : dict RuntimeHistory) (s : TestSummary) : list str :=
  ["  ✗ " ++ ts_test_name s;
   "    Total attempts: " ++ str_of_Z (total_attempts s)]
  ++ (if truthy (final_namespace s)
      then ["    Namespace kept for debugging: " ++ default [] (final_namespace s)] else [])
  ++ (match dget (ts_test_name s) hist with
      | Some h =>
          ["    Average runtime: " ++ format_duration (get_average_runtime h)
           ++ " (from " ++ str_of_nat (length (runtimes h)) ++ " runs)"]
      | None => []
      end)
  ++ (match last (retry_results s) with
      | Some r =>
          if truthy (failed_step r)
          then ["    Last error: " ++ take 100 (default [] (failed_step r)) ++ "..."] else []
      | None => []
      end)
  ++ [""].

Definition average_line (p : str * float) : str := "  " ++ p.1 ++ ": " ++ format_duration p.2.

(** [_add_runtime_statistics_to_report]: the lines it appends. *)
Definition runtime_statistics (hist : dict RuntimeHistory) : list str :=
  match hist with
  | [] => []
  | _ =>
      let all_runtimes := mjoin (runtimes <$> dvalues hist) in
      ["RUNTIME STATISTICS"; rule 45 46]
      ++ (match all_runtimes with
          | [] => []
          | x :: l =>
              let test_averages :=
                sort_desc ((λ kv, (kv.1, get_average_runtime kv.2)) <$> hist) in
              ["Total test runs recorded: " ++ str_of_nat (length all_runtimes);
               "Overall average runtime: " ++ format_duration (mean all_runtimes);
               "Overall median runtime: " ++ format_duration (median all_runtimes);
               "Fastest test run: " ++ format_duration (fmin_list x l);
               "Slowest test run: " ++ format_duration (fmax_list x l);
               ""; "Slowest tests (by average):"]
              ++ (average_line <$> take 3 test_averages)
              ++ [""; "Fastest tests (by average):"]
              ++ (average_line <$> last_n 3 test_averages)
          end)
      ++ [""]
  end.

Definition report_lines (a : args) (r : runner) (start_time end_time : datetime) : list str :=
  let passed_tests := with_status "passed" r in
  let flaky_tests := with_status "flaky" r in
  let failed_tests := with_status "failed" r in
  let total := length (test_summaries r) in
  let hist := runtime_history r in
  [rule 61 80; "AUTOMATED TEST SUITE REPORT"; rule 61 46;
   "Started: " ++ strftime_seconds start_time;
   "Ended: " ++ strftime_seconds end_time;
   "Total Duration: " ++ str_timedelta (datetime_sub end_time start_time);
   ""; "SUMMARY"; rule 45 46;
   "Total Tests: " ++ str_of_nat total;
   "Passed: " ++ str_of_nat (length passed_tests);
   "Flaky (eventually passed): " ++ str_of_nat (length flaky_tests);
   "Failed: " ++ str_of_nat (length failed_tests);
   "Success Rate: " ++ fmt1 (success_rate (length passed_tests) (length flaky_tests) total) ++ "%";
   ""]
  ++ (match flaky_tests with
      | [] => []
      | _ => ["FLAKY TESTS (Failed initially but passed on retry)"; rule 45 60]
             ++ mjoin (flaky_lines hist <$> flaky_tests)
      end)
  ++ (match failed_tests with
      | [] => []
      | _ => ["FAILED TESTS"; rule 45 46] ++ mjoin (failed_lines hist <$> failed_tests)
      end)
  ++ runtime_statistics hist
  ++ ["CONFIGURATION"; rule 45 46;
      "Parallel: " ++ str_of_Z (parallel a);
      "Parallel retry attempts: " ++ str_of_Z (attempts_parallel a);
      "Serial retry attempts: " ++ str_of_Z (attempts_serial a);
      "Delete failed namespaces: " ++ str_of_bool (delete_failed_namespaces a);
      "Virtualenv: " ++ (if truthy (venv a) then default [] (venv a) else "None");
      ""].

(** The lines [print_runtime_summary] prints. *)
Definition runtime_summary_entry (r : runner) (test_name : str) : list str :=
  let estimated := get_estimated_runtime test_name r in
  if flt fzero estimated then
    match dget test_name (runtime_history r) with
    | None => []
    | Some h =>
        let '(min_time, max_time) := get_runtime_range h in
        ["  " ++ test_name;
         "    Est: " ++ format_duration estimated ++ " | Avg: "
         ++ format_duration (get_average_runtime h) ++ " | Range: " ++ format_duration min_time
         ++ "-" ++ format_duration max_time ++ " | Runs: " ++ str_of_nat (length (runtimes h))]
    end
  else ["  " ++ test_name ++ " - No runtime history"].

Definition print_runtime_summary (r : runner) (test_names : list str) (title : str) : list str :=
  let known := filter (λ t, flt fzero (get_estimated_runtime t r) = true) test_names in
  let total_estimated := foldl (λ x t, fadd x (get_estimated_runtime t r)) fzero known in
  [newline ++ "📊 " ++ title; rule 45 46]
  ++ mjoin (runtime_summary_entry r <$> test_names)
  ++ (if decide (0 < length known) then
        [newline ++ "Total estimated time: " ++ format_duration total_estimated;
         "Tests with history: " ++ str_of_nat (length known) ++ "/" ++ str_of_nat (length test_names)]
      else [])
  ++ [""].

(** ** Files *)

Definition detailed_report (a : args) (r : runner) (start_time end_time : datetime) : json :=
  JObj [("start_time", JStr (isoformat start_time));
        ("end_time", JStr (isoformat end_time));
        ("configuration", build_configuration_dict a);
        ("test_summaries", encode_dict (test_summaries r));
        ("all_results", encode_json (results r));
        ("runtime_history", JObj (dmap history_json (runtime_history r)))].

Section ReportGenerator.
Context {env : Env}.
Local Open Scope py_scope.

Definition generate_comprehensive_report (a : args) (start_time : datetime) : M state str :=
  end_time <- on_world now ;;
  s <- get ;;
  ret (join newline (report_lines a (rn s) start_time end_time)).

Definition save_detailed_json_report (a : args) (start_time : datetime) : M state unit :=
  end_time <- on_world now ;;
  s <- get ;;
  on_world (safe_json_operation "save" (path_join (output_dir a) "detailed_report.json")
    (detailed_report a (rn s) start_time end_time)) ;;;
  ret tt.

Definition generate_and_save_final_report (a : args) (start_time : datetime) : M state unit :=
  report <- generate_comprehensive_report a start_time ;;
  on_world (catch (open_write (path_join (output_dir a) "test_report.txt") (FText report))
    (λ _, ret tt)) ;;;
  save_detailed_json_report a start_time.

End ReportGenerator.

(** ** Lemmas *)

Section wp_report.
Context {env : Env}.

(** Reporting changes neither the runner nor the trace, and lets only
    [FileNotFoundError] out. *)
Lemma wp_generate_and_save_final_report a t Q s :
  (∀ r w, r = Ok tt ∨ r = Raise FileNotFoundError → trace w = trace (wd s) →
     clock (wd s) ≤ clock w → Q r (mkState w (rn s))) →
  wp (generate_and_save_final_report a t) Q s.
Proof.
  intros HQ. destruct s as [w r].
  unfold generate_and_save_final_report, generate_comprehensive_report, save_detailed_json_report.
  apply wp_bind, wp_bind, wp_on_world, wp_now. intros t1 w1 (_ & Ht1 & Hc1). wp_steps.
  simpl in *. apply wp_on_world, wp_catch, wp_open_write. intros rr w2 Ht2 Hc2 _.
  assert (Htail : wp (bind (on_world now) (λ end_time, bind get (λ s,
      bind (on_world (safe_json_operation "save" (path_join (output_dir a) "detailed_report.json")
        (detailed_report a (rn s) t end_time))) (λ _, ret tt)))) Q (mkState w2 r)).
  { apply wp_bind, wp_on_world, wp_now. intros t3 w3 (_ & Ht3 & Hc3). wp_steps. simpl in *.
    apply wp_on_world, wp_safe_save; simpl.
    - intros w4 Ht4 Hc4 _. apply wp_ret, HQ; [by left|congruence|lia].
    - intros w4 (_ & Ht4 & Hc4). apply wp_ret, HQ; [by left|congruence|lia].
    - intros w4 (_ & Ht4 & Hc4). apply HQ; [by right|congruence|lia]. }
  destruct rr; [exact Htail|]. apply wp_ret. exact Htail.
Qed.

End wp_report.

Definition failed_heading : str := "FAILED TESTS".

(** A summary as [create_test_summary] makes them: one of three statuses, and flaky
    only with a successful retry. *)
Definition summary_ok (s : TestSummary) : Prop :=
  (final_status s = "passed" ∨ final_status s = "flaky" ∨ final_status s = "failed") ∧
  (final_status s = "flaky" → any_success (retry_results s) = true).

Lemma elem_of_with_status status r s :
  s ∈ with_status status r ↔ s ∈ dvalues (test_summaries r) ∧ final_status s = status.
Proof. unfold with_status. rewrite list_elem_of_filter. naive_solver. Qed.

(** The statuses split the summaries. *)
Lemma with_status_partition r :
  (∀ s, s ∈ dvalues (test_summaries r) → summary_ok s) →
  length (with_status "passed" r) + length (with_status "flaky" r) + length (with_status "failed" r)
  = length (test_summaries r).
Proof.
  unfold with_status. intros H.
  replace (length (test_summaries r)) with (length (dvalues (test_summaries r)))
    by apply length_fmap.
  revert H. generalize (dvalues (test_summaries r)) as l.
  induction l as [|s l IH]; intros H; [done|]. rewrite !filter_cons.
  specialize (IH (λ s Hs, H s (list_elem_of_further _ _ _ Hs))).
  destruct (H s (list_elem_of_here _ _)) as [[E|[E|E]] _]; rewrite E;
    repeat first [rewrite decide_True by done | rewrite decide_False by done]; cbn [length]; lia.
Qed.

(** The lines that are no heading of the failed tests. *)
Definition no_heading (l : str) : Prop := l ≠ failed_heading.

Lemma flaky_lines_no_heading hist s : Forall no_heading (flaky_lines hist s).
Proof.
  unfold flaky_lines. destruct (filter _ _); [constructor|].
  destruct (dget _ hist); repeat constructor; intros [=].
Qed.

Lemma average_lines_no_heading l : Forall no_heading (average_line <$> l).
Proof. induction l; constructor; [intros [=]|done]. Qed.

Lemma runtime_statistics_no_heading hist : Forall no_heading (runtime_statistics hist).
Proof.
  unfold runtime_statistics. destruct hist; [constructor|].
  destruct (mjoin _); repeat (apply Forall_app; split);
    repeat first [apply average_lines_no_heading | constructor | intros [=]].
Qed.

(** The blocks of the flaky and of the failed tests. *)
Definition flaky_block (hist : dict RuntimeHistory) (l : list TestSummary) : list str :=
  match l with
  | [] => []
  | _ => ["FLAKY TESTS (Failed initially but passed on retry)"; rule 45 60] ++ mjoin (flaky_lines hist <$> l)
  end.

Definition failed_block (hist : dict RuntimeHistory) (l : list TestSummary) : list str :=
  match l with
  | [] => []
  | _ => [failed_heading; rule 45 46] ++ mjoin (failed_lines hist <$> l)
  end.

Lemma elem_of_flaky_block hist l s x :
  s ∈ l → x ∈ flaky_lines hist s → x ∈ flaky_block hist l.
Proof.
  intros Hs Hx. destruct l as [|s' l]; [by apply not_elem_of_nil in Hs|].
  apply elem_of_app. right. apply list_elem_of_join. exists (flaky_lines hist s).
  split; [done|]. by apply list_elem_of_fmap_2.
Qed.

Lemma elem_of_failed_block hist l s x :
  s ∈ l → x ∈ failed_lines hist s → x ∈ failed_block hist l.
Proof.
  intros Hs Hx. destruct l as [|s' l]; [by apply not_elem_of_nil in Hs|].
  apply elem_of_app. right. apply list_elem_of_join. exists (failed_lines hist s).
  split; [done|]. by apply list_elem_of_fmap_2.
Qed.

Lemma flaky_block_no_heading hist l : Forall no_heading (flaky_block hist l).
Proof.
  destruct l as [|s l]; [constructor|]. unfold flaky_block. apply Forall_app. split.
  - repeat constructor; intros [=].
  - apply Forall_join. induction (s :: l); constructor; [apply flaky_lines_no_heading|done].
Qed.

(** A line of the report is in its head, in one of the blocks, or after them. *)
Lemma elem_of_report_lines a r t t' x :
  x ∈ report_lines a r t t' ↔
    x ∈ take 15 (report_lines a r t t') ∨
    x ∈ flaky_block (runtime_history r) (with_status "flaky" r) ∨
    x ∈ failed_block (runtime_history r) (with_status "failed" r) ∨
    x ∈ runtime_statistics (runtime_history r) ∨
    x ∈ (["CONFIGURATION"; rule 45 46;
          "Parallel: " ++ str_of_Z (parallel a);
          "Parallel retry attempts: " ++ str_of_Z (attempts_parallel a);
          "Serial retry attempts: " ++ str_of_Z (attempts_serial a);
          "Delete failed namespaces: " ++ str_of_bool (delete_failed_namespaces a);
          "Virtualenv: " ++ (if truthy (venv a) then default [] (venv a) else "None");
          ""] : list str).
Proof.
  set (hd := take 15 (report_lines a r t t')). unfold report_lines in *. cbn zeta.
  rewrite !elem_of_app. subst hd. reflexivity.
Qed.

(** C40: the report accounts for every test: its lines 10 to 13 state the number of all
    tests and of those whose final status is passed, flaky and failed, and the last
    three add up to the first; each failed test is named, with the namespace that was
    kept; each flaky test is named, with its first successful attempt; and the
    heading of the failed tests is there exactly when there are some. *)
Theorem report_accounts_for_every_test (a : args) (r : runner) (start_time end_time : datetime)
    (Hok : ∀ s, s ∈ dvalues (test_summaries r) → summary_ok s) :
  let lines := report_lines a r start_time end_time in
  let count status := length (filter (λ s, final_status s = status) (dvalues (test_summaries r))) in
  count "passed" + count "flaky" + count "failed" = length (test_summaries r) ∧
  take 4 (drop 9 lines) =
    ["Total Tests: " ++ str_of_nat (length (test_summaries r));
     "Passed: " ++ str_of_nat (count "passed");
     "Flaky (eventually passed): " ++ str_of_nat (count "flaky");
     "Failed: " ++ str_of_nat (count "failed")] ∧
  (failed_heading ∈ lines ↔ count "failed" ≠ 0) ∧
  (∀ s, s ∈ dvalues (test_summaries r) → final_status s = "failed" →
     ("  ✗ " ++ ts_test_name s) ∈ lines ∧
     ∀ ns, final_namespace s = Some ns → ns ≠ [] →
       ("    Namespace kept for debugging: " ++ ns) ∈ lines) ∧
  (∀ s, s ∈ dvalues (test_summaries r) → final_status s = "flaky" →
     ∃ x, head (filter (λ x, success x = true) (retry_results s)) = Some x ∧
       ("  ✓ " ++ ts_test_name s) ∈ lines ∧
       ("    Passed on attempt " ++ str_of_Z (attempt x) ++ " (" ++ attempt_type x ++ ")") ∈ lines).
Proof.
  intros lines count. change count with (λ status, length (with_status status r)). cbn beta. clear count.
  split_and!.
  - by apply with_status_partition.
  - reflexivity.
  - unfold lines. rewrite elem_of_report_lines. split.
    + intros Hin Hz. apply nil_length_inv in Hz. rewrite Hz in Hin.
      assert (Forall no_heading (take 15 lines)) as Hh.
      { repeat constructor; intros [=]. }
      assert (∀ l, Forall no_heading l → failed_heading ∈ l → False) as Hno.
      { intros l. rewrite Forall_forall. intros H H'. by destruct (H _ H'). }
      destruct Hin as [H|[H|[H|[H|H]]]]; [| | | |]; revert H; apply Hno;
        [done|apply flaky_block_no_heading|constructor|apply runtime_statistics_no_heading|].
      repeat constructor; intros [=].
    + intros Hne. right; right; left. by destruct (with_status "failed" r); [|left].
  - intros s Hs Hst. assert (s ∈ with_status "failed" r) as Hf by by apply elem_of_with_status.
    split.
    + apply elem_of_report_lines. right; right; left. apply (elem_of_failed_block _ _ s); [done|left].
    + intros ns Hns Hne. apply elem_of_report_lines. right; right; left.
      apply (elem_of_failed_block _ _ s); [done|]. unfold failed_lines. rewrite Hns.
      destruct ns; [done|]. right; right; left.
  - intros s Hs Hst. assert (s ∈ with_status "flaky" r) as Hf by by apply elem_of_with_status.
    destruct (Hok s Hs) as [_ Hany]. specialize (Hany Hst).
    assert (∀ x, x ∈ flaky_lines (runtime_history r) s → x ∈ lines) as Hin.
    { intros x Hx. apply elem_of_report_lines. right; left. by apply (elem_of_flaky_block _ _ s). }
    unfold flaky_lines in Hin. destruct (filter _ (retry_results s)) as [|x l] eqn:E.
    + apply existsb_exists in Hany as (x & Hx & Hsucc).
      assert (x ∈ filter (λ r, success r = true) (retry_results s)) as Hf'.
      { apply list_elem_of_filter. split; [done|by apply list_elem_of_In]. }
      rewrite E in Hf'. by apply not_elem_of_nil in Hf'.
    + exists x. split_and!; [done| |]; apply Hin; [left|right; left].
Qed.

(** ** A concrete run *)

(** The namespace of the test that stays failed is kept. *)
Definition example_result (t : str) (ok : bool) (ns : option str) : TestResult :=
  mkTestResult t 1 "parallel" ok ns (float_of_Z 42) None None.

Definition example_runner : runner :=
  mkRunner [] [("ok" : str, mkTestSummary "ok" (example_result "ok" true None) [] "passed" 1 None);
               ("shaky" : str, mkTestSummary "shaky" (example_result "shaky" false None)
                  [example_result "shaky" true None] "flaky" 2 None);
               ("broken" : str, mkTestSummary "broken" (example_result "broken" false None)
                  [example_result "broken" false (Some "kuttl-test-a")] "failed" 2 (Some "kuttl-test-a"))]
    (mkDatetime 2025 1 2 3 4 5 0) ["shaky"; "broken"] 1 [] None [].

Lemma report_accounts_for_every_test_witness :
  let lines := report_lines default_args example_runner (mkDatetime 2025 1 2 3 4 5 0) (mkDatetime 2025 1 2 4 4 5 0) in
  take 4 (drop 9 lines) =
    ["Total Tests: 3" : str; "Passed: 1" : str; "Flaky (eventually passed): 1" : str; "Failed: 1" : str] ∧
  ("    Namespace kept for debugging: kuttl-test-a" : str) ∈ lines.
Proof.
  intros lines.
  assert (∀ s, s ∈ dvalues (test_summaries example_runner) → summary_ok s) as Hok.
  { intros s Hs. apply list_elem_of_In in Hs.
    destruct Hs as [<-|[<-|[<-|[]]]]; (split; [|done]); [by left|by right; left|by right; right]. }
  destruct (report_accounts_for_every_test default_args example_runner (mkDatetime 2025 1 2 3 4 5 0)
    (mkDatetime 2025 1 2 4 4 5 0) Hok) as (_ & Hcount & _ & H & _).
  split; [etrans; [exact Hcount|]; vm_compute; reflexivity|].
  apply (proj2 (H _ (list_elem_of_further _ _ _ (list_elem_of_further _ _ _ (list_elem_of_here _ _))) eq_refl)
    "kuttl-test-a" eq_refl). discriminate.
Defined.
