(* ===== verification/Runner.v ===== *)
(** The [AutoRetryTestRunner] class of scripts/auto-retry-tests.py and its
    [main]: the initial run, parallel and serial retries, summaries, resuming,
    and the exit code. *)

From S2P Require Import Prelude PyStr PyFloat PyDict PyTime Json World RuntimeHistory TestModel.
From S2P Require Import StateManager TestExecutor ReportGenerator.

Section Runner.
Context {env : Env}.
Variable a : args.
Local Open Scope py_scope.

(** ** Parallel retries *)

(** [future.result()] inside [try]: the outcome of a task. *)
Definition attempt_task {A} (m : M state A) : M state (result A) := λ s,
  let '(r, s') := m s in (Ok r, s').

Definition reorder_tasks {A} (l : list A) : M state (list A) := on_world (reorder l).

(** One pool of tasks: each test runs once, in the order the pool executes them, and
    the futures come back in the order [as_completed] yields them.  The tasks follow
    one another here; what they share while they really overlap is the runtime
    history, its file, and the logs of tests whose names become the same.  The first
    can make a task end with [RuntimeError], so that its result is lost: that is an
    answer of the environment in [update_runtime_history].  HistoryRace.v, SaveRace.v and
    LogRace.v have the interleaved steps of the threads, and show that the recorded
    durations (for distinct tests) and the results (for logs of their own) of the tasks
    that end are those of the tasks one after the other. *)
Definition run_pool (tests_to_retry : list str) (use_skip_delete : bool) (attempt : Z) :
    M state (list (str * result TestResult)) :=
  let max_parallel := Z.min (Z.of_nat (length tests_to_retry)) (parallel a) in
  if (max_parallel <=? 0)%Z then raise ValueError
  else
    order <- reorder_tasks tests_to_retry ;;
    outcomes <- map_each order (λ test_name,
      r <- attempt_task (run_single_test_suite a (Some test_name) use_skip_delete attempt "parallel") ;;
      ret (test_name, r)) ;;
    reorder_tasks outcomes.

(** The loop over the completed futures. *)
Fixpoint collect (outcomes : list (str * result TestResult)) (all_results : dict (list TestResult)) :
    M state (dict (list TestResult)) :=
  match outcomes with
  | [] => ret all_results
  | (test_name, Ok res) :: l =>
      on_runner (λ r, set_results (results r ++ [res]) r) ;;;
      collect l (dset test_name (default [] (dget test_name all_results) ++ [res]) all_results)
  | (test_name, Raise _) :: l => collect l all_results
  end.

(** The tests of [test_names] that have not passed yet. *)
Definition not_passed (all_results : dict (list TestResult)) (test_names : list str) : list str :=
  filter (λ t, any_success (default [] (dget t all_results)) = false) test_names.

(** [for attempt in range(1, max_attempts + 1)], [n] attempts left. *)
Fixpoint parallel_loop (n : nat) (attempt max_attempts : Z) (test_names : list str)
    (serial_tests_follow : bool) (all_results : dict (list TestResult)) :
    M state (dict (list TestResult)) :=
  match n with
  | O => ret all_results
  | S n' =>
      match not_passed all_results test_names with
      | [] => ret all_results
      | tests_to_retry =>
          let is_last_attempt := (attempt =? max_attempts)%Z in
          let use_skip_delete :=
            negb (delete_failed_namespaces a) && negb serial_tests_follow && is_last_attempt in
          outcomes <- run_pool tests_to_retry use_skip_delete attempt ;;
          all_results <- collect outcomes all_results ;;
          on_runner (set_parallel_attempts_done attempt) ;;;
          parallel_loop n' (attempt + 1)%Z max_attempts test_names serial_tests_follow all_results
      end
  end.

Definition empty_results (test_names : list str) : dict (list TestResult) :=
  dict_of ((λ t, (t, [])) <$> test_names).

Definition retry_tests_in_parallel (test_names : list str) (max_attempts : Z)
    (serial_tests_follow : bool) : M state (dict (list TestResult)) :=
  if (max_attempts <=? 0)%Z || bool_decide (test_names = []) then ret (empty_results test_names)
  else parallel_loop (Z.to_nat max_attempts) 1 max_attempts test_names serial_tests_follow
         (empty_results test_names).

(** ** Serial retries *)

Fixpoint serial_loop (n : nat) (attempt max_attempts : Z) (test_name : str) (acc : list TestResult) :
    M state (list TestResult) :=
  match n with
  | O => ret acc
  | S n' =>
      let is_last_attempt := (attempt =? max_attempts)%Z in
      let use_skip_delete := negb (delete_failed_namespaces a) && is_last_attempt in
      res <- run_single_test_suite a (Some test_name) use_skip_delete attempt "serial" ;;
      on_runner (λ r, set_results (results r ++ [res]) r) ;;;
      save_state a ;;;
      on_runner (λ r, set_serial_attempts_done (dset test_name attempt (serial_attempts_done r)) r) ;;;
      if success res then ret (acc ++ [res])
      else serial_loop n' (attempt + 1)%Z max_attempts test_name (acc ++ [res])
  end.

Definition retry_test_serially (test_name : str) (max_attempts : Z) : M state (list TestResult) :=
  if (max_attempts <=? 0)%Z then ret []
  else serial_loop (Z.to_nat max_attempts) 1 max_attempts test_name [].

(** ** Summaries *)

(** The classification of a test. *)
Definition classify (initial : TestResult) (retries : list TestResult) : str :=
  if success initial then "passed"
  else if any_success retries then "flaky"
  else "failed".

(** The last namespace among the retries. *)
Definition last_namespace (retries : list TestResult) : option str :=
  match filter (λ r, truthy (namespace r) = true) (reverse retries) with
  | r :: _ => namespace r
  | [] => None
  end.

Definition summarize (test_name : str) (initial : TestResult) (retries : list TestResult) : TestSummary :=
  let status := classify initial retries in
  mkTestSummary test_name initial retries status (1 + Z.of_nat (length retries))
    (if bool_decide (status = "failed") && negb (delete_failed_namespaces a)
     then last_namespace retries else None).

Definition create_test_summary (test_name : str) (initial : TestResult) (retries : list TestResult) :
    M state TestSummary :=
  let summary := summarize test_name initial retries in
  on_runner (λ r, set_test_summaries (dset test_name summary (test_summaries r)) r) ;;;
  ret summary.

(** ** Starting *)

Definition _load_failed_tests_for_rerun (path : str) : M state bool :=
  failed <- on_world (load_failed_tests_from_state (output_dir a) (Some (path_of path))) ;;
  match failed with
  | [] => ret false
  | _ => on_runner (set_failed_tests failed) ;;; ret true
  end.

Definition _run_initial_test_suite : M state bool :=
  initial <- run_single_test_suite a None false 1 "initial" ;;
  if success initial then
    s <- get ;;
    generate_and_save_final_report a (start_time (rn s)) ;;;
    ret false
  else
    failed <- on_world (parse_failed_tests_from_log (default [] (log_file initial))) ;;
    match failed with
    | [] => ret false
    | _ =>
        on_runner (set_failed_tests failed) ;;;
        on_runner (set_initial_result_log (log_file initial)) ;;;
        ret true
    end.

Definition initialize_run_mode : M state bool :=
  s <- get ;;
  match failed_tests (rn s) with
  | _ :: _ => ret true
  | [] =>
      match rerun_failed a with
      | Some ((_ :: _) as path) => _load_failed_tests_for_rerun path
      | _ => _run_initial_test_suite
      end
  end.

(** ** Retrying *)

(** A test that a restored summary says has passed. *)
Definition already_passed (r : runner) (test_name : str) : bool :=
  match dget test_name (test_summaries r) with
  | Some summary =>
      bool_decide (final_status summary = "passed") || bool_decide (final_status summary = "flaky")
  | None => false
  end.

Definition execute_parallel_retries : M state (dict (list TestResult)) :=
  s <- get ;;
  let r := rn s in
  if (0 <? attempts_parallel a)%Z && (parallel_attempts_done r <? attempts_parallel a)%Z then
    match filter (λ t, already_passed r t = false) (failed_tests r) with
    | [] => ret []
    | tests_needing_parallel =>
        retry_tests_in_parallel tests_needing_parallel
          (attempts_parallel a - parallel_attempts_done r)%Z (0 <? attempts_serial a)%Z
    end
  else ret [].

(** The tests that serial retries are for. *)
Definition still_failing (r : runner) (all_parallel_results : dict (list TestResult)) : list str :=
  filter (λ t, already_passed r t = false ∧
               any_success (default [] (dget t all_parallel_results)) = false) (failed_tests r).

Fixpoint serial_phase (tests : list str) (all_serial_results : dict (list TestResult)) :
    M state (dict (list TestResult)) :=
  match tests with
  | [] => ret all_serial_results
  | test_name :: l =>
      s <- get ;;
      let attempts_done := default 0%Z (dget test_name (serial_attempts_done (rn s))) in
      let remaining_attempts := (attempts_serial a - attempts_done)%Z in
      if (0 <? remaining_attempts)%Z then
        serial_results <- retry_test_serially test_name remaining_attempts ;;
        serial_phase l (dset test_name serial_results all_serial_results)
      else serial_phase l all_serial_results
  end.

Definition execute_serial_retries (all_parallel_results : dict (list TestResult)) :
    M state (dict (list TestResult)) :=
  s <- get ;;
  let tests_still_failing := still_failing (rn s) all_parallel_results in
  if (0 <? attempts_serial a)%Z && bool_decide (tests_still_failing ≠ [])
  then serial_phase tests_still_failing []
  else ret [].

(** The initial result every failed test is given. *)
Definition test_initial_result (r : runner) (test_name : str) : TestResult :=
  mkTestResult test_name 1 "initial" false None fzero
    (Some (if truthy (initial_result_log r) then default [] (initial_result_log r) else "unknown")) None.

Definition process_all_test_results (all_parallel_results all_serial_results : dict (list TestResult)) :
    M state unit :=
  s <- get ;;
  for_each (failed_tests (rn s)) (λ test_name,
    s <- get ;;
    if dmem test_name (test_summaries (rn s)) then ret tt
    else
      create_test_summary test_name (test_initial_result (rn s) test_name)
        (default [] (dget test_name all_parallel_results)
         ++ default [] (dget test_name all_serial_results)) ;;;
      ret tt).

Definition execute_test_retries : M state bool :=
  all_parallel_results <- execute_parallel_retries ;;
  all_serial_results <- execute_serial_retries all_parallel_results ;;
  process_all_test_results all_parallel_results all_serial_results ;;;
  ret true.

(** ** Finishing *)

Definition finalize_and_report : M state Z :=
  s <- get ;;
  generate_and_save_final_report a (start_time (rn s)) ;;;
  s <- get ;;
  let failed_count := length (with_status "failed" (rn s)) in
  ret (if decide (failed_count = 0%nat) then 0%Z else 1%Z).

Definition run : M state Z :=
  go <- initialize_run_mode ;;
  if go then
    ok <- execute_test_retries ;;
    if ok then finalize_and_report else ret 1%Z
  else ret 0%Z.

(** ** The program *)

(** [AutoRetryTestRunner.__init__] *)
Definition init_runner (t : datetime) : runner := mkRunner [] [] t [] 0 [] None [].

Definition construct (w : world) : result unit * state :=
  (t <- on_world now ;;
   on_runner (λ _, init_runner t) ;;;
   on_world (mkdir (output_dir a)) ;;;
   on_world (mkdir (path_join (output_dir a) "retries")) ;;;
   load_runtime_history (output_dir a)) (mkState w (init_runner (mkDatetime 1 1 1 0 0 0 0))).

(** The body of [main] after parsing: the exit code. *)
Definition main (w : world) : result Z * world :=
  if truthy (resume a) && truthy (rerun_failed a) then (Ok 1%Z, w)
  else
    match construct w with
    | (Raise e, s) => (Raise e, wd s)
    | (Ok _, s) =>
        let '(r, s') :=
          (if truthy (resume a) then
             let path := path_of (default [] (resume a)) in
             s <- get ;;
             if bool_decide (is_Some (fs (wd s) !! path)) then
               loaded <- load_state path ;;
               if loaded then run else ret 1%Z
             else ret 1%Z
           else run) s in
        (r, wd s')
    end.

End Runner.
