(* ===== verification/Retries.v ===== *)
(** The retry loops of [AutoRetryTestRunner] (scripts/auto-retry-tests.py,
    [retry_tests_in_parallel] and [retry_test_serially]): what they run, record
    and leave alone. *)

From S2P Require Import Prelude PyStr PyFloat PyDict PyTime Json World RuntimeHistory TestModel.
From S2P Require Import StateManager TestExecutor ReportGenerator Runner.

(** ** What retrying leaves alone *)

(** Everything but the results, the runtime history and the attempt counters. *)
Definition retry_frame (r r' : runner) : Prop :=
  test_summaries r' = test_summaries r ∧ start_time r' = start_time r ∧
  failed_tests r' = failed_tests r ∧ initial_result_log r' = initial_result_log r.

#[global] Instance retry_frame_preorder : PreOrder retry_frame.
Proof. split; [intros r; by split_and!|]. intros ??? (?&?&?&?) (?&?&?&?). split_and!; congruence. Qed.

Lemma history_step_frame r r' : history_step r r' → retry_frame r r'.
Proof. intros [[h ->] _]. unfold retry_frame. by split_and!. Qed.

Lemma history_step_results r r' :
  history_step r r' → results r' = results r ∧
    parallel_attempts_done r' = parallel_attempts_done r ∧
    serial_attempts_done r' = serial_attempts_done r.
Proof. intros [[h ->] _]. unfold retry_frame. by split_and!. Qed.

(** Test runs started in a trace. *)
Definition is_run (ev : event) : bool := match ev with EvRun _ => true | _ => false end.
Definition count_runs (evs : list event) : nat := length (filter (λ ev, is_run ev = true) evs).

Lemma count_runs_app l k : count_runs (l ++ k) = count_runs l + count_runs k.
Proof. unfold count_runs. by rewrite filter_app, length_app. Qed.

Lemma run_events_count a tn skip r evs : run_events a tn skip r evs → count_runs evs = 1.
Proof.
  intros (wdir & nsev & rmev & -> & Hns & Hrm). rewrite !count_runs_app.
  destruct Hns as [->|[_ (ns & _ & _ & ->)]], Hrm as [->| ->]; done.
Qed.

(** At most [n] test runs were started between two states. *)
Definition runs_le (n : nat) (s s' : state) : Prop :=
  ∃ evs, trace (wd s') = trace (wd s) ++ evs ∧ count_runs evs ≤ n.

Lemma runs_le_same n s s' : trace (wd s') = trace (wd s) → runs_le n s s'.
Proof. exists []. rewrite app_nil_r. split; [done|apply Nat.le_0_l]. Qed.

Lemma runs_le_trans n m k s1 s2 s3 :
  runs_le n s1 s2 → runs_le m s2 s3 → n + m ≤ k → runs_le k s1 s3.
Proof.
  intros (e1 & H1 & Hc1) (e2 & H2 & Hc2) Hk. exists (e1 ++ e2).
  split; [by rewrite H2, H1, app_assoc|]. rewrite count_runs_app. lia.
Qed.

Lemma runs_le_mono n k s s' : n ≤ k → runs_le n s s' → runs_le k s s'.
Proof. intros Hk (evs & ? & ?). exists evs. split; [done|lia]. Qed.

Lemma run_effect_runs_le a tn skip n ty s r s' : run_effect a tn skip n ty s r s' → runs_le 1 s s'.
Proof.
  intros (_ & _ & evs & Ht & Hr). exists evs. split; [done|]. destruct r as [res|e].
  - destruct Hr as (_ & _ & _ & _ & Hev). by rewrite (run_events_count _ _ _ _ _ Hev).
  - destruct Hr as [->|[wdir ->]]; [apply Nat.le_0_l|apply le_n].
Qed.

(** The flag a serial or final parallel attempt is run with. *)
Definition keep_namespace (a : args) (max_attempts : Z) (r : TestResult) : bool :=
  negb (delete_failed_namespaces a) && (attempt r =? max_attempts)%Z.

(** Consecutive attempts at one test: numbered from [first], only the last one may
    have passed. *)
Definition attempts_from (ty name : str) (first : Z) (l : list TestResult) : Prop :=
  ∀ i r, l !! i = Some r →
    test_name r = result_name (Some name) ∧ attempt_type r = ty ∧
    attempt r = (first + Z.of_nat i)%Z ∧ (success r = true → S i = length l).

Lemma attempts_from_nil ty name first : attempts_from ty name first [].
Proof. intros i r H. by rewrite lookup_nil in H. Qed.

Lemma attempts_from_cons ty name first r l :
  test_name r = result_name (Some name) → attempt_type r = ty → attempt r = first →
  (success r = true → l = []) → attempts_from ty name (first + 1) l →
  attempts_from ty name first (r :: l).
Proof.
  intros H1 H2 H3 H4 Hl [|i] r' Hi; simplify_eq/=.
  - split_and!; [done..|lia|]. intros Hs. by rewrite H4.
  - destruct (Hl i r' Hi) as (? & ? & Ha & Hs). split_and!; [done..|lia|].
    intros Hsucc. f_equal. auto.
Qed.

Section wp_runner.
Context {env : Env}.
Variable a : args.

Lemma wp_save_state Q s :
  (∀ r w, trace w = trace (wd s) → clock (wd s) ≤ clock w →
     is_ok r = true ∨ r = Raise FileNotFoundError → Q r (mkState w (rn s))) →
  wp (save_state a) Q s.
Proof.
  intros HQ. unfold save_state. wp_steps. apply wp_on_world, wp_safe_save.
  - intros w H1 H2 _. apply HQ; auto.
  - intros w (_ & H2 & H3). apply HQ; auto.
  - intros w (_ & H2 & H3). apply HQ; auto.
Qed.

(** ** Serial retries *)

(** What a serial retry loop did: [new] are the results it produced. *)
Definition serial_effect (name : str) (first : Z) (s s' : state) (new : list TestResult) : Prop :=
  retry_frame (rn s) (rn s') ∧ results (rn s') = results (rn s) ++ new ∧
  parallel_attempts_done (rn s') = parallel_attempts_done (rn s) ∧
  (∀ t, t ≠ name → dget t (serial_attempts_done (rn s')) = dget t (serial_attempts_done (rn s))) ∧
  attempts_from "serial" name first new ∧
  (histories_ok (runtime_history (rn s)) → histories_ok (runtime_history (rn s'))).

(** The attempt counter of the test after results [new]. *)
Definition serial_counter (name : str) (first : Z) (s s' : state) (new : list TestResult) : Prop :=
  dget name (serial_attempts_done (rn s')) =
    match new with
    | [] => dget name (serial_attempts_done (rn s))
    | _ => Some (first + Z.of_nat (length new) - 1)%Z
    end.

Definition serial_trace (name : str) (max_attempts : Z) (s s' : state) (new : list TestResult) : Prop :=
  ∃ evss, trace (wd s') = trace (wd s) ++ mjoin evss ∧
    Forall2 (λ r evs, run_events a (Some name) (keep_namespace a max_attempts r) r evs) new evss.

Lemma serial_effect_nil name first s s' :
  history_step (rn s) (rn s') → serial_effect name first s s' [].
Proof.
  intros Hstep. destruct (history_step_results _ _ Hstep) as (Hr & Hp & Hs).
  split_and!; [by apply history_step_frame|by rewrite app_nil_r|done|by rewrite Hs| |apply Hstep].
  apply attempts_from_nil.
Qed.

Lemma serial_effect_cons name first s s1 s' res new :
  serial_effect name first s s1 [res] → success res = false →
  serial_effect name (first + 1) s1 s' new → serial_effect name first s s' (res :: new).
Proof.
  intros (Hf0 & Hr0 & Hp0 & Ho0 & Ha0 & Hh0) Hs (Hf & Hr & Hp & Ho & Ha & Hh).
  split_and!; [by etrans|by rewrite Hr, Hr0, <-app_assoc|congruence| | |auto].
  - intros t Ht. by rewrite Ho, Ho0.
  - destruct (Ha0 0 res eq_refl) as (? & ? & Hat & _).
    apply attempts_from_cons; auto; [lia|congruence].
Qed.

(** The end of an attempt: the result, the saved state and the counter. *)
Lemma serial_effect_attempt name first s s1 w2 res f :
  history_step (rn s) (rn s1) → test_name res = result_name (Some name) →
  attempt res = first → attempt_type res = "serial" →
  (∀ r, retry_frame r (f r) ∧ results (f r) = results r ∧
        parallel_attempts_done (f r) = parallel_attempts_done r ∧
        runtime_history (f r) = runtime_history r ∧
        ∀ t, t ≠ name → dget t (serial_attempts_done (f r)) = dget t (serial_attempts_done r)) →
  serial_effect name first s
    (mkState w2 (f (set_results (results (rn s1) ++ [res]) (rn s1)))) [res].
Proof.
  intros Hstep Hn Ha Hty Hf. specialize (Hf (set_results (results (rn s1) ++ [res]) (rn s1))).
  destruct Hf as (Hf & Hr & Hp & Hh & Hs).
  destruct (history_step_results _ _ Hstep) as (Hr1 & Hp1 & Hs1).
  split_and!; simpl.
  - etrans; [by apply history_step_frame|]. etrans; [|exact Hf]. by split_and!.
  - by rewrite Hr, <-Hr1.
  - by rewrite Hp, <-Hp1.
  - intros t Ht. rewrite Hs by done. simpl. by rewrite Hs1.
  - apply attempts_from_cons; auto using attempts_from_nil.
  - rewrite Hh. apply Hstep.
Qed.

Lemma wp_serial_loop n first max_attempts name acc Q s :
  (∀ s' new, serial_effect name first s s' new → serial_counter name first s s' new →
     serial_trace name max_attempts s s' new → length new ≤ n →
     (length new < n → any_success new = true) → Q (Ok (acc ++ new)) s') →
  (∀ e s' new, serial_effect name first s s' new → length new ≤ n → runs_le n s s' → Q (Raise e) s') →
  wp (serial_loop a n first max_attempts name acc) Q s.
Proof.
  revert first acc s. induction n as [|n IH]; intros first acc s HQ HE; simpl.
  { apply wp_ret. rewrite <-(app_nil_r acc). apply HQ; [|done| |done|simpl; lia].
    - apply serial_effect_nil. reflexivity.
    - exists []. simpl. by rewrite app_nil_r. }
  apply wp_bind, wp_run_single_test_suite. intros r s1 Hrun1.
  pose proof (run_effect_runs_le _ _ _ _ _ _ _ _ Hrun1) as Hle1.
  destruct Hrun1 as (Hstep & Hck & evs & Htr & Hr).
  destruct r as [res|e]; [|apply (HE e s1 []); [by apply serial_effect_nil|simpl; lia|]].
  2: { eapply runs_le_mono; [|exact Hle1]. lia. }
  destruct Hr as (Hn & Ha & Hty & _ & Hev).
  apply wp_bind, wp_on_runner, wp_bind. apply wp_save_state. cbn [rn wd]. intros rs w2 Htr2 Hck2 Hrs.
  destruct rs as [j|e].
  2: { apply (HE e _ [res]); [|simpl; lia|].
       - apply (serial_effect_attempt name first s s1 w2 res (λ r, r)); auto. intros r; by split_and!.
       - by eapply (runs_le_trans 1 0); [exact Hle1|apply runs_le_same|lia]. }
  apply wp_bind, wp_on_runner. cbn [rn wd]. set (s3 := mkState _ _).
  assert (Heff : serial_effect name first s s3 [res]).
  { apply (serial_effect_attempt name first s s1 w2 res
      (λ r, set_serial_attempts_done (dset name first (serial_attempts_done r)) r)); auto.
    intros r. split_and!; try done. intros t Ht. simpl. by rewrite dget_dset_ne. }
  assert (Hcnt : dget name (serial_attempts_done (rn s3)) = Some first) by apply dget_dset_eq.
  assert (Hrun : run_events a (Some name) (keep_namespace a max_attempts res) res evs).
  { unfold keep_namespace. by rewrite Ha. }
  assert (Htr3 : trace (wd s3) = trace (wd s) ++ evs) by (simpl in *; congruence).
  destruct (success res) eqn:Es.
  - apply wp_ret. apply HQ; [done| | |simpl; lia|by simpl; rewrite Es].
    + unfold serial_counter. rewrite Hcnt. simpl. f_equal. lia.
    + exists [evs]. simpl. rewrite app_nil_r. split; [done|]. by repeat constructor.
  - apply IH.
    + intros s' new Heff' Hcnt' (evss & Htr' & HF) Hlen Hany.
      rewrite <-app_assoc. simpl. apply HQ; [by eapply serial_effect_cons| | |simpl; lia|].
      * unfold serial_counter in *. rewrite Hcnt', Hcnt. cbn [length].
        destruct new; f_equal; simpl; lia.
      * exists (evs :: evss). simpl. split; [by rewrite Htr', Htr3, app_assoc|by constructor].
      * simpl. rewrite Es. simpl. intros. apply Hany. lia.
    + intros e s' new Heff' Hlen Hle. apply (HE e s' (res :: new)); [|simpl; lia|].
      * by eapply serial_effect_cons.
      * eapply (runs_le_trans 1 n); [|exact Hle|lia].
        exists evs. split; [done|]. by rewrite (run_events_count _ _ _ _ _ Hrun).
Qed.

(** ** Parallel retries *)

(** What a task of a pool yields. *)
Definition outcome_ok (n : Z) (p : str * result TestResult) : Prop :=
  ∀ r, p.2 = Ok r →
    test_name r = result_name (Some p.1) ∧ attempt r = n ∧ attempt_type r = "parallel".

(** The runs a pool starts. *)
Definition pool_run (tests : list str) (skip : bool) (ev : event) : Prop :=
  is_run ev = true →
  ∃ t wdir, t ∈ tests ∧ ev = EvRun (build_test_command a (Some t) skip (Some wdir)).

Definition pool_trace (tests : list str) (skip : bool) (s s' : state) : Prop :=
  ∃ evs, trace (wd s') = trace (wd s) ++ evs ∧ count_runs evs ≤ length tests ∧
    Forall (pool_run tests skip) evs.

Lemma run_effect_pool_trace t skip n ty s r s' :
  run_effect a (Some t) skip n ty s r s' → pool_trace [t] skip s s'.
Proof.
  intros (_ & _ & evs & Ht & Hr). exists evs. split; [done|].
  assert (Hrun : ∀ wdir, pool_run [t] skip (EvRun (build_test_command a (Some t) skip (Some wdir)))).
  { intros wdir _. exists t, wdir. split; [apply list_elem_of_here|done]. }
  destruct r as [res|e].
  - destruct Hr as (_ & _ & _ & _ & Hev). split; [by rewrite (run_events_count _ _ _ _ _ Hev)|].
    destruct Hev as (wdir & nsev & rmev & -> & Hns & Hrm).
    apply Forall_cons; split; [auto|]. apply Forall_app. split.
    + destruct Hns as [->|(_ & ns & _ & _ & ->)]; repeat constructor. done.
    + destruct Hrm as [->| ->]; repeat constructor. done.
  - destruct Hr as [->|[wdir ->]]; (split; [apply Nat.le_0_l || apply le_n|]); repeat constructor; auto.
Qed.

Lemma pool_trace_app t tests skip s1 s2 s3 :
  pool_trace [t] skip s1 s2 → pool_trace tests skip s2 s3 → pool_trace (t :: tests) skip s1 s3.
Proof.
  intros (e1 & H1 & Hc1 & HF1) (e2 & H2 & Hc2 & HF2). exists (e1 ++ e2).
  split_and!; [by rewrite H2, H1, app_assoc|rewrite count_runs_app; simpl in *; lia|].
  apply Forall_app. split; eapply Forall_impl; try done; simpl;
    intros ev Hev Hr; destruct (Hev Hr) as (t' & wdir & Hin & ->); exists t', wdir; set_solver.
Qed.

Lemma pool_trace_perm tests tests' skip s s' :
  tests ≡ₚ tests' → pool_trace tests skip s s' → pool_trace tests' skip s s'.
Proof.
  intros Hp (evs & H1 & H2 & H3). exists evs. split_and!; [done|by rewrite <-(Permutation_length Hp)|].
  eapply Forall_impl; [done|]. simpl. intros ev Hev Hr.
  destruct (Hev Hr) as (t & wdir & Hin & ->). exists t, wdir. by rewrite <-Hp.
Qed.

Definition pool_effect (tests : list str) (skip : bool) (n : Z) (s : state)
    (out : list (str * result TestResult)) (s' : state) : Prop :=
  history_step (rn s) (rn s') ∧ out.*1 ≡ₚ tests ∧ Forall (outcome_ok n) out ∧
  pool_trace tests skip s s'.

Lemma wp_tasks tests skip n Q s :
  (∀ out s', pool_effect tests skip n s out s' → out.*1 = tests → Q (Ok out) s') →
  wp (map_each tests (λ test_name,
        bind (attempt_task (run_single_test_suite a (Some test_name) skip n "parallel"))
          (λ r, ret (test_name, r)))) Q s.
Proof.
  revert Q s. induction tests as [|t tests IH]; intros Q s HQ; simpl.
  { apply wp_ret, HQ; [|done]. split_and!; [reflexivity..|done|].
    exists []. rewrite app_nil_r. split_and!; [done|apply Nat.le_0_l|done]. }
  apply wp_bind, wp_bind. unfold attempt_task, wp at 1.
  pose proof (wp_run_single_test_suite a (Some t) skip n "parallel"
    (run_effect a (Some t) skip n "parallel" s) s (λ _ _ H, H)) as Hrun.
  unfold wp in Hrun. destruct (run_single_test_suite _ _ _ _ _ s) as [r s1]. simpl in *.
  apply wp_ret, wp_bind, IH. intros out s2 (Hh & Hp & HF & Ht) Heq. apply wp_ret, HQ; [|by apply (f_equal (cons t))].
  split_and!.
  - etrans; [apply Hrun|done].
  - by apply (Permutation_skip t).
  - apply Forall_cons. split; [|done]. intros res Hres. simpl in Hres. subst r.
    destruct Hrun as (_ & _ & evs & _ & H). naive_solver.
  - eapply pool_trace_app; [by eapply run_effect_pool_trace|done].
Qed.

Lemma wp_reorder_tasks {A} (l : list A) Q s :
  (∀ l' w, l' ≡ₚ l → same_but_clock (wd s) w → Q (Ok l') (mkState w (rn s))) →
  wp (reorder_tasks l) Q s.
Proof. intros H. apply wp_on_world, wp_reorder. auto. Qed.

(** A pool without workers is refused. *)
Lemma run_pool_no_workers tests skip n s :
  (parallel a ≤ 0)%Z → run_pool a tests skip n s = (Raise ValueError, s).
Proof. intros H. unfold run_pool. destruct (Z.min _ _ <=? 0)%Z eqn:E; [done|lia]. Qed.

Lemma wp_run_pool tests skip n Q s :
  (0 < parallel a)%Z → tests ≠ [] →
  (∀ out s', pool_effect tests skip n s out s' → Q (Ok out) s') →
  wp (run_pool a tests skip n) Q s.
Proof.
  intros Hp Hne HQ. unfold run_pool.
  destruct (Z.min _ _ <=? 0)%Z eqn:E.
  { apply Z.leb_le in E. destruct tests; [done|cbn [length] in E; lia]. }
  apply wp_bind, wp_reorder_tasks. intros order w1 Ho (_ & Ht1 & _). cbn beta iota.
  apply wp_bind, wp_tasks. intros out s2 (Hh & Hout & HF & Ht) _. apply wp_reorder_tasks.
  intros out' w3 Ho' (_ & Ht3 & _). apply HQ. split_and!; simpl in *.
  - done.
  - by rewrite Ho', Hout, Ho.
  - by rewrite Ho'.
  - destruct (pool_trace_perm _ _ _ _ _ Ho Ht) as (evs & H1 & H2). exists evs. simpl in *.
    split; [congruence|done].
Qed.

(** Adding the results of the completed futures. *)
Definition oks (out : list (str * result TestResult)) : list TestResult :=
  omap (λ p, match p.2 with Ok r => Some r | Raise _ => None end) out.
Definition oks_of (t : str) (out : list (str * result TestResult)) : list TestResult :=
  oks (filter (λ p, p.1 = t) out).

Lemma dvalues_append (k : str) (x : TestResult) (d : dict (list TestResult)) :
  mjoin (dvalues (dset k (default [] (dget k d) ++ [x]) d)) ≡ₚ mjoin (dvalues d) ++ [x].
Proof.
  induction d as [|[k' l] d IH]; simpl; [done|].
  destruct (decide (k' = k)); simpl.
  - by rewrite <-!app_assoc, (Permutation_app_comm [x]).
  - by rewrite IH, app_assoc.
Qed.

Lemma collect_eq out d s :
  ∃ d', collect out d s = (Ok d', mkState (wd s) (set_results (results (rn s) ++ oks out) (rn s))) ∧
    (∀ t, default [] (dget t d') = default [] (dget t d) ++ oks_of t out) ∧
    mjoin (dvalues d') ≡ₚ mjoin (dvalues d) ++ oks out ∧
    (out.*1 ⊆ dkeys d → dkeys d' = dkeys d).
Proof.
  revert d s. induction out as [|[t [r|e]] out IH]; intros d s; simpl.
  - exists d. rewrite !app_nil_r. split_and!; [by destruct s as [w []]|intros t; by rewrite app_nil_r|done..].
  - unfold bind. simpl.
    destruct (IH (dset t (default [] (dget t d) ++ [r]) d)
      (mkState (wd s) (set_results (results (rn s) ++ [r]) (rn s)))) as (d' & -> & Hget & Hp & Hk).
    exists d'. unfold oks_of, oks in *. simpl in *. split_and!.
    + by rewrite <-app_assoc.
    + intros t'. rewrite Hget, dget_dset, filter_cons. simpl.
      destruct (decide (t = t')) as [->|]; simpl; [by rewrite <-app_assoc|done].
    + by rewrite Hp, dvalues_append, <-app_assoc.
    + intros Hin. assert (Ht : t ∈ dkeys d) by set_solver.
      rewrite Hk; rewrite dkeys_dset_in by done; set_solver.
  - destruct (IH d s) as (d' & Hc & Hget & Hp & Hk). exists d'. unfold oks_of, oks in *. simpl.
    split_and!; [done| |done|set_solver].
    intros t'. rewrite Hget, filter_cons. simpl. by destruct (decide _).
Qed.

(** The retries of one test by attempt number [k]: numbered in increasing order,
    none after one that passed. *)
Definition retries_upto (t : str) (k : Z) (l : list TestResult) : Prop :=
  StronglySorted (λ r r', (attempt r < attempt r')%Z) l ∧
  Forall (λ r, test_name r = result_name (Some t) ∧ attempt_type r = "parallel" ∧
               (1 ≤ attempt r ≤ k)%Z) l ∧
  (Z.of_nat (length l) ≤ Z.max 0 k)%Z ∧
  (∀ i r, l !! i = Some r → success r = true → S i = length l).

Lemma retries_upto_nil t k : retries_upto t k [].
Proof. split_and!; [constructor|done|simpl; lia|]. intros i r H. by rewrite lookup_nil in H. Qed.

Lemma retries_upto_mono t k k' l : (k ≤ k')%Z → retries_upto t k l → retries_upto t k' l.
Proof.
  intros Hk (Hs & HF & Hl & Hsuc). split_and!; [done| |lia|done].
  eapply Forall_impl; [done|]. simpl. intros r (? & ? & ?). split_and!; [done|done|lia..].
Qed.

Lemma retries_upto_snoc t k l r :
  (0 < k)%Z → retries_upto t (k - 1) l → any_success l = false → outcome_ok k (t, Ok r) →
  retries_upto t k (l ++ [r]).
Proof.
  intros Hk (Hs & HF & Hl & _) Hany Hr. destruct (Hr r eq_refl) as (Hn & Ha & Hty). simpl in Hn.
  rewrite Forall_forall in HF. split_and!.
  - apply StronglySorted_app_2; [|done|repeat constructor].
    intros r1 r2 H1 ->%list_elem_of_singleton. destruct (HF _ H1) as (_ & _ & ?). lia.
  - apply Forall_app. split; [|repeat constructor; (done || lia)].
    apply Forall_forall. intros r1 H1. destruct (HF _ H1) as (? & ? & ?).
    split_and!; [done|done|lia..].
  - rewrite length_app. simpl. lia.
  - intros i r' [Hi|[Hi Hlt]]%lookup_app_Some Hsuc.
    + apply existsb_false_Forall in Hany. rewrite Forall_lookup in Hany.
      by rewrite (Hany _ _ Hi) in Hsuc.
    + apply list_lookup_singleton_Some in Hlt as [? _]. rewrite length_app. simpl. lia.
Qed.

(** At most one result per test comes out of a pool of distinct tests. *)
Lemma oks_of_pool t n out :
  NoDup out.*1 → Forall (outcome_ok n) out →
  oks_of t out = [] ∨ (t ∈ out.*1 ∧ ∃ r, oks_of t out = [r] ∧ outcome_ok n (t, Ok r)).
Proof.
  unfold oks_of. induction out as [|[t' o] out IH]; intros Hnd HF; [by left|].
  apply NoDup_cons in Hnd as [Hnin Hnd]. apply Forall_cons in HF as [Ho HF].
  rewrite filter_cons. simpl. case_decide as Ht.
  - subst t'. assert (filter (λ p, p.1 = t) out = []) as ->.
    { destruct (filter _ out) as [|p l] eqn:E; [done|].
      assert (p ∈ filter (λ p, p.1 = t) out) as [<- Hp]%list_elem_of_filter by (rewrite E; left).
      destruct Hnin. by apply (list_elem_of_fmap_2 fst) in Hp. }
    destruct o as [r|e]; [right|by left]. split; [left|]. exists r. split; [done|].
    intros r' [= ->]. by apply Ho.
  - destruct (IH Hnd HF) as [?|[? ?]]; [by left|right]. split; [by right|done].
Qed.

(** The state of the parallel phase after attempt [k], started from [s]. *)
Definition all_upto (k : Z) (d : dict (list TestResult)) : Prop :=
  ∀ t l, dget t d = Some l → retries_upto t k l.

Lemma all_upto_default k d t : all_upto k d → retries_upto t k (default [] (dget t d)).
Proof. intros H. destruct (dget t d) eqn:E; [by apply H|apply retries_upto_nil]. Qed.

Lemma elem_of_not_passed d tests t :
  t ∈ not_passed d tests ↔ any_success (default [] (dget t d)) = false ∧ t ∈ tests.
Proof. unfold not_passed. by rewrite list_elem_of_filter. Qed.

Lemma all_upto_step k d d' tests out :
  (0 < k)%Z → all_upto (k - 1) d → NoDup tests → out.*1 ≡ₚ not_passed d tests →
  Forall (outcome_ok k) out →
  (∀ t, default [] (dget t d') = default [] (dget t d) ++ oks_of t out) →
  all_upto k d'.
Proof.
  intros Hk Hall Hnd Hp HF Hget t l Hl. specialize (Hget t). rewrite Hl in Hget. simpl in Hget. subst l.
  assert (Hnd' : NoDup out.*1).
  { rewrite Hp. by apply NoDup_filter. }
  destruct (oks_of_pool t k out Hnd' HF) as [->|[Hin (r & -> & Hr)]].
  - rewrite app_nil_r. apply (retries_upto_mono _ (k - 1)); [lia|by apply all_upto_default].
  - apply retries_upto_snoc; [done|by apply all_upto_default| |done].
    rewrite Hp in Hin. by apply elem_of_not_passed in Hin as [? _].
Qed.

(** The flag the attempt [k] of [max_attempts] is run with. *)
Definition parallel_flag (max_attempts : Z) (follow : bool) (k : Z) : bool :=
  negb (delete_failed_namespaces a) && negb follow && (k =? max_attempts)%Z.

Definition parallel_run (tests : list str) (max_attempts : Z) (follow : bool) (lo hi : Z) (ev : event) : Prop :=
  is_run ev = true →
  ∃ t k wdir, t ∈ tests ∧ (lo ≤ k < hi)%Z ∧
    ev = EvRun (build_test_command a (Some t) (parallel_flag max_attempts follow k) (Some wdir)).

Definition parallel_trace (tests : list str) (max_attempts : Z) (follow : bool) (n : nat) (k : Z)
    (s s' : state) : Prop :=
  ∃ evs, trace (wd s') = trace (wd s) ++ evs ∧ count_runs evs ≤ n * length tests ∧
    Forall (parallel_run tests max_attempts follow k (k + Z.of_nat n)) evs.

(** [m] attempts were made, from number [k] on. *)
Definition parallel_effect (tests : list str) (k : Z) (m : nat) (s : state)
    (d d' : dict (list TestResult)) (s' : state) : Prop :=
  retry_frame (rn s) (rn s') ∧ serial_attempts_done (rn s') = serial_attempts_done (rn s) ∧
  (histories_ok (runtime_history (rn s)) → histories_ok (runtime_history (rn s'))) ∧
  dkeys d' = tests ∧ all_upto (k - 1 + Z.of_nat m) d' ∧
  (∃ new, results (rn s') = results (rn s) ++ new ∧ mjoin (dvalues d') ≡ₚ mjoin (dvalues d) ++ new) ∧
  parallel_attempts_done (rn s') =
    (if decide (m = 0%nat) then parallel_attempts_done (rn s) else k - 1 + Z.of_nat m)%Z.

Lemma parallel_trace_cons tests max_attempts follow n k s s1 s' :
  pool_trace tests (parallel_flag max_attempts follow k) s s1 →
  parallel_trace tests max_attempts follow n (k + 1) s1 s' →
  parallel_trace tests max_attempts follow (S n) k s s'.
Proof.
  intros (e1 & H1 & Hc1 & HF1) (e2 & H2 & Hc2 & HF2). exists (e1 ++ e2).
  split_and!; [by rewrite H2, H1, app_assoc|rewrite count_runs_app; lia|].
  apply Forall_app. split; eapply Forall_impl; try done; simpl; intros ev Hev Hr.
  - destruct (Hev Hr) as (t & wdir & ? & ->). exists t, k, wdir. split_and!; [done|lia..|done].
  - destruct (Hev Hr) as (t & k' & wdir & ? & ? & ->). exists t, k', wdir. split_and!; [done|lia..|done].
Qed.

Lemma pool_trace_sub tests tests' skip s s' :
  tests ⊆ tests' → length tests ≤ length tests' →
  pool_trace tests skip s s' → pool_trace tests' skip s s'.
Proof.
  intros Hin Hlen (evs & H1 & H2 & H3). exists evs. split_and!; [done|lia|].
  eapply Forall_impl; [done|]. simpl. intros ev Hev Hr.
  destruct (Hev Hr) as (t & wdir & ? & ->). exists t, wdir. auto.
Qed.

Lemma wp_parallel_loop n k max_attempts tests follow d Q s :
  (0 < parallel a)%Z → (0 < k)%Z → NoDup tests → dkeys d = tests → all_upto (k - 1) d →
  (∀ d' s' m, m ≤ n → parallel_effect tests k m s d d' s' →
     parallel_trace tests max_attempts follow n k s s' →
     (m < n → not_passed d' tests = []) → Q (Ok d') s') →
  wp (parallel_loop a n k max_attempts tests follow d) Q s.
Proof.
  intros Hpar. revert k d s.
  induction n as [|n IH]; intros k d s Hk Hnd Hd Hall HQ; simpl.
  { apply wp_ret, (HQ _ _ 0); [lia| | |lia].
    - split_and!; [reflexivity|done..|by rewrite Z.add_0_r| |done].
      exists []. by rewrite !app_nil_r.
    - exists []. rewrite app_nil_r. split_and!; [done|apply Nat.le_0_l|done]. }
  destruct (not_passed d tests) as [|t0 ts0] eqn:En.
  { apply wp_ret, (HQ _ _ 0); [lia| | |done].
    - split_and!; [reflexivity|done..|by rewrite Z.add_0_r| |done].
      exists []. by rewrite !app_nil_r.
    - exists []. rewrite app_nil_r. split_and!; [done|apply Nat.le_0_l|done]. }
  rewrite <-En. assert (Hsub : not_passed d tests ⊆ tests).
  { intros t. rewrite elem_of_not_passed. by intros [_ ?]. }
  apply wp_bind, wp_run_pool; [done|by rewrite En|]. intros out s1 (Hh & Hp & HF & Ht).
  apply wp_bind. unfold wp at 1.
  destruct (collect_eq out d s1) as (d1 & -> & Hget & Hperm & Hkeys). cbn [fst snd].
  apply wp_bind, wp_on_runner. cbn [wd rn].
  assert (Hd1 : dkeys d1 = tests).
  { rewrite Hkeys; [done|]. intros t. by rewrite Hp, Hd; auto. }
  destruct (history_step_results _ _ Hh) as (Hr1 & Hp1 & Hs1).
  apply IH; [lia|done|done| |].
  { rewrite Z.add_simpl_r. by eapply all_upto_step. }
  intros d' s' m Hm (Hf & Hser & Hho & Hdk & Hup & (new & Hnew & Hnp) & Hcnt) Htr Hlast.
  apply (HQ d' s' (S m)); [lia| | |intros; apply Hlast; lia].
  - split_and!; simpl in *.
    + etrans; [by apply history_step_frame|]. etrans; [|exact Hf]. by split_and!.
    + congruence.
    + intros. by apply Hho, Hh.
    + done.
    + replace (k - 1 + Z.of_nat (S m))%Z with (k + 1 - 1 + Z.of_nat m)%Z by lia. done.
    + exists (oks out ++ new). rewrite Hnew, Hr1, app_assoc. split; [done|].
      by rewrite Hnp, Hperm, app_assoc.
    + rewrite Hcnt. destruct (decide (m = 0)); simpl; lia.
  - eapply parallel_trace_cons; [|exact Htr]. eapply pool_trace_sub; [exact Hsub| |exact Ht].
    apply sublist_length, sublist_filter.
Qed.

Lemma dkeys_empty_results tests : NoDup tests → dkeys (empty_results tests) = tests.
Proof.
  intros Hnd. unfold empty_results. assert (dkeys ((λ t : str, (t, @nil TestResult)) <$> tests) = tests) as E.
  { unfold dkeys. rewrite <-list_fmap_compose. apply list_fmap_id. }
  rewrite dict_of_id; [done|]. unfold wf. by rewrite E.
Qed.

Lemma dget_empty_results tests t l : dget t (empty_results tests) = Some l → l = [].
Proof.
  assert (H : ∀ d : dict (list TestResult), (∀ t l, dget t d = Some l → l = []) →
    ∀ t l, dget t (foldl (λ d kv, dset kv.1 kv.2 d) d ((λ t, (t, [])) <$> tests)) = Some l → l = []).
  2: { by apply (H []). }
  clear. induction tests as [|x tests IH]; intros d Hd t' l'; simpl; [apply Hd|].
  apply IH. intros t1 l1. rewrite dget_dset. case_decide; [congruence|apply Hd].
Qed.

Lemma mjoin_empty_results tests : NoDup tests → mjoin (dvalues (empty_results tests)) = [].
Proof.
  intros Hnd. unfold empty_results. rewrite dict_of_id.
  - by induction tests as [|t tests IH]; [|apply NoDup_cons in Hnd as [_ Hnd]; simpl; apply IH].
  - unfold wf, dkeys. rewrite <-list_fmap_compose. by rewrite list_fmap_id.
Qed.

Lemma wp_retry_tests_in_parallel tests max_attempts follow Q s :
  (0 < parallel a)%Z → NoDup tests →
  (∀ d s' m, m ≤ Z.to_nat max_attempts → parallel_effect tests 1 m s (empty_results tests) d s' →
     parallel_trace tests max_attempts follow (Z.to_nat max_attempts) 1 s s' →
     (m < Z.to_nat max_attempts → not_passed d tests = []) → Q (Ok d) s') →
  wp (retry_tests_in_parallel a tests max_attempts follow) Q s.
Proof.
  intros Hpar Hnd HQ. unfold retry_tests_in_parallel.
  assert (Hall : all_upto (1 - 1) (empty_results tests)).
  { intros t l ->%dget_empty_results. apply retries_upto_nil. }
  destruct (_ || _) eqn:E.
  - apply wp_ret, (HQ _ _ 0); [lia| | |].
    + split_and!; [reflexivity|done|done|by apply dkeys_empty_results|done| |done].
      exists []. by rewrite !app_nil_r.
    + exists []. rewrite app_nil_r. split_and!; [done|apply Nat.le_0_l|done].
    + apply orb_true_iff in E as [E|E]; [lia|]. by apply bool_decide_eq_true in E as ->.
  - apply wp_parallel_loop; auto using dkeys_empty_results with lia.
Qed.

End wp_runner.

(** ** Theorems on retries *)

(** C9: serial retries of a test start it at most [max_attempts] times, numbered
    from one, and stop with the first success; when the call returns, one run was
    started per result, the namespace is kept only on the last allowed attempt
    (and only if failed namespaces are kept at all), the results were appended to
    the runner's and the test's attempt counter is the number of attempts made;
    fewer results than allowed mean a success.  The counters of other tests are
    never touched, whether the call returns or raises. *)
Theorem retry_test_serially_spec {env : Env} (a : args) (name : str) (max_attempts : Z) (s : state) :
  let '(r, s') := retry_test_serially a name max_attempts s in
  ∃ new, results (rn s') = results (rn s) ++ new ∧ length new ≤ Z.to_nat max_attempts ∧
    (∀ i res, new !! i = Some res →
       attempt res = Z.of_nat (S i) ∧ attempt_type res = "serial" ∧
       test_name res = result_name (Some name) ∧ (success res = true → S i = length new)) ∧
    (∀ t, t ≠ name → dget t (serial_attempts_done (rn s')) = dget t (serial_attempts_done (rn s))) ∧
    match r with
    | Ok l =>
        l = new ∧
        (length new < Z.to_nat max_attempts → any_success new = true) ∧
        (new ≠ [] → dget name (serial_attempts_done (rn s')) = Some (Z.of_nat (length new))) ∧
        ∃ evss, trace (wd s') = trace (wd s) ++ mjoin evss ∧
          Forall2 (λ res evs, run_events a (Some name)
            (negb (delete_failed_namespaces a) && (attempt res =? max_attempts)%Z) res evs) new evss
    | Raise _ => True
    end.
Proof.
  cut (wp (retry_test_serially a name max_attempts) (λ r s', ∃ new,
    serial_effect name 1 s s' new ∧ length new ≤ Z.to_nat max_attempts ∧
    match r with
    | Ok l => l = new ∧ (length new < Z.to_nat max_attempts → any_success new = true) ∧
        serial_counter name 1 s s' new ∧ serial_trace a name max_attempts s s' new
    | Raise _ => True
    end) s).
  { unfold wp. destruct (retry_test_serially a name max_attempts s) as [r s']. simpl.
    intros (new & (_ & Hres & _ & Hoth & Hatt & _) & Hlen & Hr). exists new. split_and!; try done.
    - intros i res Hi. destruct (Hatt i res Hi) as (? & ? & ? & ?). split_and!; [lia|done..].
    - destruct r as [l|e]; [|done]. destruct Hr as (-> & Hany & Hcnt & Htr). split_and!; try done.
      intros Hne. unfold serial_counter in Hcnt. rewrite Hcnt.
      destruct new; [done|]. f_equal. lia. }
  unfold retry_test_serially. destruct (max_attempts <=? 0)%Z eqn:E.
  - apply wp_ret. exists []. split_and!; [by apply serial_effect_nil|simpl; lia|done|simpl; lia|done|].
    exists []. simpl. by rewrite app_nil_r.
  - apply wp_serial_loop.
    + intros s' new ? ? ? ? ?. exists new. by split_and!.
    + intros e s' new ? ? _. exists new. by split_and!.
Qed.

(** C8: the parallel retries of distinct tests, whatever order the pool runs and
    finishes them in, always return; each test gets at most [max_attempts] results,
    numbered in increasing order, and is never run again after it passed; what is
    returned is, test by test, what was appended to the runner's results; the
    counter ends at the number of the last attempt, and attempts are left out only
    when every test has passed.  Only tests of the list are started, and they are
    told to keep their namespace only on the last attempt when no serial retries
    follow and failed namespaces are kept. *)
Theorem retry_tests_in_parallel_spec {env : Env} (a : args) (tests : list str) (max_attempts : Z)
    (follow : bool) (s : state) (Hpar : (0 < parallel a)%Z) (Hnd : NoDup tests) :
  ∃ d s' m, retry_tests_in_parallel a tests max_attempts follow s = (Ok d, s') ∧
    dkeys d = tests ∧ m ≤ Z.to_nat max_attempts ∧
    (∀ t l, dget t d = Some l →
       length l ≤ m ∧ StronglySorted (λ r r', (attempt r < attempt r')%Z) l ∧
       Forall (λ r, test_name r = result_name (Some t) ∧ attempt_type r = "parallel" ∧
                    (1 ≤ attempt r ≤ Z.of_nat m)%Z) l ∧
       (∀ i r, l !! i = Some r → success r = true → S i = length l) ∧
       (m < Z.to_nat max_attempts → any_success l = true)) ∧
    (∃ new, results (rn s') = results (rn s) ++ new ∧ new ≡ₚ mjoin (dvalues d)) ∧
    (m ≠ 0 → parallel_attempts_done (rn s') = Z.of_nat m) ∧
    serial_attempts_done (rn s') = serial_attempts_done (rn s) ∧
    ∃ evs, trace (wd s') = trace (wd s) ++ evs ∧
      count_runs evs ≤ Z.to_nat max_attempts * length tests ∧
      ∀ cmd, EvRun cmd ∈ evs → ∃ t k wdir, t ∈ tests ∧ (1 ≤ k ≤ max_attempts)%Z ∧
        cmd = build_test_command a (Some t)
          (negb (delete_failed_namespaces a) && negb follow && (k =? max_attempts)%Z) (Some wdir).
Proof.
  cut (wp (retry_tests_in_parallel a tests max_attempts follow) (λ r s', ∃ d m, r = Ok d ∧
    m ≤ Z.to_nat max_attempts ∧ parallel_effect tests 1 m s (empty_results tests) d s' ∧
    parallel_trace a tests max_attempts follow (Z.to_nat max_attempts) 1 s s' ∧
    (m < Z.to_nat max_attempts → not_passed d tests = [])) s).
  { unfold wp. destruct (retry_tests_in_parallel a tests max_attempts follow s) as [r s'].
    simpl. intros (d & m & -> & Hm & (_ & Hser & _ & Hdk & Hup & (new & Hnew & Hp) & Hcnt) &
      (evs & Htr & Hc & HF) & Hlast).
    exists d, s', m. rewrite mjoin_empty_results in Hp by done.
    split_and!; [done..| |by exists new|intros; rewrite Hcnt, decide_False by done; lia|done|].
    - intros t l Hl. destruct (Hup t l Hl) as (? & HFl & ? & ?). split_and!; [lia|done| |done|].
      + eapply Forall_impl; [exact HFl|]. simpl. intros r (? & ? & ?). split_and!; [done|done|lia..].
      + intros Hlt. specialize (Hlast Hlt). destruct (any_success l) eqn:Ea; [done|].
        assert (t ∈ not_passed d tests) as Hin; [|by rewrite Hlast in Hin; apply not_elem_of_nil in Hin].
        apply elem_of_not_passed. rewrite Hl, <-Hdk. split; [done|]. apply dget_is_Some. eauto.
    - exists evs. split_and!; [done..|]. intros cmd Hin. rewrite Forall_forall in HF.
      destruct (HF _ Hin eq_refl) as (t & k & wdir & ? & ? & [= ->]).
      exists t, k, wdir. split_and!; [done|lia..|done]. }
  apply wp_retry_tests_in_parallel; [done..|]. intros d s' m ? ? ? ?. exists d, m. by split_and!.
Qed.

Lemma retry_tests_in_parallel_spec_witness :
  (0 < parallel default_args)%Z ∧ NoDup ["a" : str; "b" : str] ∧
  ∃ d s', retry_tests_in_parallel (env := suite_env [] (λ t, Ok (if decide (t = "a") then 0 else 1, Some "")%Z))
      default_args ["a"; "b"] 2 true (mkState empty_world (init_runner (mkDatetime 1 1 1 0 0 0 0)))
    = (Ok d, s') ∧ dkeys d = ["a" : str; "b" : str].
Proof.
  assert (0 < parallel default_args)%Z as H1 by (vm_compute; done).
  assert (NoDup ["a" : str; "b" : str]) as H2 by (apply (bool_decide_unpack _); vm_compute; done).
  split; [exact H1|split; [exact H2|]].
  destruct (retry_tests_in_parallel_spec
    (env := suite_env [] (λ t, Ok (if decide (t = "a") then 0 else 1, Some "")%Z))
    default_args ["a"; "b"] 2 true (mkState empty_world (init_runner (mkDatetime 1 1 1 0 0 0 0))) H1 H2)
    as (d & s' & m & Heq & Hk & _).
  exists d, s'. split; [exact Heq|exact Hk].
Defined.
