(* ===== verification/Strategy.v ===== *)
(** The retry strategy of [AutoRetryTestRunner] (scripts/auto-retry-tests.py): a
    round of parallel and serial retries, the summaries it leaves, whole runs and
    their exit code, and resuming a run. *)

From S2P Require Import Prelude PyStr PyFloat PyDict PyTime Json World RuntimeHistory TestModel.
From S2P Require Import StateManager TestExecutor ReportGenerator Runner Retries.

(** ** The retry strategy *)

Section wp_strategy.
Context {env : Env}.
Variable a : args.

Lemma serial_trace_runs_le name max_attempts s s' new :
  serial_trace a name max_attempts s s' new → runs_le (length new) s s'.
Proof.
  intros (evss & Ht & HF). exists (mjoin evss). split; [done|]. clear Ht.
  induction HF as [|r evs new evss Hr _ IH]; [apply Nat.le_0_l|].
  change (mjoin (evs :: evss)) with (evs ++ mjoin evss). cbn [length].
  rewrite count_runs_app, (run_events_count _ _ _ _ _ Hr). lia.
Qed.

(** The serial retries one test is still allowed. *)
Definition serial_left (s : state) (t : str) : Z :=
  (attempts_serial a - default 0 (dget t (serial_attempts_done (rn s))))%Z.

(** What the serial retries [l] of a test are like when [left] were allowed. *)
Definition serial_results_ok (t : str) (left : Z) (l : list TestResult) : Prop :=
  attempts_from "serial" t 1 l ∧ (Z.of_nat (length l) ≤ left)%Z ∧
  ((Z.of_nat (length l) < left)%Z → any_success l = true).

(** What a phase leaves as it was. *)
Definition phase_frame (s s' : state) : Prop :=
  retry_frame (rn s) (rn s') ∧
  (histories_ok (runtime_history (rn s)) → histories_ok (runtime_history (rn s'))) ∧
  results (rn s) `prefix_of` results (rn s').

#[local] Instance phase_frame_preorder : PreOrder phase_frame.
Proof.
  unfold phase_frame. split; [intros s; by split_and!|].
  intros s1 s2 s3 (? & ? & ?) (? & ? & ?). split_and!; [by etrans|auto|by etrans].
Qed.

Lemma wp_retry_test_serially t n Q s :
  (0 < n)%Z →
  (∀ l s', phase_frame s s' → serial_results_ok t n l → l ⊆ results (rn s') →
     runs_le (Z.to_nat n) s s' → parallel_attempts_done (rn s') = parallel_attempts_done (rn s) →
     (∀ t', t' ≠ t → dget t' (serial_attempts_done (rn s')) = dget t' (serial_attempts_done (rn s))) →
     Q (Ok l) s') →
  (∀ e s', phase_frame s s' → runs_le (Z.to_nat n) s s' → Q (Raise e) s') →
  wp (retry_test_serially a t n) Q s.
Proof.
  intros Hn HQ HE. unfold retry_test_serially. destruct (n <=? 0)%Z eqn:E; [lia|].
  apply wp_serial_loop.
  - intros s' new (Hf & Hr & Hp & Ho & Ha & Hh) _ Htr Hlen Hany. rewrite app_nil_l. apply HQ; try done.
    + split_and!; [done..|]. rewrite Hr. by apply prefix_app_r.
    + split_and!; [done|lia|]. intros. apply Hany. lia.
    + rewrite Hr. set_solver.
    + eapply runs_le_mono; [exact Hlen|]. by eapply serial_trace_runs_le.
  - intros e s' new (Hf & Hr & _ & _ & _ & Hh) _ Hle. apply HE; [|done].
    split_and!; [done..|]. rewrite Hr. by apply prefix_app_r.
Qed.

(** What a serial phase over [tests] computes for a test. *)
Definition serial_entry (s s' : state) (t : str) (old new : option (list TestResult)) : Prop :=
  if (0 <? serial_left s t)%Z
  then ∃ l, new = Some l ∧ serial_results_ok t (serial_left s t) l ∧ l ⊆ results (rn s')
  else new = old.

Lemma serial_left_runs s t : (∀ k, Some k = dget t (serial_attempts_done (rn s)) → (0 ≤ k)%Z) →
  Z.to_nat (serial_left s t) ≤ Z.to_nat (attempts_serial a).
Proof.
  intros Hk. unfold serial_left. destruct (dget t _) as [k|]; simpl; [|lia].
  specialize (Hk k eq_refl). lia.
Qed.

(** Attempt counters are never negative. *)
Definition counters_ok (s : state) : Prop :=
  ∀ t k, Some k = dget t (serial_attempts_done (rn s)) → (0 ≤ k)%Z.

Lemma wp_serial_phase tests d Q s :
  NoDup tests → (∀ t, t ∈ tests → ∀ k, Some k = dget t (serial_attempts_done (rn s)) → (0 ≤ k)%Z) →
  (∀ d' s', phase_frame s s' →
     parallel_attempts_done (rn s') = parallel_attempts_done (rn s) →
     (∀ t, t ∉ tests → dget t d' = dget t d) →
     (∀ t, t ∈ tests → serial_entry s s' t (dget t d) (dget t d')) →
     runs_le (length tests * Z.to_nat (attempts_serial a)) s s' → Q (Ok d') s') →
  (∀ e s', phase_frame s s' → runs_le (length tests * Z.to_nat (attempts_serial a)) s s' → Q (Raise e) s') →
  wp (serial_phase a tests d) Q s.
Proof.
  revert d s. induction tests as [|t tests IH]; intros d s Hnd Hcnt HQ HE; simpl.
  { apply wp_ret, HQ; [reflexivity|done|done|set_solver|by apply runs_le_same]. }
  apply NoDup_cons in Hnd as [Hnin Hnd].
  assert (Hpos : Z.to_nat (serial_left s t) ≤ Z.to_nat (attempts_serial a)).
  { apply serial_left_runs, Hcnt. left. }
  apply wp_bind, wp_get. cbn beta iota zeta. fold (serial_left s t).
  assert (Hother : ∀ s1 : state,
    (∀ t', t' ≠ t → dget t' (serial_attempts_done (rn s1)) = dget t' (serial_attempts_done (rn s))) →
    ∀ t', t' ∈ tests → serial_left s1 t' = serial_left s t').
  { intros s1 H1 t' Hin. unfold serial_left. rewrite H1; [done|]. by intros ->. }
  destruct (0 <? serial_left s t)%Z eqn:E.
  - apply wp_bind, wp_retry_test_serially; [lia| |].
    2: { intros e s1 Hf Hle. apply HE; [done|]. eapply runs_le_mono; [|done]. simpl. lia. }
    intros l s1 Hf Hl Hsub Hle Hp Hoth. apply IH; [done| | |].
    + intros t' Ht'. rewrite Hoth; [apply Hcnt; by right|by intros ->].
    + intros d' s' Hf' Hp' Hnew Hent Hle'. apply HQ; [by etrans|congruence| | |].
      * intros t' [? ?]%not_elem_of_cons. by rewrite Hnew, dget_dset_ne.
      * intros t' [->|Hin]%elem_of_cons.
        -- unfold serial_entry. rewrite E. exists l.
           rewrite Hnew, dget_dset_eq by done. split_and!; [done..|].
           destruct Hf' as (_ & _ & [k ->]). set_solver.
        -- specialize (Hent t' Hin). unfold serial_entry in *.
           rewrite (Hother s1 Hoth t' Hin), dget_dset_ne in Hent by (by intros ->). done.
      * eapply runs_le_trans; [exact Hle|exact Hle'|simpl; lia].
    + intros e s' Hf' Hle'. apply HE; [by etrans|].
      eapply runs_le_trans; [exact Hle|exact Hle'|simpl; lia].
  - apply IH; [done|intros; by eapply Hcnt; [right|]| |].
    + intros d' s' Hf' Hp' Hnew Hent Hle'. apply HQ; [done|done| | |].
      * intros t' [? ?]%not_elem_of_cons. by rewrite Hnew.
      * intros t' [->|Hin]%elem_of_cons; [|by apply Hent].
        unfold serial_entry. rewrite E. by apply Hnew.
      * eapply runs_le_mono; [|exact Hle']. simpl. lia.
    + intros e s' Hf' Hle'. apply HE; [done|]. eapply runs_le_mono; [|exact Hle']. simpl. lia.
Qed.

(** ** Summaries *)

(** The retries a test's summary is built from. *)
Definition all_retries (pr sr : dict (list TestResult)) (t : str) : list TestResult :=
  default [] (dget t pr) ++ default [] (dget t sr).

Lemma set_test_summaries_id r : set_test_summaries (test_summaries r) r = r.
Proof. by destruct r. Qed.

Lemma summarize_namespace t initial l ns :
  success initial = false → final_namespace (summarize a t initial l) = Some ns →
  any_success l = false ∧ delete_failed_namespaces a = false ∧
  ∃ res, res ∈ l ∧ namespace res = Some ns.
Proof.
  unfold summarize, classify, last_namespace. simpl. intros ->.
  destruct (any_success l), (delete_failed_namespaces a); try done. simpl.
  destruct (filter _ (reverse l)) as [|r k] eqn:E; [done|]. intros Hr.
  split_and!; [done..|]. exists r. split; [|done]. apply elem_of_reverse.
  assert (r ∈ filter (λ r, truthy (namespace r) = true) (reverse l)) as H by (rewrite E; left).
  by apply list_elem_of_filter in H as [_ ?].
Qed.

Definition summary_after (r : runner) (pr sr : dict (list TestResult)) (t : str) (tests : list str) :
    option TestSummary :=
  match dget t (test_summaries r) with
  | Some x => Some x
  | None => if decide (t ∈ tests)
            then Some (summarize a t (test_initial_result r t) (all_retries pr sr t)) else None
  end.

(** The body of the loop of [process_all_test_results]. *)
Definition process_test (pr sr : dict (list TestResult)) (test_name : str) : M state unit :=
  bind get (λ s,
    if dmem test_name (test_summaries (rn s)) then ret tt
    else bind (create_test_summary a test_name (test_initial_result (rn s) test_name)
           (all_retries pr sr test_name)) (λ _, ret tt)).

Lemma process_test_eq pr sr x s :
  process_test pr sr x s = (Ok tt,
    if dmem x (test_summaries (rn s)) then s
    else mkState (wd s) (set_test_summaries
      (dset x (summarize a x (test_initial_result (rn s) x) (all_retries pr sr x))
         (test_summaries (rn s))) (rn s))).
Proof. unfold process_test, bind at 1, get. by destruct (dmem x _). Qed.

Lemma process_tests_eq pr sr tests s :
  ∃ sums, for_each tests (process_test pr sr) s
    = (Ok tt, mkState (wd s) (set_test_summaries sums (rn s))) ∧
    ∀ t, dget t sums = summary_after (rn s) pr sr t tests.
Proof.
  revert s. induction tests as [|x tests IH]; intros s.
  { exists (test_summaries (rn s)). rewrite set_test_summaries_id. split; [by destruct s|].
    intros t. unfold summary_after. destruct (dget t _); [done|].
    rewrite decide_False; [done|]. apply not_elem_of_nil. }
  simpl. unfold bind at 1. rewrite process_test_eq. cbn iota. destruct (dmem x _) eqn:E.
  - destruct (IH s) as (sums & -> & Hs). exists sums. split; [done|]. intros t.
    rewrite Hs. unfold summary_after. destruct (dget t _) eqn:Et; [done|].
    apply decide_ext. rewrite elem_of_cons. split; [by right|]. intros [->|]; [|done].
    apply dmem_true, dget_is_Some in E as [? ?]. congruence.
  - apply dmem_false in E. set (s1 := mkState _ _).
    destruct (IH s1) as (sums & -> & Hs). exists sums. split; [done|].
    intros t. rewrite Hs. unfold summary_after. simpl. rewrite dget_dset.
    destruct (decide (x = t)) as [->|Hne].
    + rewrite E, decide_True by left. done.
    + destruct (dget t _); [done|]. apply decide_ext. rewrite elem_of_cons. naive_solver.
Qed.

Lemma process_all_eq pr sr s :
  ∃ sums, process_all_test_results a pr sr s
    = (Ok tt, mkState (wd s) (set_test_summaries sums (rn s))) ∧
    ∀ t, dget t sums = summary_after (rn s) pr sr t (failed_tests (rn s)).
Proof. apply (process_tests_eq pr sr (failed_tests (rn s)) s). Qed.

(** ** One round of retries *)

Lemma wp_execute_parallel_retries Q s :
  (0 < parallel a)%Z → NoDup (failed_tests (rn s)) → (0 ≤ parallel_attempts_done (rn s))%Z →
  (∀ d s', phase_frame s s' → serial_attempts_done (rn s') = serial_attempts_done (rn s) →
     (∀ t l, dget t d = Some l → l ⊆ results (rn s') ∧
        retries_upto t (attempts_parallel a - parallel_attempts_done (rn s)) l) →
     (∀ t, t ∈ dkeys d → already_passed (rn s) t = false) →
     runs_le (length (failed_tests (rn s)) * Z.to_nat (attempts_parallel a)) s s' → Q (Ok d) s') →
  wp (execute_parallel_retries a) Q s.
Proof.
  intros Hpar Hnd Hdone HQ. unfold execute_parallel_retries. apply wp_bind, wp_get. cbn beta iota zeta.
  assert (Hnone : wp (ret (@nil (str * list TestResult))) Q s).
  { apply wp_ret, HQ; [reflexivity|done|done|set_solver|by apply runs_le_same]. }
  destruct (_ && _) eqn:E; [|done].
  destruct (filter _ _) as [|t0 ts0] eqn:Ef; [done|]. rewrite <-Ef. clear Hnone.
  set (tests := filter (λ t, already_passed (rn s) t = false) (failed_tests (rn s))) in *.
  assert (Hlen : length tests ≤ length (failed_tests (rn s))) by apply sublist_length, sublist_filter.
  apply wp_retry_tests_in_parallel; [done|by apply NoDup_filter|].
  intros d s' m Hm (Hf & Hser & Hh & Hdk & Hup & (new & Hnew & Hp) & _) (evs & Htr & Hc & _) _.
  apply HQ; [|done| | |].
  - split_and!; [done..|]. rewrite Hnew. by apply prefix_app_r.
  - intros t l Hl. split; [|eapply retries_upto_mono; [|by apply Hup]; lia].
    rewrite mjoin_empty_results in Hp by by apply NoDup_filter.
    intros r Hr. rewrite Hnew, elem_of_app. right. rewrite app_nil_l in Hp. rewrite <-Hp.
    apply list_elem_of_join. exists l. split; [done|].
    apply dget_elem_of in Hl. by apply (list_elem_of_fmap_2 snd) in Hl.
  - intros t. rewrite Hdk. unfold tests. rewrite list_elem_of_filter. naive_solver.
  - exists evs. split; [done|]. nia.
Qed.

Lemma wp_execute_serial_retries pr Q s :
  NoDup (failed_tests (rn s)) → counters_ok s →
  (∀ d s', phase_frame s s' →
     (∀ t, t ∈ failed_tests (rn s) → already_passed (rn s) t = false →
        any_success (default [] (dget t pr)) = false → serial_entry s s' t None (dget t d)) →
     (∀ t, t ∈ dkeys d → any_success (default [] (dget t pr)) = false) →
     runs_le (length (failed_tests (rn s)) * Z.to_nat (attempts_serial a)) s s' → Q (Ok d) s') →
  (∀ e s', phase_frame s s' →
     runs_le (length (failed_tests (rn s)) * Z.to_nat (attempts_serial a)) s s' → Q (Raise e) s') →
  wp (execute_serial_retries a pr) Q s.
Proof.
  intros Hnd Hcnt HQ HE. unfold execute_serial_retries. apply wp_bind, wp_get. cbn beta iota zeta.
  set (tests := still_failing (rn s) pr).
  assert (Hin : ∀ t, t ∈ tests ↔ (already_passed (rn s) t = false ∧
    any_success (default [] (dget t pr)) = false) ∧ t ∈ failed_tests (rn s)).
  { intros t. unfold tests, still_failing. by rewrite list_elem_of_filter. }
  assert (Hlen : length tests ≤ length (failed_tests (rn s))) by apply sublist_length, sublist_filter.
  destruct (_ && _) eqn:E.
  - apply wp_serial_phase; [by apply NoDup_filter|intros t _; apply Hcnt| |].
    + intros d s' Hf _ Hout Hent Hle. apply HQ; [done| | |eapply runs_le_mono; [|done]; nia].
      * intros t ? ? ?. apply Hent, Hin. naive_solver.
      * intros t Ht. destruct (decide (t ∈ tests)) as [Hin'|Hn]; [apply Hin in Hin'; naive_solver|].
        apply dget_is_Some in Ht as [l Hl]. rewrite Hout in Hl; done.
    + intros e s' Hf Hle. apply HE; [done|]. eapply runs_le_mono; [|done]. nia.
  - apply wp_ret, HQ; [reflexivity| |set_solver|by apply runs_le_same].
    intros t H1 H2 H3. unfold serial_entry. case_match; [|done].
    apply andb_false_iff in E as [E|E].
    + destruct (dget t (serial_attempts_done (rn s))) as [k|] eqn:Ek; unfold serial_left in *;
        rewrite Ek in *; simpl in *; [specialize (Hcnt t k (eq_sym Ek))|]; lia.
    + apply bool_decide_eq_false, dec_stable in E. assert (t ∈ tests) as Ht by naive_solver.
      rewrite E in Ht. by apply not_elem_of_nil in Ht.
Qed.

(** What the retries of a summary are like: parallel ones, at most as many as are left,
    then serial ones, numbered from 1 and at most as many as are left; nothing follows a
    success, and without one the serial ones are all that were left. *)
Definition retries_ok (s s' : state) (t : str) (l : list TestResult) : Prop :=
  l ⊆ results (rn s') ∧
  (∀ i r, l !! i = Some r → success r = true → S i = length l) ∧
  ∃ pl sl, l = pl ++ sl ∧
    retries_upto t (attempts_parallel a - parallel_attempts_done (rn s)) pl ∧
    attempts_from "serial" t 1 sl ∧ (Z.of_nat (length sl) ≤ Z.max 0 (serial_left s t))%Z ∧
    (any_success l = false → Z.of_nat (length sl) = Z.max 0 (serial_left s t)).

Lemma serial_entry_ok s s' t o :
  serial_entry s s' t None o →
  let l := default [] o in
  l ⊆ results (rn s') ∧ attempts_from "serial" t 1 l ∧ (Z.of_nat (length l) ≤ Z.max 0 (serial_left s t))%Z ∧
  (any_success l = false → Z.of_nat (length l) = Z.max 0 (serial_left s t)).
Proof.
  unfold serial_entry. destruct (0 <? _)%Z eqn:E.
  - intros (l & -> & (Ha & Hl & Hany) & Hsub). simpl. split_and!; [done|done|lia|].
    intros Hf. destruct (decide (Z.of_nat (length l) < serial_left s t)%Z) as [Hlt|]; [|lia].
    by rewrite Hany in Hf.
  - intros ->. simpl. split_and!; [set_solver|apply attempts_from_nil|lia|lia].
Qed.

Lemma retries_ok_intro s s' t pl sl :
  pl ⊆ results (rn s') → retries_upto t (attempts_parallel a - parallel_attempts_done (rn s)) pl →
  (any_success pl = true → sl = []) →
  sl ⊆ results (rn s') → attempts_from "serial" t 1 sl →
  (Z.of_nat (length sl) ≤ Z.max 0 (serial_left s t))%Z →
  (any_success (pl ++ sl) = false → Z.of_nat (length sl) = Z.max 0 (serial_left s t)) →
  retries_ok s s' t (pl ++ sl).
Proof.
  intros Hp Hpl Hstop Hs Hsl Hslen Hall. pose proof Hpl as (_ & _ & _ & Hsuc). split_and!.
  - set_solver.
  - intros i r Hi Hr. rewrite length_app. apply lookup_app_Some in Hi as [Hi|[Hge Hi]].
    + rewrite Hstop; [simpl; rewrite Nat.add_0_r; by eapply Hsuc|].
      apply existsb_true_Exists, Exists_exists. exists r. split; [|done].
      by eapply list_elem_of_lookup_2.
    + destruct (Hsl _ _ Hi) as (_ & _ & _ & Hlast). rewrite <-(Hlast Hr). lia.
  - by exists pl, sl.
Qed.

(** One round: the state between the two phases is abstracted away. *)
Lemma wp_execute_test_retries Q s :
  (0 < parallel a)%Z → NoDup (failed_tests (rn s)) → (0 ≤ parallel_attempts_done (rn s))%Z →
  counters_ok s →
  let bound := length (failed_tests (rn s)) *
                 (Z.to_nat (attempts_parallel a) + Z.to_nat (attempts_serial a)) in
  (∀ e s', phase_frame s s' → runs_le bound s s' → Q (Raise e) s') →
  (∀ s' pr sr, failed_tests (rn s') = failed_tests (rn s) →
     results (rn s) `prefix_of` results (rn s') → runs_le bound s s' →
     (∀ t, dget t (test_summaries (rn s')) = summary_after (rn s) pr sr t (failed_tests (rn s))) →
     (∀ t, t ∈ failed_tests (rn s) → dget t (test_summaries (rn s)) = None →
        retries_ok s s' t (all_retries pr sr t)) →
     Q (Ok true) s') →
  wp (execute_test_retries a) Q s.
Proof.
  intros Hpar Hnd Hdone Hcnt bound HE HQ. unfold execute_test_retries.
  apply wp_bind, wp_execute_parallel_retries; [done..|].
  intros pr s1 Hf1 Hser1 Hpr _ Hle1. pose proof Hf1 as ((Hsum & Hst & Hft & Hlog) & _ & Hpre).
  assert (Hleft : ∀ t, serial_left s1 t = serial_left s t).
  { intros t. unfold serial_left. by rewrite Hser1. }
  assert (Hap : ∀ t, already_passed (rn s1) t = already_passed (rn s) t).
  { intros t. unfold already_passed. by rewrite Hsum. }
  apply wp_bind, wp_execute_serial_retries; [by rewrite Hft|unfold counters_ok; by rewrite Hser1| |].
  2: { intros e s2 Hf2 Hle2. rewrite Hft in Hle2. apply HE; [by etrans|].
       eapply runs_le_trans; [exact Hle1|exact Hle2|]. unfold bound. lia. }
  intros sr s2 Hf2 Hent Hout Hle2. pose proof Hf2 as ((Hsum2 & _ & Hft2 & Hlog2) & _ & Hpre2).
  rewrite Hft in *. apply wp_bind. destruct (process_all_eq pr sr s2) as (sums & Heq & Hs).
  unfold wp at 1. rewrite Heq. cbn [fst snd]. apply wp_ret.
  apply (HQ _ pr sr); simpl; [congruence|by etrans| | |].
  { eapply runs_le_trans; [exact Hle1| |]; [exact Hle2|]. unfold bound. lia. }
  { intros t. rewrite Hs. unfold summary_after, test_initial_result. by rewrite Hsum2, Hsum, Hft2, Hlog2, Hlog. }
  intros t Ht Hnone. unfold all_retries.
  assert (Hnp : already_passed (rn s) t = false) by (unfold already_passed; by rewrite Hnone).
  assert (Hpl : default [] (dget t pr) ⊆ results (rn s2) ∧
    retries_upto t (attempts_parallel a - parallel_attempts_done (rn s)) (default [] (dget t pr))).
  { destruct (dget t pr) as [l|] eqn:El; simpl; [|split; [set_solver|apply retries_upto_nil]].
    destruct (Hpr t l El) as [? ?]. split; [|done]. destruct Hpre2 as [k ->]. set_solver. }
  destruct Hpl as [Hpl1 Hpl2].
  destruct (any_success (default [] (dget t pr))) eqn:Ea.
  - destruct (dget t sr) as [l|] eqn:El.
    { rewrite Hout in Ea; [done|]. apply dget_is_Some. eauto. }
    apply retries_ok_intro; simpl; try done; [set_solver|lia|].
    rewrite app_nil_r. congruence.
  - assert (Hsl : serial_entry s1 s2 t None (dget t sr)) by (apply Hent; congruence).
    apply serial_entry_ok in Hsl as (Hs1 & Hs2 & Hs3 & Hs4). rewrite Hleft in *.
    apply retries_ok_intro; try done; [by rewrite Ea|].
    unfold any_success. rewrite existsb_app. intros [_ ?]%orb_false_iff. auto.
Qed.


End wp_strategy.

(** ** Runs *)

Section wp_run.
Context {env : Env}.
Variable a : args.

Lemma wp_true {S A} (m : M S A) s : wp m (λ _ _, True) s.
Proof. done. Qed.

Lemma wp_load_failed_tests dir p Q w :
  (∀ r w', same_but_clock w w' → Q r w') → wp (load_failed_tests_from_state dir (Some p)) Q w.
Proof.
  intros HQ. unfold load_failed_tests_from_state. apply wp_bind, wp_ret. cbn beta iota.
  apply wp_bind, wp_safe_load. intros j w' Hw. cbn beta iota.
  destruct (json_truthy j); [apply wp_lift|apply wp_ret]; by apply HQ.
Qed.

(** Starting changes no summary; it says "stop" only to a runner without failed tests. *)
Lemma wp_initialize_run_mode Q s :
  (∀ r s1, test_summaries (rn s1) = test_summaries (rn s) →
     (r = Ok false → failed_tests (rn s) = []) → Q r s1) →
  wp (initialize_run_mode a) Q s.
Proof.
  intros HQ. unfold initialize_run_mode. apply wp_bind, wp_get. cbn beta iota.
  destruct (failed_tests (rn s)) as [|t ts] eqn:Ef; [|by apply wp_ret, HQ].
  assert (Hinit : wp (_run_initial_test_suite a) Q s).
  { unfold _run_initial_test_suite. apply wp_bind, wp_run_single_test_suite.
    intros r s1 ([[h Hr] _] & _). destruct r as [res|e]; [|apply HQ; [by rewrite Hr|done]].
    destruct (success res).
    - apply wp_bind, wp_get. cbn beta iota. apply wp_bind, wp_generate_and_save_final_report.
      intros rr w Hrr _ _. destruct rr; [apply wp_ret|]; apply HQ; simpl; try done; by rewrite Hr.
    - apply wp_bind, wp_on_world, wp_parse_failed_tests_from_log. intros l w _. cbn beta iota.
      destruct l; [apply wp_ret, HQ; simpl; try done; by rewrite Hr|].
      apply wp_bind, wp_on_runner, wp_bind, wp_on_runner, wp_ret, HQ; simpl; try done; by rewrite Hr. }
  destruct (rerun_failed a) as [[|c p]|]; [done| |done].
  unfold _load_failed_tests_for_rerun. apply wp_bind, wp_on_world, wp_load_failed_tests.
  intros r w _. destruct r as [l|e]; [|by apply HQ].
  destruct l; [by apply wp_ret, HQ|]. apply wp_bind, wp_on_runner, wp_ret. by apply HQ.
Qed.

Lemma wp_execute_test_retries_ok Q s :
  (∀ r s', (∀ b, r = Ok b → b = true) → Q r s') → wp (execute_test_retries a) Q s.
Proof.
  intros HQ. unfold execute_test_retries.
  apply wp_bind. eapply wp_mono; [apply wp_true|]. intros [pr|e] s1 _; [|by apply HQ].
  apply wp_bind. eapply wp_mono; [apply wp_true|]. intros [sr|e] s2 _; [|by apply HQ].
  apply wp_bind. eapply wp_mono; [apply wp_true|]. intros [[]|e] s3 _; [|by apply HQ].
  apply wp_ret, HQ. by intros b [= <-].
Qed.

Lemma with_status_nil st r :
  with_status st r ≠ [] ↔ ∃ sm, sm ∈ dvalues (test_summaries r) ∧ final_status sm = st.
Proof.
  split.
  - destruct (with_status st r) as [|sm l] eqn:E; [done|]. intros _. exists sm.
    apply elem_of_with_status. rewrite E. left.
  - intros (sm & Hsm%elem_of_with_status) E. rewrite E in Hsm. by apply not_elem_of_nil in Hsm.
Qed.

End wp_run.

(** ** Theorems *)

(** C2: one round of retries (fresh or resumed): it starts at most so many runs;
    when it returns, every failed test has a summary: one that was there already
    is kept, a new one is "flaky" exactly when one of its retries passed and
    "failed" otherwise; its retries are among the runner's results, stay within
    the allowed attempts and end with the first success, and a test is only called
    failed after all the serial attempts left to it have been made: its retries are
    parallel ones, at most as many as the earlier rounds left, and then serial ones,
    numbered from 1, exactly as many as its own counter leaves.  The namespace
    it shows is that of a retry, and only for a failed test whose namespace was
    meant to be kept. *)
Theorem execute_test_retries_spec {env : Env} (a : args) (s : state)
    (Hpar : (0 < parallel a)%Z) (Hnd : NoDup (failed_tests (rn s)))
    (Hdone : (0 ≤ parallel_attempts_done (rn s))%Z) (Hcnt : counters_ok s) :
  let '(r, s') := execute_test_retries a s in
  failed_tests (rn s') = failed_tests (rn s) ∧
  runs_le (length (failed_tests (rn s)) *
             (Z.to_nat (attempts_parallel a) + Z.to_nat (attempts_serial a))) s s' ∧
  (r = Ok true → ∀ t, t ∈ failed_tests (rn s) →
     ∃ sm, dget t (test_summaries (rn s')) = Some sm ∧
       (∀ old, dget t (test_summaries (rn s)) = Some old → sm = old) ∧
       (dget t (test_summaries (rn s)) = None →
          ts_test_name sm = t ∧
          final_status sm = (if any_success (retry_results sm) then "flaky" else "failed") ∧
          total_attempts sm = (1 + Z.of_nat (length (retry_results sm)))%Z ∧
          retries_ok a s s' t (retry_results sm) ∧
          (∀ ns, final_namespace sm = Some ns →
             any_success (retry_results sm) = false ∧ delete_failed_namespaces a = false ∧
             ∃ res, res ∈ retry_results sm ∧ namespace res = Some ns))).
Proof.
  cut (wp (execute_test_retries a) (λ r s', failed_tests (rn s') = failed_tests (rn s) ∧
    runs_le (length (failed_tests (rn s)) *
             (Z.to_nat (attempts_parallel a) + Z.to_nat (attempts_serial a))) s s' ∧
    (r = Ok true → ∃ pr sr,
      (∀ t, dget t (test_summaries (rn s')) = summary_after a (rn s) pr sr t (failed_tests (rn s))) ∧
      (∀ t, t ∈ failed_tests (rn s) → dget t (test_summaries (rn s)) = None →
        retries_ok a s s' t (all_retries pr sr t)))) s).
  { unfold wp. destruct (execute_test_retries a s) as [r s']. simpl.
    intros (H1 & H2 & H3). split_and!; [done..|]. intros Hr t Ht.
    destruct (H3 Hr) as (pr & sr & Hs & Hok). specialize (Hs t). specialize (Hok t Ht).
    unfold summary_after in Hs. destruct (dget t (test_summaries (rn s))) as [old|] eqn:Eo.
    - exists old. split_and!; [done|naive_solver|done].
    - rewrite decide_True in Hs by done. eexists. split_and!; [exact Hs|done|]. intros _.
      split_and!; try done; [by apply Hok|].
      intros ns. by apply (summarize_namespace a t (test_initial_result (rn s) t) (all_retries pr sr t)). }
  apply wp_execute_test_retries; [done..| |].
  - intros e s' ((_ & _ & Hft & _) & _) Hle. by split_and!.
  - intros s' pr sr Hft _ Hle Hs Hok. split_and!; [done..|]. intros _. by exists pr, sr.
Qed.

(** The exit code of a run is 0 or 1, and it is 1 exactly when some summary
    says "failed". *)
Theorem run_exit_code {env : Env} (a : args) (s s' : state) (c : Z)
    (Hfresh : failed_tests (rn s) = [] → test_summaries (rn s) = [])
    (Hrun : run a s = (Ok c, s')) :
  (c = 0 ∨ c = 1)%Z ∧
  (c = 1%Z ↔ ∃ sm, sm ∈ dvalues (test_summaries (rn s')) ∧ final_status sm = "failed").
Proof.
  cut (wp (run a) (λ r s', ∀ c, r = Ok c → (c = 0 ∨ c = 1)%Z ∧
    (c = 1%Z ↔ with_status "failed" (rn s') ≠ [])) s).
  { unfold wp. rewrite Hrun. simpl. intros H. destruct (H c eq_refl) as [H1 H2]. split; [done|].
    by rewrite H2, with_status_nil. }
  unfold run. apply wp_bind, wp_initialize_run_mode. intros [[]|e] s1 Hsum Hgo; [| |done].
  - apply wp_bind, wp_execute_test_retries_ok. intros [ok|e] s2 Hok; [|done].
    rewrite (Hok ok eq_refl). unfold finalize_and_report. apply wp_bind, wp_get. cbn beta iota.
    apply wp_bind, wp_generate_and_save_final_report. intros [[]|e] w _ _ _; [|done].
    cbn beta iota. apply wp_bind, wp_get. cbn beta iota. apply wp_ret. simpl.
    intros c0 [= <-]. destruct (with_status "failed" (rn s2)); simpl; naive_solver.
  - apply wp_ret. intros c0 [= <-]. split; [by left|]. unfold with_status.
    rewrite Hsum, Hfresh by auto. simpl. naive_solver.
Qed.

(** ** Concrete runs *)

(** A runner with the failed tests [tests]. *)
Definition failed_state (tests : list str) : state :=
  mkState empty_world (set_failed_tests tests (init_runner (mkDatetime 1 1 1 0 0 0 0))).

Lemma execute_test_retries_spec_witness :
  let env := suite_env [] (λ t, Ok (if decide (t = "a") then 0 else 1, Some "")%Z) in
  let s := failed_state ["a"; "b"] in
  (0 < parallel default_args)%Z ∧ NoDup (failed_tests (rn s)) ∧
  (0 ≤ parallel_attempts_done (rn s))%Z ∧ counters_ok s ∧
  runs_le 6 s (execute_test_retries (env := env) default_args s).2.
Proof.
  set (env := suite_env _ _). set (s := failed_state _). cbn zeta.
  assert (0 < parallel default_args)%Z as H1 by (vm_compute; done).
  assert (NoDup (failed_tests (rn s))) as H2 by (apply (bool_decide_unpack _); vm_compute; done).
  assert (0 ≤ parallel_attempts_done (rn s))%Z as H3 by (vm_compute; done).
  assert (counters_ok s) as H4 by (intros t k H; done).
  split; [exact H1|split; [exact H2|split; [exact H3|split; [exact H4|]]]].
  pose proof (execute_test_retries_spec (env := env) default_args s H1 H2 H3 H4) as H.
  destruct (execute_test_retries (env := env) default_args s) as [r s'].
  destruct H as (_ & H & _). exact H.
Defined.

Lemma run_exit_code_witness :
  let env := suite_env ["a"; "b"] (λ t, Ok (if decide (t = "a") then 0 else 1, Some "")%Z) in
  ∃ s', run (env := env) default_args (failed_state []) = (Ok 1%Z, s') ∧
    ∃ sm, sm ∈ dvalues (test_summaries (rn s')) ∧ final_status sm = "failed".
Proof.
  set (env := suite_env _ _). cbn zeta.
  pose (x := run (env := env) default_args (failed_state [])).
  assert (x.1 = Ok 1%Z) as Hx by (vm_compute; reflexivity).
  assert (run (env := env) default_args (failed_state []) = (Ok 1%Z, x.2)) as H.
  { fold x. rewrite <-Hx. apply surjective_pairing. }
  exists x.2. split; [exact H|].
  assert (failed_tests (rn (failed_state [])) = [] → test_summaries (rn (failed_state [])) = []) as Hf by done.
  apply (run_exit_code (env := env) default_args (failed_state []) x.2 1 Hf H). reflexivity.
Defined.

(** ** Where the program goes wrong *)

(** C23: a suite that cannot be run at all (it fails, and its log names no failed
    test) makes the whole run end with exit code 0, that of success. *)
Theorem run_reports_success_when_suite_cannot_run {env : Env} (a : args) (s s1 : state)
    (res : TestResult) (w2 : world)
    (Hfresh : failed_tests (rn s) = []) (Hre : truthy (rerun_failed a) = false)
    (Hrun : run_single_test_suite a None false 1 "initial" s = (Ok res, s1))
    (Hfail : success res = false)
    (Hlog : parse_failed_tests_from_log (default [] (log_file res)) (wd s1) = (Ok [], w2)) :
  run a s = (Ok 0%Z, mkState w2 (rn s1)).
Proof.
  unfold run, initialize_run_mode, bind at 1, bind at 1, get at 1. rewrite Hfresh.
  assert (_run_initial_test_suite a s = (Ok false, mkState w2 (rn s1))) as Hinit.
  { unfold _run_initial_test_suite, bind at 1. rewrite Hrun, Hfail. unfold bind at 1, on_world.
    by rewrite Hlog. }
  destruct (rerun_failed a) as [[|c p]|]; [|done|]; by rewrite Hinit.
Qed.

Lemma run_reports_success_when_suite_cannot_run_witness :
  let env := suite_env [] (λ _, Ok (0%Z, Some "")) in
  ∃ s', run (env := env) default_args (failed_state []) = (Ok 0%Z, s') ∧
    trace (wd s') ≠ [].
Proof.
  set (env := suite_env _ _). cbn zeta.
  pose (x := run_single_test_suite (env := env) default_args None false 1 "initial" (failed_state [])).
  assert (∃ res, x.1 = Ok res ∧ success res = false ∧
    (parse_failed_tests_from_log (env := env) (default [] (log_file res)) (wd x.2)).1 = Ok []) as
    (res & Hx & Hs & Hp).
  { eexists. split; [vm_compute; reflexivity|split; vm_compute; reflexivity]. }
  pose (y := parse_failed_tests_from_log (env := env) (default [] (log_file res)) (wd x.2)).
  exists (mkState y.2 (rn x.2)). split.
  - apply (run_reports_success_when_suite_cannot_run (env := env) default_args (failed_state []) x.2 res y.2).
    + reflexivity.
    + reflexivity.
    + fold x. rewrite <-Hx. apply surjective_pairing.
    + exact Hs.
    + fold y. change (y.1 = Ok []) in Hp. rewrite <-Hp. apply surjective_pairing.
  - assert (res = default res (match x.1 with Ok r => Some r | Raise _ => None end)) as Hres by by rewrite Hx.
    unfold y. rewrite Hres. vm_compute. done.
Defined.

Definition serial_args (state : option str) : args :=
  mkArgs 2 None [] 0 1 true "test-results" state None.

(** The tests "a", "b" and "c" fail in the full suite; retried, "a" and "b" pass
    and the run of "c" cannot be started. *)
Definition interrupted_run : result Z * world :=
  main (env := suite_env ["a"; "b"; "c"]
    (λ t, if decide (t = "c") then Raise OtherOSError else Ok (0%Z, Some "")))
    (serial_args None) empty_world.

(** The run is resumed, and now every test passes. *)
Definition resumed_run : result Z * world :=
  main (env := suite_env [] (λ _, Ok (0%Z, Some "")))
    (serial_args (Some "test-results/test_run_state.json"))
    (mkWorld (fs interrupted_run.2) 0 []).

(** The test an event runs on its own. *)
Definition test_of_run (ev : event) : option str :=
  match ev with
  | EvRun (_ :: flag :: t :: _) => if decide (flag = "--test") then Some t else None
  | _ => None
  end.

(** An interrupted and resumed run ends with exit code 1 although every retry
    of every test passed: the successes recorded in the state file are not taken
    into account.  Of the tests that passed before the interruption, "b" is run
    again, and "a", whose attempts are used up, is not and counts as failed. *)
Theorem resume_fails_passed_tests :
  interrupted_run.1 = Raise OtherOSError ∧
  omap test_of_run (trace interrupted_run.2) = ["a"; "b"] ∧
  resumed_run.1 = Ok 1%Z ∧
  omap test_of_run (trace resumed_run.2) = ["b"; "c"].
Proof. split_and!; vm_compute; reflexivity. Qed.

(** A run with two serial attempts for each test, [n] times interrupted and resumed:
    the test "a" fails and "b" cannot be started. *)
Definition unlucky_args (state : option str) : args :=
  mkArgs 2 None [] 0 2 true "test-results" state None.

Definition unlucky_env : Env := suite_env ["a"; "b"]
  (λ t, if decide (t = "b") then Raise OtherOSError else Ok (1%Z, Some "")).

Fixpoint sessions (n : nat) : world :=
  match n with
  | O => (main (env := unlucky_env) (unlucky_args None) empty_world).2
  | S n' =>
      let w := sessions n' in
      (main (env := unlucky_env) (unlucky_args (Some "test-results/test_run_state.json"))
         (mkWorld (fs w) 0 (trace w))).2
  end.

(** The number of serial attempts is no bound across resumed runs: with two of
    them allowed, a test is retried twice and then once more each time the run is
    resumed, because the attempts are counted from one again. *)
Theorem resumed_attempts_exceed_bound :
  attempts_serial (unlucky_args None) = 2%Z ∧
  omap test_of_run (trace (sessions 0)) = ["a"; "a"] ∧
  omap test_of_run (trace (sessions 3)) = ["a"; "a"; "a"; "a"; "a"].
Proof. split_and!; vm_compute; reflexivity. Qed.

(** More generally, once the attempts are used up and no summary was restored,
    a round starts nothing and calls every failed test "failed", whatever results
    are recorded. *)
Theorem exhausted_round_fails_everything {env : Env} (a : args) (s : state)
    (Hsum : test_summaries (rn s) = [])
    (Hpar : (attempts_parallel a ≤ parallel_attempts_done (rn s))%Z)
    (Hser : ∀ t, t ∈ failed_tests (rn s) → (serial_left a s t ≤ 0)%Z) :
  ∃ s', execute_test_retries a s = (Ok true, s') ∧ wd s' = wd s ∧ results (rn s') = results (rn s) ∧
    ∀ t, t ∈ failed_tests (rn s) →
      ∃ sm, dget t (test_summaries (rn s')) = Some sm ∧ final_status sm = "failed" ∧ retry_results sm = [].
Proof.
  assert (Hphase : ∀ tests, (∀ t, t ∈ tests → (serial_left a s t ≤ 0)%Z) →
    serial_phase a tests [] s = (Ok [], s)).
  { induction tests as [|t tests IH]; intros H; [done|]. simpl.
    unfold bind, get. fold (serial_left a s t).
    specialize (H t (list_elem_of_here _ _)) as Ht.
    destruct (0 <? serial_left a s t)%Z eqn:E; [lia|]. apply IH. intros. apply H. by right. }
  destruct (process_all_eq a [] [] s) as (sums & Heq & Hs).
  exists (mkState (wd s) (set_test_summaries sums (rn s))). split_and!; [|done..|].
  - assert (execute_parallel_retries a s = (Ok [], s)) as E1.
    { unfold execute_parallel_retries, bind, get. cbn zeta.
      destruct (_ && _) eqn:E; [lia|done]. }
    assert (execute_serial_retries a [] s = (Ok [], s)) as E2.
    { unfold execute_serial_retries, bind, get. cbn zeta. destruct (_ && _); [|done].
      apply Hphase. intros t [_ Ht]%list_elem_of_filter. auto. }
    unfold execute_test_retries, bind at 1. rewrite E1. unfold bind at 1. rewrite E2.
    unfold bind at 1. by rewrite Heq.
  - intros t Ht. simpl. rewrite Hs. unfold summary_after. rewrite Hsum. simpl.
    rewrite decide_True by done. eexists. by split_and!.
Qed.

Lemma exhausted_round_fails_everything_witness :
  let s := mkState empty_world
    (set_results [mkTestResult "a" 1 "serial" true None fzero None None]
      (set_serial_attempts_done [("a", 1%Z)] (rn (failed_state ["a"])))) in
  any_success (results (rn s)) = true ∧
  ∃ s', execute_test_retries (env := quiet_env) (serial_args None) s = (Ok true, s') ∧ wd s' = wd s.
Proof.
  set (s := mkState _ _). cbn zeta. split; [reflexivity|].
  assert (test_summaries (rn s) = []) as H1 by reflexivity.
  assert (attempts_parallel (serial_args None) ≤ parallel_attempts_done (rn s))%Z as H2 by (vm_compute; done).
  assert (∀ t, t ∈ failed_tests (rn s) → (serial_left (serial_args None) s t ≤ 0)%Z) as H3.
  { intros t Ht. apply list_elem_of_singleton in Ht. subst t. vm_compute. done. }
  destruct (exhausted_round_fails_everything (env := quiet_env) (serial_args None) s H1 H2 H3)
    as (s' & Heq & Hw & _).
  exists s'. split; [exact Heq|exact Hw].
Defined.
