(* ===== verification/RunInvariant.v ===== *)
(** What a whole run of scripts/auto-retry-tests.py keeps true of the runner: its
    histories and summaries are well formed whatever happens, and a run that returns
    leaves exactly one summary for every failed test. *)

From S2P Require Import Prelude PyStr PyFloat PyDict PyTime Json World RuntimeHistory TestModel.
From S2P Require Import StateManager TestExecutor ReportGenerator Runner Retries Strategy.

(** ** Well-formed runners *)

(** A summary as [create_test_summary] makes it for the test [t]. *)
Definition summary_fits (t : str) (sm : TestSummary) : Prop :=
  ts_test_name sm = t ∧ summary_ok sm ∧
  total_attempts sm = (1 + Z.of_nat (length (retry_results sm)))%Z.

Record runner_ok (r : runner) : Prop := {
  ok_histories : histories_ok (runtime_history r);
  ok_keys : wf (test_summaries r);
  ok_tests : ∀ t, t ∈ dkeys (test_summaries r) → t ∈ failed_tests r;
  ok_summaries : ∀ t sm, dget t (test_summaries r) = Some sm → summary_fits t sm;
}.

(** ** What the retries leave alone *)

Definition same_tests (r r' : runner) : Prop :=
  retry_frame r r' ∧ (histories_ok (runtime_history r) → histories_ok (runtime_history r')).

#[global] Instance same_tests_preorder : PreOrder same_tests.
Proof.
  unfold same_tests. split; [intros r; by split|].
  intros r1 r2 r3 [H1 H2] [H3 H4]. split; [by etrans|auto].
Qed.

Lemma same_tests_ok r r' : same_tests r r' → runner_ok r → runner_ok r'.
Proof.
  intros [(Hs & _ & Hf & _) Hh] [H1 H2 H3 H4]. split; rewrite ?Hs, ?Hf; auto.
Qed.

(** Programs that never touch the summaries and the failed tests. *)
Definition steady {A} (m : M state A) : Prop := ∀ s, same_tests (rn s) (rn (m s).2).

Lemma steady_ret {A} (x : A) : steady (ret x).
Proof. by intros s. Qed.

Lemma steady_raise {A} e : steady (raise (A := A) e).
Proof. by intros s. Qed.

Lemma steady_get : steady get.
Proof. by intros s. Qed.

Lemma steady_bind {A B} (m : M state A) (k : A → M state B) :
  steady m → (∀ x, steady (k x)) → steady (bind m k).
Proof.
  intros Hm Hk s. specialize (Hm s). unfold bind. destruct (m s) as [[x|e] s']; [|done].
  etrans; [exact Hm|]. apply Hk.
Qed.

Lemma steady_on_world {A} (m : M world A) : steady (on_world m).
Proof. intros s. unfold on_world. by destruct (m (wd s)). Qed.

Lemma steady_on_runner f : (∀ r, same_tests r (f r)) → steady (on_runner f).
Proof. intros Hf s. apply Hf. Qed.

Lemma steady_attempt_task {A} (m : M state A) : steady m → steady (attempt_task m).
Proof. intros Hm s. specialize (Hm s). unfold attempt_task. by destruct (m s). Qed.

Lemma steady_map_each {A B} (l : list A) (body : A → M state B) :
  (∀ x, steady (body x)) → steady (map_each l body).
Proof.
  intros Hb. induction l as [|x l IH]; [apply steady_ret|]. simpl.
  apply steady_bind; [done|]. intros y. apply steady_bind; [done|]. intros ys. apply steady_ret.
Qed.

Lemma steady_wp {A} (m : M state A) Q s :
  steady m → (∀ r s', same_tests (rn s) (rn s') → Q r s') → wp m Q s.
Proof. intros Hm HQ. apply HQ, Hm. Qed.

#[export] Hint Resolve steady_ret steady_raise steady_get steady_bind steady_on_world
  steady_on_runner steady_attempt_task steady_map_each : dev.

Section run.
Context {env : Env}.
Variable a : args.

Lemma steady_run_single_test_suite tn skip n ty : steady (run_single_test_suite a tn skip n ty).
Proof.
  intros s. cut (wp (run_single_test_suite a tn skip n ty) (λ _ s', same_tests (rn s) (rn s')) s); [done|].
  apply wp_run_single_test_suite. intros r s' (Hh & _). split; [by apply history_step_frame|]. apply Hh.
Qed.

Hint Resolve steady_run_single_test_suite : dev.

Lemma steady_reorder_tasks {A} (l : list A) : steady (reorder_tasks l).
Proof. apply steady_on_world. Qed.

Lemma steady_save_state : steady (save_state a).
Proof.
  intros s. cut (wp (save_state a) (λ _ s', same_tests (rn s) (rn s')) s); [done|].
  apply wp_save_state. all: intros; by subst.
Qed.

Hint Resolve steady_reorder_tasks steady_save_state : dev.

Lemma steady_run_pool tests skip n : steady (run_pool a tests skip n).
Proof. unfold run_pool. case_match; auto 10 with dev. Qed.

Lemma steady_collect out d : steady (collect out d).
Proof. revert d. induction out as [|[t [r|e]] out IH]; intros d; simpl; auto 10 with dev. Qed.

Hint Resolve steady_run_pool steady_collect : dev.

Lemma steady_parallel_loop n k m tests follow d : steady (parallel_loop a n k m tests follow d).
Proof. revert k d. induction n as [|n IH]; intros k d; simpl; [|case_match]; auto 10 with dev. Qed.

Lemma steady_serial_loop n k m t acc : steady (serial_loop a n k m t acc).
Proof.
  revert k acc. induction n as [|n IH]; intros k acc; simpl; [auto with dev|].
  do 4 (apply steady_bind; [auto with dev|intros ?]). case_match; auto with dev.
Qed.

Hint Resolve steady_parallel_loop steady_serial_loop : dev.

Lemma steady_execute_parallel_retries : steady (execute_parallel_retries a).
Proof.
  unfold execute_parallel_retries, retry_tests_in_parallel.
  apply steady_bind; [auto with dev|intros s]. repeat case_match; auto with dev.
Qed.

Lemma steady_serial_phase tests d : steady (serial_phase a tests d).
Proof.
  revert d. induction tests as [|t tests IH]; intros d; simpl; [auto with dev|].
  apply steady_bind; [auto with dev|intros s]. unfold retry_test_serially.
  repeat case_match; auto with dev.
Qed.

Hint Resolve steady_serial_phase : dev.

Lemma steady_execute_serial_retries pr : steady (execute_serial_retries a pr).
Proof.
  unfold execute_serial_retries. apply steady_bind; [auto with dev|intros s]. case_match; auto with dev.
Qed.

(** A new summary fits its test. *)
Lemma summarize_fits t initial retries : summary_fits t (summarize a t initial retries).
Proof.
  unfold summary_fits, summary_ok, summarize. cbn -[Z.add]. split_and!; [done| | |reflexivity]; unfold classify.
  - destruct (success initial), (any_success retries); auto.
  - fold (any_success retries). destruct (success initial), (any_success retries); first [done|intros [=]].
Qed.

Lemma runner_ok_summary r t sm :
  runner_ok r → t ∈ failed_tests r → summary_fits t sm →
  runner_ok (set_test_summaries (dset t sm (test_summaries r)) r).
Proof.
  intros [H1 H2 H3 H4] Ht Hsm. split; cbn.
  - done.
  - by apply wf_dset.
  - intros t' [->|Ht']%elem_of_dkeys_dset; auto.
  - intros t' sm'. destruct (decide (t = t')) as [->|Hne].
    + rewrite dget_dset_eq. by intros [= <-].
    + rewrite dget_dset_ne by done. auto.
Qed.

(** Every failed test gets its summary. *)
Lemma wp_process_all pr sr Q s :
  runner_ok (rn s) →
  (∀ s', runner_ok (rn s') →
     (∀ t, t ∈ failed_tests (rn s') → t ∈ dkeys (test_summaries (rn s'))) → Q (Ok tt) s') →
  wp (process_all_test_results a pr sr) Q s.
Proof.
  intros Hok HQ. unfold process_all_test_results. apply wp_bind, wp_get. cbn beta iota.
  apply (wp_for_each _ _ (λ pre _ s', runner_ok (rn s') ∧ failed_tests (rn s') = failed_tests (rn s) ∧
    ∀ t, t ∈ pre → t ∈ dkeys (test_summaries (rn s'))) (λ _ _, False)).
  - split_and!; [done..|]. intros t Ht. by apply not_elem_of_nil in Ht.
  - intros pre t post s' Hl (Hs' & Hf & Hpre). apply wp_bind, wp_get. cbn beta iota.
    assert (t ∈ failed_tests (rn s')) as Ht by (rewrite Hf, Hl; set_solver).
    destruct (dmem t (test_summaries (rn s'))) eqn:E.
    + apply wp_ret. split_and!; [done..|]. intros t' [Ht'|Ht']%elem_of_app; [auto|].
      apply list_elem_of_singleton in Ht' as ->. by apply dmem_true.
    + apply wp_bind. unfold create_test_summary. apply wp_bind, wp_on_runner, wp_ret, wp_ret. cbn.
      split_and!; [apply runner_ok_summary; auto using summarize_fits|done|].
      intros t' Ht'. apply elem_of_dkeys_dset. apply elem_of_app in Ht' as [Ht'|Ht'%list_elem_of_singleton]; auto.
  - intros s' (Hs' & Hf & Hall). apply HQ; [done|]. by rewrite Hf.
  - done.
Qed.

(** One round of retries. *)
Lemma wp_round Q s :
  runner_ok (rn s) →
  (∀ r s', runner_ok (rn s') → (∀ b, r = Ok b → ∀ t, t ∈ failed_tests (rn s') → t ∈ dkeys (test_summaries (rn s'))) →
     Q r s') →
  wp (execute_test_retries a) Q s.
Proof.
  intros Hok HQ. unfold execute_test_retries.
  apply wp_bind, steady_wp; [apply steady_execute_parallel_retries|].
  intros [pr|e] s1 H1; [|apply HQ; [by eapply same_tests_ok|done]].
  apply wp_bind, steady_wp; [apply steady_execute_serial_retries|].
  intros [sr|e] s2 H2; [|apply HQ; [|done]; eapply same_tests_ok; [|done]; by etrans].
  assert (runner_ok (rn s2)) as Hok2 by (eapply same_tests_ok; [|done]; by etrans).
  apply wp_bind, wp_process_all; [done|]. intros s3 H3 Hall. by apply wp_ret, HQ.
Qed.

(** Starting: a runner whose failed tests are replaced had none, and no summaries. *)
Lemma wp_initialize Q s :
  runner_ok (rn s) →
  (∀ r s', runner_ok (rn s') → (r = Ok false → failed_tests (rn s') = []) → Q r s') →
  wp (initialize_run_mode a) Q s.
Proof.
  intros Hok HQ. unfold initialize_run_mode. apply wp_bind, wp_get. cbn beta iota.
  destruct (failed_tests (rn s)) as [|t0 ts] eqn:Ef; [|by apply wp_ret, HQ].
  assert (Hnew : ∀ r l lg, same_tests (rn s) r →
    runner_ok (set_failed_tests l r) ∧ runner_ok (set_initial_result_log lg (set_failed_tests l r))).
  { intros r l lg Hr. pose proof (same_tests_ok _ _ Hr Hok) as [H1 H2 H3 H4].
    assert (Hno : ∀ t, t ∈ dkeys (test_summaries r) → t ∈ l).
    { intros t Ht%H3. destruct Hr as [(_ & _ & Hf & _) _]. rewrite Hf, Ef in Ht. by apply not_elem_of_nil in Ht. }
    by split; split. }
  assert (Hinit : wp (_run_initial_test_suite a) Q s).
  { unfold _run_initial_test_suite. apply wp_bind, steady_wp; [apply steady_run_single_test_suite|].
    intros r s1 H1.
    assert (runner_ok (rn s1)) as Hok1 by by eapply same_tests_ok.
    assert (failed_tests (rn s1) = []) as Hf1 by by destruct H1 as [(_ & _ & -> & _) _].
    destruct r as [res|e]; [|by apply HQ]. destruct (success res).
    - apply wp_bind, wp_get. cbn beta iota. apply wp_bind, wp_generate_and_save_final_report.
      intros rr w Hrr _ _. destruct rr; [apply wp_ret|]; by apply HQ.
    - apply wp_bind, wp_on_world, wp_parse_failed_tests_from_log. intros l w _. cbn beta iota.
      destruct l as [|t l]; [by apply wp_ret, HQ|].
      apply wp_bind, wp_on_runner, wp_bind, wp_on_runner, wp_ret, HQ; [|done]. by apply Hnew. }
  destruct (rerun_failed a) as [[|c p]|]; [done| |done].
  unfold _load_failed_tests_for_rerun. apply wp_bind, wp_on_world, wp_load_failed_tests.
  intros r w _. destruct r as [l|e]; [|by apply HQ].
  destruct l; [by apply wp_ret, HQ|]. apply wp_bind, wp_on_runner, wp_ret, HQ; [|done]. cbn.
  by apply (Hnew (rn s) _ None).
Qed.

End run.

(** ** Theorem *)

(** C3: a run keeps the runner well formed however it ends, be it with an exception:
    every summary is filed under its own test, which is one of the failed tests, has
    one of the three statuses (flaky only with a retry that passed) and counts its
    attempts right, no test has two, and the recorded durations stay sorted out.  When
    the run returns an exit code, the tests with a summary are exactly the failed
    tests, so the report leaves out none of them. *)
Theorem run_keeps_runner_ok {env : Env} (a : args) (s : state) (Hok : runner_ok (rn s)) :
  let '(r, s') := run a s in
  runner_ok (rn s') ∧
  ∀ c, r = Ok c → ∀ t, t ∈ failed_tests (rn s') ↔ t ∈ dkeys (test_summaries (rn s')).
Proof.
  cut (wp (run a) (λ r s', runner_ok (rn s') ∧ (∀ c, r = Ok c →
    ∀ t, t ∈ failed_tests (rn s') → t ∈ dkeys (test_summaries (rn s')))) s).
  { unfold wp. destruct (run a s) as [r s']. cbn. intros [H1 H2]. split; [done|].
    intros c Hc t. split; [by eapply H2|by apply ok_tests]. }
  unfold run. apply wp_bind, wp_initialize; [done|]. intros [[]|e] s1 Hok1 Hgo; [| |done].
  - apply wp_bind, wp_round; [done|]. intros [[]|e] s2 Hok2 Hall; [| |done].
    + unfold finalize_and_report. apply wp_bind, wp_get. cbn beta iota.
      apply wp_bind, wp_generate_and_save_final_report. intros [[]|e] w _ _ _; [|done].
      cbn beta iota. apply wp_bind, wp_get. cbn beta iota. apply wp_ret. split; [done|].
      intros c _. by apply (Hall true).
    + apply wp_ret. split; [done|]. intros c _. by apply (Hall false).
  - apply wp_ret. split; [done|]. intros c _ t. rewrite Hgo by done. intros Ht. by apply not_elem_of_nil in Ht.
Qed.

Lemma run_keeps_runner_ok_witness :
  let env := suite_env ["a"; "b"] (λ t, Ok (if decide (t = "a") then 0 else 1, Some "")%Z) in
  let r := rn (run (env := env) default_args (failed_state [])).2 in
  runner_ok r ∧ dkeys (test_summaries r) = ["a"; "b"].
Proof.
  set (env := suite_env _ _). cbn zeta. split; [|vm_compute; reflexivity].
  assert (runner_ok (rn (failed_state []))) as Hok.
  { split; [split; [apply wf_nil|constructor]|apply wf_nil| |].
    - intros t Ht. by apply not_elem_of_nil in Ht.
    - intros t sm H. discriminate H. }
  pose proof (run_keeps_runner_ok (env := env) default_args (failed_state []) Hok) as H.
  destruct (run (env := env) default_args (failed_state [])) as [r s']. exact (proj1 H).
Defined.
