(* ===== verification/Verdict.v ===== *)
(** What a run of scripts/auto-retry-tests.py concludes when a test's outcome depends
    on the test only: every schedule of the pools gives the same verdicts. *)

From S2P Require Import Prelude PyStr PyFloat PyDict PyTime Json World RuntimeHistory TestModel.
From S2P Require Import StateManager TestExecutor Returns ReportGenerator Runner Retries Strategy RunInvariant.

(** ** Reliable surroundings *)

(** Files can be opened, run-tests can be started, and a test that is run alone passes
    exactly if [passes] says so, whenever and in whatever directory it is run. *)
Class Reliable {env : Env} (a : args) (passes : str → bool) : Prop := {
  reliable_open : ∀ t path, env_open_fault t path = None;
  reliable_path : truthy (venv a) = true → is_Some (dget "PATH" env_environ);
  reliable_test : ∀ t name skip work_dir vars, name ≠ [] →
    ∃ code out,
      env_subprocess t (build_test_command a (Some name) skip (Some work_dir)) vars = Ok (code, out) ∧
      (code =? 0)%Z = passes name;
}.

Section reliable.
Context {env : Env} (a : args) (passes : str → bool) {reliable : Reliable a passes}.

Let openable := reliable_open (a := a) (passes := passes).

Lemma returns_run_logged name skip dir vars path :
  name ≠ [] → returns (run_logged (build_test_command a (Some name) skip (Some dir)) vars path)
    (λ code, (code =? 0)%Z = passes name).
Proof.
  intros Hne. unfold run_logged. eapply returns_bind; [apply (returns_open_write openable)|]. intros _ _.
  eapply (returns_bind _ _ (λ _, True)); [by intros w; eexists|]. intros t _.
  destruct (reliable_test t name skip dir vars Hne) as (code & out & -> & Hcode).
  intros w. by exists code.
Qed.

(** ** Honest results *)

Definition honest (r : TestResult) : Prop := success r = passes (test_name r).

Lemma honest_any_success t l :
  Forall (λ r, test_name r = t) l → Forall honest l →
  any_success l = passes t && negb (bool_decide (l = [])).
Proof.
  intros Hn Hh. induction l as [|r l IH]; [by rewrite andb_false_r|].
  apply Forall_cons in Hn as [Hr Hn], Hh as [Hs Hh]. unfold any_success in *. cbn [existsb].
  rewrite IH by done. unfold honest in Hs. rewrite Hs, Hr, (bool_decide_false (r :: l = [])) by done.
  by destruct (passes t).
Qed.

(** All results that were recorded are honest. *)
Definition good (s : state) : Prop := Forall honest (results (rn s)).

(** From good states [m] returns, in a good state, what [P] says. *)
Definition delivers {A} (m : M state A) (P : A → Prop) : Prop :=
  ∀ s, good s → wp m (λ r s', good s' ∧ ∃ x, r = Ok x ∧ P x) s.

Lemma delivers_ret {A} (x : A) (P : A → Prop) : P x → delivers (ret x) P.
Proof. intros Hx s Hs. apply wp_ret. eauto. Qed.

Lemma delivers_mono {A} (m : M state A) (P P' : A → Prop) :
  delivers m P → (∀ x, P x → P' x) → delivers m P'.
Proof. intros Hm HP s Hs. eapply wp_mono; [by apply Hm|]. intros r s' (? & x & -> & ?). eauto. Qed.

Lemma delivers_bind {A B} (m : M state A) (k : A → M state B) P P' :
  delivers m P → (∀ x, P x → delivers (k x) P') → delivers (bind m k) P'.
Proof.
  intros Hm Hk s Hs. apply wp_bind. eapply wp_mono; [by apply Hm|].
  intros r s' (Hs' & x & -> & HP). by apply Hk.
Qed.

Lemma delivers_get {A} (k : state → M state A) P : (∀ s, good s → delivers (k s) P) → delivers (bind get k) P.
Proof. intros Hk s Hs. by apply (Hk s). Qed.

Lemma delivers_on_runner f (P : unit → Prop) :
  P tt → (∀ r, Forall honest (results r) → Forall honest (results (f r))) → delivers (on_runner f) P.
Proof. intros HP Hf s Hs. apply wp_on_runner. split; [by apply Hf|by exists tt]. Qed.

Lemma delivers_on_world {A} (m : M world A) P : returns m P → delivers (on_world m) P.
Proof.
  intros Hm s Hs. apply wp_on_world. destruct (Hm (wd s)) as (x & Hx & HP). unfold wp. rewrite Hx. eauto.
Qed.

(** ** Running tests *)

(** Some thread finds the runtime history changed. *)
Definition races : Prop := ∃ t, env_history_changed t = true.

(** A run of a test returns, unless it is lost in a pool. *)
Lemma wp_run_single_honest name skip n ty s :
  name ≠ [] → good s →
  wp (run_single_test_suite a (Some name) skip n ty) (λ r s', good s' ∧
    ((∃ res, r = Ok res ∧ success res = passes name ∧ test_name res = name) ∨
     r = Raise RuntimeError ∧ ty = "parallel" ∧ races)) s.
Proof.
  intros Hne Hs. eapply (wp_both _ (run_effect a (Some name) skip n ty s)
    (λ r _, (∃ res, r = Ok res ∧ success res = passes name) ∨ r = Raise RuntimeError ∧ ty = "parallel" ∧ races)).
  - by apply wp_run_single_test_suite.
  - unfold run_single_test_suite. apply wp_bind, wp_on_world, wp_now. intros t w1 _. cbn beta iota zeta.
    apply wp_bind, wp_on_world, wp_log_path. intros p w2 _. cbn beta iota zeta.
    apply wp_bind. eapply returns_wp; [apply returns_on_world, returns_setup, reliable_path|]. unfold wp at 1. intros vars -> _.
    apply wp_bind, wp_on_world, wp_time. intros t4 w4 _. cbn beta iota zeta.
    apply wp_bind. eapply returns_wp; [by apply returns_on_world, returns_run_logged|]. unfold wp at 1.
    intros code -> Hcode. apply wp_bind, wp_on_world, wp_time. intros t6 w6 _. cbn beta iota zeta.
    apply wp_bind, wp_on_world, wp_extract_namespace. intros ns w7 _. cbn beta iota zeta. apply wp_bind.
    eapply (wp_mono _ (λ r _, ∃ fs, r = Ok fs)).
    { destruct (code =? 0)%Z; [apply wp_ret; by eexists|].
      apply wp_on_world, wp_extract_failed_step. intros o w8 _. by eexists. }
    intros ? s8 [fs ->]. cbn beta iota zeta. apply wp_bind, (wp_record_runtime_ok openable).
    intros r9 s9 _ [->|(-> & Hty & Ht)]; cbn beta iota; [|by right].
    apply wp_bind, wp_on_world, wp_cleanup_namespace. intros w10 _ _ _ _ _. cbn beta iota.
    apply wp_bind, wp_on_world, wp_cleanup_work_dir. intros w11 _ _ _ _ _. apply wp_ret. left. by eexists.
  - intros r s' (Hstep & _ & evs & _ & Hr) Hres.
    destruct (history_step_results _ _ Hstep) as (Heq & _). split; [by unfold good; rewrite Heq|].
    destruct Hres as [(res & -> & Hsucc)|Hlost]; [left|by right]. destruct Hr as (Hn & _).
    exists res. split_and!; [done..|]. rewrite Hn. unfold result_name. by destruct name.
Qed.

Lemma delivers_run_serial name skip n :
  name ≠ [] → delivers (run_single_test_suite a (Some name) skip n "serial")
    (λ res, success res = passes name ∧ test_name res = name).
Proof.
  intros Hne s Hs. eapply wp_mono; [by apply wp_run_single_honest|].
  intros r s' [Hs' [(res & -> & ?)|(_ & [=] & _)]]. split; [done|]. by exists res.
Qed.

Lemma delivers_save_state : delivers (save_state a) (λ _, True).
Proof.
  unfold save_state. apply delivers_get. intros s _. apply delivers_on_world.
  apply (returns_save openable).
Qed.

(** ** Serial retries *)

Lemma delivers_serial_loop n k m name acc :
  name ≠ [] → delivers (serial_loop a n k m name acc) (λ _, True).
Proof.
  intros Hne. revert k acc. induction n as [|n IH]; intros k acc; [by apply delivers_ret|]. cbn [serial_loop].
  eapply delivers_bind; [by apply delivers_run_serial|]. intros res [Hs Hn]. cbn beta.
  eapply (delivers_bind _ _ (λ _, True)).
  { apply delivers_on_runner; [done|]. intros r Hr. apply Forall_app_2; [done|].
    apply Forall_singleton. unfold honest. by rewrite Hs, Hn. }
  intros _ _. eapply delivers_bind; [apply delivers_save_state|]. intros _ _.
  eapply (delivers_bind _ _ (λ _, True)); [by apply delivers_on_runner|]. intros _ _.
  destruct (success res); [by apply delivers_ret|apply IH].
Qed.

Lemma delivers_serial_phase tests d :
  [] ∉ tests → delivers (serial_phase a tests d) (λ _, True).
Proof.
  revert d. induction tests as [|t tests IH]; intros d Hne; [by apply delivers_ret|].
  apply not_elem_of_cons in Hne as [Ht Hne]. cbn [serial_phase]. apply delivers_get. intros s _. cbn zeta.
  destruct (0 <? _)%Z; [|by apply IH]. eapply (delivers_bind _ _ (λ _, True)); [|intros l _; by apply IH].
  unfold retry_test_serially. destruct (_ <=? 0)%Z; [by apply delivers_ret|by apply delivers_serial_loop].
Qed.

(** ** Parallel retries *)

Definition outcome_honest (p : str * result TestResult) : Prop :=
  (∃ res, p.2 = Ok res ∧ honest res ∧ test_name res = p.1) ∨ p.2 = Raise RuntimeError ∧ races.

Lemma delivers_reorder_tasks {A} (l : list A) : delivers (reorder_tasks l) (λ l', l' ≡ₚ l).
Proof.
  intros s Hs. apply wp_reorder_tasks. intros l' w Hl _. split; [done|]. eauto.
Qed.

Lemma delivers_tasks tests skip n :
  [] ∉ tests →
  delivers (map_each tests (λ test_name,
      bind (attempt_task (run_single_test_suite a (Some test_name) skip n "parallel"))
        (λ r, ret (test_name, r))))
    (λ out, Forall outcome_honest out ∧ out.*1 = tests).
Proof.
  induction tests as [|t tests IH]; intros Hne; [by apply delivers_ret|].
  apply not_elem_of_cons in Hne as [Ht Hne]. cbn [map_each].
  eapply (delivers_bind _ _ (λ p, outcome_honest p ∧ p.1 = t)).
  - eapply (delivers_bind _ _ (λ r, outcome_honest (t, r))).
    + intros s Hs. pose proof (wp_run_single_honest t skip n "parallel" s (not_eq_sym Ht) Hs) as Hrun.
      unfold wp, attempt_task in *. destruct (run_single_test_suite _ _ _ _ _ s) as [r s']. cbn in *.
      destruct Hrun as (Hs' & Hr). split; [done|]. eexists. split; [done|].
      destruct Hr as [(res & -> & Hsucc & Hn)|(-> & _ & Hlost)]; [left|by right].
      exists res. unfold honest. by rewrite Hn.
    + intros r Hr. by apply delivers_ret.
  - intros p [Hp Hpt]. eapply delivers_bind; [by apply IH|]. intros out [Hout Heq].
    apply delivers_ret. split; [by constructor|]. cbn. by rewrite Hpt, Heq.
Qed.

Lemma delivers_run_pool tests skip n :
  (0 < parallel a)%Z → [] ∉ tests → tests ≠ [] →
  delivers (run_pool a tests skip n) (λ out, Forall outcome_honest out ∧ out.*1 ≡ₚ tests).
Proof.
  intros Hpar Hne Hnil. unfold run_pool. destruct (Z.min _ _ <=? 0)%Z eqn:E.
  { apply Z.leb_le in E. destruct tests; [done|cbn [length] in E; lia]. }
  eapply delivers_bind; [apply delivers_reorder_tasks|]. intros order Ho.
  eapply delivers_bind; [apply delivers_tasks; by rewrite Ho|]. intros out [Hout Heq].
  eapply delivers_mono; [apply delivers_reorder_tasks|]. intros out' Hp.
  by rewrite Hp, Heq, Ho.
Qed.

Lemma delivers_collect out d :
  Forall outcome_honest out →
  delivers (collect out d) (λ d', ∀ t, default [] (dget t d') = default [] (dget t d) ++ oks_of t out).
Proof.
  intros Hout s Hs. unfold wp. destruct (collect_eq out d s) as (d' & -> & Hget & _). cbn.
  split; [|by eexists]. apply Forall_app_2; [done|]. apply Forall_forall. intros r Hr.
  apply list_elem_of_omap in Hr as ([t o] & Hin & Ho). rewrite Forall_forall in Hout.
  destruct (Hout _ Hin) as [(res & Hres & Hh & _)|[Hres _]]; cbn in *; subst o; [by injection Ho as <-|done].
Qed.

Lemma oks_of_honest t out : ¬ races → Forall outcome_honest out → t ∈ out.*1 → oks_of t out ≠ [].
Proof.
  intros Hquiet Hout Hin. apply list_elem_of_fmap in Hin as ([t' o] & -> & Hin). cbn.
  rewrite Forall_forall in Hout. destruct (Hout _ Hin) as [(res & Hres & _)|[_ ?]]; [|done]. cbn in Hres. subst o.
  assert (res ∈ oks_of t' out) as Hel.
  { apply list_elem_of_omap. exists (t', Ok res). split; [|done]. by apply list_elem_of_filter. }
  intros E. rewrite E in Hel. by apply not_elem_of_nil in Hel.
Qed.

(** Every test gets a result, if there is an attempt at all and none is lost. *)
Lemma delivers_parallel_loop n k m tests follow d :
  (0 < parallel a)%Z → [] ∉ tests →
  delivers (parallel_loop a n k m tests follow d) (λ d', ∀ t, t ∈ tests →
    (0 < n ∧ ¬ races) ∨ default [] (dget t d) ≠ [] → default [] (dget t d') ≠ []).
Proof.
  intros Hpar Hne. revert k d. induction n as [|n IH]; intros k d.
  { apply delivers_ret. intros t _ [[? _]|?]; [lia|done]. }
  cbn [parallel_loop].
  assert (Hpassed : ∀ t, t ∈ tests → t ∉ not_passed d tests → default [] (dget t d) ≠ []).
  { intros t Ht Hn E. apply Hn, elem_of_not_passed. by rewrite E. }
  destruct (not_passed d tests) as [|t0 ts0] eqn:En.
  { apply delivers_ret. intros t Ht _. apply Hpassed; [done|apply not_elem_of_nil]. }
  rewrite <-En in *. cbn zeta.
  eapply delivers_bind; [apply delivers_run_pool|]; [done| |by rewrite En|].
  { intros H. apply elem_of_not_passed in H as [_ H]. done. }
  intros out [Hout Hperm]. eapply delivers_bind; [by apply delivers_collect|]. intros d1 Hd1.
  eapply (delivers_bind _ _ (λ _, True)); [by apply delivers_on_runner|]. intros _ _.
  eapply delivers_mono; [apply IH|]. intros d' Hd' t Ht Hor. apply Hd'; [done|]. right. rewrite Hd1.
  destruct Hor as [[_ Hquiet]|Hor]; [|by intros [E _]%app_nil].
  destruct (decide (t ∈ not_passed d tests)) as [Hin|Hn].
  - intros [_ E]%app_nil. revert E. apply oks_of_honest; [done..|]. by rewrite Hperm.
  - intros [E _]%app_nil. by apply (Hpassed t).
Qed.

Lemma wp_parallel_honest Q s :
  (0 < parallel a)%Z → [] ∉ failed_tests (rn s) → good s → test_summaries (rn s) = [] →
  parallel_attempts_done (rn s) = 0%Z →
  (∀ d s', good s' →
     ((0 < attempts_parallel a)%Z → ¬ races → ∀ t, t ∈ failed_tests (rn s) → default [] (dget t d) ≠ []) →
     Q (Ok d) s') →
  wp (execute_parallel_retries a) Q s.
Proof.
  intros Hpar Hne Hgood Hsum Hdone HQ. unfold execute_parallel_retries. apply wp_bind, wp_get. cbn beta iota zeta.
  rewrite Hdone, Z.sub_0_r. destruct (0 <? attempts_parallel a)%Z eqn:E; cbn [andb]; [|apply wp_ret, HQ; [done|lia]].
  assert (Hin : ∀ t, t ∈ filter (λ t, already_passed (rn s) t = false) (failed_tests (rn s)) ↔ t ∈ failed_tests (rn s)).
  { intros t. rewrite list_elem_of_filter. unfold already_passed. rewrite Hsum. cbn. naive_solver. }
  destruct (filter _ _) as [|t0 ts0] eqn:Ef; [apply wp_ret, HQ; [done|intros _ _ t Ht%Hin]|].
  { by apply not_elem_of_nil in Ht. }
  rewrite <-Ef in *. unfold retry_tests_in_parallel. rewrite bool_decide_false by (by rewrite Ef).
  destruct (_ <=? 0)%Z eqn:E'; [lia|]. cbn [orb].
  eapply wp_mono; [apply delivers_parallel_loop; [done|by rewrite Hin|done]|].
  intros r s' (Hs' & d & -> & Hd). apply HQ; [done|]. intros Hap Hquiet t Ht. apply Hd; [by apply Hin|left; split; [lia|done]].
Qed.

Lemma wp_serial_honest pr Q s :
  [] ∉ failed_tests (rn s) → good s → (∀ d s', good s' → Q (Ok d) s') →
  wp (execute_serial_retries a pr) Q s.
Proof.
  intros Hne Hgood HQ. unfold execute_serial_retries. apply wp_bind, wp_get. cbn beta iota zeta.
  destruct (_ && _); [|by apply wp_ret, HQ].
  eapply wp_mono; [apply delivers_serial_phase; [|done]|intros r s' (Hs' & d & -> & _); by apply HQ].
  unfold still_failing. by intros [_ H]%list_elem_of_filter.
Qed.

(** ** Verdicts *)

(** A runner at the beginning of a run. *)
Definition fresh (r : runner) : Prop :=
  runner_ok r ∧ results r = [] ∧ test_summaries r = [] ∧
  parallel_attempts_done r = 0%Z ∧ serial_attempts_done r = [].

(** What a summary says of the test [t]. *)
Definition verdict (t : str) : str := if passes t then "flaky" else "failed".

(** The retries of a test that has any tell whether it passes. *)
Lemma any_success_retries t (pl sl : list TestResult) :
  Forall (λ r, test_name r = t) pl → Forall honest pl → Forall (λ r, test_name r = t) sl → Forall honest sl →
  (any_success pl = false → passes t = true → pl ≠ [] ∨ sl ≠ []) →
  any_success (pl ++ sl) = passes t.
Proof.
  intros H1 H2 H3 H4 Hsome. unfold any_success. rewrite existsb_app.
  fold (any_success pl) (any_success sl). rewrite (honest_any_success t pl), (honest_any_success t sl) in * by done.
  destruct (passes t); [|done]. cbn [andb] in *. rewrite <-negb_andb. apply negb_true_iff.
  destruct (bool_decide (pl = [])) eqn:E; [|done]. cbn. apply bool_decide_eq_false.
  apply bool_decide_eq_true in E. by destruct (Hsome eq_refl eq_refl).
Qed.

(** Results of the test [t] only, all of them honest. *)
Definition results_of (t : str) (l : list TestResult) : Prop :=
  Forall (λ r, test_name r = t) l ∧ Forall honest l.

Lemma results_of_sub t l s :
  t ≠ [] → good s → l ⊆ results (rn s) → Forall (λ r, test_name r = result_name (Some t)) l → results_of t l.
Proof.
  intros Ht Hs Hsub Hn. split.
  - eapply Forall_impl; [exact Hn|]. cbn. intros r ->. unfold result_name. by destruct t.
  - apply Forall_forall. intros r Hr. unfold good in Hs. rewrite Forall_forall in Hs. auto.
Qed.

Lemma wp_parallel_verdict Q s :
  (0 < parallel a)%Z → fresh (rn s) → NoDup (failed_tests (rn s)) → [] ∉ failed_tests (rn s) →
  (∀ pr s1, phase_frame s s1 → good s1 → serial_attempts_done (rn s1) = [] →
     (∀ t, t ≠ [] → results_of t (default [] (dget t pr))) →
     ((0 < attempts_parallel a)%Z → ¬ races → ∀ t, t ∈ failed_tests (rn s) → default [] (dget t pr) ≠ []) →
     Q (Ok pr) s1) →
  wp (execute_parallel_retries a) Q s.
Proof.
  intros Hpar (_ & Hres & Hsum & Hpd & Hsd) Hnd Hne HQ.
  eapply (wp_both _ (λ r s1, ∀ d, r = Ok d → phase_frame s s1 ∧ serial_attempts_done (rn s1) = [] ∧
      ∀ t l, dget t d = Some l → l ⊆ results (rn s1) ∧ Forall (λ r, test_name r = result_name (Some t)) l)
    (λ r s1, ∃ d, r = Ok d ∧ good s1 ∧
      ((0 < attempts_parallel a)%Z → ¬ races → ∀ t, t ∈ failed_tests (rn s) → default [] (dget t d) ≠ []))).
  - apply wp_execute_parallel_retries; [done|done|lia|]. intros d s1 Hf Hs Hd _ _ d' [= <-].
    split_and!; [done|congruence|]. intros t l Hl. destruct (Hd t l Hl) as [Hsub (_ & HF & _)].
    split; [done|]. eapply Forall_impl; [exact HF|]. by intros r [? _].
  - apply wp_parallel_honest; try done; [unfold good; by rewrite Hres|]. intros d s1 Hg Hd. by exists d.
  - intros r s1 H1 (d & -> & Hg & Hsome). destruct (H1 d eq_refl) as (Hf & Hs & Hd).
    apply HQ; [done..| |done]. intros t Ht. destruct (dget t d) as [l|] eqn:El; [|done].
    destruct (Hd t l El) as [? ?]. by eapply results_of_sub.
Qed.

Lemma wp_serial_verdict pr Q s :
  good s → serial_attempts_done (rn s) = [] → NoDup (failed_tests (rn s)) → [] ∉ failed_tests (rn s) →
  test_summaries (rn s) = [] →
  (∀ sr s1, phase_frame s s1 →
     (∀ t, t ∈ failed_tests (rn s) → any_success (default [] (dget t pr)) = false →
        results_of t (default [] (dget t sr)) ∧
        ((0 < attempts_serial a)%Z → default [] (dget t sr) ≠ [])) →
     (∀ t, any_success (default [] (dget t pr)) = true → dget t sr = None) →
     Q (Ok sr) s1) →
  wp (execute_serial_retries a pr) Q s.
Proof.
  intros Hg Hsd Hnd Hne Hsum HQ.
  eapply (wp_both _ (λ r s1, ∀ d, r = Ok d → phase_frame s s1 ∧
      (∀ t, t ∈ failed_tests (rn s) → already_passed (rn s) t = false →
        any_success (default [] (dget t pr)) = false → serial_entry a s s1 t None (dget t d)) ∧
      (∀ t, t ∈ dkeys d → any_success (default [] (dget t pr)) = false))
    (λ r s1, ∃ d, r = Ok d ∧ good s1)).
  - apply wp_execute_serial_retries; [done|intros t k; by rewrite Hsd| |done].
    intros d s1 Hf Hent Hout _ d' [= <-]. done.
  - apply wp_serial_honest; [done..|]. intros d s1 Hs1. by exists d.
  - intros r s1 H1 (d & -> & Hg1). destruct (H1 d eq_refl) as (Hf & Hent & Hout). apply HQ; [done| |].
    + intros t Ht Hany. specialize (Hent t Ht). unfold already_passed, serial_entry, serial_left in Hent.
      rewrite Hsum, Hsd in Hent. cbn [dget default from_option] in Hent. rewrite Z.sub_0_r in Hent.
      specialize (Hent eq_refl Hany). destruct (0 <? attempts_serial a)%Z eqn:E.
      * destruct Hent as (l & -> & (Hl & _ & Hlen) & Hsub). cbn. split.
        -- eapply results_of_sub; [by intros ->|exact Hg1|done|]. apply Forall_lookup. intros i r Hi.
           by destruct (Hl i r Hi) as [? _].
        -- intros _ ->. cbn in Hlen. by specialize (Hlen ltac:(lia)).
      * rewrite Hent. split; [done|lia].
    + intros t Hany. destruct (dget t d) eqn:El; [|done].
      rewrite Hout in Hany; [done|]. apply dget_is_Some. by eexists.
Qed.

Lemma wp_retries_verdict Q s :
  (0 < parallel a)%Z → (0 < attempts_serial a)%Z ∨ (0 < attempts_parallel a)%Z ∧ ¬ races →
  fresh (rn s) → NoDup (failed_tests (rn s)) → [] ∉ failed_tests (rn s) →
  (∀ s', failed_tests (rn s') = failed_tests (rn s) →
     (∀ t, final_status <$> dget t (test_summaries (rn s')) =
        if decide (t ∈ failed_tests (rn s)) then Some (verdict t) else None) → Q (Ok true) s') →
  wp (execute_test_retries a) Q s.
Proof.
  intros Hpar Hatt Hfresh Hnd Hne HQ. pose proof Hfresh as (_ & _ & Hsum & _). unfold execute_test_retries.
  apply wp_bind, wp_parallel_verdict; [done..|].
  intros pr s1 ((Hsum1 & _ & Hft1 & _) & _) Hg1 Hsd1 Hpr Hsome. rewrite Hsum in Hsum1.
  apply wp_bind, wp_serial_verdict; [done|done|by rewrite Hft1|by rewrite Hft1|done|].
  intros sr s2 ((Hsum2 & _ & Hft2 & _) & _) Hsr Hnone. rewrite Hft1 in *. rewrite Hsum1 in Hsum2.
  destruct (process_all_eq a pr sr s2) as (sums & Heq & Hs). rewrite Hft2 in *.
  apply wp_bind. unfold wp at 1. rewrite Heq. cbn [fst snd]. apply wp_ret, HQ; [done|]. cbn. intros t.
  rewrite Hs. unfold summary_after. rewrite Hsum2. cbn [dget]. case_decide as Ht; [|done]. cbn. f_equal.
  unfold classify, verdict. cbn [success test_initial_result].
  assert (Ht' : t ≠ []) by by intros ->. destruct (Hpr t Ht') as [Hp1 Hp2].
  unfold all_retries. destruct (any_success (default [] (dget t pr))) eqn:Ea.
  - rewrite Hnone by done. rewrite (any_success_retries t); try done. congruence.
  - destruct (Hsr t Ht Ea) as [[Hs1 Hs2] Hs3]. rewrite (any_success_retries t); try done.
    intros _ _. destruct Hatt as [?|[??]]; [right|left]; auto.
Qed.

Lemma returns_report t : returns (generate_and_save_final_report a t) (λ _, True).
Proof.
  unfold generate_and_save_final_report, generate_comprehensive_report, save_detailed_json_report.
  eapply (returns_bind _ _ (λ _, True)).
  { eapply (returns_bind _ _ (λ _, True)); [by intros s; eexists|]. intros t1 _.
    eapply (returns_bind _ _ (λ _, True)); [by apply returns_get|]. intros s _. by apply returns_ret. }
  intros report _. eapply returns_bind; [apply returns_on_world, returns_catch, (returns_open_write openable)|]. intros _ _.
  eapply (returns_bind _ _ (λ _, True)); [by intros s; eexists|]. intros t1 _.
  eapply (returns_bind _ _ (λ _, True)); [by apply returns_get|]. intros s _.
  eapply returns_bind; [apply returns_on_world, (returns_save openable)|]. intros _ _. by apply returns_ret.
Qed.

Lemma wp_finalize Q s :
  (∀ w, Q (Ok (if decide (length (with_status "failed" (rn s)) = 0) then 0%Z else 1%Z)) (mkState w (rn s))) →
  wp (finalize_and_report a) Q s.
Proof.
  intros HQ. unfold finalize_and_report. apply wp_bind, wp_get. cbn beta iota. apply wp_bind.
  eapply (wp_both _ (λ r _, is_ok r = true) (λ _ s', rn s' = rn s)).
  - eapply returns_wp; [apply returns_report|]. unfold wp. by intros x ->.
  - by apply wp_generate_and_save_final_report.
  - intros [u|e] [w r]; [|done]. cbn. intros _ ->. apply wp_bind, wp_get. cbn beta iota. apply wp_ret, HQ.
Qed.

(** Starting finds the failed tests, and changes nothing else that matters. *)
Lemma initialize_fresh s s1 :
  initialize_run_mode a s = (Ok true, s1) → fresh (rn s) → fresh (rn s1).
Proof.
  intros Hinit (Hok & Hres & Hsum & Hpd & Hsd). split.
  - cut (wp (initialize_run_mode a) (λ _ s', runner_ok (rn s')) s); [unfold wp; by rewrite Hinit|].
    by apply wp_initialize.
  - cut (wp (initialize_run_mode a) (λ _ s', results (rn s') = [] ∧ test_summaries (rn s') = [] ∧
      parallel_attempts_done (rn s') = 0%Z ∧ serial_attempts_done (rn s') = []) s); [unfold wp; by rewrite Hinit|].
    unfold initialize_run_mode. apply wp_bind, wp_get. cbn beta iota.
    assert (Hrun : wp (_run_initial_test_suite a) (λ _ s', results (rn s') = [] ∧ test_summaries (rn s') = [] ∧
      parallel_attempts_done (rn s') = 0%Z ∧ serial_attempts_done (rn s') = []) s).
    { unfold _run_initial_test_suite. apply wp_bind, wp_run_single_test_suite.
      intros r s2 ([[h Hr] _] & _). destruct r as [res|e]; [|by rewrite Hr]. destruct (success res).
      - apply wp_bind, wp_get. cbn beta iota. apply wp_bind, wp_generate_and_save_final_report.
        intros rr w _ _ _. destruct rr; [apply wp_ret|]; cbn; by rewrite Hr.
      - apply wp_bind, wp_on_world, wp_parse_failed_tests_from_log. intros l w _. cbn beta iota.
        destruct l; [apply wp_ret; cbn; by rewrite Hr|].
        apply wp_bind, wp_on_runner, wp_bind, wp_on_runner, wp_ret. cbn. by rewrite Hr. }
    destruct (failed_tests (rn s)); [|by apply wp_ret].
    destruct (rerun_failed a) as [[|c p]|]; [done| |done].
    unfold _load_failed_tests_for_rerun. apply wp_bind, wp_on_world, wp_load_failed_tests.
    intros r w _. destruct r as [[|x l]|e]; [by apply wp_ret| |done]. by apply wp_bind, wp_on_runner, wp_ret.
Qed.

End reliable.

(** ** The theorem *)

(** No summary says failed exactly if all tests pass. *)
Lemma no_failed_summary passes (r : runner) :
  wf (test_summaries r) →
  (∀ t, final_status <$> dget t (test_summaries r) =
     if decide (t ∈ failed_tests r) then Some (verdict passes t) else None) →
  length (with_status "failed" r) = 0 ↔ forallb passes (failed_tests r) = true.
Proof.
  intros Hwf Hv. rewrite forallb_forall. split.
  - intros Hlen%length_zero_iff_nil t Ht%list_elem_of_In. specialize (Hv t). rewrite decide_True in Hv by done.
    destruct (dget t (test_summaries r)) as [sm|] eqn:El; [|done]. cbn in Hv. injection Hv as Hv.
    destruct (passes t) eqn:E; [done|]. exfalso. unfold verdict in Hv. rewrite E in Hv.
    apply dget_elem_of in El. apply (list_elem_of_fmap_2 snd) in El.
    assert (sm ∈ with_status "failed" r) as Hin by by apply elem_of_with_status.
    rewrite Hlen in Hin. by apply not_elem_of_nil in Hin.
  - intros Hall. apply length_zero_iff_nil. destruct (with_status "failed" r) as [|sm l] eqn:E; [done|]. exfalso.
    assert (sm ∈ with_status "failed" r) as Hin by (rewrite E; left).
    apply elem_of_with_status in Hin as [Hin Hst]. apply list_elem_of_fmap in Hin as ([t sm'] & -> & Hin).
    apply elem_of_dget in Hin; [|done]. specialize (Hv t). rewrite Hin in Hv. cbn in Hv, Hst.
    rewrite Hst in Hv. case_decide as Ht; [|done]. injection Hv as Hv. unfold verdict in Hv.
    rewrite Hall in Hv; [done|by apply list_elem_of_In].
Qed.

(** C1: if files can be opened and a test's outcome is always the same when it is run
    alone, a fresh run with serial attempts that finds the tests [F] failed ends with a
    verdict that depends on these tests only, not on the schedules of the pools, the
    clock, or what else the outside answers: each test that passes alone is flaky, each
    other one failed, there are no other summaries, and the exit code is 0 exactly if all
    of them pass.  This is so although a thread of a pool can lose the result of a test,
    when another one adds a test to the runtime history.  With parallel attempts alone
    it holds if that does not happen. *)
Theorem run_verdict {env : Env} (a : args) (passes : str → bool) (s s1 : state)
    (Hreliable : Reliable a passes) (Hpar : (0 < parallel a)%Z)
    (Hattempts : (0 < attempts_serial a)%Z ∨
                 (0 < attempts_parallel a)%Z ∧ ∀ t, env_history_changed t = false)
    (Hfresh : fresh (rn s)) (Hinit : initialize_run_mode a s = (Ok true, s1))
    (Hnd : NoDup (failed_tests (rn s1))) (Hnames : [] ∉ failed_tests (rn s1)) :
  let F := failed_tests (rn s1) in
  ∃ s', run a s = (Ok (if forallb passes F then 0%Z else 1%Z), s') ∧ failed_tests (rn s') = F ∧
    ∀ t, final_status <$> dget t (test_summaries (rn s')) =
      if decide (t ∈ F) then Some (if passes t then "flaky" else "failed") else None.
Proof.
  intros F. assert (Hfresh1 : fresh (rn s1)) by by eapply initialize_fresh.
  cut (wp (run a) (λ r s', r = Ok (if forallb passes F then 0%Z else 1%Z) ∧ failed_tests (rn s') = F ∧
    ∀ t, final_status <$> dget t (test_summaries (rn s')) =
      if decide (t ∈ F) then Some (verdict passes t) else None) s).
  { unfold wp. destruct (run a s) as [r s']. cbn. intros (-> & H). by exists s'. }
  unfold run. apply wp_bind. unfold wp at 1. rewrite Hinit. cbn [fst snd]. apply wp_bind.
  eapply (wp_both _ (λ r s', r = Ok true ∧ failed_tests (rn s') = F ∧
      ∀ t, final_status <$> dget t (test_summaries (rn s')) =
        if decide (t ∈ F) then Some (verdict passes t) else None) (λ _ s', runner_ok (rn s'))).
  - apply (wp_retries_verdict a passes); [done| |done..|by intros s' Hf Hv].
    destruct Hattempts as [?|[? Hquiet]]; [by left|right]. split; [done|]. intros [t Ht]. by rewrite Hquiet in Ht.
  - apply wp_round; [apply Hfresh1|]. by intros r s' Hok _.
  - intros r s2 (-> & Hf & Hv) Hok. apply (wp_finalize a passes). intros w. cbn [rn].
    split; [|done]. pose proof (no_failed_summary passes (rn s2)) as Hlen. rewrite Hf in Hlen.
    specialize (Hlen ltac:(apply Hok) Hv). f_equal. case_decide as E.
    + by rewrite (proj1 Hlen E).
    + destruct (forallb passes F); [|done]. by destruct E; apply Hlen.
Qed.

(** Surroundings in which the tests pass alone as [passes] says. *)
Fixpoint test_argument (cmd : list str) : option str :=
  match cmd with
  | flag :: ((t :: _) as cmd') => if decide (flag = "--test") then Some t else test_argument cmd'
  | _ => None
  end.

Definition reliable_env (tests : list str) (passes : str → bool) : Env :=
  scripted_env (λ _ cmd,
    match test_argument cmd with
    | Some t => Ok (if passes t then 0%Z else 1%Z, Some "")
    | None => Ok (1%Z, Some (mjoin (fail_line <$> tests)))
    end).

Lemma reliable_env_reliable tests passes a : venv a = None → Reliable (env := reliable_env tests passes) a passes.
Proof.
  intros Hvenv. split; [done|by rewrite Hvenv|]. intros t name skip dir vars Hne.
  assert (test_argument (build_test_command a (Some name) skip (Some dir)) = Some name) as Harg.
  { unfold build_test_command. destruct name as [|c name]; [done|]. by destruct (negb _), skip. }
  cbn [env_subprocess reliable_env scripted_env]. rewrite Harg. eexists _, _. split; [done|].
  by destruct (passes name).
Qed.

(** The same, but every thread of a pool finds the runtime history changed. *)
Definition racing_env (tests : list str) (passes : str → bool) : Env := {|
  env_now := env_now (Env := reliable_env tests passes);
  env_time := env_time (Env := reliable_env tests passes);
  env_cwd := env_cwd (Env := reliable_env tests passes);
  env_environ := env_environ (Env := reliable_env tests passes);
  env_exists := env_exists (Env := reliable_env tests passes);
  env_open_fault := env_open_fault (Env := reliable_env tests passes);
  env_subprocess := env_subprocess (Env := reliable_env tests passes);
  env_command := env_command (Env := reliable_env tests passes);
  env_mkdir_fault := env_mkdir_fault (Env := reliable_env tests passes);
  env_rmtree_fault := env_rmtree_fault (Env := reliable_env tests passes);
  env_history_changed _ := true;
  env_mtime := env_mtime (Env := reliable_env tests passes);
  env_json_loads := env_json_loads (Env := reliable_env tests passes);
  env_json_dumps := env_json_dumps (Env := reliable_env tests passes);
  env_order := env_order (Env := reliable_env tests passes);
  env_order_perm := env_order_perm (Env := reliable_env tests passes);
|}.

Lemma racing_env_reliable tests passes a : venv a = None → Reliable (env := racing_env tests passes) a passes.
Proof. intros Hvenv. destruct (reliable_env_reliable tests passes a Hvenv) as [H1 H2 H3]. by split. Qed.

(** All parallel results are lost, and the serial ones decide. *)
Lemma run_verdict_witness :
  let passes := λ t, bool_decide (t = "a") in
  let s := mkState empty_world (init_runner (mkDatetime 2026 3 16 9 0 0 0)) in
  ∃ s', run (env := racing_env ["a"; "b"] passes) default_args s = (Ok 1%Z, s') ∧
    failed_tests (rn s') = ["a"; "b"] ∧
    final_status <$> dget "a" (test_summaries (rn s')) = Some ("flaky" : str).
Proof.
  intros passes s.
  assert (Reliable (env := racing_env ["a"; "b"] passes) default_args passes) as H1
    by by apply racing_env_reliable.
  assert (0 < parallel default_args)%Z as H2 by (vm_compute; done).
  assert (0 < attempts_serial default_args)%Z as H3 by (vm_compute; done).
  assert (fresh (rn s)) as H4.
  { split_and!; [|done..]. split; [split; constructor|constructor|intros t H; by apply not_elem_of_nil in H|done]. }
  assert (∃ s1, initialize_run_mode (env := racing_env ["a"; "b"] passes) default_args s = (Ok true, s1) ∧
    failed_tests (rn s1) = ["a"; "b"]) as (s1 & H5 & HF) by (eexists; split; vm_compute; reflexivity).
  assert (NoDup (failed_tests (rn s1))) as H6 by (rewrite HF; apply (bool_decide_unpack _); vm_compute; done).
  assert ([] ∉ failed_tests (rn s1)) as H7 by (rewrite HF; apply (bool_decide_unpack _); vm_compute; done).
  destruct (run_verdict (env := racing_env ["a"; "b"] passes) default_args passes s s1 H1 H2
    (or_introl H3) H4 H5 H6 H7) as (s' & Hrun & Hf & Hv).
  rewrite HF in *. exists s'. split; [exact Hrun|split; [exact Hf|exact (Hv "a")]].
Defined.
