(* ===== verification/RunCost.v ===== *)
(** Which test runs a run of scripts/auto-retry-tests.py starts at most: the suite
    once, and each test no more often than its attempts allow; for any list of failed
    tests (a log may name a test twice), any answers of the outside, and also when the
    run ends with an exception. *)

From S2P Require Import Prelude PyStr PyFloat PyDict PyTime Json World RuntimeHistory TestModel.
From S2P Require Import StateManager TestExecutor ReportGenerator Runner Retries Strategy.

(** ** What a command runs *)

(** The test after [--test]; none for the whole suite. *)
Fixpoint named_test (command_args : list str) : option str :=
  match command_args with
  | [] => None
  | x :: l => if decide (x = "--test") then head l else named_test l
  end.

(** A run of the test [k], or of the suite ([None]), by what the command says before
    the extra arguments. *)
Definition is_run_of (a : args) (k : option str) (ev : event) : bool :=
  match ev with
  | EvRun cmd => bool_decide (named_test (take (length cmd - length (extra_args a)) cmd) = k)
  | _ => false
  end.

(** How often events of a kind occur, and how often a test is listed. *)
Definition count_if (P : event → bool) (evs : list event) : nat := length (filter (λ ev, P ev = true) evs).
Definition runs_of (a : args) (k : option str) : list event → nat := count_if (is_run_of a k).
Definition times (t : str) (F : list str) : nat := length (filter (λ t', t' = t) F).

(** An empty name means the suite. *)
Definition key (tn : option str) : option str := if truthy tn then tn else None.

Lemma str_of_Z_no_flag z : str_of_Z z ≠ "--test".
Proof.
  intros H. assert (116%N ∈ str_of_Z z) as [?|?]%str_of_Z_char; [|done|lia].
  rewrite H. do 2 right. left.
Qed.

Lemma named_test_build a tn skip wd :
  let cmd := build_test_command a tn skip (Some wd) in
  named_test (take (length cmd - length (extra_args a)) cmd) = key tn.
Proof.
  cbn zeta. unfold build_test_command. rewrite !app_assoc. rewrite take_app_length' by (rewrite length_app; lia).
  assert (Hw : named_test (if truthy (Some wd) then ["--work-dir" : str; default [] (Some wd)] else []) = None).
  { destruct wd; [done|]. cbn [truthy named_test]. rewrite decide_False by done. by case_decide. }
  revert Hw. generalize (if truthy (Some wd) then ["--work-dir" : str; default [] (Some wd)] else []). intros tl Hw.
  rewrite <-!app_assoc. cbn [app named_test]. rewrite decide_False by done.
  assert (Hskip : ∀ l, named_test ((if skip then ["--skip-delete" : str] else []) ++ l) = named_test l)
    by (intros l; destruct skip; [cbn; by rewrite decide_False|done]).
  assert (Hpar : ∀ (b : bool) l, named_test ((if b then ["--parallel" : str; str_of_Z (parallel a)] else []) ++ l) = named_test l).
  { intros [] l; [|done]. cbn [app named_test]. rewrite decide_False by done.
    rewrite decide_False by apply str_of_Z_no_flag. done. }
  rewrite Hpar, Hskip. unfold key. destruct tn as [[|x t]|]; [exact Hw| |exact Hw].
  cbn [truthy default from_option app named_test]. by rewrite decide_True.
Qed.

(** ** Costs *)

(** While the tests [F] are retried: [J] says what is known of summaries and counters. *)
Definition counting (F : list str) (J : dict TestSummary → dict Z → Prop) (s : state) : Prop :=
  failed_tests (rn s) = F ∧ J (test_summaries (rn s)) (serial_attempts_done (rn s)) ∧
  (0 ≤ parallel_attempts_done (rn s))%Z.

(** No counter is negative. *)
Definition nonneg (_ : dict TestSummary) (sd : dict Z) : Prop := ∀ t k, Some k = dget t sd → (0 ≤ k)%Z.

Lemma bind_get {S A} (k : S → M S A) s : bind get k s = k s s.
Proof. done. Qed.

Section costs.
(** Events of one kind, of which a run of [tn] is at most [c tn]. *)
Context (a : args) (P : event → bool) (c : option str → nat).
Hypothesis HP : ∀ ev, P ev = true → is_run ev = true.
Hypothesis Hc : ∀ tn skip wd, P (EvRun (build_test_command a tn skip (Some wd))) = true → 1 ≤ c tn.

(** At most [n] such events between two states. *)
Definition at_most (n : nat) (s s' : state) : Prop :=
  ∃ evs, trace (wd s') = trace (wd s) ++ evs ∧ count_if P evs ≤ n.

Lemma at_most_same n s s' : trace (wd s') = trace (wd s) → at_most n s s'.
Proof. exists []. rewrite app_nil_r. split; [done|apply Nat.le_0_l]. Qed.

Lemma at_most_trans n m k s1 s2 s3 : at_most n s1 s2 → at_most m s2 s3 → n + m ≤ k → at_most k s1 s3.
Proof.
  intros (e1 & H1 & Hc1) (e2 & H2 & Hc2) Hk. exists (e1 ++ e2).
  split; [by rewrite H2, H1, app_assoc|]. unfold count_if in *. rewrite filter_app, length_app. lia.
Qed.

Lemma at_most_mono n k s s' : n ≤ k → at_most n s s' → at_most k s s'.
Proof. intros Hk (evs & ? & ?). exists evs. split; [done|lia]. Qed.

(** [m] starts at most [n] of them. *)
Definition costs {A} (F : list str) J (n : nat) (m : M state A) : Prop :=
  ∀ s, counting F J s → counting F J (m s).2 ∧ at_most n s (m s).2.

(** The costs of running each of a list of tests once. *)
Definition csum (l : list str) : nat := sum_list_with (λ t, c (Some t)) l.

Lemma csum_filter (Q : str → Prop) `{∀ t, Decision (Q t)} l : csum (filter Q l) ≤ csum l.
Proof. induction l as [|t l IH]; [done|]. rewrite filter_cons. unfold csum in *. case_decide; cbn; lia. Qed.

Lemma csum_perm l k : l ≡ₚ k → csum l = csum k.
Proof. intros H. unfold csum. by induction H; cbn; lia. Qed.

Section rules.
Context (F : list str) (J : dict TestSummary → dict Z → Prop).

Lemma costs_mono {A} n k (m : M state A) : n ≤ k → costs F J n m → costs F J k m.
Proof. intros Hk Hm s Hs. destruct (Hm s Hs). split; [done|]. by eapply at_most_mono. Qed.

(** Nothing is started and nothing changes. *)
Lemma costs_pure {A} (m : M state A) :
  (∀ s, counting F J s → counting F J (m s).2 ∧ trace (wd (m s).2) = trace (wd s)) → costs F J 0 m.
Proof. intros Hm s Hs. destruct (Hm s Hs). split; [done|]. by apply at_most_same. Qed.

Lemma costs_ret {A} (x : A) : costs F J 0 (ret x).
Proof. by apply costs_pure. Qed.

Lemma costs_raise {A} e : costs F J 0 (raise (A := A) e).
Proof. by apply costs_pure. Qed.

(** What follows [get] may use what is known of the state. *)
Lemma costs_get {A} n (k : state → M state A) :
  (∀ s, counting F J s → costs F J n (k s)) → costs F J n (bind get k).
Proof. intros Hk s Hs. by apply (Hk s). Qed.

Lemma costs_bind {A B} n k l (m : M state A) (f : A → M state B) :
  costs F J n m → (∀ x, costs F J k (f x)) → n + k ≤ l → costs F J l (bind m f).
Proof.
  intros Hm Hf Hl s Hs. specialize (Hm s Hs). unfold bind.
  destruct (m s) as [[x|e] s1]; destruct Hm as [H1 H2]; cbn [snd] in *.
  - destruct (Hf x s1 H1) as [H3 H4]. split; [done|]. by eapply at_most_trans.
  - split; [done|]. eapply at_most_mono; [|done]. lia.
Qed.

Lemma costs_on_runner f :
  (∀ s, counting F J s → counting F J (mkState (wd s) (f (rn s)))) → costs F J 0 (on_runner f).
Proof. intros Hf. apply costs_pure. intros s Hs. split; [by apply Hf|done]. Qed.

Lemma costs_on_world {A} (m : M world A) : (∀ w, trace (m w).2 = trace w) → costs F J 0 (on_world m).
Proof.
  intros Hm. apply costs_pure. intros [w r] Hs. specialize (Hm w). unfold on_world. cbn [wd] in *.
  by destruct (m w).
Qed.

Lemma costs_attempt_task {A} n (m : M state A) : costs F J n m → costs F J n (attempt_task m).
Proof. intros Hm s Hs. specialize (Hm s Hs). unfold attempt_task. by destruct (m s). Qed.

Lemma costs_map_each {B} (l : list str) (body : str → M state B) :
  (∀ t, costs F J (c (Some t)) (body t)) → costs F J (csum l) (map_each l body).
Proof.
  intros Hb. induction l as [|x l IH]; [apply costs_ret|]. cbn [map_each].
  eapply (costs_bind (c (Some x)) (csum l)); [apply Hb|intros y|done].
  eapply (costs_bind (csum l) 0); [apply IH|intros ys; apply costs_ret|lia].
Qed.

Lemma costs_wp {A} n (m : M state A) Q s :
  costs F J n m → counting F J s → (∀ r s', counting F J s' → at_most n s s' → Q r s') → wp m Q s.
Proof. intros Hm Hs HQ. destruct (Hm s Hs). by apply HQ. Qed.

End rules.

(** ** The retry runner *)

Section run.
Context {env : Env}.
Variables (F : list str) (J : dict TestSummary → dict Z → Prop).

(** Of the events of one run only the start counts. *)
Lemma count_other_events evs : Forall (λ ev, is_run ev = false) evs → count_if P evs = 0.
Proof.
  intros H. unfold count_if. induction H as [|ev evs Hev _ IH]; [done|]. rewrite filter_cons.
  rewrite decide_False; [done|]. intros HPev%HP. congruence.
Qed.

Lemma count_start tn skip wd evs :
  Forall (λ ev, is_run ev = false) evs →
  count_if P (EvRun (build_test_command a tn skip (Some wd)) :: evs) ≤ c tn.
Proof.
  intros H%count_other_events. unfold count_if in *. rewrite filter_cons. case_decide as HPev; cbn; [|lia].
  apply Hc in HPev. lia.
Qed.

Lemma run_effect_cost tn skip n ty s r s' : run_effect a tn skip n ty s r s' → at_most (c tn) s s'.
Proof.
  intros (_ & _ & evs & Ht & Hr). exists evs. split; [done|]. destruct r as [res|e].
  - destruct Hr as (_ & _ & _ & _ & wdir & nsev & rmev & -> & Hns & Hrm). apply count_start.
    apply Forall_app. split; [destruct Hns as [->|(_ & ns & _ & _ & ->)]|destruct Hrm as [->| ->]]; by repeat constructor.
  - destruct Hr as [->|[wdir ->]]; [apply Nat.le_0_l|by apply count_start].
Qed.

Lemma costs_run_single_test_suite tn skip n ty : costs F J (c tn) (run_single_test_suite a tn skip n ty).
Proof.
  intros s (H1 & H2 & H3).
  cut (wp (run_single_test_suite a tn skip n ty) (λ _ s', counting F J s' ∧ at_most (c tn) s s') s); [done|].
  apply wp_run_single_test_suite. intros r s' Heff. split; [|by eapply run_effect_cost].
  destruct Heff as (Hstep & _). destruct (history_step_frame _ _ Hstep) as (Hsm & _ & Hf & _).
  destruct (history_step_results _ _ Hstep) as (_ & Hp & Hs).
  unfold counting. by rewrite Hf, Hp, Hs, Hsm.
Qed.

Lemma costs_reorder_tasks {A} (l : list A) : costs F J 0 (reorder_tasks l).
Proof. by apply costs_on_world. Qed.

Lemma costs_save_state : costs F J 0 (save_state a).
Proof.
  apply costs_pure. intros s Hs.
  cut (wp (save_state a) (λ _ s', counting F J s' ∧ trace (wd s') = trace (wd s)) s); [done|].
  apply wp_save_state. intros r w Ht _ _. done.
Qed.

(** A pool starts every test that it is given. *)
Lemma costs_run_pool tests skip n : costs F J (csum tests) (run_pool a tests skip n).
Proof.
  unfold run_pool. destruct (_ <=? 0)%Z; [eapply costs_mono; [apply Nat.le_0_l|apply costs_raise]|].
  intros s Hs. match goal with |- context [bind (reorder_tasks tests) ?k] =>
    cut (wp (bind (reorder_tasks tests) k) (λ _ s', counting F J s' ∧ at_most (csum tests) s s') s); [done|] end.
  apply wp_bind, wp_reorder_tasks. intros l w Hl (_ & Ht & _).
  eapply (costs_wp F J (csum tests)); [|exact Hs|].
  - rewrite <-(csum_perm _ _ Hl).
    eapply costs_bind; [apply costs_map_each|intros; apply costs_reorder_tasks|rewrite Nat.add_0_r; done].
    intros t. eapply costs_bind; [apply costs_attempt_task, costs_run_single_test_suite|intros; apply costs_ret|lia].
  - intros r s' Hs' Hle. split; [done|].
    eapply at_most_trans; [by apply (at_most_same 0 s (mkState w (rn s)))|exact Hle|lia].
Qed.

Lemma costs_collect out d : costs F J 0 (collect out d).
Proof.
  revert d. induction out as [|[t [r|e]] out IH]; intros d; cbn [collect]; [apply costs_ret| |apply IH].
  eapply costs_bind; [by apply costs_on_runner|intros; apply IH|done].
Qed.

Lemma costs_parallel_loop n k m tests follow d :
  (0 ≤ k)%Z → costs F J (n * csum tests) (parallel_loop a n k m tests follow d).
Proof.
  revert k d. induction n as [|n IH]; intros k d Hk; cbn [parallel_loop]; [apply costs_ret|].
  pose proof (csum_filter (λ t, any_success (default [] (dget t d)) = false) tests) as Hlen.
  fold (not_passed d tests) in Hlen.
  destruct (not_passed d tests) as [|t l] eqn:E; [eapply costs_mono; [apply Nat.le_0_l|apply costs_ret]|].
  rewrite <- E in *. cbn zeta.
  eapply costs_bind; [apply costs_run_pool|intros out|].
  - eapply costs_bind; [apply costs_collect|intros d'|reflexivity].
    eapply costs_bind; [|intros _; apply IH; lia|reflexivity].
    apply costs_on_runner. intros s (? & ? & _). by split_and!.
  - cbn. lia.
Qed.

(** The parallel retries of the tests that have not passed, as many as are left. *)
Lemma costs_parallel_retries k s :
  counting F J s → (attempts_parallel a - parallel_attempts_done (rn s) ≤ Z.of_nat k)%Z →
  let s' := (execute_parallel_retries a s).2 in
  counting F J s' ∧ at_most (k * csum (filter (λ t, already_passed (rn s) t = false) F)) s s'.
Proof.
  intros Hs Hk. cbn zeta. unfold execute_parallel_retries. rewrite !bind_get.
  pose proof Hs as (Hf & _ & Hp). rewrite Hf.
  assert (Hnone : ∀ A (x : A) k, counting F J ((ret x : M state A) s).2 ∧ at_most k s ((ret x : M state A) s).2)
    by (intros; split; [done|by apply at_most_same]).
  destruct (_ && _); [|apply Hnone]. set (tests := filter _ F).
  destruct tests as [|t l] eqn:E; [apply Hnone|]. rewrite <-E in *.
  unfold retry_tests_in_parallel. destruct (_ || _); [apply Hnone|].
  destruct (costs_parallel_loop (Z.to_nat (attempts_parallel a - parallel_attempts_done (rn s))) 1
    (attempts_parallel a - parallel_attempts_done (rn s)) tests (0 <? attempts_serial a)%Z (empty_results tests)
    ltac:(lia) s Hs) as [H1 H2].
  split; [exact H1|]. eapply at_most_mono; [|exact H2]. apply Nat.mul_le_mono_r. lia.
Qed.

Lemma costs_serial_loop n k m t acc :
  (0 ≤ k)%Z → (∀ k sm sd, (0 ≤ k)%Z → J sm sd → J sm (dset t k sd)) →
  costs F J (n * c (Some t)) (serial_loop a n k m t acc).
Proof.
  intros Hk HJ. revert k acc Hk. induction n as [|n IH]; intros k acc Hk; cbn [serial_loop]; [apply costs_ret|]. cbn zeta.
  eapply (costs_bind F J (c (Some t)) (n * c (Some t))); [apply costs_run_single_test_suite|intros res|cbn; lia].
  eapply (costs_bind F J 0 (n * c (Some t))); [by apply costs_on_runner|intros _|done].
  eapply (costs_bind F J 0 (n * c (Some t))); [apply costs_save_state|intros _|done].
  eapply (costs_bind F J 0 (n * c (Some t))); [|intros _|done].
  - apply costs_on_runner. intros s (H1 & H2 & H3). split_and!; [done|by apply HJ|done].
  - destruct (success res); [eapply costs_mono; [apply Nat.le_0_l|apply costs_ret]|]. apply IH. lia.
Qed.

Lemma costs_retry_serially n t :
  (∀ k sm sd, (0 ≤ k)%Z → J sm sd → J sm (dset t k sd)) →
  costs F J (Z.to_nat n * c (Some t)) (retry_test_serially a t n).
Proof.
  intros HJ. unfold retry_test_serially. destruct (_ <=? 0)%Z.
  - eapply costs_mono; [apply Nat.le_0_l|apply costs_ret].
  - by apply costs_serial_loop.
Qed.

Lemma costs_finalize_and_report : costs F J 0 (finalize_and_report a).
Proof.
  apply costs_pure. intros s Hs.
  cut (wp (finalize_and_report a) (λ _ s', counting F J s' ∧ trace (wd s') = trace (wd s)) s); [done|].
  unfold finalize_and_report. apply wp_bind, wp_get. cbn beta iota.
  apply wp_bind, wp_generate_and_save_final_report. intros [[]|e] w _ Ht _; [|done].
  cbn beta iota. apply wp_bind, wp_get. cbn beta iota. by apply wp_ret.
Qed.

End run.

(** ** The serial phase, for any list of tests *)

Section rounds.
Context {env : Env}.
Variables (F : list str).

Lemma nonneg_dset t k sm sd : (0 ≤ k)%Z → nonneg sm sd → nonneg sm (dset t k sd).
Proof. intros Hk H t' k'. rewrite dget_dset. case_decide; [by intros [= ->]|]. apply H. Qed.

Lemma costs_serial_phase tests d :
  costs F nonneg (csum tests * Z.to_nat (attempts_serial a)) (serial_phase a tests d).
Proof.
  revert d. induction tests as [|t tests IH]; intros d; cbn [serial_phase]; [apply costs_ret|].
  apply costs_get. intros s (_ & Hn & _). cbn zeta. fold (serial_left a s t).
  pose proof (serial_left_runs a s t (Hn t)) as Hle. unfold csum. cbn [sum_list_with]. fold (csum tests).
  destruct (0 <? serial_left a s t)%Z eqn:E; [|eapply costs_mono; [|apply IH]; lia].
  eapply costs_bind; [apply costs_retry_serially; intros; by apply nonneg_dset|intros l; apply IH|]. nia.
Qed.

Lemma costs_process pr sr s :
  failed_tests (rn s) = F → nonneg [] (serial_attempts_done (rn s)) → (0 ≤ parallel_attempts_done (rn s))%Z →
  counting F nonneg (process_all_test_results a pr sr s).2 ∧
  trace (wd (process_all_test_results a pr sr s).2) = trace (wd s).
Proof. intros. destruct (process_all_eq a pr sr s) as (sums & Heq & _). by rewrite Heq. Qed.

(** Both phases of a round. *)
Lemma costs_execute_test_retries :
  costs F nonneg (csum F * (Z.to_nat (attempts_parallel a) + Z.to_nat (attempts_serial a))) (execute_test_retries a).
Proof.
  unfold execute_test_retries. eapply (costs_bind F nonneg (csum F * Z.to_nat (attempts_parallel a))); [|intros pr|].
  - intros s Hs. pose proof Hs as (_ & _ & Hp).
    destruct (costs_parallel_retries F nonneg (Z.to_nat (attempts_parallel a)) s Hs) as [H1 H2]; [lia|].
    split; [done|]. eapply at_most_mono; [|exact H2]. rewrite Nat.mul_comm. apply Nat.mul_le_mono_r, csum_filter.
  - eapply (costs_bind F nonneg (csum F * Z.to_nat (attempts_serial a)) 0); [|intros sr|reflexivity].
    + unfold execute_serial_retries. apply costs_get. intros s (Hf & _). cbn zeta.
      destruct (_ && _); [|eapply costs_mono; [apply Nat.le_0_l|apply costs_ret]].
      eapply costs_mono; [|apply costs_serial_phase]. apply Nat.mul_le_mono_r. unfold still_failing.
      rewrite Hf. apply csum_filter.
    + eapply (costs_bind F nonneg 0 0); [|intros _; apply costs_ret|done]. apply costs_pure. intros s (? & ? & ?).
      by apply costs_process.
  - lia.
Qed.

(** ** A round that goes on where another one was, for distinct tests *)

(** The attempts a test is still allowed. *)
Definition attempts_left (s : state) (t : str) : nat :=
  if already_passed (rn s) t then 0
  else Z.to_nat (attempts_parallel a - parallel_attempts_done (rn s)) + Z.to_nat (serial_left a s t).

(** The counters of [tests] are those of [sd0]. *)
Definition agrees (sd0 : dict Z) (tests : list str) (_ : dict TestSummary) (sd : dict Z) : Prop :=
  nonneg [] sd ∧ ∀ t, t ∈ tests → dget t sd = dget t sd0.

Lemma serial_phase_left sd0 tests d s :
  NoDup tests → counting F (agrees sd0 tests) s →
  let s' := (serial_phase a tests d s).2 in
  counting F nonneg s' ∧
  at_most (sum_list_with (λ t, Z.to_nat (attempts_serial a - default 0%Z (dget t sd0)) * c (Some t)) tests) s s'.
Proof.
  cbn zeta. revert d s. induction tests as [|t tests IH]; intros d s Hnd Hs; cbn [serial_phase sum_list_with].
  { destruct Hs as (? & [? _] & ?). split; [by split_and!|by apply at_most_same]. }
  apply NoDup_cons in Hnd as [Hnin Hnd]. rewrite !bind_get. cbn zeta.
  pose proof Hs as (Hf & [Hn Hsd] & Hp). rewrite (Hsd t) by left.
  assert (Hrest : counting F (agrees sd0 tests) s).
  { split_and!; [done| |done]. split; [done|]. intros t' Ht'. apply Hsd. by right. }
  destruct (0 <? _)%Z eqn:E.
  2: { destruct (IH d s Hnd Hrest) as [H1 H2]. split; [done|]. eapply at_most_mono; [|exact H2]. lia. }
  match goal with |- context [bind ?m ?k s] => cut (wp (bind m k) (λ _ s', counting F nonneg s' ∧
    at_most (Z.to_nat (attempts_serial a - default 0%Z (dget t sd0)) * c (Some t) +
      sum_list_with (λ t, Z.to_nat (attempts_serial a - default 0%Z (dget t sd0)) * c (Some t)) tests) s s') s); [done|] end.
  apply wp_bind. eapply (costs_wp F (agrees sd0 tests)); [apply costs_retry_serially|exact Hrest|].
  { intros k sm sd Hk [Hn' Hsd']. split; [by eapply nonneg_dset|]. intros t' Ht'.
    rewrite dget_dset_ne; [by apply Hsd'|]. by intros ->. }
  intros [l|e] s1 Hs1 Hle1.
  - destruct (IH (dset t l d) s1 Hnd Hs1) as [H1 H2]. split; [done|]. eapply at_most_trans; [exact Hle1|exact H2|done].
  - destruct Hs1 as (? & [? _] & ?). split; [by split_and!|]. eapply at_most_mono; [|exact Hle1]. lia.
Qed.

Lemma sum_filter_le {A} (Q R : A → Prop) `{∀ x, Decision (Q x)} `{∀ x, Decision (R x)} (f : A → nat) l :
  (∀ x, R x → Q x) → sum_list_with f (filter R l) ≤ sum_list_with f (filter Q l).
Proof.
  intros HQR. induction l as [|x l IH]; [done|]. rewrite !filter_cons. repeat case_decide; cbn; auto with lia.
  by destruct H2; apply HQR.
Qed.

Lemma round_left s :
  NoDup F → counting F nonneg s →
  let s' := (execute_test_retries a s).2 in
  counting F nonneg s' ∧ at_most (sum_list_with (λ t, attempts_left s t * c (Some t)) F) s s'.
Proof.
  intros Hnd Hs. cbn zeta. pose proof Hs as (Hf & Hn & Hp).
  set (J0 := λ sm sd, sm = test_summaries (rn s) ∧ sd = serial_attempts_done (rn s)).
  set (tests := filter (λ t, already_passed (rn s) t = false) F).
  set (np := Z.to_nat (attempts_parallel a - parallel_attempts_done (rn s))).
  assert (Hsum : ∀ k, k ≤ sum_list_with (λ t, Z.to_nat (serial_left a s t) * c (Some t)) tests →
    np * csum tests + k ≤ sum_list_with (λ t, attempts_left s t * c (Some t)) F).
  { intros k Hk. etrans; [apply Nat.add_le_mono_l, Hk|]. subst tests. clear -np. unfold csum.
    induction F as [|t l IH]; cbn [sum_list_with]; [cbn; lia|]. rewrite filter_cons. unfold attempts_left at 1.
    destruct (already_passed (rn s) t); [rewrite decide_False by done; lia|].
    rewrite decide_True by done. cbn [sum_list_with]. fold np. nia. }
  cut (wp (execute_test_retries a) (λ _ s', counting F nonneg s' ∧
    at_most (sum_list_with (λ t, attempts_left s t * c (Some t)) F) s s') s); [done|].
  unfold execute_test_retries. apply wp_bind. unfold wp at 1.
  destruct (costs_parallel_retries F J0 np s) as [H1 H2]; [by split_and!|unfold np; lia|]. fold tests in H2.
  destruct (execute_parallel_retries a s) as [[pr|e] s1]; cbn [fst snd] in *.
  2: { destruct H1 as (? & [_ Hsd] & ?). split; [split_and!; [done|by rewrite Hsd|done]|].
       eapply at_most_mono; [|exact H2]. specialize (Hsum 0 (Nat.le_0_l _)). lia. }
  destruct H1 as (Hf1 & [Hsm1 Hsd1] & Hp1). apply wp_bind. unfold execute_serial_retries. apply wp_bind, wp_get. cbn zeta.
  assert (Hend : ∀ s2 k, counting F nonneg s2 → at_most k s1 s2 →
    k ≤ sum_list_with (λ t, Z.to_nat (serial_left a s t) * c (Some t)) tests →
    counting F nonneg s2 ∧ at_most (sum_list_with (λ t, attempts_left s t * c (Some t)) F) s s2).
  { intros s2 k Hs2 Hk2 Hk. split; [done|]. eapply at_most_trans; [exact H2|exact Hk2|by apply Hsum]. }
  assert (Htail : ∀ sr s2 k, counting F nonneg s2 → at_most k s1 s2 →
    k ≤ sum_list_with (λ t, Z.to_nat (serial_left a s t) * c (Some t)) tests →
    wp (bind (process_all_test_results a pr sr) (λ _, ret true)) (λ _ s', counting F nonneg s' ∧
      at_most (sum_list_with (λ t, attempts_left s t * c (Some t)) F) s s') s2).
  { intros sr s2 k (? & ? & ?) Hk2 Hk. apply wp_bind. unfold wp at 1.
    destruct (costs_process pr sr s2) as [H4 H5]; [done..|].
    destruct (process_all_test_results a pr sr s2) as [[[]|e] s3]; [apply wp_ret|]; (eapply Hend; [exact H4| |exact Hk]);
      (eapply at_most_trans; [exact Hk2|by apply (at_most_same 0)|lia]). }
  destruct (_ && _).
  2: { apply wp_ret. apply (Htail [] s1 0); [|by apply at_most_same|lia]. split_and!; [done|by rewrite Hsd1|done]. }
  set (st := still_failing (rn s1) pr).
  assert (Hst : sum_list_with (λ t, Z.to_nat (serial_left a s t) * c (Some t)) st
    ≤ sum_list_with (λ t, Z.to_nat (serial_left a s t) * c (Some t)) tests).
  { unfold st, still_failing, tests. rewrite Hf1. apply sum_filter_le. unfold already_passed. rewrite Hsm1. by intros t [? _]. }
  destruct (serial_phase_left (serial_attempts_done (rn s)) st [] s1) as [H3 H4].
  { unfold st, still_failing. rewrite Hf1. by apply NoDup_filter. }
  { split_and!; [done| |done]. rewrite Hsd1. by split. }
  unfold wp at 1. destruct (serial_phase a st [] s1) as [[sr|e] s2]; cbn [fst snd] in *.
  - by eapply Htail; [exact H3|exact H4|exact Hst].
  - by eapply Hend; [exact H3|exact H4|exact Hst].
Qed.

(** ** The start of a run *)

(** At most one run of the suite, and the counters stay. *)
Lemma wp_initialize_cost Q s :
  nonneg [] (serial_attempts_done (rn s)) → (0 ≤ parallel_attempts_done (rn s))%Z →
  (∀ r s1, counting (failed_tests (rn s1)) nonneg s1 → at_most (c None) s s1 → Q r s1) →
  wp (initialize_run_mode a) Q s.
Proof.
  intros Hn Hp HQ. unfold initialize_run_mode. apply wp_bind, wp_get. cbn beta iota.
  destruct (failed_tests (rn s)) as [|t ts] eqn:Ef; [|apply wp_ret, HQ; [done|by apply at_most_same]].
  assert (Hset : ∀ s1 w l lg, counting [] nonneg s1 → at_most (c None) s s1 → trace w = trace (wd s1) →
    Q (Ok true) (mkState w (set_failed_tests l (rn s1))) ∧
    Q (Ok true) (mkState w (set_initial_result_log lg (set_failed_tests l (rn s1))))).
  { intros s1 w l lg (_ & H2 & H3) Hle Ht.
    split; (apply HQ; [by split_and!|]); (eapply at_most_trans; [exact Hle|by apply (at_most_same 0)|lia]). }
  assert (Hinit : wp (_run_initial_test_suite a) Q s).
  { unfold _run_initial_test_suite. apply wp_bind.
    eapply costs_wp; [apply (costs_run_single_test_suite [] nonneg)|by split_and!|]. intros r s1 H1 Hle.
    assert (Hsame : ∀ r w, trace w = trace (wd s1) → Q r (mkState w (rn s1))).
    { intros r' w Ht. destruct H1 as (Hf & ? & ?). apply HQ; [by split_and!|].
      eapply at_most_trans; [exact Hle|by apply (at_most_same 0)|lia]. }
    destruct r as [res|e]; [|destruct s1; by apply Hsame]. destruct (success res).
    - apply wp_bind, wp_get. cbn beta iota. apply wp_bind, wp_generate_and_save_final_report.
      intros rr w _ Ht _. destruct rr; [apply wp_ret|]; by apply Hsame.
    - apply wp_bind, wp_on_world, wp_parse_failed_tests_from_log. intros l w (_ & Ht & _). cbn beta iota.
      destruct l as [|t l]; [apply wp_ret; by apply Hsame|].
      apply wp_bind, wp_on_runner, wp_bind, wp_on_runner, wp_ret.
      exact (proj2 (Hset s1 w _ _ H1 Hle Ht)). }
  destruct (rerun_failed a) as [[|x p]|]; [done| |done].
  unfold _load_failed_tests_for_rerun. apply wp_bind, wp_on_world, wp_load_failed_tests.
  intros r w (_ & Ht & _).
  assert (Hs : counting [] nonneg s) by by split_and!.
  assert (Hsame : ∀ r, Q r (mkState w (rn s))) by (intros r'; apply HQ; [by split_and!|by apply at_most_same]).
  destruct r as [l|e]; [|done]. destruct l; [by apply wp_ret|]. apply wp_bind, wp_on_runner, wp_ret.
  refine (proj1 (Hset s w _ None Hs _ Ht)). by apply at_most_same.
Qed.

End rounds.

(** A whole run. *)
Lemma run_cost {env : Env} s :
  nonneg [] (serial_attempts_done (rn s)) → (0 ≤ parallel_attempts_done (rn s))%Z →
  let s' := (run a s).2 in
  at_most (c None + csum (failed_tests (rn s')) * (Z.to_nat (attempts_parallel a) + Z.to_nat (attempts_serial a))) s s'.
Proof.
  intros Hn Hp. cbn zeta.
  set (bound (F : list str) := csum F * (Z.to_nat (attempts_parallel a) + Z.to_nat (attempts_serial a))).
  cut (wp (run a) (λ _ s', at_most (c None + bound (failed_tests (rn s'))) s s') s); [done|].
  unfold run. apply wp_bind, wp_initialize_cost; [done..|]. intros r s1 Hs1 Hle1.
  assert (Hmono : ∀ k, at_most (c None + k) s s1) by (intros k; eapply at_most_mono; [|exact Hle1]; lia).
  destruct r as [[]|e]; [|by apply wp_ret|done].
  apply wp_bind. eapply costs_wp; [apply costs_execute_test_retries|exact Hs1|]. intros r s2 Hs2 Hle2.
  assert (Hle : at_most (c None + bound (failed_tests (rn s2))) s s2).
  { destruct Hs2 as (-> & _). by eapply at_most_trans; [exact Hle1|exact Hle2|]. }
  destruct r as [[]|e]; [|by apply wp_ret|done].
  eapply costs_wp; [apply costs_finalize_and_report|exact Hs2|]. intros r' s3 (Hf & _) Hle3.
  destruct Hs2 as (Hf2 & _). rewrite Hf2 in *. rewrite Hf. eapply at_most_trans; [exact Hle|exact Hle3|lia].
Qed.

(** A run that goes on with the retries, since tests are known to have failed. *)
Lemma resumed_cost {env : Env} s :
  failed_tests (rn s) ≠ [] → NoDup (failed_tests (rn s)) →
  nonneg [] (serial_attempts_done (rn s)) → (0 ≤ parallel_attempts_done (rn s))%Z →
  at_most (sum_list_with (λ t, attempts_left s t * c (Some t)) (failed_tests (rn s))) s (run a s).2.
Proof.
  intros Hne Hnd Hn Hp. set (k := sum_list_with _ _).
  cut (wp (run a) (λ _ s', at_most k s s') s); [done|].
  unfold run. apply wp_bind. unfold initialize_run_mode. apply wp_bind, wp_get. cbn beta iota.
  destruct (failed_tests (rn s)) as [|t ts] eqn:Ef; [done|]. apply wp_ret. cbn beta iota. apply wp_bind. unfold wp at 1.
  destruct (round_left (t :: ts) s) as [H1 H2]; [done|by split_and!|]. fold k in H2.
  destruct (execute_test_retries a s) as [[[]|e] s1]; cbn [fst snd] in *; [|by apply wp_ret|done].
  eapply costs_wp; [apply costs_finalize_and_report|exact H1|]. intros r' s2 _ Hle.
  eapply at_most_trans; [exact H2|exact Hle|lia].
Qed.

End costs.

(** The kinds of events that the theorems count: every run, and the runs of one test. *)
Lemma is_run_of_run a k ev : is_run_of a k ev = true → is_run ev = true.
Proof. by destruct ev. Qed.

Definition is_key (k tn : option str) : nat := if decide (key tn = k) then 1 else 0.

Lemma is_run_of_build a k tn skip wd :
  is_run_of a k (EvRun (build_test_command a tn skip (Some wd))) = true → 1 ≤ is_key k tn.
Proof.
  unfold is_run_of, is_key. intros H%bool_decide_eq_true. rewrite named_test_build in H. by rewrite decide_True.
Qed.

(** Each test counts as often as it is listed; the empty name stands for the suite. *)
Lemma csum_key k F : k ≠ Some [] → csum (is_key k) F = times (default [] k) F.
Proof.
  intros Hk. unfold csum, times, is_key. induction F as [|t F IH]; [done|]. cbn [sum_list_with]. rewrite IH, filter_cons.
  destruct k as [k|], t as [|x t]; cbn; repeat case_decide; simplify_eq/=; try done.
Qed.

(** Of distinct tests only the one with the name counts. *)
Lemma sum_is_key k F (f : str → nat) :
  NoDup F → [] ∉ F →
  sum_list_with (λ t, f t * is_key k (Some t)) F =
    match k with Some t => if decide (t ∈ F) then f t else 0 | None => 0 end.
Proof.
  intros Hnd. induction Hnd as [|t F Hnin Hnd IH]; intros He; cbn [sum_list_with].
  { destruct k; [|done]. by rewrite decide_False by apply not_elem_of_nil. }
  apply not_elem_of_cons in He as [Ht He]. rewrite (IH He).
  assert (Hkey : is_key k (Some t) = if decide (k = Some t) then 1 else 0).
  { unfold is_key, key. destruct t; [done|]. cbn [truthy]. repeat case_decide; congruence. }
  rewrite Hkey. destruct k as [t'|]; [|by rewrite decide_False by done; lia].
  destruct (decide (t' = t)) as [->|Hne].
  - rewrite decide_True by done. rewrite decide_False by done. rewrite decide_True by left. lia.
  - rewrite decide_False by congruence. rewrite Nat.mul_0_r. cbn [Nat.add].
    destruct (decide (t' ∈ F)); [by rewrite decide_True by by right|].
    rewrite decide_False; [done|]. by intros [?|?]%elem_of_cons.
Qed.

Lemma csum_one F : csum (λ _, 1) F = length F.
Proof. unfold csum. induction F as [|t F IH]; cbn; [done|by rewrite IH]. Qed.

(** ** Theorem *)

(** C4: however a run ends, it has started the suite at most once and each failed test
    at most as often as parallel and serial attempts are allowed together; a test that
    is listed twice counts twice, no other test is started, and the bounds add up.  (An
    empty name in the list of failed tests would start the suite again.) *)
Theorem run_starts_bounded {env : Env} (a : args) (s : state)
    (Hc : counters_ok s) (Hp : (0 ≤ parallel_attempts_done (rn s))%Z) :
  let s' := (run a s).2 in
  let F := failed_tests (rn s') in
  let allowed := Z.to_nat (attempts_parallel a) + Z.to_nat (attempts_serial a) in
  ∃ evs, trace (wd s') = trace (wd s) ++ evs ∧
    count_runs evs ≤ 1 + length F * allowed ∧
    runs_of a None evs ≤ 1 + times [] F * allowed ∧
    ∀ t, t ≠ [] → runs_of a (Some t) evs ≤ times t F * allowed.
Proof.
  cbn zeta. destruct (run_cost a is_run (λ _, 1) (λ _ H, H) (λ _ _ _ _, le_n 1) s Hc Hp) as (evs & Ht & Hall).
  rewrite csum_one in Hall. exists evs. split; [done|]. split; [exact Hall|].
  assert (Hk : ∀ k, k ≠ Some [] → runs_of a k evs ≤ is_key k None + times (default [] k) (failed_tests (rn (run a s).2)) *
    (Z.to_nat (attempts_parallel a) + Z.to_nat (attempts_serial a))).
  { intros k Hk. destruct (run_cost a (is_run_of a k) (is_key k) (is_run_of_run a k) (is_run_of_build a k) s Hc Hp)
      as (evs' & Ht' & H). rewrite Ht in Ht'. apply app_inv_head in Ht' as <-. by rewrite csum_key in H by done. }
  split; [by apply (Hk None)|]. intros t Hne. apply (Hk (Some t)). by intros [= ->].
Qed.

Lemma run_starts_bounded_witness :
  let env := suite_env ["a"; "b"] (λ t, Ok (1, Some "")%Z) in
  let s' := (run (env := env) default_args (failed_state [])).2 in
  ∃ evs, trace (wd s') = evs ∧ count_runs evs ≤ 7 ∧ runs_of default_args None evs ≤ 1 ∧
    runs_of default_args (Some ("a" : str)) evs ≤ 3 ∧ count_runs (trace (wd s')) = 7 ∧
    runs_of default_args (Some ("a" : str)) (trace (wd s')) = 3.
Proof.
  set (env := suite_env _ _). cbn zeta.
  assert (counters_ok (failed_state [])) as Hc by (intros t k H; done).
  pose proof (run_starts_bounded (env := env) default_args (failed_state []) Hc) as H.
  assert (failed_tests (rn (run (env := env) default_args (failed_state [])).2) = ["a"; "b"]) as Hf
    by (vm_compute; reflexivity).
  cbn zeta in H. rewrite Hf in H. destruct H as (evs & Ht & H1 & H2 & H3); [vm_compute; discriminate|].
  exists evs. split; [exact Ht|]. split; [exact H1|]. split; [exact H2|].
  split; [apply (H3 ("a" : str)); discriminate|]. split; vm_compute; reflexivity.
Defined.
