(* ===== verification/Resume.v ===== *)
(** Resuming a run: what [main] of scripts/auto-retry-tests.py does with
    [--resume], from the state file to the retries; and when it refuses. *)

From S2P Require Import Prelude PyStr PyFloat PyDict PyTime Json World RuntimeHistory TestModel.
From S2P Require Import StateManager TestExecutor ReportGenerator Runner Retries Strategy RunCost.

(** ** State files *)

Section documents.
Context {env : Env}.

(** The document in a file, if there is one. *)
Definition document (f : option file) : option json :=
  match f with
  | Some (FJson j) => Some j
  | Some (FText t) => match env_json_loads t with Ok j => Some j | Raise _ => None end
  | _ => None
  end.

Lemma wp_safe_load_document path Q w :
  (∀ j w', same_but_clock w w' → j = JNull ∨ document (fs w !! path) = Some j → Q (Ok j) w') →
  wp (safe_json_operation "load" path JNull) Q w.
Proof.
  intros H. unfold wp, safe_json_operation, safe_file_operation, read_json, open_read, catch, bind, tick.
  rewrite decide_True by done.
  assert (Hw : ∀ w', w' = mkWorld (fs w) (S (clock w)) (trace w) → same_but_clock w w').
  { intros w' ->. unfold same_but_clock. cbn. auto with lia. }
  destruct (env_open_fault (clock w) path) as [e|]; cbn.
  - destruct e; cbn; rewrite ?decide_True by done; apply H; auto.
  - destruct (fs w !! path) as [[t|j|]|] eqn:Ef; cbn; rewrite ?decide_True by done.
    + destruct (env_json_loads t) as [j|e] eqn:El; [apply H; [by apply Hw|right; cbn; by rewrite El]|].
      destruct e; cbn; rewrite ?decide_True by done; apply H; auto.
    + apply H; [by apply Hw|by right].
    + apply H; auto.
    + apply H; auto.
Qed.

End documents.

(** ** Programs that only touch the runner *)

Definition indoors {A} (m : M state A) : Prop := ∀ s, wd (m s).2 = wd s.

Lemma indoors_ret {A} (x : A) : indoors (ret x).
Proof. by intros s. Qed.

Lemma indoors_lift {A} (r : result A) : indoors (lift r).
Proof. by intros s. Qed.

Lemma indoors_on_runner f : indoors (on_runner f).
Proof. by intros s. Qed.

Lemma indoors_bind {A B} (m : M state A) (k : A → M state B) :
  indoors m → (∀ x, indoors (k x)) → indoors (bind m k).
Proof.
  intros Hm Hk s. specialize (Hm s). unfold bind. destruct (m s) as [[x|e] s']; [|done].
  rewrite <- Hm. apply Hk.
Qed.

#[local] Hint Resolve indoors_ret indoors_lift indoors_on_runner : dev.

Ltac indoors := repeat first [solve [auto with dev] | apply indoors_bind; [|intros ?]].

Lemma indoors_restore_summaries l : indoors (restore_summaries l).
Proof. induction l as [|[n j] l IH]; cbn [restore_summaries]; [apply indoors_ret|]. indoors; apply IH. Qed.

Lemma indoors_restore_state j : indoors (restore_state j).
Proof. unfold restore_state. indoors. apply indoors_restore_summaries. Qed.

(** ** What the checks of [load_state] find *)

Lemma required_dmem {A} (dec : json → result A) k d x : required dec k d = Ok x → dmem k d = true.
Proof. unfold required. destruct (dget k d) eqn:E; [|done]. intros _. apply dmem_true, dget_is_Some. by eexists. Qed.

Lemma field_Ok k d j : field k d = Ok j → dget k d = Some j ∧ dmem k d = true.
Proof.
  unfold field. destruct (dget k d) eqn:E; [|done]. intros [= ->]. split; [done|]. apply dmem_true, dget_is_Some. by eexists.
Qed.

Lemma result_map_Ok {A B} (f : A → result B) (bad : A → bool) l ys :
  (∀ x y, f x = Ok y → bad x = false) → result_map f l = Ok ys → existsb bad l = false.
Proof.
  intros Hf. revert ys. induction l as [|x l IH]; intros ys H; [done|]. cbn [result_map] in H. bind_inv H.
  cbn [existsb]. by erewrite Hf, IH.
Qed.

Lemma result_not_rejected j r : result_of_json j = Ok r → rejected_result j = false.
Proof.
  unfold result_of_json. destruct j as [| | | | | |d]; try done. cbn [as_obj result_bind].
  destruct (forallb _ _) eqn:E; [|done]. intros H. bind_inv H.
  cbn [rejected_result]. rewrite E. cbn [forallb andb negb].
  by repeat (erewrite required_dmem by eassumption).
Qed.

Lemma results_not_rejected j l rs :
  iter_json j = Ok l → result_map result_of_json l = Ok rs → rejected_results j = false.
Proof. unfold rejected_results. intros ->. apply result_map_Ok, result_not_rejected. Qed.

Lemma summary_not_rejected j sm : summary_of_json j = Ok sm → rejected_summary j = false.
Proof.
  unfold summary_of_json. destruct j as [| | | | | |d]; try done. cbn [as_obj result_bind].
  intros H. bind_inv H. cbn [rejected_summary forallb].
  repeat match goal with Hf : field _ _ = Ok _ |- _ => apply field_Ok in Hf as [? ?] end.
  unfold rejected_field. repeat match goal with Hg : dget _ _ = Some _ |- _ => rewrite Hg; clear Hg end.
  repeat match goal with Hg : dmem _ _ = true |- _ => rewrite Hg; clear Hg end.
  erewrite result_not_rejected by eassumption. by erewrite results_not_rejected by eassumption.
Qed.

Lemma wp_restore_summaries_checked l s :
  wp (restore_summaries l) (λ r _, r = Ok tt → existsb rejected_summary (dvalues l) = false) s.
Proof.
  revert s. induction l as [|[n j] l IH]; intros s; cbn [restore_summaries]; [by apply wp_ret|].
  apply wp_bind, wp_lift. destruct (summary_of_json j) as [sm|] eqn:E; [|done].
  apply wp_bind, wp_on_runner. eapply wp_mono; [apply IH|]. cbn. intros r _ Hl Hr.
  rewrite (summary_not_rejected _ _ E). by apply Hl.
Qed.

(** What was restored was not rejected. *)
Lemma restored_not_rejected j s : wp (restore_state j) (λ r _, r = Ok tt → rejected j = false) s.
Proof.
  unfold restore_state. destruct j as [| | | | | |d]; try by apply wp_bind, wp_lift.
  apply wp_bind, wp_lift. cbn [as_obj]. unfold rejected.
  apply wp_bind, wp_lift. destruct (field "start_time" d) as [jt|] eqn:Et; [|done]. cbn [result_bind].
  destruct (read_start_time jt) eqn:Ert; [|done]. apply wp_bind, wp_on_runner.
  apply wp_bind, wp_lift. destruct (field "failed_tests" d) as [jf|] eqn:Ef; [|done]. cbn [result_bind].
  destruct (decode_json jf) as [fl|] eqn:Erf; [|done]. apply wp_bind, wp_on_runner.
  apply wp_bind, wp_lift. destruct (field "parallel_attempts_done" d) as [jp|] eqn:Ep; [|done]. cbn [result_bind].
  destruct (as_int jp); [|done]. apply wp_bind, wp_on_runner.
  apply wp_bind, wp_lift. destruct (field "serial_attempts_done" d) as [js|] eqn:Es; [|done]. cbn [result_bind].
  destruct (decode_dict js); [|done]. apply wp_bind, wp_on_runner.
  apply wp_bind, wp_lift. destruct (optional _ _ _ _); [|done]. apply wp_bind, wp_on_runner.
  apply wp_bind, wp_lift. destruct (field "test_summaries" d) as [jsm|] eqn:Esm; [|done]. cbn [result_bind].
  destruct (items jsm) as [sums|] eqn:Ei; [|done]. apply wp_bind.
  eapply wp_mono; [apply wp_restore_summaries_checked|]. intros [[]|] s1 Hsums; [|done].
  apply wp_bind, wp_lift. destruct (field "all_results" d) as [jr|] eqn:Er; [|done]. cbn [result_bind].
  destruct (iter_json jr) as [l|] eqn:El; [|done]. cbn [result_bind].
  destruct (result_map _ l) eqn:Em; [|done]. apply wp_on_runner. intros _.
  apply field_Ok in Et as [Et _], Ef as [Ef _], Ep as [_ Ep], Es as [_ Es], Esm as [Esm _], Er as [Er _].
  unfold rejected_field. rewrite Et, Ef, Esm, Er. cbn [forallb]. rewrite Ep, Es.
  rewrite (results_not_rejected _ _ _ El Em).
  destruct jt; try done. destruct jf; try done. destruct jsm; try done. injection Ei as ->. by rewrite Hsums.
Qed.

(** ** Constructing a runner *)

Section construct.
Context {env : Env}.

(** The loop over the loaded entries adds to the histories only. *)
Lemma load_history_entries_frame l n s :
  let s' := (load_history_entries l n s).2 in
  wd s' = wd s ∧ ∃ hs, rn s' = set_runtime_history hs (rn s).
Proof.
  revert n s. induction l as [|[t data] l IH]; intros n s; cbn [load_history_entries].
  { split; [done|]. exists (runtime_history (rn s)). by destruct s as [w []]. }
  unfold bind at 1, lift. destruct (load_history_entry data) as [[h|]|e].
  - unfold bind, on_runner, modify. set (s1 := mkState _ _).
    destruct (IH (S n) s1) as (Hw & hs & Hr). split; [by rewrite Hw|]. exists hs. by rewrite Hr.
  - apply IH.
  - split; [done|]. exists (runtime_history (rn s)). by destruct s as [w []].
Qed.

(** What a runner is like that has been constructed, and what has happened. *)
Definition constructed (dir : str) (w : world) (s : state) : Prop :=
  trace (wd s) = trace w ∧ (∀ p, p ≠ runtime_file dir → fs (wd s) !! p = fs w !! p) ∧
  ∃ t hs, rn s = set_runtime_history hs (init_runner t).

Lemma wp_load_runtime_history dir t Q w0 w :
  trace w = trace w0 → fs w = fs w0 →
  (∀ r s', constructed dir w0 s' → Q r s') →
  wp (load_runtime_history dir) Q (mkState w (init_runner t)).
Proof.
  intros Ht Hf HQ. unfold load_runtime_history. apply wp_bind, wp_on_world, wp_safe_load.
  intros j w1 (Hf1 & Ht1 & _). cbn [rn wd] in *. cbn beta iota.
  assert (Hbase : ∀ s', wd s' = w1 → (∃ hs, rn s' = set_runtime_history hs (init_runner t)) →
    constructed dir w0 s').
  { intros s' Hw [hs Hr]. split_and!; [congruence| |by exists t, hs]. intros p _. by rewrite Hw, Hf1, Hf. }
  assert (Hinit : ∃ hs, init_runner t = set_runtime_history hs (init_runner t)) by by exists [].
  destruct (json_truthy j); [|by apply wp_ret, HQ, Hbase].
  apply wp_bind, wp_lift. destruct (items j) as [d|e]; cbn beta iota; [|by apply HQ, Hbase].
  apply wp_bind. unfold wp at 1.
  pose proof (load_history_entries_frame d 0 (mkState w1 (init_runner t))) as (Hw & hs & Hr).
  destruct (load_history_entries d 0 (mkState w1 (init_runner t))) as [[k|e] s2]; cbn [fst snd wd rn] in *.
  2: { apply HQ, Hbase; [done|by exists hs]. }
  destruct (decide (0 < k)); [|apply wp_ret, HQ, Hbase; [done|by exists hs]].
  apply wp_bind, wp_save_runtime_history. intros r w3 _ Ht3 _ Hf3.
  assert (constructed dir w0 (mkState w3 (rn s2))) as Hcon.
  { split_and!; cbn; [congruence| |by exists t, hs]. intros p Hp. by rewrite Hf3, Hw, Hf1, Hf. }
  destruct r; [apply wp_ret|]; by apply HQ.
Qed.

Lemma wp_mkdir path Q w : (∀ r w', same_but_clock w w' → Q r w') → wp (mkdir path) Q w.
Proof.
  intros H. unfold mkdir. apply wp_bind, wp_tick. cbn beta iota.
  destruct (env_mkdir_fault _ _); [apply wp_raise|apply wp_ret]; apply H;
    unfold same_but_clock; cbn; auto with lia.
Qed.

(** Constructing starts nothing and writes at most the file of the histories. *)
Lemma construct_frame a w s : construct a w = (Ok tt, s) → constructed (output_dir a) w s.
Proof.
  intros Hcon. unfold construct in Hcon. match type of Hcon with ?m ?s0 = _ =>
    cut (wp m (λ r s', r = Ok tt → constructed (output_dir a) w s') s0);
      [unfold wp; rewrite Hcon; auto|] end.
  apply wp_bind, wp_on_world. unfold now. apply wp_bind, wp_tick. cbn beta iota. apply wp_ret. cbn beta iota.
  apply wp_bind, wp_on_runner. cbn [wd rn].
  apply wp_bind, wp_on_world, wp_mkdir. intros [[]|e] w1 (Hf1 & Ht1 & _); [|done]. cbn beta iota.
  apply wp_bind, wp_on_world, wp_mkdir. intros [[]|e] w2 (Hf2 & Ht2 & _); [|done]. cbn beta iota.
  cbn in *. eapply (wp_load_runtime_history _ _ _ w); [by rewrite Ht2, Ht1|by rewrite Hf2, Hf1|auto].
Qed.

End construct.

(** ** Theorems *)

(** C17: without a usable state file a resumed run does nothing: when the file is
    missing, cannot be read, holds no JSON, or a document that is empty or that
    [load_state] rejects, the program ends with exit code 1 (or with the exception that
    constructing the runner raised), has started no command, and has left every file
    alone, except that loading the runtime histories may write them back.  A document
    is rejected if it is no object, or lacks one of the keys that are read, or has a
    start time that is no string, failed tests without a length, or summaries or results
    that are not made of objects with exactly the arguments of the two classes.  Values
    that are only stored may have any type.  Asked to resume and to rerun at once, the
    program does not even construct a runner. *)
Theorem main_refuses {env : Env} (a : args) (w : world) (Hresume : truthy (resume a) = true) :
  (truthy (rerun_failed a) = true → main a w = (Ok 1%Z, w)) ∧
  (truthy (rerun_failed a) = false →
   let path := path_of (default [] (resume a)) in
   path ≠ runtime_file (output_dir a) →
   (∀ j, document (fs w !! path) = Some j → json_truthy j = false ∨ rejected j = true) →
   match construct a w with
   | (Raise e, s) => main a w = (Raise e, wd s)
   | (Ok _, _) => ∃ w', main a w = (Ok 1%Z, w') ∧ trace w' = trace w ∧
       ∀ p, p ≠ runtime_file (output_dir a) → fs w' !! p = fs w !! p
   end).
Proof.
  split; [intros Hr; unfold main; by rewrite Hresume, Hr|].
  intros Hr path Hne Hdoc. unfold main. rewrite Hresume, Hr. cbn [andb].
  destruct (construct a w) as [[[]|e] s] eqn:Hcon; [|done].
  apply construct_frame in Hcon as (Ht & Hf & _). fold path. unfold bind at 1, get.
  destruct (bool_decide _); [|by exists (wd s)].
  cut (wp (load_state path) (λ r s', r = Ok false ∧ wd s' = wd s' ∧ same_but_clock (wd s) (wd s')) s).
  { unfold wp, bind. destruct (load_state path s) as [r s1]. cbn [fst snd].
    intros (-> & _ & (Hf1 & Ht1 & _)). exists (wd s1). split_and!; [done|congruence|].
    intros p Hp. rewrite Hf1. by apply Hf. }
  unfold load_state. apply wp_bind, wp_on_world, wp_safe_load_document.
  rewrite Hf by done. intros j w1 Hw1 Hj. cbn beta iota.
  destruct (json_truthy j) eqn:Htruthy; [|by apply wp_ret].
  destruct Hj as [->|Hj]; [done|]. destruct (Hdoc j Hj) as [?|Hrej]; [congruence|].
  apply wp_catch, wp_bind. unfold wp at 1.
  pose proof (indoors_restore_state j (mkState w1 (rn s))) as Hin.
  pose proof (restored_not_rejected j (mkState w1 (rn s))) as Hres. unfold wp in Hres.
  destruct (restore_state j (mkState w1 (rn s))) as [[[]|e] s2]; cbn [fst snd wd] in *.
  - specialize (Hres eq_refl). congruence.
  - rewrite decide_False by (intros [_ ?]; congruence). apply wp_ret. split_and!; [done..|]. by rewrite Hin.
Qed.

(** One file holds a document that is no object, the other lacks a key and has a number
    that the program would take as it is. *)
Lemma main_refuses_witness :
  let a := mkArgs 5 None [] 1 2 false "test-results" (Some "old.json") None in
  let doc := JObj [("start_time", JStr "2026-03-16T09:05:07"); ("failed_tests", JList [JInt 1]);
                   ("parallel_attempts_done", JFloat (float_of_Z 1)); ("test_summaries", JObj []);
                   ("all_results", JList [])] in
  Forall (λ j,
    let w := mkWorld {["old.json" := FJson j]} 0 [] in
    (main (env := quiet_env) a w).1 = Ok 1%Z ∧
    ∃ w', main (env := quiet_env) a w = (Ok 1%Z, w') ∧ trace w' = trace w ∧
      ∀ p, p ≠ runtime_file "test-results" → fs w' !! p = fs w !! p) [JStr "no state"; doc].
Proof.
  intros a doc.
  assert (truthy (resume a) = true) as Hres by reflexivity.
  assert (truthy (rerun_failed a) = false) as Hrr by reflexivity.
  assert ("old.json" ≠ runtime_file (output_dir a)) as Hp by (vm_compute; discriminate).
  repeat apply Forall_cons_2; [| |apply Forall_nil_2]; (split; [vm_compute; reflexivity|]).
  - set (w := mkWorld _ _ _). destruct (main_refuses (env := quiet_env) a w Hres) as [_ H].
    assert (∀ j, document (env := quiet_env) (fs w !! "old.json") = Some j → json_truthy j = false ∨ rejected j = true)
      as Hj by (intros j [= <-]; right; reflexivity).
    specialize (H Hrr Hp Hj). destruct (construct (env := quiet_env) a w) as [[u|e] s] eqn:E; [exact H|].
    exfalso. vm_compute in E. discriminate.
  - set (w := mkWorld _ _ _). destruct (main_refuses (env := quiet_env) a w Hres) as [_ H].
    assert (∀ j, document (env := quiet_env) (fs w !! "old.json") = Some j → json_truthy j = false ∨ rejected j = true)
      as Hj by (intros j [= <-]; right; vm_compute; reflexivity).
    specialize (H Hrr Hp Hj). destruct (construct (env := quiet_env) a w) as [[u|e] s] eqn:E; [exact H|].
    exfalso. vm_compute in E. discriminate.
Defined.


