(* ===== verification/Argparse.v ===== *)
(** The parts of Python's [argparse] and of [int] that the two programs' command
    lines share: telling options from values, abbreviated options, and reading
    decimal numbers.  [RunTestsArgs] and [RetryArgs] give the options of the two
    parsers. *)

From Stdlib Require Import DecimalZ DecimalPos.
From S2P Require Import Prelude PyStr PyDict.

(** ** Values *)

(** [s.split(c, maxsplit=1)] when [c] occurs. *)
Fixpoint split_once (c : N) (s : str) : option (str * str) :=
  match s with
  | [] => None
  | x :: s' =>
      if (x =? c)%N then Some ([], s')
      else match split_once c s' with
           | Some (l, r) => Some (x :: l, r)
           | None => None
           end
  end.

Definition is_digit (c : N) : bool := (48 <=? c)%N && (c <=? 57)%N.

(** Digits, single underscores allowed between them; [last_digit] says whether the
    previous character was a digit. *)
Fixpoint read_decimal (acc : Z) (last_digit : bool) (s : str) : option Z :=
  match s with
  | [] => if last_digit then Some acc else None
  | c :: s' =>
      if is_digit c then read_decimal (10 * acc + (Z.of_N c - 48)) true s'
      else if (c =? 95)%N && last_digit then read_decimal acc false s'
      else None
  end.

Fixpoint lstrip_space (s : str) : str :=
  match s with
  | c :: s' => if is_space c then lstrip_space s' else s
  | [] => []
  end.

(** [int(s)] for decimal numbers in ASCII digits; [None] is a [ValueError]. *)
Definition read_int (s : str) : option Z :=
  let t := reverse (lstrip_space (reverse (lstrip_space s))) in
  match t with
  | c :: t' =>
      if (c =? 45)%N then Z.opp <$> read_decimal 0 false t'
      else if (c =? 43)%N then read_decimal 0 false t'
      else read_decimal 0 false t
  | [] => None
  end.

(** ** Reading a command line *)

(** What [argparse] takes an argument for. *)
Inductive token {O : Type} :=
  | TValue
  | TOpt (o : O) (explicit : option str)
  | TAmbiguous
  | TUnknown.
Arguments token : clear implicits.

(** What an option takes: nothing and ends the program ([help], [version]), nothing
    ([store_true]), one value ([store], [append]), or any number ([nargs="*"]). *)
Inductive kind := KExit | KFlag | KValue | KValues.

#[global] Instance kind_eq_dec : EqDecision kind.
Proof. solve_decision. Defined.

(** How reading a command line ends: with the options, or with [SystemExit]. *)
Inductive parsed {P : Type} :=
  | Parsed (opts : P)
  | Exits (code : Z).
Arguments parsed : clear implicits.

#[global] Instance parsed_eq_dec {P} `{EqDecision P} : EqDecision (parsed P).
Proof. solve_decision. Defined.

(** A parser without positional arguments: its options [O] and its namespace [P]. *)
Class Parser (O P : Type) := {
  strings : list (str * O);
  help : O;
  kind_of : O → kind;
  set_flag : O → P → P;
  (** [None] when the value's parser rejects it. *)
  set_value : O → str → P → option P;
  (** Forgets the values of an option with [nargs="*"]. *)
  no_values : O → P → P;
}.

Section parser.
Context {O P : Type} {parser : Parser O P}.

(** All options are long ones, but for [-h]. *)
Definition long_options : bool :=
  forallb (λ p : str * O, startswith "--" p.1 || bool_decide (p.1 = "-h")) strings.

Definition exact_option (s : str) : option O := dget s strings.

(** A number that may start with a minus sign: [-\d+] or [-\d*\.\d+]. *)
Definition negative_number (s : str) : bool :=
  match s with
  | c :: s' =>
      (c =? 45)%N &&
      match split_once 46 s' with
      | Some (l, r) => forallb is_digit l && forallb is_digit r && bool_decide (r ≠ [])
      | None => forallb is_digit s' && bool_decide (s' ≠ [])
      end
  | [] => false
  end.

(** The options an abbreviation may stand for. *)
Definition abbreviated (s : str) : list (O * option str) :=
  let '(prefix, explicit) :=
    match split_once 61 s with Some (l, r) => (l, Some r) | None => (s, None) end in
  if startswith "--" s then
    (λ p, (p.2, explicit)) <$> filter (λ p : str * O, startswith prefix p.1 = true) strings
  else if startswith "-h" s then [(help, Some (drop 2 s))]
  else [].

Definition classify_token (s : str) : token O :=
  match s with
  | [] => TValue
  | c :: rest =>
      if negb (c =? 45)%N then TValue
      else match exact_option s with
      | Some o => TOpt o None
      | None =>
          if decide (rest = []) then TValue
          else match (match split_once 61 s with
                      | Some (l, r) => match exact_option l with
                                       | Some o => Some (o, Some r)
                                       | None => None
                                       end
                      | None => None
                      end) with
          | Some (o, e) => TOpt o e
          | None =>
              match abbreviated s with
              | [(o, e)] => TOpt o e
              | _ :: _ :: _ => TAmbiguous
              | [] => if negative_number s || contains " " s then TValue else TUnknown
              end
          end
      end
  end.

Definition is_value (s : str) : bool :=
  match classify_token s with TValue => true | _ => false end.

(** Arguments from left to right; [collecting] is the option with [nargs="*"] that
    values belong to, and [extras] says that something was not recognised, which is
    an error at the end. *)
Fixpoint parse_loop (argv : list str) (collecting : option O) (extras : bool) (p : P) : parsed P :=
  match argv with
  | [] => if extras then Exits 2 else Parsed p
  | s :: argv' =>
      if decide (s = "--") then Exits 2
      else match classify_token s with
      | TValue =>
          match collecting with
          | Some o =>
              match set_value o s p with
              | Some p' => parse_loop argv' collecting extras p'
              | None => Exits 2
              end
          | None => parse_loop argv' None true p
          end
      | TUnknown => parse_loop argv' None true p
      | TAmbiguous => Exits 2
      | TOpt o explicit =>
          match kind_of o, explicit with
          | KExit, None => Exits 0
          | KExit, Some _ => Exits 2
          | KFlag, None => parse_loop argv' None extras (set_flag o p)
          | KFlag, Some _ => Exits 2
          | KValues, None => parse_loop argv' (Some o) extras (no_values o p)
          | KValues, Some v =>
              match set_value o v (no_values o p) with
              | Some p' => parse_loop argv' None extras p'
              | None => Exits 2
              end
          | KValue, Some v =>
              match set_value o v p with
              | Some p' => parse_loop argv' None extras p'
              | None => Exits 2
              end
          | KValue, None =>
              match argv' with
              | v :: argv'' =>
                  if is_value v && bool_decide (v ≠ "--") then
                    match set_value o v p with
                    | Some p' => parse_loop argv'' None extras p'
                    | None => Exits 2
                    end
                  else Exits 2
              | [] => Exits 2
              end
          end
      end
  end.

End parser.

(** ** Lemmas *)

Lemma split_once_app c l r : c ∉ l → split_once c (l ++ c :: r) = Some (l, r).
Proof.
  induction l as [|x l IH]; simpl; [by rewrite N.eqb_refl|].
  intros [Hx Hl]%not_elem_of_cons. destruct (x =? c)%N eqn:E.
  - apply N.eqb_eq in E. by subst.
  - by rewrite IH.
Qed.

Lemma split_once_sound c s l r : split_once c s = Some (l, r) → s = l ++ c :: r ∧ c ∉ l.
Proof.
  revert l. induction s as [|x s IH]; intros l; simpl; [done|].
  destruct (x =? c)%N eqn:E.
  - apply N.eqb_eq in E as ->. intros [= <- <-]. split; [done|apply not_elem_of_nil].
  - apply N.eqb_neq in E. destruct (split_once c s) as [[l' r']|]; [|done].
    intros [= <- <-]. destruct (IH l' eq_refl) as [-> Hn]. split; [done|].
    apply not_elem_of_cons. auto.
Qed.

Lemma split_once_None c s : c ∉ s → split_once c s = None.
Proof.
  intros Hc. destruct (split_once c s) as [[l r]|] eqn:E; [|done].
  apply split_once_sound in E as [-> _]. destruct Hc. set_solver.
Qed.

(** Reading back a printed number. *)
Lemma read_decimal_acc d acc :
  read_decimal (Zpos acc) true (uint_to_str d) = Some (Zpos (Pos.of_uint_acc d acc)).
Proof.
  revert acc. induction d; intros acc; cbn [uint_to_str read_decimal Pos.of_uint_acc]; [done|..];
    match goal with |- context [is_digit ?c] => change (is_digit c) with true end; cbv iota;
    match goal with |- read_decimal ?z _ _ = Some (Zpos (Pos.of_uint_acc _ _)) =>
      rewrite <-IHd; f_equal; lia end.
Qed.

Lemma read_decimal_uint b d :
  d ≠ Decimal.Nil ∨ b = true → read_decimal 0 b (uint_to_str d) = Some (Z.of_N (Pos.of_uint d)).
Proof.
  revert b. induction d; intros b Hd; cbn [uint_to_str read_decimal]; [by destruct Hd as [?|Hb]; [|rewrite Hb]|..];
    match goal with |- context [is_digit ?c] => change (is_digit c) with true end; cbv iota.
  { rewrite IHd by by right. done. }
  all: match goal with |- read_decimal ?z _ _ = _ => let z' := eval vm_compute in z in change z with z' end;
    apply read_decimal_acc.
Qed.

Lemma str_of_Z_no_space z c : c ∈ str_of_Z z → is_space c = false.
Proof. intros [->|Hc]%str_of_Z_char; [done|]. unfold is_space. lia. Qed.

Lemma lstrip_space_id s : Forall (λ c, is_space c = false) s → lstrip_space s = s.
Proof. intros H. destruct H as [|c s Hc _]; [done|]. simpl. by rewrite Hc. Qed.

Lemma read_int_str_of_Z z : read_int (str_of_Z z) = Some z.
Proof.
  unfold read_int.
  assert (HF : Forall (λ c, is_space c = false) (str_of_Z z)).
  { apply Forall_forall. apply str_of_Z_no_space. }
  rewrite (lstrip_space_id (str_of_Z z)), lstrip_space_id, reverse_involutive by by rewrite ?Forall_reverse.
  clear HF. rewrite <-(DecimalZ.of_to z) at 2. unfold str_of_Z.
  destruct (Z.to_int z) as [d|d] eqn:E.
  - assert (Hd : d ≠ Decimal.Nil).
    { intros ->. destruct z; simplify_eq/=. by apply (DecimalPos.Unsigned.to_uint_nonnil p). }
    destruct d; [done|..]; apply (read_decimal_uint false); by left.
  - assert (Hd : d ≠ Decimal.Nil).
    { intros ->. destruct z; simplify_eq/=. by apply (DecimalPos.Unsigned.to_uint_nonnil p). }
    simpl. rewrite read_decimal_uint by by left. done.
Qed.

(** ** Parsers *)

Section parser_lemmas.
Context {O P : Type} {parser : Parser O P}.

(** One option with its value, and one flag. *)
Lemma parse_loop_value s o v rest c e p p' :
  classify_token s = TOpt o None → s ≠ "--" → kind_of o = KValue →
  is_value v = true → v ≠ "--" → set_value o v p = Some p' →
  parse_loop (s :: v :: rest) c e p = parse_loop rest None e p'.
Proof.
  intros Hc Hs Hk Hval Hdash Hset. cbn [parse_loop].
  by rewrite decide_False, Hc, Hk, Hval, bool_decide_eq_true_2, Hset by done.
Qed.

Lemma parse_loop_flag s o rest c e p :
  classify_token s = TOpt o None → s ≠ "--" → kind_of o = KFlag →
  parse_loop (s :: rest) c e p = parse_loop rest None e (set_flag o p).
Proof. intros Hc Hs Hf. cbn [parse_loop]. by rewrite decide_False, Hc, Hf by done. Qed.

(** What does not start with a dash is a value, and so is a number. *)
Lemma is_value_no_dash s : head s ≠ Some 45%N → is_value s = true ∧ s ≠ "--".
Proof.
  intros H. split; [|by intros ->]. unfold is_value, classify_token. destruct s as [|c s]; [done|].
  destruct (c =? 45)%N eqn:E; [|done]. apply N.eqb_eq in E as ->. done.
Qed.

Lemma exact_option_None c s :
  long_options = true → c ≠ 45%N → c ≠ 104%N → exact_option (45%N :: c :: s) = None.
Proof.
  unfold long_options, exact_option. intros Hlong Hdash Hh. induction strings as [|[k o] l IH]; [done|].
  apply andb_prop in Hlong as [Hk Hl]. cbn [dget]. rewrite decide_False; [by apply IH|].
  cbn [fst] in Hk. intros ->. apply orb_prop in Hk as [Hk|Hk].
  - apply startswith_spec in Hk as [x Hx]. by injection Hx as Hx _.
  - apply bool_decide_eq_true_1 in Hk. by injection Hk as Hx _.
Qed.

Lemma negative_number_spec s :
  negative_number s = true → ∃ t, s = 45%N :: t ∧ t ≠ [] ∧ Forall (λ c, (46 <= c <= 57)%N) t.
Proof.
  assert (Hdig : ∀ l, forallb is_digit l = true → Forall (λ c, (46 <= c <= 57)%N) l).
  { intros l Hl. apply Forall_forall. intros c Hc%list_elem_of_In.
    rewrite forallb_forall in Hl. apply Hl in Hc. unfold is_digit in Hc. lia. }
  unfold negative_number. destruct s as [|c t]; [done|]. intros [Hc Ht]%andb_prop.
  apply N.eqb_eq in Hc as ->. exists t. split; [done|].
  destruct (split_once 46 t) as [[l r]|] eqn:E.
  - apply split_once_sound in E as [-> _]. apply andb_prop in Ht as [[Hl Hr]%andb_prop _].
    split; [by destruct l|]. apply Forall_app. split; [auto|]. constructor; [lia|auto].
  - apply andb_prop in Ht as [Ht Hne]. apply bool_decide_eq_true_1 in Hne. auto.
Qed.

Lemma negative_number_value s : long_options = true → negative_number s = true → is_value s = true.
Proof.
  intros Hlong Hneg. pose proof (negative_number_spec _ Hneg) as (t & -> & Hne & HF).
  destruct t as [|c t]; [done|]. pose proof (Forall_inv HF) as Hc. cbn beta in Hc.
  assert (Hsplit : split_once 61 (45%N :: c :: t) = None).
  { apply split_once_None. apply not_elem_of_cons. split; [done|]. intros Hin.
    rewrite Forall_forall in HF. apply HF in Hin. lia. }
  unfold is_value, classify_token.
  assert (abbreviated (45%N :: c :: t) = []) as Habb.
  { unfold abbreviated. rewrite Hsplit.
    assert (Hstart : ∀ x, (57 < x ∨ x < 46)%N → startswith [45%N; x] (45%N :: c :: t) = false).
    { intros x Hx. cbn. destruct (x =? c)%N eqn:E; [lia|done]. }
    assert (startswith "--" (45%N :: c :: t) = false) as -> by (apply (Hstart 45%N); lia).
    by assert (startswith "-h" (45%N :: c :: t) = false) as -> by (apply (Hstart 104%N); lia). }
  rewrite N.eqb_refl. cbn [negb].
  rewrite exact_option_None, decide_False, Hsplit, Habb, Hneg by (done || lia). done.
Qed.

(** What a value looks like, whatever the options. *)
Lemma is_value_cases s :
  is_value s = true → head s ≠ Some 45%N ∨ s = "-" ∨ negative_number s = true ∨ contains " " s = true.
Proof.
  unfold is_value, classify_token. destruct s as [|c s]; [by left|].
  destruct (c =? 45)%N eqn:E; [apply N.eqb_eq in E as ->|intros _; left; cbn; intros [= ->]; done].
  cbn [negb]. destruct (exact_option _); [done|]. destruct (decide (s = [])) as [->|]; [by right; left|].
  repeat case_match; simplify_eq; try done; intros _; right; right; by apply orb_prop.
Qed.

Lemma dash_value : long_options = true → is_value "-" = true.
Proof.
  intros Hlong. unfold is_value, classify_token. cbn [N.eqb Pos.eqb negb].
  assert (exact_option "-" = None) as ->; [|done].
  unfold long_options, exact_option in *. induction strings as [|[k o] l IH]; [done|].
  apply andb_prop in Hlong as [Hk Hl]. cbn [dget]. rewrite decide_False; [by apply IH|].
  cbn [fst] in Hk. by intros ->.
Qed.

Lemma digits_value d : long_options = true → d ≠ Decimal.Nil → is_value ("-" ++ uint_to_str d) = true.
Proof.
  intros Hlong Hd. set (s := uint_to_str d).
  assert (HF : Forall (λ c, (48 <= c <= 57)%N) s).
  { apply Forall_forall. intros c. apply uint_to_str_digit. }
  apply negative_number_value; [done|]. change ("-" ++ s) with (45%N :: s). unfold negative_number.
  rewrite (split_once_None 46 s), bool_decide_eq_true_2, andb_true_r.
  - cbn. apply forallb_forall. intros c Hc%list_elem_of_In. rewrite Forall_forall in HF.
    apply HF in Hc. unfold is_digit. lia.
  - by destruct d.
  - intros Hin. rewrite Forall_forall in HF. apply HF in Hin. lia.
Qed.

Lemma is_value_str_of_Z z : long_options = true → is_value (str_of_Z z) = true ∧ str_of_Z z ≠ "--".
Proof.
  intros Hlong. unfold str_of_Z. destruct z as [|p|p]; cbn [Z.to_int].
  - done.
  - apply is_value_no_dash. pose proof (DecimalPos.Unsigned.to_uint_nonnil p).
    by destruct (Pos.to_uint p).
  - pose proof (DecimalPos.Unsigned.to_uint_nonnil p) as Hn. split; [by apply digits_value|].
    by destruct (Pos.to_uint p).
Qed.

(** An argument that ends the program in its own right: [-h], [--help], [--version]. *)
Definition exits_with_0 (s : str) : Prop := ∃ o, classify_token s = TOpt o None ∧ kind_of o = KExit.

(** Once something was not recognised, the only end without an error is such an argument. *)
Lemma parse_loop_extras argv c p :
  Forall (λ s, ¬ exits_with_0 s) argv → parse_loop argv c true p = Exits 2.
Proof.
  remember (length argv) as n eqn:Hn. revert argv c p Hn.
  induction (lt_wf n) as [n _ IH]. intros [|s argv] c p -> HF; [done|].
  apply Forall_cons in HF as [Hs HF].
  assert (Hrec : ∀ l c p, length l < length (s :: argv) → Forall (λ s, ¬ exits_with_0 s) l →
    parse_loop l c true p = Exits 2) by (intros; by eapply IH).
  cbn [parse_loop]. cbn [length] in *.
  repeat first [progress case_match | done | apply Hrec; [cbn [length] in *; lia|]
    | match goal with H : Forall _ (_ :: _) |- _ => apply Forall_cons in H as [? ?] end].
  destruct Hs. by eexists.
Qed.

(** An option given without an equals sign is the beginning of one of the strings. *)
Lemma classify_option s o : classify_token s = TOpt o None → ∃ x, s ++ x ∈ strings.*1.
Proof.
  unfold classify_token. destruct s as [|c s]; [done|]. destruct (negb _); [done|].
  destruct (exact_option (c :: s)) as [o'|] eqn:E.
  { intros _. exists []. rewrite app_nil_r. unfold exact_option in E. apply dget_elem_of in E.
    by apply (list_elem_of_fmap_2 fst) in E. }
  destruct (decide (s = [])); [done|]. unfold abbreviated.
  destruct (split_once 61 (c :: s)) as [[l r]|] eqn:Es.
  - destruct (exact_option l); [done|]. destruct (startswith _ _); [|destruct (startswith _ _); [done|]].
    + destruct (filter _ _) as [|? [|? ?]]; [|done..]. by destruct (_ || _).
    + by destruct (_ || _).
  - destruct (startswith "--" _); [|destruct (startswith _ _); [done|by destruct (_ || _)]].
    destruct (filter _ _) as [|[k o'] [|? ?]] eqn:Ef; [by destruct (_ || _)| |done].
    intros _. assert ((k, o') ∈ filter (λ p : str * O, startswith (c :: s) p.1 = true) strings) as Hin
      by (rewrite Ef; left).
    apply list_elem_of_filter in Hin as [Hp Hin]. apply startswith_spec in Hp as [x Hx]. exists x.
    cbn [fst] in Hx. rewrite <-Hx. by apply (list_elem_of_fmap_2 fst) in Hin.
Qed.

End parser_lemmas.

(** A value of one parser is one of another, unless it has spaces in it. *)
Lemma is_value_transfer {O P O' P'} {p : Parser O P} {p' : Parser O' P'} s :
  long_options (parser := p') = true → contains " " s = false →
  is_value (parser := p) s = true → is_value (parser := p') s = true.
Proof.
  intros Hlong Hsp [H|[->|[H|H]]]%is_value_cases.
  - by apply is_value_no_dash.
  - by apply dash_value.
  - by apply negative_number_value.
  - by rewrite H in Hsp.
Qed.

(** So it does not end the program of the other parser either: the names of its options
    have no spaces. *)
Lemma value_does_not_exit {O P O' P'} {p : Parser O P} {p' : Parser O' P'} s :
  long_options (parser := p') = true → Forall (λ k, contains " " k = false) (strings (Parser := p')).*1 →
  is_value (parser := p) s = true → ¬ exits_with_0 (parser := p') s.
Proof.
  intros Hlong Hnames Hv (o & Ho & _). destruct (contains " " s) eqn:E.
  - apply classify_option in Ho as [x Hx]. rewrite Forall_forall in Hnames. specialize (Hnames _ Hx).
    apply contains_spec in E as (a & b & ->). apply not_true_iff_false in Hnames. destruct Hnames.
    apply contains_spec. exists a, (b ++ x). by rewrite <-!app_assoc.
  - assert (is_value (parser := p') s = true) as Hv' by by apply (is_value_transfer (p := p)).
    unfold is_value in Hv'. by rewrite Ho in Hv'.
Qed.
