(* ===== verification/RetryArgs.v ===== *)
(** The command line of scripts/auto-retry-tests.py: the parser that [main] builds,
    as an instance of [Argparse.Parser], and the way back from arguments to a command
    line. *)

From S2P Require Import Prelude PyStr PyDict PyFloat World RuntimeHistory TestModel Argparse.

(** ** Options *)

Inductive opt :=
  | OHelp | OParallel | OVenv | OExtraArgs | OAttemptsParallel | OAttemptsSerial
  | ODeleteFailedNamespaces | OOutputDir | OResume | ORerunFailed.

#[global] Instance opt_eq_dec : EqDecision opt.
Proof. solve_decision. Defined.

Definition option_strings : list (str * opt) :=
  [("-h", OHelp); ("--help", OHelp); ("--parallel", OParallel); ("--venv", OVenv);
   ("--extra-args", OExtraArgs); ("--attempts-parallel", OAttemptsParallel);
   ("--attempts-serial", OAttemptsSerial); ("--delete-failed-namespaces", ODeleteFailedNamespaces);
   ("--output-dir", OOutputDir); ("--resume", OResume); ("--rerun-failed", ORerunFailed)].

Definition kind_of (o : opt) : kind :=
  match o with
  | OHelp => KExit
  | ODeleteFailedNamespaces => KFlag
  | OExtraArgs => KValues
  | _ => KValue
  end.

(** [store_true] *)
Definition set_flag (o : opt) (a : args) : args :=
  let '(mkArgs p v e ap az d dir r rf) := a in
  match o with
  | ODeleteFailedNamespaces => mkArgs p v e ap az true dir r rf
  | _ => a
  end.

(** Storing a value; [None] when [int] rejects it. *)
Definition set_value (o : opt) (s : str) (a : args) : option args :=
  let '(mkArgs p v e ap az d dir r rf) := a in
  match o with
  | OParallel => (λ n, mkArgs n v e ap az d dir r rf) <$> read_int s
  | OVenv => Some (mkArgs p (Some s) e ap az d dir r rf)
  | OExtraArgs => Some (mkArgs p v (e ++ [s]) ap az d dir r rf)
  | OAttemptsParallel => (λ n, mkArgs p v e n az d dir r rf) <$> read_int s
  | OAttemptsSerial => (λ n, mkArgs p v e ap n d dir r rf) <$> read_int s
  | OOutputDir => Some (mkArgs p v e ap az d s r rf)
  | OResume => Some (mkArgs p v e ap az d dir (Some s) rf)
  | ORerunFailed => Some (mkArgs p v e ap az d dir r (Some s))
  | _ => Some a
  end.

(** An option with [nargs="*"] starts with the empty list each time it is given. *)
Definition no_values (o : opt) (a : args) : args :=
  let '(mkArgs p v e ap az d dir r rf) := a in
  match o with
  | OExtraArgs => mkArgs p v [] ap az d dir r rf
  | _ => a
  end.

#[export] Instance retry_parser : Parser opt args := {|
  Argparse.strings := option_strings;
  Argparse.help := OHelp;
  Argparse.kind_of := kind_of;
  Argparse.set_flag := set_flag;
  Argparse.set_value := set_value;
  Argparse.no_values := no_values;
|}.

Definition parse_args (argv : list str) : parsed args := parse_loop argv None false default_args.

(** The usage line of the program's description. *)
Example parse_usage :
  parse_args ["--parallel"; "4"; "--attempts-serial"; "3"; "--attempts-parallel"; "2"; "--venv"; "./venv"] =
  Parsed (mkArgs 4 (Some ("./venv" : str)) [] 2 3 false "test-results" None None).
Proof. vm_compute. reflexivity. Qed.

Example parse_extra : parse_args ["--extra-args"; "a"; "b"; "--parallel=3"] =
  Parsed (mkArgs 3 None ["a" : str; "b" : str] 1 2 false "test-results" None None).
Proof. vm_compute. reflexivity. Qed.

Example parse_extra_option : parse_args ["--extra-args"; "--skip-release"] = Exits 2.
Proof. vm_compute. reflexivity. Qed.

Example parse_extra_equals : parse_args ["--extra-args=--skip-release"] =
  Parsed (mkArgs 2 None ["--skip-release" : str] 1 2 false "test-results" None None).
Proof. vm_compute. reflexivity. Qed.

Example parse_ambiguous_re : parse_args ["--re"; "x"] = Exits 2.
Proof. vm_compute. reflexivity. Qed.

(** ** The way back *)

Definition print_opt (o : str) (v : option str) : list str :=
  match v with Some s => [o; s] | None => [] end.

(** A command line that asks for [a]. *)
Definition print_args (a : args) : list str :=
  ("--extra-args" :: extra_args a) ++
  ["--parallel"; str_of_Z (parallel a)] ++
  ["--attempts-parallel"; str_of_Z (attempts_parallel a)] ++
  ["--attempts-serial"; str_of_Z (attempts_serial a)] ++
  (if delete_failed_namespaces a then ["--delete-failed-namespaces" : str] else []) ++
  ["--output-dir"; output_dir a] ++
  print_opt "--venv" (venv a) ++ print_opt "--resume" (resume a) ++ print_opt "--rerun-failed" (rerun_failed a).

(** What can be given as an argument of its own. *)
Definition plain (s : str) : Prop := is_value s = true ∧ s ≠ "--".

Definition plain_opt (v : option str) : Prop := match v with Some s => plain s | None => True end.

(** ** Lemmas *)

Lemma plain_number z : plain (str_of_Z z).
Proof. by apply is_value_str_of_Z. Qed.

Lemma collect_values vs rest e a :
  Forall plain vs →
  parse_loop (vs ++ rest) (Some OExtraArgs) e a
  = parse_loop rest (Some OExtraArgs) e (mkArgs (parallel a) (venv a) (extra_args a ++ vs)
      (attempts_parallel a) (attempts_serial a) (delete_failed_namespaces a) (output_dir a)
      (resume a) (rerun_failed a)).
Proof.
  intros H. revert a. induction H as [|s vs [Hs Hd] _ IH]; intros a.
  - rewrite app_nil_r. by destruct a.
  - cbn [app parse_loop]. rewrite decide_False by done. unfold is_value in Hs.
    destruct (classify_token s) eqn:E; try done. destruct a. cbn [Argparse.set_value retry_parser set_value].
    rewrite IH. cbn. by rewrite <- app_assoc.
Qed.

(** An option that may be left out. *)
Lemma parse_print_opt s o v rest c a a' :
  classify_token s = TOpt o None → s ≠ "--" → kind_of o = KValue → plain_opt v →
  (∀ x, v = Some x → set_value o x a = Some a') → (v = None → a = a' ∧ c = None) →
  parse_loop (print_opt s v ++ rest) c false a = parse_loop rest None false a'.
Proof.
  intros Hc Hs Hk Hv Hset Hnone. destruct v as [x|]; cbn [print_opt app].
  - destruct Hv as [Hv Hd]. erewrite parse_loop_value; try done. by apply Hset.
  - by destruct (Hnone eq_refl) as [-> ->].
Qed.

(** Several extra arguments are all plain: an option's text can only be given after
    an equals sign, and then it is the only one. *)
Definition extras_ok (c : option opt) (a : args) : Prop :=
  (∀ o, c = Some o → o = OExtraArgs ∧ Forall plain (extra_args a)) ∧
  (length (extra_args a) ≤ 1 ∨ Forall plain (extra_args a)).

Lemma set_value_extras o s a a' :
  set_value o s a = Some a' → extra_args a' = if decide (o = OExtraArgs) then extra_args a ++ [s] else extra_args a.
Proof.
  destruct a, o; cbn; intros H; try (apply fmap_Some in H as (? & _ & ->)); simplify_eq; done.
Qed.

Lemma parse_loop_extras_ok argv c e a a' :
  extras_ok c a → parse_loop argv c e a = Parsed a' → extras_ok None a'.
Proof.
  remember (length argv) as n eqn:Hn. revert argv c e a Hn.
  induction (lt_wf n) as [n _ IH]. intros [|s argv] c e a -> [Hc Ha].
  { cbn. destruct e; [done|]. intros [= <-]. by split. }
  assert (Hrec : ∀ l c e a, length l < length (s :: argv) → extras_ok c a →
    parse_loop l c e a = Parsed a' → extras_ok None a') by (intros l c' e' a0 ?; by eapply IH).
  clear IH. cbn [parse_loop length] in *. destruct (decide (s = "--")) as [|Hdash]; [done|].
  destruct (classify_token s) as [|o v| |] eqn:Hs; [| |done|apply Hrec; [lia|by split]].
  - destruct c as [o|]; [|apply Hrec; [lia|by split]].
    destruct (Hc o eq_refl) as [-> HF]. destruct (Argparse.set_value _ _ _) as [a1|] eqn:E; [|done].
    apply set_value_extras in E. rewrite decide_True in E by done.
    assert (Forall plain (extra_args a1)).
    { rewrite E. apply Forall_app. split; [done|]. apply Forall_singleton. split; [|done].
      unfold is_value. by rewrite Hs. }
    apply Hrec; [lia|]. split; [|by right]. by intros ? [= <-].
  - clear Hs Hc. assert (Hkeep : ∀ a1 l, length l < S (length argv) → extra_args a1 = extra_args a →
      parse_loop l None e a1 = Parsed a' → extras_ok None a').
    { intros a1 l Hl Heq. apply Hrec; [done|]. split; [done|]. by rewrite Heq. }
    assert (Hset : ∀ x a1 l, length l < S (length argv) → o ≠ OExtraArgs → set_value o x a = Some a1 →
      parse_loop l None e a1 = Parsed a' → extras_ok None a').
    { intros x a1 l Hl Ho E. apply Hkeep; [done|]. apply set_value_extras in E. by rewrite decide_False in E. }
    change (Argparse.set_value o) with (set_value o). cbn [Argparse.kind_of retry_parser].
    destruct (kind_of o) eqn:Hk, v as [v|]; try done.
    + apply Hkeep; [lia|]. by destruct a, o.
    + destruct (set_value _ _ _) eqn:E; [|done]. eapply Hset; [|by intros ->|done]. lia.
    + destruct argv as [|x argv]; [done|]. destruct (is_value x && _); [|done].
      destruct (set_value _ _ _) eqn:E; [|done]. eapply Hset; [|by intros ->|done]. cbn [length]. lia.
    + assert (o = OExtraArgs) as -> by by destruct o.
      destruct (set_value OExtraArgs _ _) eqn:E; [|done]. apply set_value_extras in E.
      apply Hrec; [lia|]. split; [done|]. left. rewrite E, decide_True by done. by destruct a.
    + assert (o = OExtraArgs) as -> by by destruct o.
      apply Hrec; [lia|]. split; [|left; destruct a; cbn; lia].
      intros ? [= <-]. split; [done|]. destruct a. constructor.
Qed.

(** C27: the parser reads back a set of arguments from the command line that gives each
    value as an argument of its own, with all extra arguments in order, if the values
    are such that they can be given so: neither the double dash nor anything that looks
    like an option.  The numbers are unrestricted, negative ones included. *)
Theorem parse_print_args (a : args)
    (Hextra : Forall plain (extra_args a)) (Hdir : plain (output_dir a))
    (Hvenv : plain_opt (venv a)) (Hresume : plain_opt (resume a)) (Hrerun : plain_opt (rerun_failed a)) :
  parse_args (print_args a) = Parsed a.
Proof.
  destruct a as [p v e ap az d dir r rf]. cbn [extra_args output_dir venv resume rerun_failed] in *.
  destruct (plain_number p) as [Hp Hpd], (plain_number ap) as [Hap Hapd], (plain_number az) as [Haz Hazd].
  destruct Hdir as [Hdir Hdird]. unfold parse_args, print_args.
  cbn [app extra_args parallel attempts_parallel attempts_serial delete_failed_namespaces output_dir
    venv resume rerun_failed].
  change (parse_loop ("--extra-args" :: ?x) None false default_args)
    with (parse_loop x (Some OExtraArgs) false default_args).
  rewrite collect_values by done.
  erewrite (parse_loop_value _ OParallel) by (done || (cbn; by rewrite read_int_str_of_Z)).
  erewrite (parse_loop_value _ OAttemptsParallel) by (done || (cbn; by rewrite read_int_str_of_Z)).
  erewrite (parse_loop_value _ OAttemptsSerial) by (done || (cbn; by rewrite read_int_str_of_Z)).
  assert (Hdel : ∀ rest a, parse_loop ((if d then ["--delete-failed-namespaces" : str] else []) ++ rest) None false a
    = parse_loop rest None false (if d then set_flag ODeleteFailedNamespaces a else a)).
  { intros rest a. destruct d; [|done]. cbn [app]. by rewrite (parse_loop_flag _ ODeleteFailedNamespaces). }
  rewrite Hdel.
  erewrite (parse_loop_value _ OOutputDir) by (done || (cbn; by destruct d)).
  erewrite (parse_print_opt "--venv" OVenv) by (done || (intros ? ->; reflexivity) || (intros ->; by split)).
  erewrite (parse_print_opt "--resume" OResume) by (done || (intros ? ->; reflexivity) || (intros ->; by split)).
  rewrite <- (app_nil_r (print_opt "--rerun-failed" rf)).
  by erewrite (parse_print_opt "--rerun-failed" ORerunFailed)
    by (done || (intros ? ->; reflexivity) || (intros ->; by split)).
Qed.

Lemma parse_print_args_witness :
  let a := mkArgs 4 (Some ("./venv" : str)) ["smoke" : str; "-1" : str] 2 3 true "out" (Some ("out/state.json" : str)) None in
  parse_args (print_args a) = Parsed a.
Proof.
  cbn zeta. apply parse_print_args.
  - repeat (apply Forall_cons_2; [by split; [reflexivity|discriminate]|]). apply Forall_nil_2.
  - by split; [reflexivity|discriminate].
  - by split; [reflexivity|discriminate].
  - by split; [reflexivity|discriminate].
  - exact I.
Defined.
