(* ===== verification/RunTestsArgs.v ===== *)
(** The command line of scripts/run-tests: [parse_args] and the value parsers it
    uses, as an instance of [Argparse.Parser]. *)

From S2P Require Import Prelude PyStr PyDict Argparse.

(** ** Options *)

Record options := mkOptions {
  o_skip_delete : bool;
  o_skip_tests : bool;
  o_skip_release : bool;
  o_parallel : Z;
  o_operator : list (str * str);
  o_skip_operator : list str;
  o_test : option str;
  o_test_suite : option str;
  o_log_level : Z;
  o_namespace : option str;
  o_work_dir : str;
  o_listener_class_preset : option str;
}.

(** The constants of the [logging] module. *)
Definition DEBUG : Z := 10.
Definition INFO : Z := 20.
Definition WARNING : Z := 30.
Definition ERROR : Z := 40.
Definition CRITICAL : Z := 50.

(** The values of the options that are not given. *)
Definition default_options : options :=
  mkOptions false false false 2 [] [] None None INFO None "tests/_work" None.

(** The options of the parser; [argparse] adds [-h] and [--help]. *)
Inductive opt :=
  | OHelp | OVersion | OSkipDelete | OSkipTests | OSkipRelease | OParallel | OOperator
  | OSkipOperator | OTest | OTestSuite | OLogLevel | ONamespace | OWorkDir | OListenerClassPreset.

#[global] Instance opt_eq_dec : EqDecision opt.
Proof. solve_decision. Defined.

Definition option_strings : list (str * opt) :=
  [("-h", OHelp); ("--help", OHelp); ("--version", OVersion); ("--skip-delete", OSkipDelete);
   ("--skip-tests", OSkipTests); ("--skip-release", OSkipRelease); ("--parallel", OParallel);
   ("--operator", OOperator); ("--skip-operator", OSkipOperator); ("--test", OTest);
   ("--test-suite", OTestSuite); ("--log-level", OLogLevel); ("--namespace", ONamespace);
   ("--work-dir", OWorkDir); ("--listener-class-preset", OListenerClassPreset)].

(** ** Value parsers *)

(** [None] is an [ArgumentTypeError]. *)
Definition cli_parse_operator_args (args : str) : option (str * str) := split_once 61 args.

Definition cli_log_level (cli_arg : str) : option Z :=
  if decide (cli_arg = "debug") then Some DEBUG
  else if decide (cli_arg = "info") then Some INFO
  else if decide (cli_arg = "error") then Some ERROR
  else if decide (cli_arg = "warning") then Some WARNING
  else if decide (cli_arg = "critical") then Some CRITICAL
  else None.

(** ** Reading a command line *)

#[global] Instance options_eq_dec : EqDecision options.
Proof. solve_decision. Defined.

Definition set_flag (o : opt) (p : options) : options :=
  let '(mkOptions d t r n op sk te su ll ns w l) := p in
  match o with
  | OSkipDelete => mkOptions true t r n op sk te su ll ns w l
  | OSkipTests => mkOptions d true r n op sk te su ll ns w l
  | OSkipRelease => mkOptions d t true n op sk te su ll ns w l
  | _ => p
  end.

(** Storing a value; [None] when its parser rejects it. *)
Definition set_value (o : opt) (v : str) (p : options) : option options :=
  let '(mkOptions d t r n op sk te su ll ns w l) := p in
  match o with
  | OParallel => (λ n, mkOptions d t r n op sk te su ll ns w l) <$> read_int v
  | OOperator => (λ x, mkOptions d t r n (op ++ [x]) sk te su ll ns w l) <$> cli_parse_operator_args v
  | OSkipOperator => Some (mkOptions d t r n op (sk ++ [v]) te su ll ns w l)
  | OTest => Some (mkOptions d t r n op sk (Some v) su ll ns w l)
  | OTestSuite => Some (mkOptions d t r n op sk te (Some v) ll ns w l)
  | OLogLevel => (λ ll, mkOptions d t r n op sk te su ll ns w l) <$> cli_log_level v
  | ONamespace => Some (mkOptions d t r n op sk te su ll (Some v) w l)
  | OWorkDir => Some (mkOptions d t r n op sk te su ll ns v l)
  | OListenerClassPreset => Some (mkOptions d t r n op sk te su ll ns w (Some v))
  | _ => Some p
  end.

Definition kind_of (o : opt) : kind :=
  match o with
  | OHelp | OVersion => KExit
  | OSkipDelete | OSkipTests | OSkipRelease => KFlag
  | _ => KValue
  end.

#[export] Instance run_tests_parser : Parser opt options := {|
  Argparse.strings := option_strings;
  Argparse.help := OHelp;
  Argparse.kind_of := kind_of;
  Argparse.set_flag := set_flag;
  Argparse.set_value := set_value;
  Argparse.no_values o p := p;
|}.

Definition parse_args (argv : list str) : parsed options := parse_loop argv None false default_options.

(** The examples of the program's description. *)
Example parse_example_2 :
  parse_args ["--operator"; "airflow=0.0.0-pr123"; "--parallel"; "4"] =
  Parsed (mkOptions false false false 4 [("airflow", "0.0.0-pr123")] [] None None INFO None "tests/_work" None).
Proof. vm_compute. reflexivity. Qed.

Example parse_example_4 :
  parse_args ["--skip-release"; "--skip-delete"; "--test-suite"; "openshift"; "--test"; "ldap"] =
  Parsed (mkOptions true false true 2 [] [] (Some "ldap") (Some "openshift") INFO None "tests/_work" None).
Proof. vm_compute. reflexivity. Qed.

Example parse_abbreviation : parse_args ["--skip-d"; "--work=x"] =
  Parsed (mkOptions true false false 2 [] [] None None INFO None "x" None).
Proof. vm_compute. reflexivity. Qed.

Example parse_ambiguous : parse_args ["--skip"] = Exits 2.
Proof. vm_compute. reflexivity. Qed.

Example parse_dash_value : parse_args ["--test"; "-1"] =
  Parsed (mkOptions false false false 2 [] [] (Some "-1") None INFO None "tests/_work" None).
Proof. vm_compute. reflexivity. Qed.
