(* ===== verification/RunTests.v ===== *)
(** scripts/run-tests: preparing a release file, installing the operators,
    generating the tests and running them. *)

From S2P Require Import Prelude PyStr PyDict Argparse RunTestsArgs.

(** ** The outside *)

(** A command that was run, where, how it ended, and its standard error ([None]: it
    does not decode). *)
Record command := mkCommand {
  argv : list str;
  cwd : option str;
  returncode : Z;
  stderr : option str;
}.

(** The temporary files, the number of questions asked so far, the commands run. *)
Record shell := mkShell {
  tmp_files : gmap str str;
  questions : nat;
  ran : list command;
}.

(** The prefix given to [tempfile.NamedTemporaryFile]. *)
Definition tmp_prefix : str := "patched".

Class ShellEnv := {
  (** [shutil.which(c)] finds the command *)
  sh_which : str → bool;
  (** [subprocess.run]: the exception of a command that cannot be started, or exit
      code and standard error ([None]: it does not decode) *)
  sh_run : nat → list str → option str → result (Z * option str);
  sh_run_fault : ∀ t cmd dir e, sh_run t cmd dir = Raise e →
    e = FileNotFoundError ∨ e = PermissionError ∨ e = OtherOSError;
  (** the text of tests/release.yaml, or the exception of [open] *)
  sh_release : nat → result str;
  (** directory and random suffix of a temporary file, and the exception when it
      cannot be created; the name is never that of an existing file *)
  sh_tmp_dir : str;
  sh_tmp_suffix : nat → gmap str str → str;
  sh_tmp_fault : nat → option exn;
  (** when its contents cannot be written: what of them the file has then, and the
      exception *)
  sh_tmp_write_fault : nat → str → option (str * exn);
  sh_tmp_write_oserror : ∀ t contents written e,
    sh_tmp_write_fault t contents = Some (written, e) → e ≠ TestRunnerException;
  sh_tmp_fresh : ∀ t fs, fs !! (sh_tmp_dir ++ "/" ++ tmp_prefix ++ sh_tmp_suffix t fs) = None;
  (** the exception with which [os.remove] fails, if it does *)
  sh_remove_fault : nat → str → option exn;
  (** [re.sub(":.+$", template, line)] for a template with escape sequences *)
  sh_sub_template : str → str → result str;
}.

(** How the program ends: with a value for [sys.exit], or with the [SystemExit] of
    the argument parser. *)
Inductive exit :=
  | Return (ret : Z)
  | SystemExit (code : Z).

(** ** The release file *)

(** [re.sub(":.+$", f": {version}", line)] for a version without escapes: from the
    first colon that is followed by something, to the end of the line. *)
Definition sub_version (version line : str) : str :=
  let text := rstrip_char 10 line in
  let nl := drop (length text) line in
  match split_once 58 text with
  | Some (key, _ :: _) => key ++ ": " ++ version ++ nl
  | _ => line
  end.

(** The first operator whose name occurs in the line. *)
Definition operator_in (operators : list (str * str)) (line : str) : option (str * str) :=
  List.find (λ p, contains p.1 line) operators.

Section run_tests.
Context {env : ShellEnv}.

Definition patch_version_line (version line : str) : result str :=
  if contains "\" version then sh_sub_template (": " ++ version) line
  else Ok (sub_version version line).

(** The loop over the lines of release.yaml: the patched lines and [patched_ops]. *)
Fixpoint patch_lines (operators : list (str * str)) (patch_version : str) (lines : list str) :
    result (list str * list str) :=
  match lines with
  | [] => Ok ([], [])
  | line :: lines' =>
      match patch_version with
      | _ :: _ =>
          result_bind (patch_version_line patch_version line) (λ line',
          result_bind (patch_lines operators [] lines') (λ '(out, ops),
          Ok (rstrip_char 10 line' :: out, ops)))
      | [] =>
          let '(version, patched) := match operator_in operators line with
                                     | Some (op, version) => (version, [op])
                                     | None => ([], [])
                                     end in
          result_bind (patch_lines operators version lines') (λ '(out, ops),
          Ok (rstrip_char 10 line :: out, patched ++ ops))
      end
  end.

(** The loop that leaves out skipped operators: the lines kept and [valid_skip_ops];
    [skip] is [skip_lines], which is 0 or 1. *)
Fixpoint skip_operators (skip_ops : list str) (skip : bool) (lines : list str) : list str * list str :=
  match lines with
  | [] => ([], [])
  | line :: lines' =>
      if skip then skip_operators skip_ops false lines'
      else match List.find (λ op, contains op line) skip_ops with
           | Some op => let '(out, valid) := skip_operators skip_ops true lines' in (out, op :: valid)
           | None => let '(out, valid) := skip_operators skip_ops false lines' in (line :: out, valid)
           end
  end.

(** [set(wanted) - set(found)] is empty *)
Definition all_found (wanted found : list str) : bool :=
  forallb (λ op, bool_decide (op ∈ found)) wanted.

(** The contents of the patched file. *)
Definition patched_contents (operators : list (str * str)) (skip_ops : list str) (text : str) : result str :=
  result_bind (patch_lines operators [] (lines_keep (universal_newlines text)))
    (λ '(patched_release, patched_ops),
  if all_found operators.*1 patched_ops then
    let '(release_contents, valid_skip_ops) := skip_operators skip_ops false patched_release in
    if all_found skip_ops valid_skip_ops then Ok (join newline release_contents)
    else Raise TestRunnerException
  else Raise TestRunnerException).

Local Open Scope py_scope.

Definition ask : M shell nat := λ s,
  (Ok (questions s), mkShell (tmp_files s) (S (questions s)) (ran s)).

Definition set_files (f : gmap str str → gmap str str) : M shell unit :=
  modify (λ s, mkShell (f (tmp_files s)) (questions s) (ran s)).

(** [with tempfile.NamedTemporaryFile(mode="w", delete=False, prefix="patched")]: the
    file is there as soon as it is created, and it stays when writing to it fails. *)
Definition write_temporary (contents : str) : M shell str :=
  t <- ask ;;
  match sh_tmp_fault t with
  | Some e => raise e
  | None =>
      s <- get ;;
      let name := sh_tmp_dir ++ "/" ++ tmp_prefix ++ sh_tmp_suffix t (tmp_files s) in
      set_files (insert name []) ;;;
      t' <- ask ;;
      match sh_tmp_write_fault t' contents with
      | Some (written, e) => set_files (insert name written) ;;; raise e
      | None => set_files (insert name contents) ;;; ret name
      end
  end.

Definition _patch (operators : list (str * str)) (skip_ops : list str) : M shell str :=
  t <- ask ;;
  text <- lift (sh_release t) ;;
  contents <- lift (patched_contents operators skip_ops text) ;;
  write_temporary contents.

(** [os.remove(name)] *)
Definition remove (name : str) : M shell unit :=
  t <- ask ;;
  match sh_remove_fault t name with
  | Some e => raise e
  | None =>
      s <- get ;;
      match tmp_files s !! name with
      | Some _ => set_files (delete name)
      | None => raise FileNotFoundError
      end
  end.

(** [try: m finally: f] *)
Definition finally {A} (m : M shell A) (f : M shell unit) : M shell A := λ s,
  let '(r, s1) := m s in
  match f s1 with
  | (Ok _, s2) => (r, s2)
  | (Raise e, s2) => (Raise e, s2)
  end.

(** The [finally] clause: the handler names [FileNotFoundError | OSError], which is
    not an exception class, so reaching it raises [TypeError]. *)
Definition remove_release_file (name : str) : M shell unit :=
  if contains "patched" name then catch (remove name) (λ _, raise TypeError) else ret tt.

(** [with release_file(operators, skip_ops) as f: body f] *)
Definition release_file {A} (operators : list (str * str)) (skip_ops : list str)
    (body : str → M shell A) : M shell A :=
  name <- _patch operators skip_ops ;;
  finally (body name) (remove_release_file name).

(** ** Commands *)

(** [subprocess.run(argv, cwd=cwd, check=True)]: the decoded standard error, or
    [None] if it does not decode. *)
Definition run_command (argv : list str) (cwd : option str) : M shell (option str) :=
  t <- ask ;;
  match sh_run t argv cwd with
  | Raise e => raise e
  | Ok (code, stderr) =>
      modify (λ s, mkShell (tmp_files s) (questions s) (ran s ++ [mkCommand argv cwd code stderr])) ;;;
      if (code =? 0)%Z then ret stderr else raise (CalledProcessError stderr)
  end.

(** [b.decode("utf-8")] *)
Definition decode (b : option str) : M shell str := lift (result_of_option UnicodeDecodeError b).

Definition have_requirements : M shell unit :=
  if forallb sh_which ["beku"; "stackablectl"; "kubectl"; "kubectl-kuttl"] then ret tt
  else raise TestRunnerException.

Definition stackablectl_cmd (release_file : str) (listener_class_preset : option str) : list str :=
  ["stackablectl"; "release"; "install"; "--release-file"; release_file]
  ++ (if truthy listener_class_preset
      then ["--listener-class-preset"; default [] listener_class_preset] else [])
  ++ ["tests"].

Definition maybe_install_release (skip_release : bool) (release_file : str)
    (listener_class_preset : option str) : M shell unit :=
  if skip_release then ret tt
  else
    catch
      (stderr <- run_command (stackablectl_cmd release_file listener_class_preset) None ;;
       stackablectl_err <- decode stderr ;;
       if contains "error" (lower stackablectl_err) then raise TestRunnerException else ret tt)
      (λ e, match e with
            | CalledProcessError stderr => decode stderr ;;; raise TestRunnerException
            | _ => raise e
            end).

Definition beku_cmd (test_suite namespace : option str) (work_dir : str) : list str :=
  ["beku"; "--test_definition"; "tests/test-definition.yaml"; "--kuttl_test";
   "tests/kuttl-test.yaml.jinja2"; "--template_dir"; "tests/templates/kuttl"; "--output_dir"; work_dir]
  ++ (if truthy test_suite then ["--suite"; default [] test_suite] else [])
  ++ (if truthy namespace then ["--namespace"; default [] namespace] else []).

(** The handler of [gen_tests] and [run_tests]. *)
Definition command_failed (e : exn) : M shell unit :=
  match e with
  | CalledProcessError _ => raise TestRunnerException
  | _ => raise e
  end.

Definition gen_tests (test_suite namespace : option str) (work_dir : str) : M shell unit :=
  catch (run_command (beku_cmd test_suite namespace work_dir) None ;;; ret tt) command_failed.

Definition check_ns_cmd (namespace : str) : list str := ["kubectl"; "get"; "namespace"; namespace].
Definition create_ns_cmd (namespace : str) : list str := ["kubectl"; "create"; "namespace"; namespace].

Definition ensure_namespace_exists (namespace : str) : M shell unit :=
  catch (run_command (check_ns_cmd namespace) None ;;; ret tt) (λ e,
    match e with
    | CalledProcessError _ =>
        catch (run_command (create_ns_cmd namespace) None ;;; ret tt) (λ e,
          match e with
          | CalledProcessError err =>
              stderr <- decode err ;;
              if contains "already exists" stderr then ret tt
              else if contains "forbidden" (lower stderr) then ret tt
              else raise TestRunnerException
          | _ => raise e
          end)
    | _ => raise e
    end).

Definition kuttl_cmd (test : option str) (parallel : Z) (namespace : option str) (skip_delete : bool) :
    list str :=
  ["kubectl-kuttl"; "test"]
  ++ (if truthy test then ["--test"; default [] test] else [])
  ++ (if negb (parallel =? 0)%Z then ["--parallel"; str_of_Z parallel] else [])
  ++ (if skip_delete then ["--skip-delete"] else [])
  ++ (if truthy namespace then ["--namespace"; default [] namespace] else []).

Definition run_tests (test : option str) (parallel : Z) (namespace : option str)
    (skip_delete : bool) (work_dir : str) : M shell unit :=
  catch
    ((if truthy namespace then ensure_namespace_exists (default [] namespace) else ret tt) ;;;
     run_command (kuttl_cmd test parallel namespace skip_delete) (Some work_dir) ;;;
     ret tt)
    command_failed.

(** ** The program *)

Definition main_body (opts : options) : M shell unit :=
  have_requirements ;;;
  gen_tests (o_test_suite opts) (o_namespace opts) (o_work_dir opts) ;;;
  release_file (o_operator opts) (o_skip_operator opts) (λ f,
    maybe_install_release (o_skip_release opts) f (o_listener_class_preset opts)) ;;;
  if o_skip_tests opts then ret tt
  else run_tests (o_test opts) (o_parallel opts) (o_namespace opts) (o_skip_delete opts) (o_work_dir opts).

Definition main (argv : list str) : M shell exit :=
  match parse_args (drop 1 argv) with
  | Exits code => ret (SystemExit code)
  | Parsed opts =>
      catch (main_body opts ;;; ret (Return 0)) (λ e,
        match e with
        | TestRunnerException => ret (Return 1)
        | _ => raise e
        end)
  end.

End run_tests.

(** ** Commands and their traces *)

(** What running commands leaves alone: the temporary files; commands are only
    added. *)
Definition runs (s s' : shell) (cmds : list command) : Prop :=
  tmp_files s' = tmp_files s ∧ ran s' = ran s ++ cmds.

Lemma runs_nil s : runs s s [].
Proof. split; [done|]. by rewrite app_nil_r. Qed.

Lemma runs_app s1 s2 s3 l k : runs s1 s2 l → runs s2 s3 k → runs s1 s3 (l ++ k).
Proof. intros [H1 H2] [H3 H4]. split; [congruence|]. by rewrite H4, H2, app_assoc. Qed.

Definition succeeded (argv : list str) (cwd : option str) (err : option str) : command := mkCommand argv cwd 0 err.

(** A temporary file that could not be written stays. *)
Definition left_behind {env : ShellEnv} (s s' : shell) (e : exn) : Prop :=
  ∃ name contents written t, sh_tmp_write_fault t contents = Some (written, e) ∧
    tmp_files s !! name = None ∧ tmp_files s' = <[name := written]> (tmp_files s).

Section wp_run_tests.
Context {env : ShellEnv}.

Lemma wp_run_command argv cwd Q s :
  (∀ s' err, runs s s' [succeeded argv cwd err] → Q (Ok err) s') →
  (∀ s' code err, code ≠ 0%Z → runs s s' [mkCommand argv cwd code err] →
     Q (Raise (CalledProcessError err)) s') →
  (∀ s' e, e = FileNotFoundError ∨ e = PermissionError ∨ e = OtherOSError → runs s s' [] → Q (Raise e) s') →
  wp (run_command argv cwd) Q s.
Proof.
  intros H1 H2 H3. unfold run_command, ask, wp, bind. cbn.
  destruct (sh_run _ _ _) as [[code err]|e] eqn:E; cbn.
  - destruct (code =? 0)%Z eqn:Ec; cbn.
    + apply Z.eqb_eq in Ec as ->. by apply H1.
    + apply (H2 _ code); [|done]. by apply Z.eqb_neq.
  - apply H3; [by eapply sh_run_fault|]. split; [done|]. by rewrite app_nil_r.
Qed.

(** What [kubectl create namespace] says when the namespace can be taken to exist. *)
Definition tolerated (err : str) : Prop :=
  contains "already exists" err = true ∨ contains "forbidden" (lower err) = true.

(** The commands [ensure_namespace_exists] runs when it returns: the namespace was
    found, or it was not and was created, or creating it failed in a way that is
    tolerated. *)
Definition namespace_cmds (namespace : str) (cmds : list command) : Prop :=
  (∃ err, cmds = [succeeded (check_ns_cmd namespace) None err]) ∨
  ∃ code err create, code ≠ 0%Z ∧
    cmds = [mkCommand (check_ns_cmd namespace) None code err; create] ∧
    ((∃ err', create = succeeded (create_ns_cmd namespace) None err') ∨
     ∃ code' err', code' ≠ 0%Z ∧ create = mkCommand (create_ns_cmd namespace) None code' (Some err') ∧
       tolerated err').

Lemma wp_ensure_namespace_exists namespace Q s :
  (∀ r s' cmds, runs s s' cmds → (r = Ok tt → namespace_cmds namespace cmds) → Q r s') →
  wp (ensure_namespace_exists namespace) Q s.
Proof.
  intros HQ. unfold ensure_namespace_exists. apply wp_catch, wp_bind, wp_run_command.
  - intros s' err Hr. apply wp_ret, (HQ _ _ _ Hr). left. by exists err.
  - intros s1 c err Hc Hr1. cbn beta iota. apply wp_catch, wp_bind, wp_run_command.
    + intros s2 err2 Hr2. apply wp_ret, (HQ _ _ _ (runs_app _ _ _ _ _ Hr1 Hr2)).
      intros _. right. eexists c, err, _. split_and!; [done..|]. left. by exists err2.
    + intros s2 c2 err2 Hc2 Hr2. cbn beta iota.
      pose proof (runs_app _ _ _ _ _ Hr1 Hr2) as Hr.
      unfold decode. apply wp_bind, wp_lift. destruct err2 as [stderr|]; cbn [result_of_option];
        [|by apply (HQ _ _ _ Hr)].
      assert (Hns : tolerated stderr → namespace_cmds namespace
        ([mkCommand (check_ns_cmd namespace) None c err]
         ++ [mkCommand (create_ns_cmd namespace) None c2 (Some stderr)])).
      { intros Ht. right. eexists c, err, _. split_and!; [done..|]. right. by exists c2, stderr. }
      unfold tolerated in Hns. destruct (contains "already exists" stderr); [by apply wp_ret, (HQ _ _ _ Hr); auto|].
      destruct (contains "forbidden" (lower stderr));
        [by apply wp_ret, (HQ _ _ _ Hr); auto|by apply wp_raise, (HQ _ _ _ Hr)].
    + intros s2 e He Hr2. pose proof (runs_app _ _ _ _ _ Hr1 Hr2) as Hr.
      destruct He as [->|[->| ->]]; cbn beta iota; by apply wp_raise, (HQ _ _ _ Hr).
  - intros s1 e He Hr. destruct He as [->|[->| ->]]; cbn beta iota; by apply wp_raise, (HQ _ _ _ Hr).
Qed.

Lemma wp_command_failed e Q s :
  (∀ e', e' = e ∨ e' = TestRunnerException → Q (Raise e') s) → wp (command_failed e) Q s.
Proof. intros H. unfold command_failed. destruct e; apply wp_raise, H; auto. Qed.

Lemma wp_gen_tests suite namespace dir Q s :
  (∀ r s' cmds, runs s s' cmds → (r = Ok tt → ∃ err, cmds = [succeeded (beku_cmd suite namespace dir) None err]) → Q r s') →
  wp (gen_tests suite namespace dir) Q s.
Proof.
  intros HQ. unfold gen_tests. apply wp_catch, wp_bind, wp_run_command.
  - intros s' err Hr. apply wp_ret, (HQ _ _ _ Hr). intros _. by exists err.
  - intros s' c err _ Hr. apply wp_command_failed. intros e' _. by apply (HQ _ _ _ Hr).
  - intros s' e _ Hr. apply wp_command_failed. intros e' _. by apply (HQ _ _ _ Hr).
Qed.

(** The commands of an installation that goes through: stackablectl says nothing of an
    error, in whatever case. *)
Definition install_cmds (skip : bool) (f : str) (preset : option str) (cmds : list command) : Prop :=
  if skip then cmds = []
  else ∃ err, cmds = [succeeded (stackablectl_cmd f preset) None (Some err)] ∧ contains "error" (lower err) = false.

Lemma wp_maybe_install_release (skip : bool) f preset Q s :
  (∀ r s' cmds, runs s s' cmds →
     (r = Ok tt → install_cmds skip f preset cmds) → Q r s') →
  wp (maybe_install_release skip f preset) Q s.
Proof.
  intros HQ. unfold maybe_install_release. destruct skip; [by apply wp_ret, (HQ _ _ _ (runs_nil s))|].
  unfold install_cmds in HQ. apply wp_catch, wp_bind, wp_run_command.
  - intros s' err Hr. cbn beta iota. unfold decode. apply wp_bind, wp_lift.
    destruct err as [stderr|]; cbn [result_of_option]; [|by apply wp_raise, (HQ _ _ _ Hr)].
    destruct (contains "error" (lower stderr)) eqn:Ee; [by apply wp_raise, wp_raise, (HQ _ _ _ Hr)|].
    apply wp_ret, (HQ _ _ _ Hr). intros _. by exists stderr.
  - intros s' c err _ Hr. cbn beta iota. unfold decode. apply wp_bind, wp_lift.
    destruct err; cbn [result_of_option]; [by apply wp_raise, (HQ _ _ _ Hr)|by apply (HQ _ _ _ Hr)].
  - intros s' e He Hr. destruct He as [->|[->| ->]]; by apply wp_raise, (HQ _ _ _ Hr).
Qed.

Lemma wp_run_tests test parallel namespace skip dir Q s :
  (∀ r s' cmds, runs s s' cmds →
     (r = Ok tt → ∃ ns err, cmds = ns ++ [succeeded (kuttl_cmd test parallel namespace skip) (Some dir) err] ∧
        (if truthy namespace then namespace_cmds (default [] namespace) ns else ns = [])) → Q r s') →
  wp (run_tests test parallel namespace skip dir) Q s.
Proof.
  intros HQ. unfold run_tests. apply wp_catch, wp_bind.
  eapply (wp_mono _ (λ r s', ∃ cmds, runs s s' cmds ∧
    (r = Ok tt → if truthy namespace then namespace_cmds (default [] namespace) cmds else cmds = []))).
  { destruct (truthy namespace).
    - apply wp_ensure_namespace_exists. intros r s' cmds Hr Hns. eauto.
    - apply wp_ret. exists []. by split; [apply runs_nil|]. }
  intros [[]|e] s1 (ns & Hr1 & Hns); cbn beta iota.
  2: { apply wp_command_failed. intros e' _. by apply (HQ _ _ _ Hr1). }
  apply wp_bind, wp_run_command.
  - intros s2 err Hr2. apply wp_ret, (HQ _ _ _ (runs_app _ _ _ _ _ Hr1 Hr2)).
    intros _. exists ns, err. split; [done|by apply Hns].
  - intros s2 c err _ Hr2. apply wp_command_failed. intros e' _.
    by apply (HQ _ _ _ (runs_app _ _ _ _ _ Hr1 Hr2)).
  - intros s2 e _ Hr2. apply wp_command_failed. intros e' _.
    by apply (HQ _ _ _ (runs_app _ _ _ _ _ Hr1 Hr2)).
Qed.

(** Preparing the release file: one temporary file more, or an exception. *)
Lemma wp__patch operators skip_ops Q s :
  (∀ name contents s', tmp_files s !! name = None →
     tmp_files s' = <[name := contents]> (tmp_files s) → ran s' = ran s →
     contains "patched" name = true → Q (Ok name) s') →
  (∀ e s', ran s' = ran s → tmp_files s' = tmp_files s ∨ left_behind s s' e → Q (Raise e) s') →
  wp (_patch operators skip_ops) Q s.
Proof.
  intros HQ HE. unfold _patch.
  assert (Hraise : ∀ e n, Q (Raise e) (mkShell (tmp_files s) n (ran s))) by (intros e n; apply HE; auto).
  apply wp_bind. unfold wp at 1, ask. cbn [fst snd].
  apply wp_bind, wp_lift. destruct (sh_release _) as [text|e]; [|apply Hraise].
  apply wp_bind, wp_lift. destruct (patched_contents _ _ _) as [contents|e]; [|apply Hraise].
  unfold write_temporary. apply wp_bind. unfold wp at 1, ask. cbn [fst snd].
  destruct (sh_tmp_fault _); [apply wp_raise, Hraise|].
  apply wp_bind, wp_get. cbn beta iota zeta. unfold set_files. apply wp_bind, wp_modify. cbn beta iota.
  apply wp_bind. unfold wp at 1, ask. cbn [fst snd tmp_files ran questions].
  destruct (sh_tmp_write_fault _ _) as [[written e]|] eqn:Ew; apply wp_bind, wp_modify; cbn beta iota.
  { apply wp_raise, HE; [done|right]. eexists _, _, written, _. split_and!; [exact Ew|apply sh_tmp_fresh|].
    cbn [tmp_files]. apply insert_insert_eq. }
  apply wp_ret. eapply HQ; [apply sh_tmp_fresh|cbn [tmp_files]; apply insert_insert_eq|done|].
  apply contains_spec. eexists (sh_tmp_dir ++ "/"), _. by rewrite <-app_assoc.
Qed.

(** Leaving the [with] block: the file is gone, or [TypeError] is raised. *)
Lemma wp_remove_release_file name contents fs s Q :
  fs !! name = None → tmp_files s = <[name := contents]> fs → contains "patched" name = true →
  (∀ s', tmp_files s' = fs → ran s' = ran s → Q (Ok tt) s') →
  (∀ s' t e, sh_remove_fault t name = Some e → ran s' = ran s → Q (Raise TypeError) s') →
  wp (remove_release_file name) Q s.
Proof.
  intros Hfs Hs Hname HQ HE. unfold remove_release_file, remove. rewrite Hname.
  apply wp_catch, wp_bind. unfold wp at 1, ask. cbn [fst snd].
  destruct (sh_remove_fault _ _) as [e|] eqn:E; [by apply wp_raise, wp_raise, (HE _ _ _ E)|].
  apply wp_bind, wp_get. cbn [tmp_files]. rewrite Hs, lookup_insert_eq. unfold set_files.
  apply wp_modify, HQ; [|done]. cbn [tmp_files]. rewrite ?Hs. by apply delete_insert_id.
Qed.

Lemma wp_release_file {A} operators skip_ops (body : str → M shell A) Q s :
  (∀ name contents s1, tmp_files s !! name = None →
     tmp_files s1 = <[name := contents]> (tmp_files s) → ran s1 = ran s →
     wp (body name) (λ r s2, tmp_files s2 = tmp_files s1 ∧
       (∀ s', tmp_files s' = tmp_files s → ran s' = ran s2 → Q r s') ∧
       (∀ s' t e, sh_remove_fault t name = Some e → ran s' = ran s2 → Q (Raise TypeError) s')) s1) →
  (∀ e s', ran s' = ran s → tmp_files s' = tmp_files s ∨ left_behind s s' e → Q (Raise e) s') →
  wp (release_file operators skip_ops body) Q s.
Proof.
  intros HQ HE. unfold release_file. apply wp_bind, wp__patch; [|done].
  intros name contents s1 Hfs Hs1 Hran1 Hname. specialize (HQ name contents s1 Hfs Hs1 Hran1).
  unfold wp at 1, finally. unfold wp in HQ. destruct (body name s1) as [r s2].
  cbn [fst snd] in HQ. destruct HQ as (Hs2 & HQ1 & HQ2).
  pose proof (wp_remove_release_file name contents (tmp_files s) s2
    (λ r' s', match r' with Ok _ => Q r s' | Raise e => Q (Raise e) s' end)) as Hrm.
  unfold wp in Hrm. destruct (remove_release_file name s2) as [[[]|e] s3]; cbn [fst snd] in *;
    apply Hrm; auto; congruence.
Qed.

(** ** The program *)

(** The commands of a run that goes through, given the release file's name. *)
Definition expected_cmds (opts : options) (name : str) (cmds : list command) : Prop :=
  ∃ err err' install ns, cmds =
    [succeeded (beku_cmd (o_test_suite opts) (o_namespace opts) (o_work_dir opts)) None err]
    ++ install ++ ns
    ++ (if o_skip_tests opts then []
        else [succeeded (kuttl_cmd (o_test opts) (o_parallel opts) (o_namespace opts) (o_skip_delete opts))
                (Some (o_work_dir opts)) err']) ∧
    install_cmds (o_skip_release opts) name (o_listener_class_preset opts) install ∧
    (if negb (o_skip_tests opts) && truthy (o_namespace opts)
     then namespace_cmds (default [] (o_namespace opts)) ns else ns = []).

Definition required : list str := ["beku"; "stackablectl"; "kubectl"; "kubectl-kuttl"].

Lemma wp_main_body opts Q s :
  (∀ s' name cmds, runs s s' cmds → expected_cmds opts name cmds → forallb sh_which required = true →
     Q (Ok tt) s') →
  (∀ e s' cmds, ran s' = ran s ++ cmds →
     (tmp_files s' = tmp_files s ∨ left_behind s s' e ∨ e = TypeError ∧ ∃ t n f, sh_remove_fault t n = Some f) →
     Q (Raise e) s') →
  wp (main_body opts) Q s.
Proof.
  intros HQ HE. unfold main_body, have_requirements. apply wp_bind.
  fold required. destruct (forallb sh_which required) eqn:Ereq.
  2: { apply wp_raise, (HE _ _ []); [by rewrite app_nil_r|by left]. }
  apply wp_ret, wp_bind, wp_gen_tests. intros r s1 cmds1 Hr1 Hc1.
  destruct r as [[]|e]; [|by destruct Hr1; eapply HE; [|left]].
  destruct (Hc1 eq_refl) as [err1 ->]. clear Hc1.
  apply wp_bind, wp_release_file.
  2: { intros e s2 Hran2 Hf2. destruct Hr1 as [Hf1 Hran1]. eapply HE; [by rewrite Hran2, Hran1|].
       unfold left_behind in *. rewrite Hf1 in Hf2. destruct Hf2; auto. }
  intros name contents s2 Hfresh Hf2 Hran2.
  apply wp_maybe_install_release. intros r s3 cmds3 [Hf3 Hran3] Hc3.
  split_and!; [done| |].
  2: { intros s4 t e Hrm Hran4. eapply HE; [|right; naive_solver].
       rewrite Hran4, Hran3, Hran2. destruct Hr1 as [_ ->]. by rewrite <-app_assoc. }
  intros s4 Hf4 Hran4.
  assert (Hr4 : runs s s4 ([succeeded (beku_cmd (o_test_suite opts) (o_namespace opts) (o_work_dir opts)) None err1]
    ++ cmds3)).
  { destruct Hr1 as [? Hran1]. split; [congruence|]. by rewrite Hran4, Hran3, Hran2, Hran1, app_assoc. }
  destruct r as [[]|e]; [|by destruct Hr4; eapply HE; [|left]].
  specialize (Hc3 eq_refl). destruct (o_skip_tests opts) eqn:Eskip.
  - apply wp_ret, (HQ _ name _ Hr4); [|done]. exists err1, None, cmds3, []. rewrite Eskip. split_and!; [|done..].
    by rewrite !app_nil_r.
  - apply wp_run_tests. intros r s5 cmds5 Hr5 Hc5. pose proof (runs_app _ _ _ _ _ Hr4 Hr5) as Hr.
    destruct r as [[]|e]; [|by destruct Hr; eapply HE; [|left]].
    destruct (Hc5 eq_refl) as (ns & err5 & -> & Hns). apply (HQ _ name _ Hr); [|done].
    exists err1, err5, cmds3, ns. rewrite Eskip. cbn [negb andb]. split_and!; [by rewrite <-app_assoc|done..].
Qed.

End wp_run_tests.

(** ** Theorems *)

(** C24: run-tests exits with 0 only after everything it was asked to do succeeded: all
    required commands are there; beku generated the tests; stackablectl installed the
    release, with exit code 0 and without the word "error" on its standard error in
    whatever case (unless told not to); the namespace was found, or it was created, or
    creating it failed with a standard error that says that it exists or that this is
    forbidden; and kuttl passed in the work directory (unless told not to).  These
    commands, in this order, are all it ran, and no temporary file is left. *)
Theorem main_success {env : ShellEnv} (argv : list str) (s s' : shell)
    (Hmain : main argv s = (Ok (Return 0), s')) :
  ∃ opts name cmds, parse_args (drop 1 argv) = Parsed opts ∧
    (∀ c, c ∈ required → sh_which c = true) ∧
    ran s' = ran s ++ cmds ∧ expected_cmds opts name cmds ∧ tmp_files s' = tmp_files s.
Proof.
  cut (wp (main argv) (λ r s', r = Ok (Return 0) →
    ∃ opts name cmds, parse_args (drop 1 argv) = Parsed opts ∧ forallb sh_which required = true ∧
      runs s s' cmds ∧ expected_cmds opts name cmds) s).
  { unfold wp. rewrite Hmain. intros H.
    destruct (H eq_refl) as (opts & name & cmds & ? & Hreq & [? ?] & ?).
    exists opts, name, cmds. split_and!; try done. intros c Hc.
    rewrite forallb_forall in Hreq. by apply Hreq, list_elem_of_In. }
  unfold main. destruct (parse_args _) as [opts|code]; [|by apply wp_ret].
  apply wp_catch, wp_bind, wp_main_body.
  - intros s1 name cmds Hr Hc Hreq. apply wp_ret. intros _. exists opts, name, cmds. by split_and!.
  - intros e s1 cmds _ _. destruct e; apply wp_raise || apply wp_ret; done.
Qed.

(** C29: run-tests removes its temporary release file however it ends, as long as
    removing a file works, with one exception: if the file can be created but not
    written, it stays, with what was written, because it is created with
    [delete=False] and the clause that removes it is entered only later; the program
    then ends with the exception of the write.  It only ever adds commands. *)
Theorem main_removes_release_file {env : ShellEnv} (argv : list str) (s : shell)
    (Hrm : ∀ t name, sh_remove_fault t name = None) :
  let '(r, s') := main argv s in
  (tmp_files s' = tmp_files s ∨
   ∃ name contents written t e, sh_tmp_write_fault t contents = Some (written, e) ∧
     tmp_files s !! name = None ∧ tmp_files s' = <[name := written]> (tmp_files s) ∧ r = Raise e) ∧
  ran s `prefix_of` ran s' ∧
  (∀ x, r = Ok x → x = Return 0 ∨ x = Return 1 ∨
     ∃ code, x = SystemExit code ∧ parse_args (drop 1 argv) = Exits code).
Proof.
  cut (wp (main argv) (λ r s', (tmp_files s' = tmp_files s ∨ ∃ e, left_behind s s' e ∧ r = Raise e) ∧
    ran s `prefix_of` ran s' ∧
    (∀ x, r = Ok x → x = Return 0 ∨ x = Return 1 ∨
     ∃ code, x = SystemExit code ∧ parse_args (drop 1 argv) = Exits code)) s).
  { unfold wp. destruct (main argv s) as [r s']. cbn. intros [Hf H]. split; [|done].
    destruct Hf as [?|(e & (name & c & w & t & Hf) & ->)]; [by left|right]. by exists name, c, w, t, e; naive_solver. }
  unfold main. destruct (parse_args _) as [opts|code] eqn:E.
  2: { apply wp_ret. split_and!; [by left|done|]. intros x [= <-]. eauto. }
  apply wp_catch, wp_bind, wp_main_body.
  - intros s1 name cmds [Hf Hran] _ _. apply wp_ret. split_and!; [by left|rewrite Hran; by apply prefix_app_r|].
    intros x [= <-]. by left.
  - intros e s1 cmds Hran Hf.
    assert (Hpre : ran s `prefix_of` ran s1) by (rewrite Hran; by apply prefix_app_r).
    assert (Hf' : tmp_files s1 = tmp_files s ∨ left_behind s s1 e ∧ e ≠ TestRunnerException).
    { destruct Hf as [?|[Hl|(_ & t & n & f & Hfault)]]; [by left| |by rewrite Hrm in Hfault].
      right. split; [done|]. destruct Hl as (? & ? & ? & ? & Hw & _). by eapply sh_tmp_write_oserror. }
    assert (e = TestRunnerException ∨ e ≠ TestRunnerException) as [->|He] by (destruct e; by auto).
    + apply wp_ret. split_and!; [left; naive_solver|done|]. intros x [= <-]. auto.
    + assert (wp (raise (A := exit) e) (λ r s', (tmp_files s' = tmp_files s ∨ ∃ e, left_behind s s' e ∧ r = Raise e) ∧
        ran s `prefix_of` ran s' ∧ (∀ x, r = Ok x → x = Return 0 ∨ x = Return 1 ∨
         ∃ code, x = SystemExit code ∧ Parsed opts = Exits code)) s1) as Hraise.
      { apply wp_raise. split_and!; [|done..]. destruct Hf' as [?|[? _]]; eauto. }
      destruct e; first [by destruct He | exact Hraise].
Qed.

(** When the temporary file cannot be removed, the handler that should log
    this raises [TypeError] instead, and replaces whatever the block ended with:
    also the exception that would have given exit code 1. *)
Theorem release_file_remove_fails {env : ShellEnv} {A : Type} (operators : list (str * str))
    (skip_ops : list str) (body : str → M shell A) (s s1 s2 : shell) (name : str) (r : result A) (e : exn)
    (Hpatch : _patch operators skip_ops s = (Ok name, s1))
    (Hbody : body name s1 = (r, s2)) (Hfault : sh_remove_fault (questions s2) name = Some e) :
  ∃ s3, release_file operators skip_ops body s = (Raise TypeError, s3) ∧ tmp_files s3 = tmp_files s2.
Proof.
  assert (Hname : contains "patched" name = true).
  { cut (wp (_patch operators skip_ops) (λ r _, ∀ n, r = Ok n → contains "patched" n = true) s).
    { unfold wp. rewrite Hpatch. auto. }
    apply wp__patch; [|done]. by intros ? ? ? _ _ _ ? ? [= <-]. }
  exists (mkShell (tmp_files s2) (S (questions s2)) (ran s2)). split; [|done].
  unfold release_file, bind, finally. rewrite Hpatch, Hbody. unfold remove_release_file. rewrite Hname.
  unfold catch, remove, bind, ask. by rewrite Hfault.
Qed.

(** ** A concrete environment *)

(** The length of the longest name of a file. *)
Definition longest (fs : gmap str str) : nat := foldr max 0 (length <$> (map_to_list fs).*1).

Lemma longest_ge fs name : is_Some (fs !! name) → length name ≤ longest fs.
Proof.
  intros [x Hx%elem_of_map_to_list]. unfold longest. induction (map_to_list fs) as [|p l IH].
  - by apply not_elem_of_nil in Hx.
  - cbn. apply elem_of_cons in Hx as [<-|Hx]; [cbn; lia|]. specialize (IH Hx). lia.
Qed.

Lemma fresh_name dir fs :
  fs !! (dir ++ "/" ++ tmp_prefix ++ replicate (S (longest fs)) 120%N) = None.
Proof.
  apply eq_None_not_Some. intros H%longest_ge. rewrite !length_app, length_replicate in H. lia.
Qed.

(** Every command can be started and ends as [run] says; removing a file fails as
    [fault] says. *)
Definition scripted_shell (run : list str → Z) (release : str) (fault : option exn)
    (write_fault : bool) : ShellEnv.
Proof.
  refine {|
    sh_which _ := true;
    sh_run _ cmd _ := Ok (run cmd, Some "");
    sh_release _ := Ok release;
    sh_tmp_dir := "/tmp";
    sh_tmp_suffix _ fs := replicate (S (longest fs)) 120%N;
    sh_tmp_fault _ := None;
    sh_tmp_write_fault _ contents := if write_fault then Some (take 5 contents, OtherOSError) else None;
    sh_remove_fault _ _ := fault;
    sh_sub_template _ line := Ok line;
  |}; [done|intros _ contents written e; by destruct write_fault; intros [= _ <-]|intros _; apply fresh_name].
Defined.

Definition no_shell : shell := mkShell ∅ 0 [].

(** The release file of the repository. *)
Definition commons_release : str :=
  "releases:" ++ newline ++ "  tests:" ++ newline ++ "    products:" ++ newline
  ++ "      commons:" ++ newline ++ "        operatorVersion: 0.0.0-dev" ++ newline.

Lemma main_success_witness :
  let env := scripted_shell (λ _, 0%Z) commons_release None false in
  let x := main (env := env) ["run-tests"; "--test"; "smoke"; "--namespace"; "ns"] no_shell in
  x.1 = Ok (Return 0) ∧ tmp_files x.2 = ∅ ∧ length (ran x.2) = 4.
Proof.
  intros env x.
  assert (x.1 = Ok (Return 0)) as H1 by (vm_compute; reflexivity).
  assert (main (env := env) ["run-tests"; "--test"; "smoke"; "--namespace"; "ns"] no_shell
    = (Ok (Return 0), x.2)) as H2 by (fold x; rewrite <-H1; apply surjective_pairing).
  split; [exact H1|].
  destruct (main_success (env := env) ["run-tests"; "--test"; "smoke"; "--namespace"; "ns"] no_shell x.2 H2)
    as (opts & name & cmds & _ & _ & _ & _ & Hf).
  split; [exact Hf|]. vm_compute. reflexivity.
Defined.

(** The first run fails and leaves nothing, the second cannot write its file. *)
Lemma main_removes_release_file_witness :
  (let env := scripted_shell (λ cmd, if decide (head cmd = Some ("stackablectl" : str)) then 1 else 0)%Z
               commons_release None false in
   let x := main (env := env) ["run-tests"] no_shell in
   x.1 = Ok (Return 1) ∧ tmp_files x.2 = ∅) ∧
  (let env := scripted_shell (λ _, 0%Z) commons_release None true in
   let x := main (env := env) ["run-tests"] no_shell in
   x.1 = Raise OtherOSError ∧ (tmp_files x.2 !! ("/tmp/patchedx" : str)) = Some ("relea" : str)).
Proof.
  split; intros env x.
  - split; [vm_compute; reflexivity|].
    assert (∀ t name, sh_remove_fault t name = None) as H by reflexivity.
    pose proof (main_removes_release_file (env := env) ["run-tests"] no_shell H) as Hm.
    fold x in Hm. destruct x as [r s']. destruct Hm as [[Hm|Hm] _]; [exact Hm|exfalso].
    destruct Hm as (? & ? & ? & ? & ? & Hw & _). discriminate Hw.
  - split; vm_compute; reflexivity.
Defined.

Lemma release_file_remove_fails_witness :
  let env := scripted_shell (λ _, 0%Z) commons_release (Some FileNotFoundError) false in
  ∃ s3, release_file (env := env) [] [] (λ _, raise (A := unit) TestRunnerException) no_shell
    = (Raise TypeError, s3).
Proof.
  intros env.
  pose (p := _patch (env := env) [] [] no_shell).
  assert (∃ name, p.1 = Ok name) as [name Hname] by (eexists; vm_compute; reflexivity).
  assert (_patch (env := env) [] [] no_shell = (Ok name, p.2)) as H1
    by (fold p; rewrite <-Hname; apply surjective_pairing).
  assert (sh_remove_fault (ShellEnv := env) (questions p.2) name = Some FileNotFoundError) as H2 by reflexivity.
  destruct (release_file_remove_fails (env := env) [] [] (λ _, raise (A := unit) TestRunnerException)
    no_shell p.2 p.2 name (Raise TestRunnerException) FileNotFoundError H1 eq_refl H2) as (s3 & H & _).
  exists s3. exact H.
Defined.

