(* ===== verification/ReleaseFile.v ===== *)
(** What scripts/run-tests makes of tests/release.yaml: the specification of
    [patched_contents] on release files of the shape the repository has. *)

From S2P Require Import Prelude PyStr PyDict Argparse RunTestsArgs RunTests.

(** ** Release files *)

(** An operator's section: its name and, indented below, its version. *)
Definition name_line (p : str) : str := "      " ++ p ++ ":".
Definition version_line (v : str) : str := "        operatorVersion: " ++ v.
Definition product_lines (pv : str * str) : list str := [name_line pv.1; version_line pv.2].

Arguments name_line : simpl never.
Arguments version_line : simpl never.
Arguments contains : simpl never.

(** A release file: other lines, then the sections. *)
Definition release_lines (header : list str) (products : list (str * str)) : list str :=
  header ++ mjoin (product_lines <$> products).

Definition text_of (lines : list str) : str := mjoin ((λ l, l ++ newline) <$> lines).

(** The version an operator gets: that of the first [--operator] naming it. *)
Definition chosen (operators : list (str * str)) (pv : str * str) : str * str :=
  (pv.1, match List.find (λ q, bool_decide (q.1 = pv.1)) operators with
         | Some q => q.2
         | None => pv.2
         end).

(** The abstract specification: patch the versions, drop the skipped sections, and
    reject names that are not in the file. *)
Definition patched_release (operators : list (str * str)) (skip_ops : list str) (header : list str)
    (products : list (str * str)) : result str :=
  if bool_decide (operators.*1 ⊆ products.*1 ∧ skip_ops ⊆ products.*1)
  then Ok (join newline (release_lines header
             (filter (λ pv, pv.1 ∉ skip_ops) (chosen operators <$> products))))
  else Raise TestRunnerException.

(** ** Lemmas *)

Lemma rstrip_char_newline l : 10%N ∉ l → rstrip_char 10 (l ++ newline) = l.
Proof.
  induction l as [|c l IH]; [done|]. rewrite not_elem_of_cons. intros [Hc Hl].
  cbn [rstrip_char app]. rewrite IH by done. destruct l; [|done].
  destruct (c =? 10)%N eqn:E; [lia|done].
Qed.

Lemma rstrip_char_id l : 10%N ∉ l → rstrip_char 10 l = l.
Proof.
  induction l as [|c l IH]; [done|]. rewrite not_elem_of_cons. intros [Hc Hl].
  cbn [rstrip_char]. rewrite IH by done. destruct l; [|done].
  destruct (c =? 10)%N eqn:E; [lia|done].
Qed.

Lemma contains_newline n l : 10%N ∉ n → contains n (l ++ newline) = contains n l.
Proof.
  intros Hn. apply eq_true_iff_eq. rewrite !contains_spec. split.
  - intros (a & b & H). destruct b as [|x b _] using rev_ind.
    + rewrite app_nil_r in H. destruct n as [|y n _] using rev_ind; [by exists l, []; rewrite app_nil_r|].
      rewrite app_assoc in H. apply app_inj_tail in H as [_ H]. destruct Hn. rewrite <-H.
      apply elem_of_app. right. left.
    + rewrite !app_assoc in H. apply app_inj_tail in H as [H _]. exists a, b. by rewrite app_assoc.
  - intros (a & b & ->). exists a, (b ++ newline). by rewrite <-!app_assoc.
Qed.

Lemma not_elem_of_version_line c v :
  negb (existsb (N.eqb c) (version_line [])) = true → c ∉ v → c ∉ version_line v.
Proof.
  intros Hc Hv. unfold version_line. rewrite elem_of_app. intros [H|H]; [|done].
  apply negb_true_iff, existsb_false_Forall in Hc. unfold version_line in Hc. rewrite app_nil_r in Hc.
  rewrite Forall_forall in Hc. apply Hc in H. lia.
Qed.

Lemma not_elem_of_name_line c p : (c = 10 ∨ c = 13)%N → c ∉ p → c ∉ name_line p.
Proof.
  intros Hc Hp. unfold name_line. rewrite !elem_of_app. intros [H|[H|H]]; [|done|].
  - assert (Forall (λ c, c = 32%N) ("      " : str)) as HF by repeat constructor.
    rewrite Forall_forall in HF. apply HF in H. lia.
  - apply list_elem_of_singleton in H. lia.
Qed.

(** The version line of a section takes the version. *)
Lemma sub_version_line v v' : 10%N ∉ v → sub_version v' (version_line v ++ newline) = version_line v' ++ newline.
Proof.
  intros Hv. unfold sub_version. rewrite rstrip_char_newline by (by apply not_elem_of_version_line).
  rewrite drop_app_length.
  change (version_line v) with (("        operatorVersion" : str) ++ 58%N :: 32%N :: v).
  rewrite split_once_app; [|apply (bool_decide_unpack _); vm_compute; done].
  unfold version_line. by rewrite <-app_assoc.
Qed.

Section release.
Context {env : ShellEnv}.
Variables (operators : list (str * str)) (skip_ops header : list str) (products : list (str * str)).

(** The name occurs in a line only where the line names that operator. *)
Definition apart (n : str) (products : list (str * str)) : Prop :=
  (10%N ∉ n) ∧
  (∀ l, l ∈ header → contains n l = false) ∧
  (∀ pv, pv ∈ products → (contains n (name_line pv.1) = true ↔ n = pv.1) ∧
                         contains n (version_line pv.2) = false).

(** A version that [re.sub] takes literally, on one line. *)
Definition plain (v : str) : Prop := v ≠ [] ∧ (10%N ∉ v) ∧ contains "\" v = false.

Lemma operator_in_none ops line :
  Forall (λ q, (10%N ∉ q.1) ∧ contains q.1 line = false) ops → operator_in ops (line ++ newline) = None.
Proof.
  unfold operator_in. induction 1 as [|[n v] ops [Hn Hc] _ IH]; [done|]. cbn [List.find fst] in *.
  by rewrite contains_newline, Hc.
Qed.

Lemma operator_in_name ops p :
  Forall (λ q, (10%N ∉ q.1) ∧ (contains q.1 (name_line p) = true ↔ q.1 = p)) ops →
  operator_in ops (name_line p ++ newline) = List.find (λ q, bool_decide (q.1 = p)) ops.
Proof.
  unfold operator_in. induction 1 as [|[n v] ops [Hn Hc] _ IH]; [done|]. cbn [List.find fst] in *.
  rewrite contains_newline by done. case_bool_decide as Hnp.
  - by rewrite (proj2 Hc).
  - destruct (contains n (name_line p)); [|done]. exfalso. by apply Hnp, Hc.
Qed.

(** The operators found while patching. *)
Definition found (products : list (str * str)) : list str :=
  omap (λ pv, fst <$> List.find (λ q, bool_decide (q.1 = pv.1)) operators) products.

Lemma patch_header lines rest out ops :
  Forall (λ l, (10%N ∉ l) ∧ Forall (λ q, (10%N ∉ q.1) ∧ contains q.1 l = false) operators) lines →
  patch_lines operators [] rest = Ok (out, ops) →
  patch_lines operators [] (((λ l, l ++ newline) <$> lines) ++ rest) = Ok (lines ++ out, ops).
Proof.
  intros HF Hrest. induction HF as [|l lines [Hl Ha] _ IH]; [done|].
  cbn [fmap list_fmap app patch_lines]. rewrite operator_in_none by done.
  rewrite IH. cbn [result_bind app]. by rewrite rstrip_char_newline.
Qed.

Lemma patch_products prods :
  Forall (λ q, apart q.1 prods ∧ plain q.2) operators →
  Forall (λ pv, (10%N ∉ pv.1) ∧ (10%N ∉ pv.2)) prods →
  patch_lines operators [] ((λ l, l ++ newline) <$> mjoin (product_lines <$> prods))
  = Ok (mjoin (product_lines <$> (chosen operators <$> prods)), found prods).
Proof.
  intros Hops HF. induction HF as [|[p v] prods [Hp Hv] _ IH]; [done|].
  assert (Hops' : Forall (λ q, apart q.1 prods ∧ plain q.2) operators).
  { eapply Forall_impl; [exact Hops|]. simpl. intros q ((H1 & H2 & H3) & H4).
    split; [|done]. split; [done|split; [done|]]. intros pv Hpv. apply H3. by right. }
  specialize (IH Hops'). simpl in Hp, Hv.
  change (mjoin (product_lines <$> (p, v) :: prods))
    with (name_line p :: version_line v :: mjoin (product_lines <$> prods)).
  cbn [fmap list_fmap patch_lines]. rewrite operator_in_name.
  2: { eapply Forall_impl; [exact Hops|]. simpl. intros q ((H1 & H2 & H3) & H4).
       split; [done|]. by apply (H3 (p, v)); left. }
  assert (Hname : rstrip_char 10 (name_line p ++ newline) = name_line p).
  { apply rstrip_char_newline, not_elem_of_name_line; auto. }
  cbn [found omap list_omap chosen]. unfold chosen at 1. cbn [fst snd].
  match goal with |- context [List.find ?f operators] => destruct (List.find f operators) as [[op w]|] eqn:Ef end.
  - apply List.find_some in Ef as [Hin _]. rewrite Forall_forall in Hops.
    apply list_elem_of_In, Hops in Hin as [_ (Hw & Hwn & Hwb)]. simpl in Hw, Hwn, Hwb.
    destruct w as [|c w]; [done|]. unfold patch_version_line. rewrite Hwb.
    cbn [result_bind]. rewrite IH, sub_version_line by done. cbn [result_bind].
    rewrite Hname, rstrip_char_newline by (by apply not_elem_of_version_line). done.
  - rewrite operator_in_none.
    2: { eapply Forall_impl; [exact Hops|]. simpl. intros q ((H1 & H2 & H3) & H4).
         split; [done|]. by apply (H3 (p, v)); left. }
    rewrite IH. cbn [result_bind].
    rewrite Hname, rstrip_char_newline by (by apply not_elem_of_version_line). done.
Qed.

(** Leaving out sections. *)
Lemma find_none names line :
  Forall (λ n, contains n line = false) names → List.find (λ op, contains op line) names = None.
Proof. induction 1 as [|n names Hn _ IH]; [done|]. cbn [List.find]. by rewrite Hn. Qed.

Lemma find_name names p :
  Forall (λ n, contains n (name_line p) = true ↔ n = p) names →
  List.find (λ op, contains op (name_line p)) names = if decide (p ∈ names) then Some p else None.
Proof.
  induction 1 as [|n names Hn _ IH]; [by rewrite decide_False by apply not_elem_of_nil|].
  cbn [List.find]. destruct (contains n (name_line p)).
  - rewrite (proj1 Hn eq_refl), decide_True by left. done.
  - rewrite IH. apply decide_ext. rewrite elem_of_cons. split; [by right|].
    intros [->|]; [|done]. by pose proof (proj2 Hn eq_refl).
Qed.

Lemma skip_header lines rest :
  Forall (λ l, Forall (λ n, contains n l = false) skip_ops) lines →
  skip_operators skip_ops false (lines ++ rest) =
    (lines ++ (skip_operators skip_ops false rest).1, (skip_operators skip_ops false rest).2).
Proof.
  induction 1 as [|l lines Hl _ IH]; [by destruct (skip_operators _ _ _)|].
  cbn [app skip_operators]. by rewrite find_none, IH.
Qed.

Lemma skip_products prods :
  Forall (λ n, apart n prods) skip_ops →
  skip_operators skip_ops false (mjoin (product_lines <$> prods)) =
    (mjoin (product_lines <$> filter (λ pv, pv.1 ∉ skip_ops) prods), filter (λ p, p ∈ skip_ops) prods.*1).
Proof.
  induction prods as [|[p v] prods IH]; intros Hap; [done|].
  change (mjoin (product_lines <$> (p, v) :: prods))
    with (name_line p :: version_line v :: mjoin (product_lines <$> prods)).
  cbn [skip_operators fmap list_fmap]. rewrite find_name.
  2: { eapply Forall_impl; [exact Hap|]. intros n (_ & _ & H). by apply (H (p, v)); left. }
  rewrite !filter_cons. cbn [fst].
  assert (IH' := IH ltac:(eapply Forall_impl; [exact Hap|]; intros n (H1 & H2 & H3);
    split_and!; [done|done|]; intros pv Hpv; apply H3; by right)). clear IH.
  destruct (decide (p ∈ skip_ops)) as [Hin|Hin].
  - rewrite (decide_False (P := p ∉ skip_ops)) by naive_solver. by rewrite IH'.
  - rewrite (decide_True (P := p ∉ skip_ops)) by done.
    rewrite find_none.
    2: { eapply Forall_impl; [exact Hap|]. intros n (_ & _ & H). by apply (H (p, v)); left. }
    by rewrite IH'.
Qed.

Lemma all_found_spec wanted got : all_found wanted got = bool_decide (wanted ⊆ got).
Proof.
  apply eq_true_iff_eq. unfold all_found. rewrite forallb_forall, bool_decide_eq_true.
  split; intros H x Hx; [apply list_elem_of_In, H in Hx|apply list_elem_of_In in Hx; apply bool_decide_eq_true, H, Hx].
  by apply bool_decide_eq_true in Hx.
Qed.

Lemma elem_of_found prods op : op ∈ operators.*1 → (op ∈ found prods ↔ op ∈ prods.*1).
Proof.
  intros Hop. unfold found. rewrite list_elem_of_omap. setoid_rewrite fmap_Some.
  split.
  - intros (pv & Hpv & q & Hq%List.find_some & ->). destruct Hq as [_ Hq%bool_decide_eq_true].
    rewrite Hq. by apply (list_elem_of_fmap_2 fst).
  - intros (pv & -> & Hpv)%list_elem_of_fmap. exists pv. split; [done|].
    destruct (List.find (λ q, bool_decide (q.1 = pv.1)) operators) as [q|] eqn:E.
    + exists q. split; [done|]. by apply List.find_some in E as [_ ->%bool_decide_eq_true].
    + apply list_elem_of_fmap in Hop as (q & Hq1 & Hq2%list_elem_of_In).
      apply (List.find_none _ _ E) in Hq2. rewrite Hq1 in Hq2. by rewrite bool_decide_eq_true_2 in Hq2.
Qed.

End release.

Lemma text_lines lines :
  Forall (λ l, (10%N ∉ l) ∧ (13%N ∉ l)) lines →
  lines_keep (universal_newlines (text_of lines)) = (λ l, l ++ newline) <$> lines.
Proof.
  intros HF. unfold text_of. rewrite universal_newlines_id.
  - apply lines_keep_full, Forall_fmap. eapply Forall_impl; [exact HF|]. intros l [Hl _]. by exists l.
  - intros (l & Hin & (l' & -> & Hl')%list_elem_of_fmap)%list_elem_of_join.
    rewrite Forall_forall in HF. destruct (HF _ Hl') as [_ H13].
    apply elem_of_app in Hin as [Hin|Hin]; [done|]. by apply list_elem_of_singleton in Hin.
Qed.

Lemma header_lines (operators : list (str * str)) header products :
  Forall (λ l, (10%N ∉ l) ∧ (13%N ∉ l)) header →
  Forall (λ q : str * str, apart header q.1 products ∧ plain q.2) operators →
  Forall (λ l, (10%N ∉ l) ∧ Forall (λ q : str * str, (10%N ∉ q.1) ∧ contains q.1 l = false) operators) header.
Proof.
  rewrite !Forall_forall. intros Hh Ho l Hl. split; [by apply Hh|]. apply Forall_forall.
  intros q Hq. destruct (Ho q Hq) as [(? & H & _) _]. auto.
Qed.

(** ** Theorems *)

(** C25: on a release file of the repository's shape, the patched file is the
    specified one: every operator named by [--operator] has the version of the
    first such option, the sections of the operators named by [--skip-operator]
    are gone, nothing else changes, and a name that the file does not have is
    refused. *)
Theorem patched_contents_spec {env : ShellEnv} (operators : list (str * str)) (skip_ops header : list str)
    (products : list (str * str))
    (Hheader : Forall (λ l, (10%N ∉ l) ∧ (13%N ∉ l)) header)
    (Hproducts : Forall (λ pv, (10%N ∉ pv.1) ∧ (13%N ∉ pv.1) ∧ (10%N ∉ pv.2) ∧ (13%N ∉ pv.2)) products)
    (Hops : Forall (λ q, apart header q.1 products ∧ plain q.2) operators)
    (Hskip : Forall (λ n, apart header n (chosen operators <$> products)) skip_ops) :
  patched_contents operators skip_ops (text_of (release_lines header products))
    = patched_release operators skip_ops header products.
Proof.
  unfold patched_contents, release_lines. rewrite text_lines.
  2: { apply Forall_app. split; [done|]. apply Forall_join, Forall_fmap.
       eapply Forall_impl; [exact Hproducts|]. intros [p v] (? & ? & ? & ?). simpl in *.
       repeat constructor; simpl; try apply not_elem_of_name_line; auto; by apply not_elem_of_version_line. }
  rewrite fmap_app.
  assert (Hlines : Forall (λ pv : str * str, (10%N ∉ pv.1) ∧ (10%N ∉ pv.2)) products).
  { eapply Forall_impl; [exact Hproducts|]. simpl. naive_solver. }
  rewrite (patch_header operators _ _ _ _ (header_lines _ _ _ Hheader Hops)
             (patch_products operators header products Hops Hlines)).
  - cbn [result_bind]. rewrite all_found_spec, skip_header.
    2: { apply Forall_forall. intros l Hl. eapply Forall_impl; [exact Hskip|].
         intros n (_ & H & _). auto. }
    rewrite (skip_products skip_ops header) by done. cbn [fst snd]. rewrite all_found_spec.
    unfold patched_release. rewrite bool_decide_and.
    assert (operators.*1 ⊆ found operators products ↔ operators.*1 ⊆ products.*1) as Hf.
    { split; intros H x Hx; specialize (H x Hx); by apply (elem_of_found operators products). }
    rewrite (bool_decide_ext _ _ Hf). destruct (bool_decide (operators.*1 ⊆ products.*1)); [|done].
    assert (skip_ops ⊆ filter (λ p, p ∈ skip_ops) (chosen operators <$> products).*1 ↔
      skip_ops ⊆ products.*1) as Hs.
    { assert ((chosen operators <$> products).*1 = products.*1) as ->
        by (rewrite <-list_fmap_compose; by apply list_fmap_ext).
      split; intros H x Hx; specialize (H x Hx).
      - by apply list_elem_of_filter in H as [_ ?].
      - by apply list_elem_of_filter. }
    rewrite (bool_decide_ext _ _ Hs). by destruct (bool_decide (skip_ops ⊆ products.*1)).
Qed.

(** An operator given with an empty version counts as patched, so it is
    accepted, but no line is changed: the check that no option is silently
    discarded does not see it. *)
Theorem empty_version_is_ignored {env : ShellEnv} (names lines : list str) :
  cli_parse_operator_args "airflow=" = Some ("airflow", "") ∧
  ∃ patched, patch_lines ((λ n, (n, "")) <$> names) [] lines = Ok (rstrip_char 10 <$> lines, patched) ∧
    (∀ n, n ∈ patched ↔ ∃ l, l ∈ lines ∧ List.find (λ m, contains m l) names = Some n).
Proof.
  split; [reflexivity|].
  assert (Hin : ∀ l, operator_in ((λ n, (n, "")) <$> names) l =
    (λ n, (n, "")) <$> List.find (λ m, contains m l) names).
  { intros l. unfold operator_in. induction names as [|n ns IH]; [done|].
    cbn [fmap list_fmap List.find fst]. by destruct (contains n l). }
  induction lines as [|l lines (patched & IH & Hp)].
  { exists []. split; [done|]. intros n. split; [by intros ?%not_elem_of_nil|].
    by intros (l & ?%not_elem_of_nil & _). }
  cbn [patch_lines]. rewrite Hin. destruct (List.find (λ m, contains m l) names) as [n|] eqn:E; cbn [fmap option_fmap option_map].
  - exists (n :: patched). unfold lit at 2. cbn [app]. rewrite IH. split; [done|]. intros m.
    rewrite elem_of_cons, Hp. setoid_rewrite elem_of_cons. naive_solver.
  - exists patched. cbn [app]. rewrite IH. split; [done|]. intros m. rewrite Hp.
    setoid_rewrite elem_of_cons. naive_solver.
Qed.

(** The repository's release file, with an operator given on the command line. *)
Definition commons_header : list str :=
  ["# Contains all operators required to run the test suite."; "---"; "releases:";
   "  # Do not change the name of the release as it's referenced from scripts/run-tests"; "  tests:";
   "    releaseDate: 1970-01-01"; "    description: Integration test"; "    products:"].

Lemma patched_contents_spec_witness :
  patched_contents (env := scripted_shell (λ _, 0%Z) "" None false) [("commons", "0.0.0-pr1")] []
    (text_of (release_lines commons_header [("commons", "0.0.0-dev")]))
  = Ok (join newline (release_lines commons_header [("commons", "0.0.0-pr1")])).
Proof.
  assert (Forall (λ l, (10%N ∉ l) ∧ (13%N ∉ l)) commons_header) as H1
    by (apply (bool_decide_unpack _); vm_compute; done).
  assert (Forall (λ pv, (10%N ∉ pv.1) ∧ (13%N ∉ pv.1) ∧ (10%N ∉ pv.2) ∧ (13%N ∉ pv.2))
    [("commons" : str, "0.0.0-dev" : str)]) as H2 by (apply (bool_decide_unpack _); vm_compute; done).
  assert (Forall (λ q, apart commons_header q.1 [("commons" : str, "0.0.0-dev" : str)] ∧ plain q.2)
    [("commons" : str, "0.0.0-pr1" : str)]) as H3.
  { constructor; [|constructor]. split.
    - split; [apply (bool_decide_unpack _); vm_compute; done|]. split; apply Forall_forall;
        apply (bool_decide_unpack _); vm_compute; done.
    - split; [done|]. split; [apply (bool_decide_unpack _); vm_compute; done|vm_compute; done]. }
  assert (Forall (λ n, apart commons_header n (chosen [("commons" : str, "0.0.0-pr1" : str)] <$>
    [("commons" : str, "0.0.0-dev" : str)])) ([] : list str)) as H4 by constructor.
  etrans; [exact (patched_contents_spec (env := scripted_shell (λ _, 0%Z) "" None false)
    [("commons", "0.0.0-pr1")] [] commons_header [("commons", "0.0.0-dev")] H1 H2 H3 H4)|].
  vm_compute. reflexivity.
Defined.
