(* ===== verification/CommandLine.v ===== *)
(** Where the two programs meet: the command that auto-retry-tests.py builds is
    read back by run-tests. *)

From S2P Require Import Prelude PyStr PyDict PyFloat World RuntimeHistory TestModel TestExecutor.
From S2P Require Import Argparse RetryArgs RunTestsArgs.

(** The options run-tests should see for a call of [build_test_command]. *)
Definition requested (a : args) (test_name : option str) (skip_delete : bool) (work_dir : str) : options :=
  mkOptions skip_delete false false
    (if negb (parallel a =? 0)%Z && negb (truthy test_name) then parallel a else 2%Z)
    [] [] (if truthy test_name then test_name else None) None INFO None work_dir None.

Lemma parse_after_parallel (b : bool) z rest p :
  o_parallel p = 2%Z →
  parse_loop ((if b then ["--parallel"; str_of_Z z] else []) ++ rest) None false p
  = parse_loop rest None false (mkOptions (o_skip_delete p) (o_skip_tests p) (o_skip_release p)
      (if b then z else 2%Z) (o_operator p) (o_skip_operator p) (o_test p) (o_test_suite p)
      (o_log_level p) (o_namespace p) (o_work_dir p) (o_listener_class_preset p)).
Proof.
  intros Hp. destruct b; cbn [app].
  - destruct (is_value_str_of_Z (parser := run_tests_parser) z eq_refl) as [Hv Hd].
    erewrite (parse_loop_value _ OParallel); [reflexivity|reflexivity|done..|].
    destruct p. cbn. by rewrite read_int_str_of_Z.
  - destruct p. simpl in *. by subst.
Qed.

(** run-tests reads the arguments one option after the other, up to the extra ones. *)
Lemma build_test_command_parse (a : args) (test_name : option str) (skip_delete : bool) (work_dir : str) :
  (∀ t, test_name = Some t → head t ≠ Some 45%N) → work_dir ≠ [] ∧ head work_dir ≠ Some 45%N →
  ∃ argv, build_test_command a test_name skip_delete (Some work_dir) = "scripts/run-tests" :: argv ∧
    parse_args argv = parse_loop (extra_args a) None false (requested a test_name skip_delete work_dir).
Proof.
  intros Htest Hdir. eexists. split; [reflexivity|].
  unfold parse_args. rewrite parse_after_parallel by done. cbn [default_options o_skip_delete o_skip_tests
    o_skip_release o_operator o_skip_operator o_test o_test_suite o_log_level o_namespace o_work_dir
    o_listener_class_preset].
  set (n := if _ && _ then _ else _).
  assert (Hskip : ∀ rest, parse_loop ((if skip_delete then ["--skip-delete" : str] else []) ++ rest) None false
      (mkOptions false false false n [] [] None None INFO None "tests/_work" None)
    = parse_loop rest None false (mkOptions skip_delete false false n [] [] None None INFO None "tests/_work" None)).
  { intros rest. destruct skip_delete; [|done]. cbn [app]. by rewrite (parse_loop_flag _ OSkipDelete). }
  rewrite Hskip.
  assert (Htst : ∀ rest, parse_loop ((if truthy test_name then ["--test" : str; default [] test_name] else []) ++ rest)
      None false (mkOptions skip_delete false false n [] [] None None INFO None "tests/_work" None)
    = parse_loop rest None false (mkOptions skip_delete false false n [] []
        (if truthy test_name then test_name else None) None INFO None "tests/_work" None)).
  { intros rest. destruct test_name as [[|c t]|]; [done| |done]. cbn [truthy default app].
    destruct (is_value_no_dash (parser := run_tests_parser) (c :: t)) as [Hv Hd]; [by apply Htest|].
    by erewrite (parse_loop_value _ OTest). }
  rewrite Htst. destruct Hdir as [Hne Hdash]. destruct (is_value_no_dash (parser := run_tests_parser) work_dir Hdash) as [Hv Hd].
  destruct work_dir as [|c d]; [done|]. cbn [truthy default app].
  by erewrite (parse_loop_value _ OWorkDir).
Qed.

(** C26: run-tests understands the command line that the retry runner builds: it
    sees the test, the number of parallel tests (only for the whole suite, else
    its own default), the wish to keep the namespace and the work directory as they
    were meant, and the extra arguments come after these. *)
Theorem build_test_command_understood (a : args) (test_name : option str) (skip_delete : bool) (work_dir : str)
    (Htest : ∀ t, test_name = Some t → head t ≠ Some 45%N)
    (Hdir : work_dir ≠ [] ∧ head work_dir ≠ Some 45%N) :
  ∃ argv, build_test_command a test_name skip_delete (Some work_dir) = "scripts/run-tests" :: argv ∧
    parse_args argv = parse_loop (extra_args a) None false (requested a test_name skip_delete work_dir) ∧
    (extra_args a = [] → parse_args argv = Parsed (requested a test_name skip_delete work_dir)).
Proof.
  destruct (build_test_command_parse a test_name skip_delete work_dir Htest Hdir) as (argv & He & Hp).
  exists argv. split_and!; [done|done|]. intros Hx. by rewrite Hp, Hx.
Qed.

Lemma build_test_command_understood_witness :
  ∃ argv, build_test_command default_args (Some "smoke") true (Some "tests/_work_1") = "scripts/run-tests" :: argv ∧
    parse_args argv = Parsed (mkOptions true false false 2 [] [] (Some "smoke") None INFO None "tests/_work_1" None).
Proof.
  assert (∀ t, Some ("smoke" : str) = Some t → head t ≠ Some 45%N) as H1.
  { intros t H. injection H as <-. vm_compute. discriminate. }
  assert (("tests/_work_1" : str) ≠ [] ∧ head ("tests/_work_1" : str) ≠ Some 45%N) as H2.
  { split; [discriminate|vm_compute; discriminate]. }
  destruct (build_test_command_understood default_args (Some "smoke") true "tests/_work_1" H1 H2)
    as (argv & He & _ & Hp).
  exists argv. split; [exact He|]. apply Hp. reflexivity.
Defined.

(** C28: of the extra arguments on the retry runner's command line, run-tests accepts
    none that is given as an argument of its own: whatever command line was parsed, if
    it gives several extra arguments, or one that is not joined to [--extra-args] by an
    equals sign, and the first has no spaces in it, then every call of run-tests ends
    with exit code 2, the error of its parser for unrecognised arguments: none of the
    extra arguments can be one that makes it print its help or its version. *)
Theorem extra_args_rejected (argv : list str) (a : args) (x : str) (rest : list str)
    (test_name : option str) (skip_delete : bool) (work_dir : str)
    (Hparse : RetryArgs.parse_args argv = Parsed a) (Hextra : extra_args a = x :: rest)
    (Hmany : rest ≠ [] ∨ RetryArgs.plain x) (Hspace : contains " " x = false)
    (Htest : ∀ t, test_name = Some t → head t ≠ Some 45%N)
    (Hdir : work_dir ≠ [] ∧ head work_dir ≠ Some 45%N) :
  ∃ command, build_test_command a test_name skip_delete (Some work_dir) = "scripts/run-tests" :: command ∧
    RunTestsArgs.parse_args command = Exits 2.
Proof.
  destruct (build_test_command_parse a test_name skip_delete work_dir Htest Hdir) as (command & He & Hp).
  exists command. split; [done|]. assert (Forall RetryArgs.plain (x :: rest)) as HF.
  { assert (RetryArgs.extras_ok None a) as [_ [Hl|HF]].
    { eapply RetryArgs.parse_loop_extras_ok, Hparse. split; [done|left; apply Nat.le_0_l]. }
    - rewrite Hextra in Hl. destruct rest; [|cbn in Hl; lia]. apply Forall_singleton. by destruct Hmany.
    - by rewrite Hextra in HF. }
  rewrite Hp, Hextra. apply Forall_cons in HF as [[Hx Hdash] HF]. cbn [parse_loop]. rewrite decide_False by done.
  assert (is_value (parser := run_tests_parser) x = true) as Hv
    by by apply (is_value_transfer (p := RetryArgs.retry_parser)).
  unfold is_value in Hv. destruct (classify_token x); try done. apply parse_loop_extras.
  eapply Forall_impl; [exact HF|]. cbn. intros s [Hs _].
  eapply (value_does_not_exit (p := RetryArgs.retry_parser)); [done|..|done].
  by apply (bool_decide_unpack _).
Qed.

Lemma extra_args_rejected_witness :
  ∃ command,
    build_test_command (mkArgs 2 None ["openshift" : str; "smoke" : str] 1 2 false "test-results" None None) None false
      (Some ("tests/_work_1" : str)) = "scripts/run-tests" :: command ∧
    RunTestsArgs.parse_args command = Exits 2.
Proof.
  apply (extra_args_rejected ["--extra-args"; "openshift"; "smoke"] _ "openshift" ["smoke" : str]).
  - vm_compute. reflexivity.
  - reflexivity.
  - left. discriminate.
  - vm_compute. reflexivity.
  - discriminate.
  - split; [discriminate|vm_compute; discriminate].
Defined.
