(* ===== verification/HistoryRace.v ===== *)
(** Concurrent updates of the runtime history: what
    [StateManager.update_runtime_history] of scripts/auto-retry-tests.py does when
    the tasks of a thread pool call it at the same time.  One step is one statement,
    or one turn of the loop that copies the dictionary before it is saved; the
    dictionary maps names to mutable objects, which are shared. *)

From stdpp Require Import relations.
From S2P Require Import Prelude PyStr PyFloat PyDict PyTime Json World RuntimeHistory.

Import TestConstants.

(** ** Shared memory *)

(** [runtime_history], the [runtimes] of each object, the next free address, and
    the document saved last. *)
Record shared := mkShared {
  entries : dict nat;
  objects : gmap nat (list float);
  next : nat;
  saved : option (list (str * list float));
}.

(** Where a thread is in [update_runtime_history(test_name, duration)]. *)
Inductive pc :=
  | PCheck                                              (** [if test_name not in self.runtime_history] *)
  | PInsert                                             (** a new [RuntimeHistory] is assigned *)
  | PLookup                                             (** [self.runtime_history[test_name]] and the threshold *)
  | PAppend (o : nat)                                   (** [self.runtimes.append(duration)] *)
  | PTrim (o : nat)                                     (** [self.runtimes = self.runtimes[-50:]] if too long *)
  | PSave                                               (** the copy of the dictionary starts *)
  | PCopy (size pos : nat) (copy : list (str * list float))
  | PWrite (copy : list (str * list float))             (** [json.dump] *)
  | PDone
  | PFailed (e : exn).

Definition finished (p : pc) : bool :=
  match p with PDone | PFailed _ => true | _ => false end.

Definition object (s : shared) (o : nat) : list float := default [] (objects s !! o).

Definition set_object (o : nat) (l : list float) (s : shared) : shared :=
  mkShared (entries s) (<[o := l]> (objects s)) (next s) (saved s).

(** One step of a thread; [None] when it has finished.  Advancing an iterator over
    a dictionary whose size has changed raises [RuntimeError]. *)
Definition step_thread (test_name : str) (duration : float) (p : pc) (s : shared) : option (pc * shared) :=
  match p with
  | PCheck => Some (if dmem test_name (entries s) then PLookup else PInsert, s)
  | PInsert =>
      Some (PLookup, mkShared (dset test_name (next s) (entries s)) (<[next s := []]> (objects s))
                       (S (next s)) (saved s))
  | PLookup =>
      Some (match dget test_name (entries s) with
            | None => PFailed KeyError
            | Some o => if long_enough duration then PAppend o else PSave
            end, s)
  | PAppend o => Some (PTrim o, set_object o (object s o ++ [duration]) s)
  | PTrim o =>
      Some (PSave, if decide (MAX_RUNTIME_HISTORY < length (object s o))
                   then set_object o (last_n MAX_RUNTIME_HISTORY (object s o)) s else s)
  | PSave => Some (PCopy (length (entries s)) 0 [], s)
  | PCopy size pos copy =>
      Some (if decide (length (entries s) ≠ size) then PFailed RuntimeError
            else match entries s !! pos with
                 | Some (name, o) => PCopy size (S pos) (copy ++ [(name, object s o)])
                 | None => PWrite copy
                 end, s)
  | PWrite copy => Some (PDone, mkShared (entries s) (objects s) (next s) (Some copy))
  | PDone | PFailed _ => None
  end.

(** ** Interleavings *)

Section tasks.
Variable tasks : list (str * float).

(** Any thread may take the next step. *)
Inductive cstep : shared * list pc → shared * list pc → Prop :=
  | cstep_thread i name d p p' s s' ps :
      tasks !! i = Some (name, d) → ps !! i = Some p → step_thread name d p s = Some (p', s') →
      cstep (s, ps) (s', <[i := p']> ps).

Definition start (s : shared) : shared * list pc := (s, replicate (length tasks) PCheck).

(** Running a given schedule; impossible choices are skipped. *)
Fixpoint run_schedule (sched : list nat) (c : shared * list pc) : shared * list pc :=
  match sched with
  | [] => c
  | i :: sched' =>
      run_schedule sched'
        match tasks !! i, c.2 !! i with
        | Some (name, d), Some p =>
            match step_thread name d p c.1 with
            | Some (p', s') => (s', <[i := p']> c.2)
            | None => c
            end
        | _, _ => c
        end
  end.

Lemma run_schedule_steps sched c : rtc cstep c (run_schedule sched c).
Proof.
  revert c. induction sched as [|i sched IH]; intros [s ps]; [done|]. cbn [run_schedule fst snd].
  destruct (tasks !! i) as [[name d]|] eqn:Et; [|done].
  destruct (ps !! i) as [p|] eqn:Ep; [|done].
  destruct (step_thread name d p s) as [[p' s']|] eqn:Es; [|done].
  eapply rtc_l; [by econstructor|done].
Qed.

End tasks.

(** ** The invariant *)

(** The durations recorded for a name. *)
Definition contents (s : shared) (name : str) : option (list float) := object s <$> dget name (entries s).

(** Addresses are allocated, and no two names share an object. *)
Definition shared_ok (s : shared) : Prop :=
  (∀ name o, dget name (entries s) = Some o → o < next s) ∧
  (∀ name name' o, dget name (entries s) = Some o → dget name' (entries s) = Some o → name = name').

(** What a thread has done to the history of its test, which held [old] before. *)
Definition progress (name : str) (d : float) (old : option (list float)) (p : pc) (s : shared) : Prop :=
  let l := default [] old in
  match p with
  | PCheck => contents s name = old
  | PInsert => old = None ∧ contents s name = None
  | PLookup => contents s name = Some l
  | PAppend o => dget name (entries s) = Some o ∧ contents s name = Some l ∧ long_enough d = true
  | PTrim o => dget name (entries s) = Some o ∧ contents s name = Some (l ++ [d]) ∧ long_enough d = true
  | _ => contents s name = Some (if long_enough d then push_runtime d l else l)
  end.

(** A step touches only the history of the thread's own test. *)
Definition only (name : str) (s s' : shared) : Prop :=
  ∀ name', name' ≠ name →
    dget name' (entries s') = dget name' (entries s) ∧ contents s' name' = contents s name'.

Lemma only_refl name s : only name s s.
Proof. by intros ??. Qed.

Lemma contents_set_object name o l s :
  contents (set_object o l s) name =
    (λ o', if decide (o = o') then l else object s o') <$> dget name (entries s).
Proof.
  unfold contents, object, set_object. simpl. destruct (dget name (entries s)) as [o'|]; [|done].
  simpl. f_equal. case_decide; subst; [by rewrite lookup_insert_eq|by rewrite lookup_insert_ne].
Qed.

Lemma set_object_only name o l s :
  shared_ok s → dget name (entries s) = Some o →
  shared_ok (set_object o l s) ∧ only name s (set_object o l s) ∧ contents (set_object o l s) name = Some l.
Proof.
  intros Hok Ho. split; [done|]. split.
  - intros name' Hne. split; [done|]. rewrite contents_set_object. unfold contents.
    destruct (dget name' (entries s)) as [o'|] eqn:E; [|done]. simpl. rewrite decide_False; [done|].
    intros ->. destruct Hok as [_ Hinj]. by apply Hne, (Hinj _ _ o').
  - rewrite contents_set_object, Ho. simpl. by rewrite decide_True.
Qed.

Lemma insert_only name s :
  shared_ok s →
  let s' := mkShared (dset name (next s) (entries s)) (<[next s := []]> (objects s)) (S (next s)) (saved s) in
  shared_ok s' ∧ only name s s' ∧ contents s' name = Some [].
Proof.
  intros [Hlt Hinj]. split_and!.
  - split; simpl.
    + intros name' o. rewrite dget_dset. case_decide; [intros [= <-]; lia|]. intros Hx%Hlt. lia.
    + intros n1 n2 o. rewrite !dget_dset. repeat case_decide; subst; try done.
      * intros [= <-] Hx%Hlt. lia.
      * intros Hx%Hlt [= <-]. lia.
      * apply Hinj.
  - intros name' Hne. simpl. rewrite dget_dset_ne by done. split; [done|].
    unfold contents, object. simpl. rewrite dget_dset_ne by done.
    destruct (dget name' (entries s)) as [o|] eqn:E; [|done]. simpl. apply Hlt in E.
    by rewrite lookup_insert_ne by lia.
  - unfold contents, object. simpl. rewrite dget_dset_eq. simpl. by rewrite lookup_insert_eq.
Qed.

Lemma step_thread_progress name d old p p' s s' :
  step_thread name d p s = Some (p', s') → shared_ok s → progress name d old p s →
  shared_ok s' ∧ only name s s' ∧ progress name d old p' s'.
Proof.
  intros Hstep Hok Hp. destruct p; simplify_eq/=; try (split_and!; [done|apply only_refl|done]).
  - split_and!; [done|apply only_refl|]. destruct (dmem name (entries s')) eqn:E; simpl.
    + apply dmem_true, dget_is_Some in E as [o Ho]. unfold contents. by rewrite Ho.
    + apply dmem_false in E. unfold contents in *. by rewrite E.
  - destruct Hp as [-> _]. simpl. by apply insert_only.
  - split_and!; [done|apply only_refl|]. unfold contents in Hp.
    destruct (dget name (entries s')) as [o|] eqn:E; [|done]. simpl in Hp.
    destruct (long_enough d) eqn:El; simpl; unfold contents; rewrite ?E, ?El; auto.
  - destruct Hp as (Ho & Hc & Hl). unfold contents in Hc. rewrite Ho in Hc. simpl in Hc.
    injection Hc as Hc. rewrite Hc. edestruct set_object_only as (H1 & H2 & H3); [done..|].
    split_and!; [exact H1|exact H2|done|exact H3|done].
  - destruct Hp as (Ho & Hc & Hl). rewrite Hl. unfold contents in Hc. rewrite Ho in Hc. simpl in Hc.
    injection Hc as Hc. rewrite Hc. unfold push_runtime. case_decide.
    + by apply set_object_only.
    + split_and!; [done|apply only_refl|]. unfold contents. rewrite Ho. cbn. by f_equal.
  - split_and!; [done|apply only_refl|]. destruct (decide _); [done|]. by destruct (entries s' !! pos) as [[]|].
  - by split_and!.
Qed.

(** What holds of all threads, whatever the schedule. *)
Definition all_progress (tasks : list (str * float)) (s0 : shared) (c : shared * list pc) : Prop :=
  shared_ok c.1 ∧ length c.2 = length tasks ∧
  (∀ i name d p, tasks !! i = Some (name, d) → c.2 !! i = Some p →
     progress name d (contents s0 name) p c.1) ∧
  (∀ name, name ∉ tasks.*1 → contents c.1 name = contents s0 name).

Lemma progress_only name name' d old p s s' :
  name ≠ name' → only name' s s' → progress name d old p s → progress name d old p s'.
Proof.
  intros Hne Ho. destruct (Ho name Hne) as [H1 H2]. destruct p; simpl; rewrite ?H1, ?H2; done.
Qed.

Lemma all_progress_step tasks s0 c c' :
  NoDup tasks.*1 → all_progress tasks s0 c → cstep tasks c c' → all_progress tasks s0 c'.
Proof.
  intros Hnd Hc Hst. destruct Hst as [i name d p p' s s' ps Ht Hp Hstep].
  destruct Hc as (Hok & Hlen & Hall & Hrest). simpl in *.
  destruct (step_thread_progress _ _ _ _ _ _ _ Hstep Hok (Hall _ _ _ _ Ht Hp)) as (Hok' & Honly & Hprog).
  split_and!; simpl; [done|by rewrite length_insert| |].
  - intros j name' d' q Ht' Hq. destruct (decide (i = j)) as [<-|Hij].
    + rewrite list_lookup_insert_eq in Hq by (by eapply lookup_lt_Some). by simplify_eq.
    + rewrite list_lookup_insert_ne in Hq by done. eapply progress_only; [|exact Honly|by eapply Hall].
      intros ->. apply Hij. eapply (NoDup_lookup _ _ _ _ Hnd); rewrite list_lookup_fmap.
      * by rewrite Ht.
      * by rewrite Ht'.
  - intros name' Hn. rewrite <-Hrest by done. apply Honly. intros ->. apply Hn.
    apply (list_elem_of_fmap_2 fst _ (name, d)). by eapply list_elem_of_lookup_2.
Qed.

Lemma all_progress_reachable tasks s0 c :
  NoDup tasks.*1 → shared_ok s0 → rtc (cstep tasks) (start tasks s0) c → all_progress tasks s0 c.
Proof.
  intros Hnd Hok Hrtc. cut (all_progress tasks s0 (start tasks s0)).
  { intros H. induction Hrtc as [|x y z Hxy _ IH]; [done|]. by apply IH, (all_progress_step _ _ x). }
  split_and!; simpl; [done|by rewrite length_replicate| |done].
  intros i name d p _ Hp. apply lookup_replicate in Hp as [-> _]. done.
Qed.

(** ** Termination *)

(** The steps a thread has left at most, while the dictionary has at most [k]
    entries. *)
Definition pc_work (k : nat) (p : pc) : nat :=
  match p with
  | PCheck => k + 9
  | PInsert => k + 8
  | PLookup => k + 7
  | PAppend _ => k + 6
  | PTrim _ => k + 5
  | PSave => k + 4
  | PCopy size pos _ => size - pos + 2
  | PWrite _ => 1
  | PDone | PFailed _ => 0
  end.

(** Threads that may still insert an entry. *)
Definition may_insert (p : pc) : nat := match p with PCheck | PInsert => 1 | _ => 0 end.

Definition work (k : nat) (c : shared * list pc) : nat := sum_list_with (pc_work k) c.2.
Definition room (c : shared * list pc) : nat := length (entries c.1) + sum_list_with may_insert c.2.

(** A test that has been looked for and found is there to stay. *)
Definition found (tasks : list (str * float)) (c : shared * list pc) : Prop :=
  length c.2 = length tasks ∧
  ∀ i name d, tasks !! i = Some (name, d) →
    match c.2 !! i with
    | Some PLookup => dmem name (entries c.1) = true
    | Some (PFailed e) => e = RuntimeError
    | _ => True
    end.

Lemma length_dset k v (d : dict nat) : length (dset k v d) ≤ S (length d).
Proof.
  induction d as [|[k' v'] d IH]; simpl; [done|]. destruct (decide _); simpl; lia.
Qed.

Lemma dmem_dset k k' v (d : dict nat) : dmem k d = true → dmem k (dset k' v d) = true.
Proof. rewrite !dmem_true, elem_of_dkeys_dset. auto. Qed.

(** What one step of a thread does to the measures. *)
Lemma step_thread_measure name d p p' s s' k :
  step_thread name d p s = Some (p', s') → length (entries s) ≤ k →
  pc_work k p' < pc_work k p ∧
  length (entries s') + may_insert p' ≤ length (entries s) + may_insert p.
Proof.
  intros Hstep Hk. destruct p; cbn in Hstep; simplify_eq/=.
  - destruct (dmem name (entries s')); simpl; lia.
  - pose proof (length_dset name (next s) (entries s)). lia.
  - destruct (dget name (entries s')); simpl; [destruct (long_enough d)|]; simpl; lia.
  - lia.
  - destruct (decide _); simpl; lia.
  - lia.
  - destruct (decide (length (entries s') ≠ size)) as [?|Hsize]; [simpl; lia|].
    destruct (entries s' !! pos) as [[name' o]|] eqn:Hpos; simpl; [|lia].
    apply lookup_lt_Some in Hpos. apply dec_stable in Hsize. lia.
  - lia.
Qed.

(** Entries stay, and a test that was looked for stays found; failing is failing to copy. *)
Lemma step_thread_found name d p p' s s' :
  step_thread name d p s = Some (p', s') → (p = PLookup → dmem name (entries s) = true) →
  (∀ n, dmem n (entries s) = true → dmem n (entries s') = true) ∧
  (p' = PLookup → dmem name (entries s') = true) ∧ (∀ e, p' = PFailed e → e = RuntimeError).
Proof.
  intros Hs Hp. destruct p; cbn in Hs; simplify_eq/=; try (split_and!; done).
  - destruct (dmem name (entries s')) eqn:E; by split_and!.
  - split_and!; [by intros n; apply dmem_dset| |done]. intros _. apply dmem_true, elem_of_dkeys_dset. by left.
  - specialize (Hp eq_refl). apply dmem_true, dget_is_Some in Hp as [o ->]. by destruct (long_enough d).
  - destruct (decide _); by split_and!.
  - destruct (decide _); [split_and!; [done..|]; by intros e [= <-]|].
    destruct (entries s' !! pos) as [[]|]; by split_and!.
Qed.

(** Without new tests, nothing is inserted and every copy goes through. *)
Definition undisturbed (n : nat) (p : pc) : Prop :=
  match p with PInsert | PFailed _ => False | PCopy size _ _ => size = n | _ => True end.

Lemma step_thread_undisturbed name d p p' s s' :
  step_thread name d p s = Some (p', s') → dmem name (entries s) = true →
  undisturbed (length (entries s)) p → entries s' = entries s ∧ undisturbed (length (entries s)) p'.
Proof.
  intros Hs Hd Hp. destruct p; cbn in Hs; simplify_eq/=; try done.
  - by rewrite Hd.
  - apply dmem_true, dget_is_Some in Hd as [o ->]. by destruct (long_enough d).
  - destruct (decide _); done.
  - rewrite decide_False by auto. by destruct (entries s' !! pos) as [[]|].
Qed.

(** A thread that nobody disturbs. *)
Definition lone (name : str) (d : float) (x y : pc * shared) : Prop := step_thread name d x.1 x.2 = Some y.

Lemma lone_copies name d s pos copy :
  ∃ s', rtc (lone name d) (PCopy (length (entries s)) pos copy, s) (PDone, s').
Proof.
  remember (length (entries s) - pos) as n eqn:Hn. revert pos copy Hn.
  induction n as [|n IH]; intros pos copy Hn; (destruct (entries s !! pos) as [[name' o]|] eqn:E;
    [apply lookup_lt_Some in E as Hlt|]); try lia.
  1,3: eexists; eapply rtc_l; [unfold lone; cbn; rewrite decide_False by auto; by rewrite E|];
    eapply rtc_l; [done|constructor].
  destruct (IH (S pos) (copy ++ [(name', object s o)])) as [s' Hs']; [lia|]. exists s'.
  eapply rtc_l; [|exact Hs']. unfold lone. cbn. rewrite decide_False by auto. by rewrite E.
Qed.

Lemma lone_saves name d s : ∃ s', rtc (lone name d) (PSave, s) (PDone, s').
Proof. destruct (lone_copies name d s 0 []) as [s' Hs']. exists s'. by eapply rtc_l. Qed.

Lemma lone_looks_up name d s : dmem name (entries s) = true → ∃ s', rtc (lone name d) (PLookup, s) (PDone, s').
Proof.
  intros [o Ho]%dmem_true%dget_is_Some. destruct (long_enough d) eqn:El.
  - set (s1 := set_object o (object s o ++ [d]) s).
    set (s2 := if decide (MAX_RUNTIME_HISTORY < length (object s1 o))
               then set_object o (last_n MAX_RUNTIME_HISTORY (object s1 o)) s1 else s1).
    destruct (lone_saves name d s2) as [s' Hs']. exists s'. eapply rtc_l; [unfold lone; cbn; by rewrite Ho, El|].
    eapply rtc_l; [done|]. by eapply rtc_l.
  - destruct (lone_saves name d s) as [s' Hs']. exists s'. eapply rtc_l; [unfold lone; cbn; by rewrite Ho, El|done].
Qed.

Lemma lone_done name d s : ∃ s', rtc (lone name d) (PCheck, s) (PDone, s').
Proof.
  destruct (dmem name (entries s)) eqn:E.
  - destruct (lone_looks_up name d s E) as [s' Hs']. exists s'. eapply rtc_l; [unfold lone; cbn; by rewrite E|done].
  - set (s1 := mkShared (dset name (next s) (entries s)) (<[next s := []]> (objects s)) (S (next s)) (saved s)).
    destruct (lone_looks_up name d s1) as [s' Hs']; [apply dmem_true, elem_of_dkeys_dset; by left|]. exists s'.
    eapply rtc_l; [unfold lone; cbn; by rewrite E|]. by eapply rtc_l.
Qed.

(** The dictionary stays within its bound, and the work gets less. *)
Lemma cstep_work tasks k c c' :
  cstep tasks c c' → room c ≤ k → room c' ≤ k ∧ work k c' < work k c.
Proof.
  intros Hstep Hroom. destruct Hstep as [i name d p p' s s' ps Ht Hp Hs]. unfold room, work in *. cbn in *.
  destruct (step_thread_measure name d p p' s s' k Hs) as [Hw Hr]; [lia|].
  pose proof (sum_list_insert (pc_work k) ps i p p' Hp). pose proof (sum_list_insert may_insert ps i p p' Hp).
  split; lia.
Qed.

Lemma work_start k n : sum_list_with (pc_work k) (replicate n PCheck) = n * (k + 9).
Proof. induction n; simpl; lia. Qed.

Lemma room_start tasks s0 : room (start tasks s0) = length (entries s0) + length tasks.
Proof.
  unfold room, start. cbn. f_equal. induction (length tasks); simpl; lia.
Qed.

(** Steps are bounded by the work. *)
Lemma nsteps_work tasks k n c c' :
  nsteps (cstep tasks) n c c' → room c ≤ k → room c' ≤ k ∧ n + work k c' ≤ work k c.
Proof.
  induction 1 as [c|n c1 c2 c3 Hstep _ IH]; intros Hroom; [lia|].
  destruct (cstep_work _ _ _ _ Hstep Hroom) as [Hroom' Hw]. destruct (IH Hroom'). lia.
Qed.

Lemma cstep_terminates tasks k c : room c ≤ k → sn (cstep tasks) c.
Proof.
  remember (work k c) as n eqn:Hn. revert c Hn. induction (lt_wf n) as [n _ IH]. intros c -> Hroom.
  constructor. intros c' Hc'. destruct (cstep_work _ _ _ _ Hc' Hroom) as [? ?]. by eapply IH.
Qed.

(** Failing threads fail while copying. *)
Lemma found_step tasks c c' : cstep tasks c c' → found tasks c → found tasks c'.
Proof.
  intros Hstep [Hlen Hf]. destruct Hstep as [i name d p p' s s' ps Ht Hp Hs]. cbn in *.
  split; cbn; [by rewrite length_insert|]. intros j name' d' Htj.
  destruct (decide (i = j)) as [<-|Hne].
  - rewrite list_lookup_insert_eq by (by eapply lookup_lt_Some). simplify_eq.
    specialize (Hf i name d Ht). rewrite Hp in Hf. destruct p; cbn in Hs; simplify_eq/=; try done.
    + by destruct (dmem name (entries s')) eqn:E.
    + apply dmem_true. apply elem_of_dkeys_dset. by left.
    + apply dmem_true, dget_is_Some in Hf as [o ->]. by destruct (long_enough d).
    + destruct (decide _); [done|]. by destruct (entries s' !! pos) as [[]|].
  - rewrite list_lookup_insert_ne by done. specialize (Hf j name' d' Htj).
    destruct (ps !! j) as [[]|]; try done.
    destruct p; cbn in Hs; simplify_eq/=; try done; [by apply dmem_dset|].
    by destruct (decide (MAX_RUNTIME_HISTORY < _)).
Qed.

Lemma found_reachable tasks c c' : rtc (cstep tasks) c c' → found tasks c → found tasks c'.
Proof. induction 1 as [|x y z H _ IH]; [done|]. intros Hf. by apply IH, (found_step _ x). Qed.

Lemma start_found tasks s0 : found tasks (start tasks s0).
Proof.
  split; [apply length_replicate|]. intros i name d Ht. cbn.
  by rewrite lookup_replicate_2 by (by eapply lookup_lt_Some).
Qed.

(** ** Theorems *)

(** C30: concurrent tasks for distinct tests lose no duration: under every schedule,
    when all have finished, each test's history is its old one with the task's
    duration pushed (if it is long enough), and other tests' histories are as they
    were. *)
Theorem distinct_updates_not_lost (tasks : list (str * float)) (s0 s : shared) (ps : list pc)
    (Hnd : NoDup tasks.*1) (Hok : shared_ok s0)
    (Hrun : rtc (cstep tasks) (start tasks s0) (s, ps)) (Hdone : Forall (λ p, p = PDone ∨ p = PFailed RuntimeError) ps) :
  (∀ name d, (name, d) ∈ tasks →
     contents s name =
       let old := default [] (contents s0 name) in
       Some (if long_enough d then push_runtime d old else old)) ∧
  (∀ name, name ∉ tasks.*1 → contents s name = contents s0 name).
Proof.
  destruct (all_progress_reachable _ _ _ Hnd Hok Hrun) as (_ & Hlen & Hall & Hrest). simpl in *.
  split; [|done]. intros name d [i Hi]%list_elem_of_lookup.
  destruct (lookup_lt_is_Some_2 ps i) as [p Hp].
  { rewrite Hlen. by eapply lookup_lt_Some. }
  specialize (Hall _ _ _ _ Hi Hp). rewrite Forall_lookup in Hdone.
  by destruct (Hdone _ _ Hp) as [->| ->].
Qed.

Definition empty_shared : shared := mkShared [] ∅ 0 None.

(** C31: concurrent updates end under every schedule, after a number of steps that is
    bounded in advance, also if tests occur several times: and when no thread can go
    on, each has finished, or has failed because the dictionary changed while it was
    copied. *)
Theorem updates_terminate (tasks : list (str * float)) (s0 : shared) (c : shared * list pc)
    (Hrun : rtc (cstep tasks) (start tasks s0) c) :
  sn (cstep tasks) c ∧
  (∀ n c', nsteps (cstep tasks) n (start tasks s0) c' →
     n ≤ length tasks * (length (entries s0) + length tasks + 9)) ∧
  (¬ red (cstep tasks) c → Forall (λ p, p = PDone ∨ p = PFailed RuntimeError) c.2).
Proof.
  set (k := length (entries s0) + length tasks).
  assert (room (start tasks s0) ≤ k) as Hk by (rewrite room_start; done).
  split_and!.
  - apply rtc_nsteps in Hrun as [n Hn]. apply (cstep_terminates tasks k). by eapply nsteps_work.
  - intros n c' Hn. destruct (nsteps_work _ k _ _ _ Hn Hk) as [_ H].
    unfold work, start in H. cbn [snd] in H. rewrite (work_start k) in H. lia.
  - intros Hstuck. destruct (found_reachable _ _ _ Hrun (start_found tasks s0)) as [Hlen Hf].
    destruct c as [s ps]. cbn in *. apply Forall_lookup. intros i p Hp.
    destruct (lookup_lt_is_Some_2 tasks i) as [[name d] Ht].
    { rewrite <- Hlen. by eapply lookup_lt_Some. }
    specialize (Hf i name d Ht). rewrite Hp in Hf.
    destruct (step_thread name d p s) as [[p' s']|] eqn:Hs.
    { destruct Hstuck. eexists. by eapply cstep_thread. }
    destruct p; try discriminate Hs; [by left|right; by rewrite Hf].
Qed.

(** But two tasks for different new tests can make each other fail: when one
    inserts its test while the other copies the dictionary for saving, the copy
    raises [RuntimeError].  The exception leaves [update_runtime_history] and the
    whole test run with it, so that the result of a finished test is dropped. *)
Theorem concurrent_insert_breaks_saving :
  ∃ s, rtc (cstep [("a", float_of_Z 40); ("b", float_of_Z 41)])
         (start [("a", float_of_Z 40); ("b", float_of_Z 41)] empty_shared)
         (s, [PFailed RuntimeError; PDone]) ∧
    contents s "a" = Some [float_of_Z 40] ∧
    saved s = Some [("a", [float_of_Z 40]); ("b", [float_of_Z 41])].
Proof.
  pose (sched := replicate 7 0 ++ replicate 6 1 ++ [0] ++ replicate 10 1).
  pose (c := run_schedule [("a", float_of_Z 40); ("b", float_of_Z 41)] sched
    (start [("a", float_of_Z 40); ("b", float_of_Z 41)] empty_shared)).
  assert (c.2 = [PFailed RuntimeError; PDone]) as Hc by (vm_compute; reflexivity).
  exists c.1. split_and!; [|vm_compute; reflexivity..].
  rewrite <-Hc. rewrite <-surjective_pairing. apply run_schedule_steps.
Qed.

(** Two tasks for the same test can lose a duration: both find the test
    missing, and the object in which the first recorded its duration is replaced by
    that of the second. *)
Theorem duplicate_tests_lose_update :
  ∃ s, rtc (cstep [("a", float_of_Z 40); ("a", float_of_Z 41)])
         (start [("a", float_of_Z 40); ("a", float_of_Z 41)] empty_shared)
         (s, [PDone; PDone]) ∧
    contents s "a" = Some [float_of_Z 41].
Proof.
  pose (sched := [1] ++ replicate 10 0 ++ replicate 10 1).
  pose (c := run_schedule [("a", float_of_Z 40); ("a", float_of_Z 41)] sched
    (start [("a", float_of_Z 40); ("a", float_of_Z 41)] empty_shared)).
  assert (c.2 = [PDone; PDone]) as Hc by (vm_compute; reflexivity).
  exists c.1. split; [|vm_compute; reflexivity].
  rewrite <-Hc. rewrite <-surjective_pairing. apply run_schedule_steps.
Qed.

Lemma distinct_updates_not_lost_witness :
  let tasks := [("a", float_of_Z 40); ("b", float_of_Z 41)] in
  let c := run_schedule tasks (replicate 7 0 ++ replicate 20 1 ++ [0]) (start tasks empty_shared) in
  c.2 = [PFailed RuntimeError; PDone] ∧
  contents c.1 "a" = Some (push_runtime (float_of_Z 40) []) ∧
  contents c.1 "b" = Some (push_runtime (float_of_Z 41) []).
Proof.
  intros tasks c.
  assert (NoDup tasks.*1) as H1 by (apply (bool_decide_unpack _); vm_compute; done).
  assert (shared_ok empty_shared) as H2 by (split; intros ? ?; done).
  assert (rtc (cstep tasks) (start tasks empty_shared) (c.1, c.2)) as H3.
  { rewrite <-surjective_pairing. apply run_schedule_steps. }
  assert (c.2 = [PFailed RuntimeError; PDone]) as H4 by (vm_compute; reflexivity).
  assert (Forall (λ p, p = PDone ∨ p = PFailed RuntimeError) c.2) as H5.
  { rewrite H4. constructor; [by right|]. constructor; [by left|constructor]. }
  destruct (distinct_updates_not_lost tasks empty_shared c.1 c.2 H1 H2 H3 H5) as [H _].
  split; [exact H4|]. split.
  - apply (H "a" (float_of_Z 40)). left.
  - apply (H "b" (float_of_Z 41)). right. left.
Defined.

Lemma updates_terminate_witness :
  sn (cstep [("a", float_of_Z 40); ("a", float_of_Z 41)])
    (start [("a", float_of_Z 40); ("a", float_of_Z 41)] empty_shared).
Proof. apply (updates_terminate _ empty_shared). constructor. Defined.
