(* ===== verification/SaveRace.v ===== *)
(** Concurrent saving: [StateManager.safe_json_operation("save", ..)] of
    scripts/auto-retry-tests.py called by several threads for the same file.  Opening
    a file for writing truncates it; every file object has a position of its own, at
    which [json.dump] writes one piece of the document after the other. *)

From stdpp Require Import relations.
From Stdlib Require Import SpecFloat.
From S2P Require Import Prelude PyStr PyFloat PyDict PyTime Json World RuntimeHistory TestModel.
From S2P Require Import StateManager Argparse.

(** ** Writing *)

(** Writing [c] at a position, over what is there; a gap is filled with zeros. *)
Definition write_at (pos : nat) (c f : str) : str :=
  take pos (f ++ replicate (pos - length f) 0%N) ++ c ++ drop (pos + length c) f.

(** Where a thread is: before [open(file_path, "w")], writing (the position, and the
    pieces that are left), or after the [with] block. *)
Inductive wpc :=
  | WOpen
  | WWriting (pos : nat) (pieces : list str)
  | WClosed.

Definition writing (p : wpc) : bool := match p with WWriting _ _ => true | _ => false end.

(** One step of a thread that saves the document made up of [pieces]. *)
Definition step_writer (pieces : list str) (p : wpc) (f : str) : option (wpc * str) :=
  match p with
  | WOpen => Some (WWriting 0 pieces, [])
  | WWriting pos (c :: l) => Some (WWriting (pos + length c) l, write_at pos c f)
  | WWriting _ [] => Some (WClosed, f)
  | WClosed => None
  end.

Section writers.
(** The documents, in pieces. *)
Variable docs : list (list str).

(** Any thread may take the next step. *)
Inductive wstep : str * list wpc → str * list wpc → Prop :=
  | wstep_thread i pieces p p' f f' ps :
      docs !! i = Some pieces → ps !! i = Some p → step_writer pieces p f = Some (p', f') →
      wstep (f, ps) (f', <[i := p']> ps).

(** The same, with a lock: a file is opened only while nobody writes it. *)
Inductive locked_step : str * list wpc → str * list wpc → Prop :=
  | locked_thread i pieces p p' f f' ps :
      docs !! i = Some pieces → ps !! i = Some p → step_writer pieces p f = Some (p', f') →
      (p = WOpen → Forall (λ q, writing q = false) ps) →
      locked_step (f, ps) (f', <[i := p']> ps).

Definition start (f : str) : str * list wpc := (f, replicate (length docs) WOpen).

(** ** Lemmas *)

Lemma write_at_0 c f : write_at 0 c f = c ++ drop (length c) f.
Proof. done. Qed.

Lemma write_at_nil pos f : pos ≤ length f → write_at pos [] f = f.
Proof.
  intros H. unfold write_at. replace (pos - length f) with 0 by lia.
  cbn. rewrite app_nil_r, Nat.add_0_r. apply take_drop.
Qed.

Lemma length_write_at pos c f : pos + length c ≤ length (write_at pos c f).
Proof. unfold write_at. rewrite !length_app, length_take, length_app, length_replicate. lia. Qed.

(** Writing two pieces is writing them joined. *)
Lemma write_at_app pos c d f :
  write_at (pos + length c) d (write_at pos c f) = write_at pos (c ++ d) f.
Proof.
  pose proof (length_write_at pos c f) as Hlen. unfold write_at at 1.
  replace (pos + length c - length (write_at pos c f)) with 0 by lia. cbn [replicate].
  rewrite app_nil_r. unfold write_at. set (p := take pos _).
  assert (length p = pos) as Hp.
  { unfold p. rewrite length_take, length_app, length_replicate. lia. }
  rewrite (app_assoc p c), take_app_length' by (rewrite length_app; lia).
  rewrite <- !app_assoc. f_equal. f_equal. f_equal.
  rewrite (app_assoc p c), drop_app_ge by (rewrite length_app; lia).
  rewrite drop_drop, length_app. f_equal. rewrite length_app. lia.
Qed.

(** A thread writes the pieces it has left, undisturbed. *)
Lemma write_pieces i pieces pos l f ps :
  docs !! i = Some pieces → ps !! i = Some (WWriting pos l) → pos ≤ length f →
  rtc wstep (f, ps) (write_at pos (mjoin l) f, <[i := WWriting (pos + length (mjoin l)) []]> ps).
Proof.
  intros Hd. revert pos f ps. induction l as [|c l IH]; intros pos f ps Hp Hlen.
  - cbn. rewrite write_at_nil, Nat.add_0_r by done. rewrite list_insert_id by done. constructor.
  - eapply rtc_l; [by eapply wstep_thread|].
    specialize (IH (pos + length c) (write_at pos c f) (<[i := WWriting (pos + length c) l]> ps)).
    rewrite list_lookup_insert_eq in IH by (by eapply lookup_lt_Some).
    specialize (IH eq_refl (length_write_at _ _ _)).
    rewrite write_at_app, list_insert_insert_eq in IH. cbn [mjoin list_join].
    rewrite length_app, Nat.add_assoc. exact IH.
Qed.

End writers.

(** A document that cannot be read is like none. *)
Lemma safe_load_bad {env : Env} path f e w :
  fs w !! path = Some (FText f) → env_json_loads f = Raise e →
  ∃ w', safe_json_operation "load" path JNull w = (Ok JNull, w').
Proof.
  intros Hf He. unfold safe_json_operation, safe_file_operation, read_json, open_read, catch, bind, tick.
  rewrite decide_True by done. destruct (env_open_fault (clock w) path) as [e'|].
  - destruct e'; cbn; rewrite ?decide_True by done; by eexists.
  - cbn. rewrite Hf. cbn. rewrite He. destruct e; cbn; rewrite ?decide_True by done; by eexists.
Qed.

(** With a lock, at most one thread writes, and the file holds what it has written so
    far; otherwise it holds a whole document. *)
Definition locked_ok (docs : list (list str)) (f0 : str) (c : str * list wpc) : Prop :=
  (Forall (λ p, writing p = false) c.2 ∧ (c.1 = f0 ∨ ∃ i l, docs !! i = Some l ∧ c.2 !! i = Some WClosed ∧ c.1 = mjoin l)) ∨
  (∃ i l left, docs !! i = Some l ∧ c.2 !! i = Some (WWriting (length c.1) left) ∧ c.1 ++ mjoin left = mjoin l ∧
     ∀ j p, j ≠ i → c.2 !! j = Some p → writing p = false).

Lemma locked_step_ok docs f0 c c' : locked_step docs c c' → locked_ok docs f0 c → locked_ok docs f0 c'.
Proof.
  intros Hstep Hok. destruct Hstep as [i l p p' f f' ps Hd Hp Hs Hlock]. unfold locked_ok in *. cbn in *.
  assert (i < length ps) as Hlt by by eapply lookup_lt_Some.
  destruct p as [|pos [|c pieces]|]; simplify_eq/=.
  - right. exists i, l, l. rewrite list_lookup_insert_eq by done. split_and!; [done..|].
    intros j p Hne Hj. rewrite list_lookup_insert_ne in Hj by done.
    specialize (Hlock eq_refl). rewrite Forall_lookup in Hlock. by eapply Hlock.
  - destruct Hok as [[Hall _]|(i' & l' & left & Hd' & Hw & Hjoin & Hothers)].
    { rewrite Forall_lookup in Hall. by specialize (Hall _ _ Hp). }
    destruct (decide (i' = i)) as [->|Hne]; [|by specialize (Hothers _ _ (not_eq_sym Hne) Hp)].
    simplify_eq. left. split.
    + apply Forall_lookup. intros j p Hj. destruct (decide (j = i)) as [->|Hne].
      * rewrite list_lookup_insert_eq in Hj by done. by simplify_eq.
      * rewrite list_lookup_insert_ne in Hj by done. by eapply Hothers.
    + right. exists i, l. rewrite list_lookup_insert_eq by done. cbn in Hjoin. rewrite app_nil_r in Hjoin. done.
  - destruct Hok as [[Hall _]|(i' & l' & left & Hd' & Hw & Hjoin & Hothers)].
    { rewrite Forall_lookup in Hall. by specialize (Hall _ _ Hp). }
    destruct (decide (i' = i)) as [->|Hne]; [|by specialize (Hothers _ _ (not_eq_sym Hne) Hp)].
    simplify_eq. right. exists i, l, pieces. rewrite list_lookup_insert_eq by done.
    assert (write_at (length f) c f = f ++ c) as ->.
    { unfold write_at. rewrite Nat.sub_diag. cbn. rewrite app_nil_r, firstn_all, drop_ge by lia.
      by rewrite app_nil_r. }
    rewrite length_app. split_and!; [done|done| |].
    + rewrite <- app_assoc. exact Hjoin.
    + intros j p Hne Hj. rewrite list_lookup_insert_ne in Hj by done. by eapply Hothers.
Qed.

Lemma locked_reachable docs f0 c c' :
  rtc (locked_step docs) c c' → locked_ok docs f0 c → locked_ok docs f0 c'.
Proof. induction 1 as [|x y z H _ IH]; [done|]. intros Hok. by apply IH, (locked_step_ok _ _ x). Qed.

(** ** Theorems *)

(** The document of [save_runtime_history]. *)
Definition history_document (h : dict RuntimeHistory) : json := JObj (dmap history_json h).

(** What the module [json] promises: what [json.dump] writes of a history can be read,
    and ends with a brace; and [json.load] reads an object up to its closing brace and
    fails ("Extra data") if anything but white space follows. *)
Class JsonObjects {env : Env} : Prop := {
  dumps_read : ∀ h, wf h → env_json_loads (env_json_dumps (history_document h)) = Ok (history_document h);
  dumps_brace : ∀ h, last (env_json_dumps (history_document h)) = Some 125%N;
  loads_extra : ∀ s d x, env_json_loads s = Ok (JObj d) → forallb is_space x = false →
    env_json_loads (s ++ x) = Raise JSONDecodeError;
}.

(** What a shorter document leaves of a longer one is not white. *)
Lemma longer_rest (l1 l2 : str) c :
  length l2 < length l1 → last l1 = Some c → is_space c = false → forallb is_space (drop (length l2) l1) = false.
Proof.
  intros Hlt Hlast Hc. apply not_true_iff_false. rewrite forallb_forall. intros Hall.
  rewrite (Hall c) in Hc; [done|]. apply list_elem_of_In, list_elem_of_lookup.
  rewrite last_lookup in Hlast. exists (pred (length l1) - length l2). rewrite lookup_drop.
  rewrite <-Hlast. f_equal. lia.
Qed.

(** C32: two threads that save at the same time can leave a file that is neither
    document and no JSON at all: if the texts of two runtime histories, in whatever
    pieces they are written, have different lengths, then a schedule overwrites the
    beginning of the longer one with the shorter one.  The next run of the program then
    starts without any runtime history, and says so in a message only. *)
Theorem overlapping_saves_corrupt {env : Env} {objects : JsonObjects} (h1 h2 : dict RuntimeHistory)
    (l1 l2 : list str) (f0 dir : str) (s : state) (Hh1 : wf h1) (Hh2 : wf h2)
    (Hl1 : mjoin l1 = env_json_dumps (history_document h1))
    (Hl2 : mjoin l2 = env_json_dumps (history_document h2))
    (Hlt : length (mjoin l2) < length (mjoin l1)) :
  ∃ f, rtc (wstep [l1; l2]) (start [l1; l2] f0) (f, [WClosed; WClosed]) ∧
    f ≠ mjoin l1 ∧ f ≠ mjoin l2 ∧ env_json_loads f = Raise JSONDecodeError ∧
    (fs (wd s) !! runtime_file dir = Some (FText f) →
     ∃ w, load_runtime_history dir s = (Ok tt, mkState w (rn s))).
Proof.
  set (f := mjoin l2 ++ drop (length (mjoin l2)) (mjoin l1)). exists f.
  assert (env_json_loads f = Raise JSONDecodeError) as Hbad.
  { unfold f. eapply loads_extra; [rewrite Hl2; by apply dumps_read|].
    apply (longer_rest _ _ 125); [done|rewrite Hl1; apply dumps_brace|done]. }
  split_and!; [| | |done|].
  - eapply rtc_l; [by eapply (wstep_thread _ 0)|]. eapply rtc_l; [by eapply (wstep_thread _ 1)|]. cbn -[write_at].
    etrans; [apply (write_pieces _ 0 l1 0 l1); [done|done|apply Nat.le_0_l]|]. cbn -[write_at].
    etrans; [apply (write_pieces _ 1 l2 0 l2); [done|done|apply Nat.le_0_l]|]. cbn -[write_at].
    eapply rtc_l; [by eapply (wstep_thread _ 0)|]. eapply rtc_l; [by eapply (wstep_thread _ 1)|]. cbn -[write_at].
    rewrite !write_at_0, drop_nil, app_nil_r. constructor.
  - intros Heq. by rewrite Heq, Hl1, dumps_read in Hbad.
  - intros Heq. by rewrite Heq, Hl2, dumps_read in Hbad.
  - intros Hf. destruct (safe_load_bad _ _ _ _ Hf Hbad) as [w Hw]. exists w.
    unfold load_runtime_history, bind, on_world. by rewrite Hw.
Qed.

(** Whereas under a lock (or with one worker), under every schedule, the file
    holds a whole document whenever nobody is writing: the one that was there or that
    of a thread that has finished. *)
Theorem locked_saves_keep_documents (docs : list (list str)) (f0 f : str) (ps : list wpc)
    (Hrun : rtc (locked_step docs) (start docs f0) (f, ps))
    (Hrest : Forall (λ p, writing p = false) ps) :
  f = f0 ∨ ∃ i l, docs !! i = Some l ∧ ps !! i = Some WClosed ∧ f = mjoin l.
Proof.
  assert (locked_ok docs f0 (f, ps)) as [[_ H]|(i & l & left & _ & Hw & _)].
  - apply (locked_reachable _ _ _ _ Hrun). left. split; [|by left].
    apply Forall_lookup. intros i p Hp. by apply lookup_replicate in Hp as [-> _].
  - exact H.
  - rewrite Forall_lookup in Hrest. by specialize (Hrest _ _ Hw).
Qed.

(** ** Two documents *)

(** A text for every list of histories: its number, in binary, in braces. *)
Fixpoint bits (p : positive) : str :=
  match p with xH => [] | xO p => 48%N :: bits p | xI p => 49%N :: bits p end.

Fixpoint of_bits (s : str) : positive :=
  match s with [] => xH | c :: s => if (c =? 48)%N then xO (of_bits s) else xI (of_bits s) end.

Lemma of_bits_bits p : of_bits (bits p) = p.
Proof. induction p; simpl; by f_equal. Qed.

Lemma bits_no_brace p : 125%N ∉ bits p.
Proof. induction p; simpl; rewrite ?not_elem_of_cons; [by split|by split|apply not_elem_of_nil]. Qed.

#[local] Instance float_countable : Countable float.
Proof.
  refine (inj_countable'
    (λ x : float, match x with
     | S754_zero b => inl (inl b) | S754_infinity b => inl (inr b)
     | S754_nan => inr (inl tt) | S754_finite b m e => inr (inr (b, m, e)) end)
    (λ y, match y with
     | inl (inl b) => S754_zero b | inl (inr b) => S754_infinity b
     | inr (inl _) => S754_nan | inr (inr (b, m, e)) => S754_finite b m e end) _).
  by intros [].
Defined.

#[local] Instance RuntimeHistory_eq_dec : EqDecision RuntimeHistory.
Proof. solve_decision. Defined.

#[local] Instance RuntimeHistory_countable : Countable RuntimeHistory.
Proof.
  refine (inj_countable' (λ h, (rh_test_name h, runtimes h, last_updated h))
    (λ x, mkRuntimeHistory x.1.1 x.1.2 x.2) _). by intros [].
Defined.

Definition text_of (h : dict RuntimeHistory) : str := "{" ++ bits (encode h) ++ "}".

(** Which histories a document is made of. *)
Definition history_of (j : json) : RuntimeHistory :=
  match j with
  | JObj [(_, JStr n); (_, JList l); (_, JStr u)] =>
      mkRuntimeHistory n (omap (λ j, match j with JFloat x => Some x | _ => None end) l) u
  | _ => mkRuntimeHistory [] [] []
  end.

Lemma history_of_json h : history_of (history_json h) = h.
Proof.
  destruct h as [n l u]. cbn. f_equal. induction l as [|x l IH]; [done|]. cbn. by f_equal.
Qed.

Definition braced (s : str) : option (dict RuntimeHistory) :=
  h ← decode (A := dict RuntimeHistory) (of_bits (take (length s - 2) (drop 1 s)));
  if decide (s = text_of h) then Some h else None.

Lemma braced_text h : braced (text_of h) = Some h.
Proof.
  unfold braced. assert (take (length (text_of h) - 2) (drop 1 (text_of h)) = bits (encode h)) as ->.
  { change (drop 1 (text_of h)) with (bits (encode h) ++ [125%N]).
    change (length (text_of h)) with (S (length (bits (encode h) ++ [125%N]))).
    apply take_app_length'. rewrite length_app. cbn. lia. }
  rewrite of_bits_bits, decode_encode. cbn -[text_of]. by rewrite decide_True.
Qed.

Lemma braced_Some s h : braced s = Some h → s = text_of h.
Proof. unfold braced. intros (h' & _ & H)%bind_Some. by case_decide; simplify_eq. Qed.

(** An environment that writes and reads them. *)
Definition reading_env : Env := {|
  env_now := env_now (Env := quiet_env);
  env_time := env_time (Env := quiet_env);
  env_cwd := env_cwd (Env := quiet_env);
  env_environ := env_environ (Env := quiet_env);
  env_exists := env_exists (Env := quiet_env);
  env_open_fault := env_open_fault (Env := quiet_env);
  env_subprocess := env_subprocess (Env := quiet_env);
  env_command := env_command (Env := quiet_env);
  env_mkdir_fault := env_mkdir_fault (Env := quiet_env);
  env_rmtree_fault := env_rmtree_fault (Env := quiet_env);
  env_history_changed := env_history_changed (Env := quiet_env);
  env_mtime := env_mtime (Env := quiet_env);
  env_json_loads s := match braced s with Some h => Ok (history_document h) | None => Raise JSONDecodeError end;
  env_json_dumps j := match j with JObj d => text_of ((λ kv, (kv.1, history_of kv.2)) <$> d) | _ => "null" end;
  env_order := env_order (Env := quiet_env);
  env_order_perm := env_order_perm (Env := quiet_env);
|}.

Lemma reading_env_dumps h : env_json_dumps (Env := reading_env) (history_document h) = text_of h.
Proof.
  apply (f_equal text_of). unfold dmap. rewrite <-list_fmap_compose. transitivity (id <$> h); [|apply list_fmap_id].
  apply list_fmap_ext. intros _ [k v] _.
  change ((k, history_of (history_json v)) = (k, v)). by rewrite history_of_json.
Qed.

Lemma reading_env_loads s : env_json_loads (Env := reading_env) s =
  match braced s with Some h => Ok (history_document h) | None => Raise JSONDecodeError end.
Proof. done. Qed.

#[local] Instance reading_env_objects : JsonObjects (env := reading_env).
Proof.
  split.
  - intros h _. by rewrite reading_env_dumps, reading_env_loads, braced_text.
  - intros h. rewrite reading_env_dumps. unfold text_of. rewrite app_assoc. apply last_snoc.
  - intros s d x. rewrite !reading_env_loads. destruct (braced s) as [h|] eqn:Es; [|done]. intros _ Hx.
    destruct (braced (s ++ x)) as [h'|] eqn:Ex; [|done]. exfalso.
    apply braced_Some in Es as ->. apply braced_Some, (f_equal (drop 1)) in Ex.
    change (drop 1 (text_of h ++ x)) with ((bits (encode h) ++ [125%N]) ++ x) in Ex.
    change (drop 1 (text_of h')) with (bits (encode h') ++ [125%N]) in Ex. rewrite <-app_assoc in Ex.
    apply (f_equal (split_once 125)) in Ex. cbn [app] in Ex.
    rewrite !split_once_app in Ex by apply bits_no_brace. by simplify_eq.
Qed.

Definition some_runner : runner := mkRunner [] [] (mkDatetime 1 1 1 0 0 0 0) [] 0 [] None [].

(** One history with a duration, and one without. *)
Lemma overlapping_saves_corrupt_witness :
  let h1 := [("a" : str, mkRuntimeHistory "a" [float_of_Z 40] "u")] in
  let h2 := [("a" : str, mkRuntimeHistory "a" [] "u")] in
  let l1 := [text_of h1] in
  let l2 := [text_of h2] in
  ∃ f, rtc (wstep [l1; l2]) (start [l1; l2] []) (f, [WClosed; WClosed]) ∧
    f ≠ text_of h1 ∧ f ≠ text_of h2.
Proof.
  intros h1 h2 l1 l2.
  assert (wf h1) as H1 by apply NoDup_singleton. assert (wf h2) as H2 by apply NoDup_singleton.
  assert (mjoin l1 = env_json_dumps (Env := reading_env) (history_document h1)) as Hl1 by (vm_compute; reflexivity).
  assert (mjoin l2 = env_json_dumps (Env := reading_env) (history_document h2)) as Hl2 by (vm_compute; reflexivity).
  assert (length (mjoin l2) < length (mjoin l1)) as Hlt by (apply (bool_decide_unpack _); vm_compute; exact I).
  destruct (overlapping_saves_corrupt (env := reading_env) h1 h2 l1 l2 [] "out"
    (mkState empty_world some_runner) H1 H2 Hl1 Hl2 Hlt) as (f & Hf & Hf1 & Hf2 & _).
  exists f. split; [exact Hf|split].
  - intros Heq. apply Hf1. rewrite Heq. vm_compute. reflexivity.
  - intros Heq. apply Hf2. rewrite Heq. vm_compute. reflexivity.
Defined.

Definition short_doc : list str := ["{"; "}"] : list str.

Lemma locked_saves_keep_documents_witness :
  ("{}" : str) = ("old" : str) ∨ ∃ i l, [short_doc] !! i = Some l ∧ [WClosed] !! i = Some WClosed ∧ ("{}" : str) = mjoin l.
Proof.
  apply (locked_saves_keep_documents [short_doc] "old" "{}" [WClosed]).
  - do 4 (eapply rtc_l; [eapply (locked_thread _ 0); [reflexivity|reflexivity|reflexivity|
      try done; intros _; repeat constructor]|]). constructor.
  - repeat constructor.
Defined.
