(* ===== verification/LogRace.v ===== *)
(** Concurrent runs of tests: [TestExecutor.run_single_test_suite] of
    scripts/auto-retry-tests.py called by the threads of a pool, with all that they
    share: the log files, the runtime history, and the cluster in which namespaces are
    deleted.  A file object writes at a position of its own (SaveRace.v); the output of
    the command goes to the same file object as the header.  The log is read again for
    the namespace and for the failed step; then the duration is recorded, by the steps
    of HistoryRace.v; then the namespace of a test that passed may be deleted.  The work
    directories, which are removed at the end, are not shared (RunNames.v). *)

From stdpp Require Import relations.
From S2P Require Import Prelude PyStr PyFloat PyDict PyTime Json World RuntimeHistory TestModel.
From S2P Require Import StateManager TestExecutor Returns Runner RunNames HistoryRace SaveRace.
Import TestConstants.

(** ** Reading a log *)

(** What is found in a log with the content [f]. *)
Definition namespace_in (f : str) : option str :=
  app NAMESPACE_GROUP_PREFIX <$> re_search NAMESPACE_PREFIX not_space (universal_newlines f).

Definition failed_step_in (f : str) : str :=
  match re_search "failed in step " step_char (universal_newlines f) with
  | Some g => "failed in step " ++ g
  | None => "Could not find failed step"
  end.

(** ** Tasks *)

(** A test run: the test, its log file, the header, the pieces of the command's output,
    the exit code, how long it took, and whether it was told to keep its namespace. *)
Record task := mkTask {
  t_name : str;
  t_log : str;
  t_header : str;
  t_output : list str;
  t_code : Z;
  t_duration : float;
  t_keep : bool;
}.

Definition t_success (t : task) : bool := (t_code t =? 0)%Z.
Definition t_text (t : task) : str := t_header t ++ mjoin (t_output t).

(** [if test_name and test_name != "full_suite"] *)
Definition t_recorded (t : task) : bool := bool_decide (t_name t ≠ [] ∧ t_name t ≠ "full_suite").

(** Where a thread is. *)
Inductive lpc :=
  | LOpen                                               (** [open(log_file, "w")] *)
  | LWriting (pos : nat) (pieces : list str)            (** header and output *)
  | LNamespace                                          (** [extract_test_namespace_from_log_file] *)
  | LStep (namespace : option str)                      (** [extract_failed_step] if not [success] *)
  | LHistory (namespace step : option str) (p : pc)     (** in [update_runtime_history] *)
  | LDelete (namespace step : option str)               (** [delete_test_namespace] *)
  | LDone (namespace step : option str)
  | LFailed (e : exn).                                  (** the result is lost *)

(** The log files, and the namespaces whose deletion was asked for. *)
Record logs := mkLogs { files : gmap str str; deleted : list str }.

Definition content (s : logs) (t : task) : str := default [] (files s !! t_log t).

Definition set_content (f : str) (t : task) (s : logs) : logs :=
  mkLogs (<[t_log t := f]> (files s)) (deleted s).

(** After a step of [update_runtime_history]. *)
Definition after_history (namespace step : option str) (p : pc) : lpc :=
  match p with
  | PDone => LDelete namespace step
  | PFailed e => LFailed e
  | _ => LHistory namespace step p
  end.

Definition step_task (t : task) (p : lpc) (m : logs * shared) : option (lpc * (logs * shared)) :=
  let '(s, h) := m in
  match p with
  | LOpen => Some (LWriting 0 (t_header t :: t_output t), (set_content [] t s, h))
  | LWriting pos (c :: l) =>
      Some (LWriting (pos + length c) l, (set_content (write_at pos c (content s t)) t s, h))
  | LWriting _ [] => Some (LNamespace, (s, h))
  | LNamespace => Some (LStep (namespace_in (content s t)), (s, h))
  | LStep namespace =>
      let step := if t_success t then None else Some (failed_step_in (content s t)) in
      Some (if t_recorded t then LHistory namespace step PCheck else LDelete namespace step, (s, h))
  | LHistory namespace step p =>
      match step_thread (t_name t) (t_duration t) p h with
      | Some (p', h') => Some (after_history namespace step p', (s, h'))
      | None => None
      end
  | LDelete namespace step =>
      Some (LDone namespace step,
            (if t_keep t && t_success t && truthy namespace
             then mkLogs (files s) (deleted s ++ [default [] namespace]) else s, h))
  | LDone _ _ | LFailed _ => None
  end.

Section tasks.
Variable tasks : list task.

(** Any thread may take the next step. *)
Inductive lstep : (logs * shared) * list lpc → (logs * shared) * list lpc → Prop :=
  | lstep_thread i t p p' m m' ps :
      tasks !! i = Some t → ps !! i = Some p → step_task t p m = Some (p', m') →
      lstep (m, ps) (m', <[i := p']> ps).

Definition start (m : logs * shared) : (logs * shared) * list lpc := (m, replicate (length tasks) LOpen).

(** A step, by cases. *)
Lemma step_task_inv t p p' s s' h h' :
  step_task t p (s, h) = Some (p', (s', h')) →
  (∃ n st q q', p = LHistory n st q ∧ step_thread (t_name t) (t_duration t) q h = Some (q', h') ∧
     p' = after_history n st q' ∧ s' = s) ∨
  ((∀ n st q, p ≠ LHistory n st q) ∧ h' = h).
Proof.
  destruct p as [|pos [|c l]| | |n st q| | |]; cbn; intros H; simplify_eq; try (right; by split).
  destruct (step_thread _ _ q h) as [[q' h1]|] eqn:E; [|done]. simplify_eq. left. by exists n, st, q, q'.
Qed.

(** ** Each thread and its own log *)

(** A thread whose log nobody else writes. *)
Definition own (t : task) (p : lpc) (s : logs) : Prop :=
  let step := if t_success t then None else Some (failed_step_in (t_text t)) in
  match p with
  | LOpen | LFailed _ => True
  | LWriting pos l => pos = length (content s t) ∧ content s t ++ mjoin l = t_text t
  | LNamespace => content s t = t_text t
  | LStep n => content s t = t_text t ∧ n = namespace_in (t_text t)
  | LHistory n st _ | LDelete n st | LDone n st =>
      content s t = t_text t ∧ n = namespace_in (t_text t) ∧ st = step
  end.

(** The deletions were asked for by tests that passed and found their own namespace. *)
Definition deletions_ok (s : logs) : Prop :=
  ∀ n, n ∈ deleted s → ∃ t, t ∈ tasks ∧ t_keep t = true ∧ t_success t = true ∧ namespace_in (t_text t) = Some n.

Definition logs_ok (c : (logs * shared) * list lpc) : Prop :=
  length c.2 = length tasks ∧ deletions_ok c.1.1 ∧
  ∀ i t p, tasks !! i = Some t → c.2 !! i = Some p → own t p c.1.1.

Lemma write_at_end c f : write_at (length f) c f = f ++ c.
Proof.
  unfold write_at. rewrite Nat.sub_diag. cbn. rewrite app_nil_r, firstn_all, drop_ge by lia.
  by rewrite app_nil_r.
Qed.

Lemma content_set f t s : content (set_content f t s) t = f.
Proof. unfold content, set_content. cbn. by rewrite lookup_insert_eq. Qed.

Lemma content_other t t' p p' m m' :
  t_log t' ≠ t_log t → step_task t p m = Some (p', m') → content m'.1 t' = content m.1 t'.
Proof.
  intros Hne. unfold content. destruct m as [s h].
  destruct p as [|pos [|c l]| | |n st q| | |]; cbn; try destruct (_ && _); try destruct (step_thread _ _ _ _) as [[]|];
    intros; simplify_eq/=; by rewrite ?lookup_insert_ne.
Qed.

Lemma own_step t p p' m m' : step_task t p m = Some (p', m') → own t p m.1 → own t p' m'.1.
Proof.
  destruct m as [s h].
  destruct p as [|pos [|c l]| | |n st q| | |]; cbn -[write_at step_thread]; intros H; simplify_eq; cbn -[write_at].
  - intros _. by rewrite content_set.
  - rewrite app_nil_r. by intros [_ ?].
  - intros [-> H]. by rewrite content_set, write_at_end, length_app, <-app_assoc.
  - by intros ->.
  - intros [H ->]. rewrite H. by destruct (t_recorded t).
  - destruct (step_thread _ _ _ _) as [[q' h']|]; [|done]. simplify_eq. cbn. by destruct q'.
  - by destruct (_ && _).
Qed.

Lemma own_other t p s s' : content s' t = content s t → own t p s → own t p s'.
Proof. intros H. unfold own. by rewrite H. Qed.

Lemma lstep_ok c c' : NoDup (t_log <$> tasks) → lstep c c' → logs_ok c → logs_ok c'.
Proof.
  intros Hnd Hstep (Hlen & Hdel & Hown). destruct Hstep as [i t p p' m m' ps Ht Hp Hs]. cbn in *.
  assert (own t p' m'.1) as Hown'.
  { eapply own_step; [exact Hs|by eapply Hown]. }
  split_and!; cbn.
  - by rewrite length_insert.
  - intros n Hn. destruct (decide (n ∈ deleted m.1)) as [?|Hnew]; [by apply Hdel|]. destruct m as [s h].
    destruct p as [|pos [|c l]| | |ns st q|ns st| |]; cbn -[step_thread] in Hs; simplify_eq/=; try done.
    + destruct (step_thread _ _ _ _) as [[q' h']|]; by simplify_eq.
    + destruct (t_keep t && t_success t && truthy ns) eqn:E; [|done]. cbn in Hn.
      rewrite !andb_true_iff in E. destruct E as [[Hk Hsuc] Htr], Hown' as (_ & Hns & _).
      apply elem_of_app in Hn as [?|Heq%list_elem_of_singleton]; [done|subst n].
      exists t. split_and!; [by eapply list_elem_of_lookup_2|done..|]. rewrite <-Hns. by destruct ns.
  - intros j t' q Ht' Hq. destruct (decide (i = j)) as [<-|Hne].
    + rewrite list_lookup_insert_eq in Hq by (by eapply lookup_lt_Some). by simplify_eq.
    + rewrite list_lookup_insert_ne in Hq by done. eapply own_other; [|by eapply Hown].
      eapply content_other; [|exact Hs]. intros Heq. apply Hne.
      eapply (NoDup_lookup (t_log <$> tasks)); [done|..]; rewrite list_lookup_fmap.
      * by rewrite Ht.
      * by rewrite Ht', <-Heq.
Qed.

Lemma logs_reachable c c' : NoDup (t_log <$> tasks) → rtc lstep c c' → logs_ok c → logs_ok c'.
Proof. intros Hnd. induction 1 as [|x y z H _ IH]; [done|]. intros Hok. by apply IH, (lstep_ok x). Qed.

Lemma start_ok m : deleted m.1 = [] → logs_ok (start m).
Proof.
  intros Hd. split_and!; cbn.
  - apply length_replicate.
  - unfold deletions_ok. rewrite Hd. by intros n ?%not_elem_of_nil.
  - intros i t p _ Hp. by apply lookup_replicate in Hp as [-> _].
Qed.

(** ** Every schedule ends *)

(** The steps a thread has left at most, while the history has at most [k] entries. *)
Definition steps_left (k : nat) (t : task) (p : lpc) : nat :=
  match p with
  | LOpen => k + 16 + length (t_output t)
  | LWriting _ l => k + 14 + length l
  | LNamespace => k + 13
  | LStep _ => k + 12
  | LHistory _ _ p => 2 + pc_work k p
  | LDelete _ _ => 1
  | LDone _ _ | LFailed _ => 0
  end.

(** Threads that may still add a test to the history. *)
Definition may_add (p : lpc) : nat :=
  match p with
  | LHistory _ _ p => may_insert p
  | LDelete _ _ | LDone _ _ | LFailed _ => 0
  | _ => 1
  end.

Definition work (k : nat) (ps : list lpc) : nat := sum_list (zip_with (steps_left k) tasks ps).
Definition room (c : (logs * shared) * list lpc) : nat := length (entries c.1.2) + sum_list_with may_add c.2.

Lemma after_history_left k t n st p : steps_left k t (after_history n st p) ≤ 2 + pc_work k p.
Proof. destruct p; cbn; lia. Qed.

Lemma after_history_may n st p : may_add (after_history n st p) = may_insert p.
Proof. by destruct p. Qed.

Lemma step_task_measure k t p p' m m' :
  step_task t p m = Some (p', m') → length (entries m.2) ≤ k →
  steps_left k t p' < steps_left k t p ∧
  length (entries m'.2) + may_add p' ≤ length (entries m.2) + may_add p.
Proof.
  destruct m as [s h]. intros Hs Hk.
  destruct p as [|pos [|c l]| | |n st q| | |]; cbn -[step_thread] in Hs; simplify_eq; cbn in *; try lia.
  - destruct (t_recorded t); cbn; lia.
  - destruct (step_thread _ _ _ _) as [[q' h']|] eqn:E; [|done]. simplify_eq. cbn.
    destruct (step_thread_measure _ _ _ _ _ _ k E Hk) as [? ?].
    pose proof (after_history_left k t n st q'). rewrite after_history_may. lia.
Qed.

Lemma work_step k ps i t p p' :
  tasks !! i = Some t → ps !! i = Some p → steps_left k t p' < steps_left k t p →
  work k (<[i := p']> ps) < work k ps.
Proof.
  unfold work. revert ps i. induction tasks as [|t0 l IH]; intros [|q ps] [|i] Ht Hp Hs; simplify_eq/=; [lia|].
  pose proof (IH ps i Ht Hp Hs). lia.
Qed.

Lemma lstep_work k c c' : lstep c c' → room c ≤ k → room c' ≤ k ∧ work k c'.2 < work k c.2.
Proof.
  intros Hstep Hroom. destruct Hstep as [i t p p' m m' ps Ht Hp Hs]. unfold room in *. cbn in *.
  destruct (step_task_measure k _ _ _ _ _ Hs) as [Hw Hr]; [lia|].
  pose proof (sum_list_insert may_add ps i p p' Hp). split; [lia|by eapply work_step].
Qed.

Lemma nsteps_left k n c c' : nsteps lstep n c c' → room c ≤ k → n + work k c'.2 ≤ work k c.2.
Proof.
  induction 1 as [c|n c1 c2 c3 Hstep _ IH]; intros Hroom; [lia|].
  destruct (lstep_work _ _ _ Hstep Hroom) as [Hroom' Hw]. specialize (IH Hroom'). lia.
Qed.

Lemma lwork_start k :
  work k (replicate (length tasks) LOpen) = sum_list_with (λ t, k + 16 + length (t_output t)) tasks.
Proof. unfold work. induction tasks as [|t l IH]; [done|]. cbn. by rewrite IH. Qed.

Lemma log_room_start m : room (start m) = length (entries m.2) + length tasks.
Proof. unfold room, start. cbn. f_equal. induction (length tasks); simpl; lia. Qed.

(** ** How threads end *)

(** A thread in [update_runtime_history] has not finished it, and finds its test there
    when it looks it up; a thread that fails does so because the history changed. *)
Definition going (t : task) (p : lpc) (h : shared) : Prop :=
  match p with
  | LHistory _ _ q => HistoryRace.finished q = false ∧ (q = PLookup → dmem (t_name t) (entries h) = true)
  | LFailed e => e = RuntimeError
  | _ => True
  end.

Definition all_going (c : (logs * shared) * list lpc) : Prop :=
  length c.2 = length tasks ∧ ∀ i t p, tasks !! i = Some t → c.2 !! i = Some p → going t p c.1.2.

Lemma going_other t p h h' :
  (∀ n, dmem n (entries h) = true → dmem n (entries h') = true) → going t p h → going t p h'.
Proof. intros Hh. destruct p; cbn; try done. intros [? ?]. auto. Qed.

Lemma going_step t p p' m m' :
  step_task t p m = Some (p', m') → going t p m.2 →
  going t p' m'.2 ∧ ∀ n, dmem n (entries m.2) = true → dmem n (entries m'.2) = true.
Proof.
  destruct m as [s h], m' as [s' h']. intros Hs Hg.
  destruct (step_task_inv _ _ _ _ _ _ _ Hs) as [(n & st & q & q' & -> & Hq & -> & ->)|[Hp ->]]; cbn in *.
  - destruct Hg as [_ Hlook]. destruct (step_thread_found _ _ _ _ _ _ Hq Hlook) as (Hkeep & Hfound & Hfail).
    split; [|done]. destruct q'; cbn; auto.
  - split; [|done]. destruct p as [|pos [|c l]| | |n st q| | |]; cbn in Hs; simplify_eq; try done.
    + by destruct (t_recorded t).
    + by destruct (Hp n st q).
Qed.

Lemma all_going_reachable c c' : rtc lstep c c' → all_going c → all_going c'.
Proof.
  induction 1 as [|x y z Hstep _ IH]; [done|]. intros [Hlen Hg]. apply IH. clear IH.
  destruct Hstep as [i t p p' m m' ps Ht Hp Hs]. cbn in *.
  destruct (going_step _ _ _ _ _ Hs (Hg _ _ _ Ht Hp)) as [Hg' Hkeep].
  split; cbn; [by rewrite length_insert|]. intros j t' q Ht' Hq. destruct (decide (i = j)) as [<-|Hne].
  - rewrite list_lookup_insert_eq in Hq by (by eapply lookup_lt_Some). by simplify_eq.
  - rewrite list_lookup_insert_ne in Hq by done. eapply going_other; [exact Hkeep|by eapply Hg].
Qed.

Lemma start_going m : all_going (start m).
Proof.
  split; cbn; [apply length_replicate|]. intros i t p _ Hp. by apply lookup_replicate in Hp as [-> _].
Qed.

(** What can end: a thread that is stuck is done or has failed. *)
Lemma stuck_ends c :
  all_going c → ¬ red lstep c → Forall (λ p, (∃ n st, p = LDone n st) ∨ p = LFailed RuntimeError) c.2.
Proof.
  intros [Hlen Hg] Hstuck. apply Forall_lookup. intros i p Hp. destruct (lookup_lt_is_Some_2 tasks i) as [t Ht].
  { rewrite <-Hlen. by eapply lookup_lt_Some. }
  specialize (Hg _ _ _ Ht Hp). destruct c as [m ps]. destruct (step_task t p m) as [[p' m']|] eqn:E.
  { destruct Hstuck. eexists. by eapply lstep_thread. }
  destruct m as [s h]. destruct p as [|pos [|x l]| | |n st q| |n st|e]; try discriminate E; [|by left; eexists _, _|].
  - cbn in E, Hg. destruct Hg as [Hq _]. by destruct q.
  - right. cbn in Hg. by subst e.
Qed.

(** ** Without new tests *)

(** Every test has an entry in the history, and so none is lost. *)
Definition smooth (h0 : shared) (c : (logs * shared) * list lpc) : Prop :=
  entries c.1.2 = entries h0 ∧
  Forall (λ p, match p with
               | LHistory _ _ q => undisturbed (length (entries h0)) q
               | LFailed _ => False
               | _ => True end) c.2.

Lemma smooth_reachable h0 c c' :
  (∀ t, t ∈ tasks → dmem (t_name t) (entries h0) = true) → rtc lstep c c' → smooth h0 c → smooth h0 c'.
Proof.
  intros Hnames. induction 1 as [|x y z Hstep _ IH]; [done|]. intros [Hent Hall]. apply IH. clear IH.
  destruct Hstep as [i t p p' [s h] [s' h'] ps Ht Hp Hs]. cbn in *.
  assert (dmem (t_name t) (entries h0) = true) as Hd by (apply Hnames; by eapply list_elem_of_lookup_2).
  pose proof (proj1 (Forall_lookup _ _) Hall i p Hp) as Hi.
  destruct (step_task_inv _ _ _ _ _ _ _ Hs) as [(n & st & q & q' & -> & Hq & -> & ->)|[Hne ->]]; cbn in *.
  - rewrite <-Hent in Hd, Hi. destruct (step_thread_undisturbed _ _ _ _ _ _ Hq Hd Hi) as [He Hu].
    split; cbn; [congruence|]. apply Forall_insert; [done|]. rewrite Hent in Hu. by destruct q'.
  - split; cbn; [done|]. apply Forall_insert; [done|].
    destruct p as [|pos [|c l]| | |n st q| | |]; cbn in Hs; simplify_eq; try done.
    + by destruct (t_recorded t).
    + by destruct (Hne n st q).
Qed.

Lemma start_smooth m : smooth m.2 (start m).
Proof. split; cbn; [done|]. apply Forall_replicate. done. Qed.

End tasks.

(** ** The sequential model *)

Section sequential.
Context {env : Env} (a : args).

(** A run that a pool was given: the test, its work directory, how run-tests answers,
    and how long it takes. *)
Record job := mkJob {
  j_test : str;
  j_work_dir : str;
  j_output : list str;
  j_code : Z;
  j_duration : float;
}.

Definition task_of (skip : bool) (n : Z) (j : job) : task :=
  mkTask (j_test j) (path_join (path_join (output_dir a) "retries") (create_safe_log_filename (j_test j) n "parallel"))
    (log_header (build_test_command a (Some (j_test j)) skip (Some (j_work_dir j))))
    (j_output j) (j_code j) (j_duration j) skip.

Hypothesis openable : ∀ t path, env_open_fault t path = None.
Hypothesis quiet : ∀ t, env_history_changed t = false.

Lemma read_text_ok path f w :
  fs w !! path = Some (FText f) →
  read_text path w = (Ok (universal_newlines f), mkWorld (fs w) (S (clock w)) (trace w)).
Proof. intros Hf. unfold read_text, open_read, bind, tick. rewrite openable. cbn. by rewrite Hf. Qed.

Lemma extract_namespace_ok path f w :
  fs w !! path = Some (FText f) →
  extract_test_namespace_from_log_file path w = (Ok (namespace_in f), mkWorld (fs w) (S (clock w)) (trace w)).
Proof.
  intros Hf. unfold extract_test_namespace_from_log_file, catch, bind. by rewrite (read_text_ok _ _ _ Hf).
Qed.

Lemma extract_failed_step_ok path f w :
  fs w !! path = Some (FText f) →
  extract_failed_step path w = (Ok (Some (failed_step_in f)), mkWorld (fs w) (S (clock w)) (trace w)).
Proof.
  intros Hf. unfold extract_failed_step, catch, bind, failed_step_in. rewrite (read_text_ok _ _ _ Hf).
  by destruct (re_search _ _ _).
Qed.

Lemma wp_run_logged_ok cmd vars path code out Q w :
  (∀ t, env_subprocess t cmd vars = Ok (code, Some out)) →
  (∀ w', fs w' !! path = Some (FText (log_header cmd ++ out)) → Q (Ok code) w') →
  wp (run_logged cmd vars path) Q w.
Proof.
  intros Hsub HQ. unfold run_logged, open_write. apply wp_bind, wp_bind, wp_tick. cbn beta iota.
  rewrite openable. apply wp_modify. cbn beta iota. apply wp_bind, wp_tick. cbn beta iota. rewrite Hsub.
  unfold emit. wp_steps. apply HQ. cbn. apply lookup_insert_eq.
Qed.

(** A run of a test alone finds in its log what [task_of] describes. *)
Lemma run_reads_log skip n (j : job) s :
  j_test j ≠ [] → (truthy (venv a) = true → is_Some (dget "PATH" env_environ)) →
  j_work_dir j = work_dir_name (Some (j_test j)) n "parallel" (strftime_millis (env_now (clock (wd s)))) →
  (∀ t vars, env_subprocess t (build_test_command a (Some (j_test j)) skip (Some (j_work_dir j))) vars =
     Ok (j_code j, Some (mjoin (j_output j)))) →
  let t := task_of skip n j in
  ∃ res s', run_single_test_suite a (Some (j_test j)) skip n "parallel" s = (Ok res, s') ∧
    success res = t_success t ∧ log_file res = Some (t_log t) ∧ namespace res = namespace_in (t_text t) ∧
    failed_step res = if t_success t then None else Some (failed_step_in (t_text t)).
Proof.
  intros Hne Hpath Hdir Hsub t.
  cut (wp (run_single_test_suite a (Some (j_test j)) skip n "parallel") (λ r _, ∃ res, r = Ok res ∧
    success res = t_success t ∧ log_file res = Some (t_log t) ∧ namespace res = namespace_in (t_text t) ∧
    failed_step res = if t_success t then None else Some (failed_step_in (t_text t))) s).
  { unfold wp. destruct (run_single_test_suite _ _ _ _ _ s) as [r s']. cbn. intros (res & -> & H). by eexists _, _. }
  unfold run_single_test_suite, now. apply wp_bind, wp_on_world, wp_bind, wp_tick. cbn beta iota. apply wp_ret.
  cbn beta iota zeta. rewrite <-Hdir. apply wp_bind, wp_on_world. unfold log_path.
  destruct (truthy (Some (j_test j))) eqn:Etn; [|by destruct (j_test j)]. apply wp_ret. cbn beta iota.
  apply wp_bind. eapply returns_wp; [apply returns_on_world, returns_setup, Hpath|]. unfold wp at 1. intros vars -> _.
  apply wp_bind, wp_on_world, wp_time. intros t4 w4 _. cbn beta iota zeta.
  apply wp_bind, wp_on_world, (wp_run_logged_ok _ _ _ (j_code j) (mjoin (j_output j))); [intros t5; apply Hsub|].
  intros w5 Hf5. cbn beta iota zeta. apply wp_bind, wp_on_world, wp_time. intros t6 w6 (Hf6 & _). cbn beta iota zeta.
  cbn [wd rn] in *. rewrite <-Hf6 in Hf5. apply wp_bind, wp_on_world. unfold wp at 1. cbn [wd].
  rewrite (extract_namespace_ok _ _ _ Hf5). cbn [fst snd rn]. apply wp_bind.
  apply (wp_mono _ (λ r _, r = Ok (if t_success t then None else Some (failed_step_in (t_text t))))).
  { unfold t_success. cbn [t t_code task_of]. destruct (j_code j =? 0)%Z; [by apply wp_ret|].
    apply wp_on_world. unfold wp. cbn [wd]. by rewrite (extract_failed_step_ok _ (t_text t)) by exact Hf5. }
  intros ? s8 ->. cbn beta iota zeta. apply wp_bind, (wp_record_runtime_ok openable).
  intros r9 s9 _ [->|(_ & _ & t9 & Ht9)]; [cbn beta iota|by rewrite quiet in Ht9].
  apply wp_bind, wp_on_world, wp_cleanup_namespace. intros w10 _ _ _ _ _. cbn beta iota.
  apply wp_bind, wp_on_world, wp_cleanup_work_dir. intros w11 _ _ _ _ _. apply wp_ret.
  eexists. split; [done|]. cbn. done.
Qed.

End sequential.

(** ** Theorems *)

Lemma path_join_inj dir x y : path_join dir x = path_join dir y → x = y.
Proof.
  unfold path_join. repeat case_decide; [done|by intros ?%(inj (app _))|].
  by intros ?%(inj (app dir))%(inj (app _)).
Qed.

Lemma jobs_logs_distinct {env : Env} a skip n jobs :
  Forall (λ j, length (j_test j) ≤ 100) jobs → NoDup ((λ j, replace_char 47 95 (j_test j)) <$> jobs) →
  NoDup (t_log <$> (task_of a skip n <$> jobs)).
Proof.
  intros Hlen Hnd. rewrite <-list_fmap_compose. apply NoDup_fmap_2_strong; [|by eapply NoDup_fmap_1].
  intros j j' Hj Hj' [H _]%path_join_inj%log_name_inj; [|by apply (bool_decide_unpack _); vm_compute..].
  rewrite Forall_forall in Hlen. pose proof (Hlen j Hj). pose proof (Hlen j' Hj'). revert H.
  unfold log_stem, MAX_TEST_NAME_LENGTH. rewrite !decide_False by lia. intros H.
  apply list_elem_of_lookup in Hj as [i Hi], Hj' as [i' Hi'].
  assert (i = i') as ->; [|by simplify_eq].
  eapply (NoDup_lookup ((λ j, replace_char 47 95 (j_test j)) <$> jobs)); [done|..]; rewrite list_lookup_fmap.
  - by rewrite Hi.
  - by rewrite Hi', H.
Qed.

(** C7: the threads of a pool keep out of each other's way, if the tests' names are of at
    most a hundred characters and differ in more than their slashes.  Every schedule of
    their steps, those of recording the durations included, ends after a bounded number
    of steps, with each thread done, or failed with [RuntimeError] because another one
    added its test to the runtime history (its result is lost, and its namespace stays);
    none fails if the history has all the tests already.  Each test that is done gets
    the namespace and the failed step that it gets when it is run alone, as Runner.v has
    it; a namespace is deleted only for a test that passed and was told to keep it, and
    it is the one that this test's own log names. *)
Theorem pool_threads_keep_apart {env : Env} (a : args) (skip : bool) (n : Z) (jobs : list job)
    (s0 : logs) (h0 : shared) (c : (logs * shared) * list lpc)
    (Hlen : Forall (λ j, length (j_test j) ≤ 100) jobs)
    (Hnd : NoDup ((λ j, replace_char 47 95 (j_test j)) <$> jobs)) (Hdel : deleted s0 = []) :
  let tasks := task_of a skip n <$> jobs in
  rtc (lstep tasks) (start tasks (s0, h0)) c →
  (∀ m c', nsteps (lstep tasks) m (start tasks (s0, h0)) c' →
     m ≤ sum_list_with (λ j, length (entries h0) + length jobs + 16 + length (j_output j)) jobs) ∧
  (¬ red (lstep tasks) c → Forall (λ p, (∃ ns st, p = LDone ns st) ∨ p = LFailed RuntimeError) c.2) ∧
  ((∀ j, j ∈ jobs → dmem (j_test j) (entries h0) = true) → Forall (λ p, ∀ e, p ≠ LFailed e) c.2) ∧
  (∀ i j ns st s, jobs !! i = Some j → c.2 !! i = Some (LDone ns st) → j_test j ≠ [] →
     (∀ t path, env_open_fault t path = None) → (∀ t, env_history_changed t = false) →
     (truthy (venv a) = true → is_Some (dget "PATH" env_environ)) →
     j_work_dir j = work_dir_name (Some (j_test j)) n "parallel" (strftime_millis (env_now (clock (wd s)))) →
     (∀ t vars, env_subprocess t (build_test_command a (Some (j_test j)) skip (Some (j_work_dir j))) vars =
        Ok (j_code j, Some (mjoin (j_output j)))) →
     ∃ res s', run_single_test_suite a (Some (j_test j)) skip n "parallel" s = (Ok res, s') ∧
       namespace res = ns ∧ failed_step res = st) ∧
  (∀ ns, ns ∈ deleted c.1.1 → skip = true ∧ ∃ j, j ∈ jobs ∧ j_code j = 0%Z ∧
     namespace_in (t_text (task_of a skip n j)) = Some ns).
Proof.
  intros tasks Hrun. pose proof (jobs_logs_distinct a skip n jobs Hlen Hnd) as Hlogs. fold tasks in Hlogs.
  pose proof (logs_reachable _ _ _ Hlogs Hrun (start_ok tasks (s0, h0) Hdel)) as (Hl & Hd & Hown).
  assert (length tasks = length jobs) as Hlen' by apply length_fmap.
  split_and!.
  - intros m c' Hm. set (k := length (entries h0) + length jobs).
    apply (nsteps_left _ k) in Hm; [|rewrite log_room_start, Hlen'; done].
    unfold start in Hm. cbn [snd] in Hm. rewrite lwork_start in Hm.
    replace (sum_list_with _ jobs) with (sum_list_with (λ t, k + 16 + length (t_output t)) tasks); [lia|].
    unfold tasks. clearbody k. clear. induction jobs as [|j l IH]; [done|]. cbn -[Nat.add]. f_equal. exact IH.
  - apply stuck_ends. eapply all_going_reachable; [exact Hrun|apply start_going].
  - intros Hnames. assert (smooth h0 c) as [_ Hsm].
    { eapply smooth_reachable; [|exact Hrun|apply start_smooth].
      intros t (j & -> & Hj)%list_elem_of_fmap. by apply Hnames. }
    eapply Forall_impl; [exact Hsm|]. cbn. by intros p Hp e ->.
  - intros i j ns st s Hj Hp Hne Hopen Hquiet Hpath Hdir Hsub.
    destruct (run_reads_log a Hopen Hquiet skip n j s Hne Hpath Hdir Hsub) as (res & s' & Heq & _ & _ & Hns & Hst).
    exists res, s'. assert (tasks !! i = Some (task_of a skip n j)) as Ht by (unfold tasks; by rewrite list_lookup_fmap, Hj).
    destruct (Hown _ _ _ Ht Hp) as (_ & -> & ->). done.
  - intros ns Hns. destruct (Hd ns Hns) as (t & Ht & Hk & Hsuc & Hn).
    apply list_elem_of_fmap in Ht as (j & -> & Hj). split; [done|]. exists j. split_and!; [done| |done].
    by apply Z.eqb_eq.
Qed.

(** Two tests that pass, with one step of each thread at a time. *)
Definition pass_job (name : str) (namespace : str) : job :=
  mkJob name (work_dir_name (Some name) 1 "parallel" (strftime_millis (mkDatetime 2026 3 16 9 0 0 0)))
    ["Creating namespace: kuttl-test-" ++ namespace ++ newline] 0 (float_of_Z 40).

Definition pass_output : str := "Creating namespace: kuttl-test-x" ++ newline.
Definition pass_env : Env := scripted_env (λ _ _, Ok (0%Z, Some pass_output)).

(** Running a schedule; impossible choices are skipped. *)
Fixpoint run_log_schedule (tasks : list task) (sched : list nat) (c : (logs * shared) * list lpc) :
    (logs * shared) * list lpc :=
  match sched with
  | [] => c
  | i :: sched' =>
      run_log_schedule tasks sched'
        match tasks !! i, c.2 !! i with
        | Some t, Some p =>
            match step_task t p c.1 with
            | Some (p', s') => (s', <[i := p']> c.2)
            | None => c
            end
        | _, _ => c
        end
  end.

Lemma log_schedule_steps tasks sched c : rtc (lstep tasks) c (run_log_schedule tasks sched c).
Proof.
  revert c. induction sched as [|i sched IH]; intros [s ps]; [done|]. cbn [run_log_schedule fst snd].
  destruct (tasks !! i) as [t|] eqn:Et; [|done]. destruct (ps !! i) as [p|] eqn:Ep; [|done].
  destruct (step_task t p s) as [[p' s']|] eqn:Es; [|done].
  eapply rtc_l; [by econstructor|done].
Qed.

(** The history has "a" already; "b" is added while the other thread is elsewhere. *)
Lemma pool_threads_keep_apart_witness :
  let jobs := [pass_job "a" "x"; pass_job "b" "y"] in
  let tasks := task_of (env := pass_env) default_args true 1 <$> jobs in
  let h0 := mkShared [("a" : str, 0)] {[0 := []]} 1 None in
  let c := run_log_schedule tasks (mjoin (replicate 30 [0; 1])) (start tasks (mkLogs ∅ [], h0)) in
  c.2 = [LDone (Some "kuttl-test-x") None; LDone (Some "kuttl-test-y") None] ∧
  deleted c.1.1 = ["kuttl-test-x"; "kuttl-test-y"] ∧
  (∀ ns, ns ∈ deleted c.1.1 → true = true ∧ ∃ j, j ∈ jobs ∧ j_code j = 0%Z ∧
     namespace_in (t_text (task_of (env := pass_env) default_args true 1 j)) = Some ns) ∧
  ∃ res s', run_single_test_suite (env := pass_env) default_args (Some "a") true 1 "parallel"
      (mkState empty_world (init_runner (mkDatetime 1 1 1 0 0 0 0))) = (Ok res, s') ∧
    namespace res = Some "kuttl-test-x" ∧ failed_step res = None.
Proof.
  intros jobs tasks h0 c.
  assert (Forall (λ j, length (j_test j) ≤ 100) jobs) as H1 by (repeat constructor; cbn; lia).
  assert (NoDup ((λ j, replace_char 47 95 (j_test j)) <$> jobs)) as H2
    by (apply (bool_decide_unpack _); vm_compute; done).
  assert (rtc (lstep tasks) (start tasks (mkLogs ∅ [], h0)) c) as H3 by apply log_schedule_steps.
  assert (c.2 = [LDone (Some "kuttl-test-x") None; LDone (Some "kuttl-test-y") None]) as H4 by (vm_compute; reflexivity).
  destruct (pool_threads_keep_apart (env := pass_env) default_args true 1 jobs (mkLogs ∅ []) h0 c H1 H2 eq_refl H3)
    as (_ & _ & _ & Hsame & Hdel).
  split; [exact H4|split; [vm_compute; reflexivity|split; [exact Hdel|]]].
  apply (Hsame 0 (pass_job "a" "x")).
  - reflexivity.
  - rewrite H4. reflexivity.
  - discriminate.
  - intros t path. reflexivity.
  - intros t. reflexivity.
  - discriminate.
  - reflexivity.
  - intros t vars. reflexivity.
Defined.

(** *** A shared log *)

Lemma set_content_twice f g t s : set_content f t (set_content g t s) = set_content f t s.
Proof. unfold set_content. cbn. by rewrite insert_insert_eq. Qed.

(** A thread that nobody disturbs writes what it has left. *)
Lemma run_writes tasks i t l f ps s h :
  tasks !! i = Some t → ps !! i = Some (LWriting (length f) l) →
  rtc (lstep tasks) ((set_content f t s, h), ps)
    ((set_content (f ++ mjoin l) t s, h), <[i := LWriting (length (f ++ mjoin l)) []]> ps).
Proof.
  intros Ht. revert f ps. induction l as [|x l IH]; intros f ps Hp.
  - cbn [mjoin list_join]. rewrite app_nil_r, list_insert_id by done. constructor.
  - eapply rtc_l; [by eapply lstep_thread|]. rewrite content_set, write_at_end, set_content_twice, <-length_app.
    specialize (IH (f ++ x) (<[i := LWriting (length (f ++ x)) l]> ps)).
    rewrite list_lookup_insert_eq in IH by (by eapply lookup_lt_Some). specialize (IH eq_refl).
    rewrite list_insert_insert_eq, <-app_assoc in IH. exact IH.
Qed.

(** From opening the log to the end of the [with] block. *)
Lemma run_command tasks i t ps s h :
  tasks !! i = Some t → ps !! i = Some LOpen →
  rtc (lstep tasks) ((s, h), ps) ((set_content (t_text t) t s, h), <[i := LNamespace]> ps).
Proof.
  intros Ht Hp. eapply rtc_l; [by eapply lstep_thread|].
  assert (i < length ps) as Hi by by eapply lookup_lt_Some.
  etrans; [apply (run_writes tasks i t (t_header t :: t_output t)); [done|by rewrite list_lookup_insert_eq]|].
  cbn [app]. rewrite list_insert_insert_eq. eapply rtc_l; [eapply lstep_thread; [done|by rewrite list_lookup_insert_eq|done]|].
  rewrite list_insert_insert_eq. constructor.
Qed.

(** Recording the duration, as long as nobody else does anything. *)
Lemma run_history tasks i t n st p ps s h h' :
  tasks !! i = Some t → ps !! i = Some (LHistory n st p) → p ≠ PDone →
  rtc (lone (t_name t) (t_duration t)) (p, h) (PDone, h') →
  rtc (lstep tasks) ((s, h), ps) ((s, h'), <[i := LDelete n st]> ps).
Proof.
  intros Ht Hp Hne Hrtc. remember (p, h) as x eqn:Ex. remember (PDone, h') as y eqn:Ey.
  revert p h ps Ex Hp Hne. induction Hrtc as [x|x z y Hstep Hrest IH]; intros p h ps -> Hp Hne; [by simplify_eq|].
  destruct z as [q h1]. unfold lone in Hstep. cbn in Hstep. assert (i < length ps) as Hi by by eapply lookup_lt_Some.
  assert (step_task t (LHistory n st p) (s, h) = Some (after_history n st q, (s, h1))) as Hs
    by (cbn; by rewrite Hstep).
  eapply rtc_l; [by eapply lstep_thread|]. subst y. destruct (HistoryRace.finished q) eqn:Eq.
  - inversion Hrest as [|? ? ? Hq]; simplify_eq; [constructor|]. unfold lone in Hq. by destruct q.
  - specialize (IH eq_refl q h1 (<[i := after_history n st q]> ps) eq_refl). rewrite list_insert_insert_eq in IH.
    apply IH; [|by intros ->]. rewrite list_lookup_insert_eq by done. by destruct q.
Qed.

(** From there to the end, as long as nobody else does anything. *)
Lemma run_rest tasks i t ps s h :
  tasks !! i = Some t → ps !! i = Some LNamespace →
  let n := namespace_in (content s t) in
  ∃ h', rtc (lstep tasks) ((s, h), ps)
    ((if t_keep t && t_success t && truthy n then mkLogs (files s) (deleted s ++ [default [] n]) else s, h'),
     <[i := LDone n (if t_success t then None else Some (failed_step_in (content s t)))]> ps).
Proof.
  intros Ht Hp n. assert (i < length ps) as Hi by by eapply lookup_lt_Some.
  set (st := if t_success t then None else Some (failed_step_in (content s t))).
  assert (∃ h', rtc (lstep tasks) ((s, h), <[i := LStep n]> ps) ((s, h'), <[i := LDelete n st]> ps)) as (h' & Hh').
  { destruct (t_recorded t) eqn:Er.
    - destruct (lone_done (t_name t) (t_duration t) h) as [h' Hh']. exists h'.
      eapply rtc_l; [eapply lstep_thread; [exact Ht|by rewrite list_lookup_insert_eq|cbn; by rewrite Er]|].
      rewrite list_insert_insert_eq. fold st.
      pose proof (run_history tasks i t n st PCheck (<[i := LHistory n st PCheck]> ps) s h h' Ht) as Hr.
      rewrite list_insert_insert_eq in Hr. apply Hr; [by rewrite list_lookup_insert_eq|done|done].
    - exists h. eapply rtc_l; [eapply lstep_thread; [exact Ht|by rewrite list_lookup_insert_eq|cbn; by rewrite Er]|].
      rewrite list_insert_insert_eq. constructor. }
  exists h'. eapply rtc_l; [eapply lstep_thread; [exact Ht|exact Hp|done]|]. fold n.
  etrans; [exact Hh'|].
  eapply rtc_l; [eapply lstep_thread; [exact Ht|by rewrite list_lookup_insert_eq|done]|].
  rewrite !list_insert_insert_eq. constructor.
Qed.

(** C22: but threads whose tests share a log ("a/b" and "a_b" do) can take each other's
    namespace for their own: if the second test passes and was told to keep its
    namespace, a schedule makes it ask for the deletion of the namespace of the
    first, which failed and whose namespace was to be kept; its own is left behind. *)
Theorem shared_log_deletes_other (t1 t2 : task) (s : logs) (h : shared) (c : N) (n : str)
    (Hsame : t_log t1 = t_log t2) (Hfail : t_success t1 = false)
    (Hpass : t_success t2 = true) (Hkeep : t_keep t2 = true)
    (Hns : namespace_in (t_text t1) = Some (c :: n)) :
  ∃ h', rtc (lstep [t1; t2]) (start [t1; t2] (s, h))
    ((mkLogs (<[t_log t1 := t_text t1]> (files s)) (deleted s ++ [c :: n]), h'),
     [LDone (Some (c :: n)) (Some (failed_step_in (t_text t1))); LDone (Some (c :: n)) None]).
Proof.
  set (s2 := set_content (t_text t2) t2 s). set (s1 := set_content (t_text t1) t1 s2).
  assert (content s1 t1 = t_text t1) as H1 by apply content_set.
  assert (content s1 t2 = t_text t1) as H2 by (unfold content; by rewrite <-Hsame).
  destruct (run_rest [t1; t2] 0 t1 [LNamespace; LNamespace] s1 h) as [h1 Hh1]; [done|done|].
  rewrite H1, Hfail, andb_false_r, Hns in Hh1. cbn in Hh1.
  destruct (run_rest [t1; t2] 1 t2 [LDone (Some (c :: n)) (Some (failed_step_in (t_text t1))); LNamespace] s1 h1)
    as [h2 Hh2]; [done|done|].
  rewrite H2, Hpass, Hkeep, Hns in Hh2. cbn in Hh2. exists h2.
  etrans; [by apply (run_command _ 1 t2)|]. fold s2. etrans; [by apply (run_command _ 0 t1)|]. fold s1. cbn.
  etrans; [exact Hh1|]. etrans; [exact Hh2|].
  unfold s1, s2, set_content. cbn. rewrite <-Hsame, insert_insert_eq. constructor.
Qed.

Lemma shared_log_deletes_other_witness :
  let t1 := task_of (env := quiet_env) default_args true 1
              (mkJob "a/b" "w1" ["Creating namespace: kuttl-test-failed" ++ newline] 1 (float_of_Z 40)) in
  let t2 := task_of (env := quiet_env) default_args true 1
              (mkJob "a_b" "w2" ["Creating namespace: kuttl-test-passed" ++ newline] 0 (float_of_Z 50)) in
  ∃ f h' ps, rtc (lstep [t1; t2]) (start [t1; t2] (mkLogs ∅ [], empty_shared))
    ((mkLogs f ["kuttl-test-failed" : str], h'), ps).
Proof.
  intros t1 t2.
  destruct (shared_log_deletes_other t1 t2 (mkLogs ∅ []) empty_shared 107%N "uttl-test-failed") as [h' Hh'];
    [vm_compute; reflexivity..|].
  eexists _, h', _. exact Hh'.
Defined.
