(* ===== verification/DelayedInit.v ===== *)
(** rust/operator-binary/src/utils/delayed_init.rs: a value that is written once
    and read by any number of tasks.  The oneshot channel of the [futures] crate is
    the class [Oneshot]; tasks, locks and wake-ups are a step relation. *)

From stdpp Require Import relations.
From S2P Require Import Prelude.

(** ** The channel *)

(** What a channel is in for its users: open, with the waker of the last poll; a
    value waiting; closed. *)
Inductive channel_status (T : Type) :=
  | Open (waiter : option nat)
  | Sent (v : T)
  | Closed.
Arguments Open {T} waiter.
Arguments Sent {T} v.
Arguments Closed {T}.

(** The oneshot channel: sending, or dropping the sender, wakes the task whose
    poll came last; a poll returns [None] while pending, [Some (Some v)] for a value
    and [Some None] for a channel that was cancelled. *)
Class Oneshot (T : Type) := {
  chan : Type;
  channel : chan;
  send : T → chan → chan * list nat;
  drop_sender : chan → chan * list nat;
  poll_rx : nat → chan → chan * option (option T);
  status : chan → channel_status T;
  channel_open : status channel = Open None;
  send_sent : ∀ v c o, status c = Open o → status (send v c).1 = Sent v ∧ (send v c).2 = option_list o;
  drop_closed : ∀ c o, status c = Open o → status (drop_sender c).1 = Closed ∧ (drop_sender c).2 = option_list o;
  poll_open : ∀ w c o, status c = Open o → (poll_rx w c).2 = None ∧ status (poll_rx w c).1 = Open (Some w);
  poll_sent : ∀ w c v, status c = Sent v → (poll_rx w c).2 = Some (Some v);
  poll_closed : ∀ w c, status c = Closed → (poll_rx w c).2 = Some None;
}.

(** A channel that satisfies this. *)
#[export] Instance simple_oneshot (T : Type) : Oneshot T.
Proof.
  refine {|
    chan := channel_status T;
    channel := Open None;
    send v c := match c with Open o => (Sent v, option_list o) | _ => (c, []) end;
    drop_sender c := match c with Open o => (Closed, option_list o) | _ => (c, []) end;
    poll_rx w c := match c with
                   | Open _ => (Open (Some w), None)
                   | Sent v => (Closed, Some (Some v))
                   | Closed => (Closed, Some None)
                   end;
    status c := c;
  |}; by intros; simplify_eq/=.
Defined.

Section delayed_init.
Context {T : Type} {oneshot : Oneshot T}.

(** ** The type *)

(** [Result<T, InitDropped>]: [None] is [Err(InitDropped)]. *)
Definition outcome : Type := option T.

Inductive ReceiverState :=
  | Waiting (rx : chan)
  | Ready (value : outcome).

(** Where a task is in [DelayedInitGet::poll]: before the read lock, between the
    two locks, or back with a result. *)
Inductive poll_state :=
  | Polling
  | SlowPath
  | PollReady (value : outcome)
  | PollPending.

(** Under the read lock. *)
Definition fast_path (state : ReceiverState) : poll_state :=
  match state with
  | Ready v => PollReady v
  | Waiting _ => SlowPath
  end.

(** Under the write lock; [cx] is the task's waker. *)
Definition slow_path (cx : nat) (state : ReceiverState) : poll_state * ReceiverState :=
  match state with
  | Waiting rx =>
      match poll_rx cx rx with
      | (_, Some value) => (PollReady value, Ready value)
      | (rx', None) => (PollPending, Waiting rx')
      end
  | Ready v => (PollReady v, state)
  end.

(** A poll that nothing interrupts. *)
Definition poll (cx : nat) (state : ReceiverState) : poll_state * ReceiverState :=
  match fast_path state with
  | SlowPath => slow_path cx state
  | p => (p, state)
  end.

(** ** Tasks *)

(** The shared state, what the [Initializer] has done ([None]: nothing yet), the
    tasks that wait for [get], and those woken. *)
Record system := mkSystem {
  state : ReceiverState;
  initialized : option outcome;
  getters : list poll_state;
  woken : list nat;
}.

(** [DelayedInit::new()], and [n] tasks that call [get]. *)
Definition new (n : nat) : system := mkSystem (Waiting channel) None (replicate n Polling) [].

(** [Initializer::init]: a value that arrives when the channel is gone is lost. *)
Definition init (value : T) (s : system) : system :=
  match state s with
  | Waiting rx => mkSystem (Waiting (send value rx).1) (Some (Some value)) (getters s)
                    (woken s ++ (send value rx).2)
  | Ready _ => mkSystem (state s) (Some (Some value)) (getters s) (woken s)
  end.

(** The [Initializer] is dropped without a value. *)
Definition drop_initializer (s : system) : system :=
  match state s with
  | Waiting rx => mkSystem (Waiting (drop_sender rx).1) (Some None) (getters s)
                    (woken s ++ (drop_sender rx).2)
  | Ready _ => mkSystem (state s) (Some None) (getters s) (woken s)
  end.

(** [spurious]: tasks may also be polled without having been woken. *)
Inductive step (spurious : bool) : system → system → Prop :=
  | step_read i s :
      getters s !! i = Some Polling →
      step spurious s (mkSystem (state s) (initialized s) (<[i := fast_path (state s)]> (getters s)) (woken s))
  | step_write i s p state' :
      getters s !! i = Some SlowPath → slow_path i (state s) = (p, state') →
      step spurious s (mkSystem state' (initialized s) (<[i := p]> (getters s)) (woken s))
  | step_wake i s :
      getters s !! i = Some PollPending → i ∈ woken s ∨ spurious = true →
      step spurious s (mkSystem (state s) (initialized s) (<[i := Polling]> (getters s))
                         (filter (λ j, j ≠ i) (woken s)))
  | step_init value s :
      initialized s = None → step spurious s (init value s)
  | step_drop s :
      initialized s = None → step spurious s (drop_initializer s).

(** ** The invariant *)

(** The channel's status says what the [Initializer] has done. *)
Definition agrees (rx : chan) (done : option outcome) : Prop :=
  match done with
  | None => ∃ o, status rx = Open o
  | Some (Some v) => status rx = Sent v
  | Some None => status rx = Closed
  end.

Definition system_ok (s : system) : Prop :=
  match state s with
  | Waiting rx => agrees rx (initialized s)
  | Ready value => initialized s = Some value
  end ∧
  ∀ i value, getters s !! i = Some (PollReady value) → state s = Ready value.

Lemma system_ok_new n : system_ok (new n).
Proof.
  split; simpl; [exists None; apply channel_open|].
  intros i value H. by apply lookup_replicate in H as [? _].
Qed.

(** What the write lock's holder finds and leaves. *)
Lemma slow_path_ok i s p state' :
  system_ok s → slow_path i (state s) = (p, state') →
  match state' with
  | Waiting rx => agrees rx (initialized s) ∧ p = PollPending ∧ initialized s = None ∧ status rx = Open (Some i)
  | Ready value => initialized s = Some value ∧ p = PollReady value
  end ∧ (∀ value, state s = Ready value → state' = Ready value).
Proof.
  intros [Hst _] Hslow. unfold slow_path in Hslow. destruct (state s) as [rx|v]; [|by simplify_eq].
  split; [|done]. destruct (initialized s) as [[v|]|]; simpl in Hst.
  - pose proof (poll_sent i rx v Hst) as Hp. destruct (poll_rx i rx). by simplify_eq/=.
  - pose proof (poll_closed i rx Hst) as Hp. destruct (poll_rx i rx). by simplify_eq/=.
  - destruct Hst as [o Ho]. destruct (poll_open i rx o Ho) as [Hp Hs]. destruct (poll_rx i rx).
    simplify_eq/=. split_and!; eauto.
Qed.

Lemma lookup_insert_cases {A} (l : list A) i j x y :
  <[i := x]> l !! j = Some y → (i = j ∧ x = y) ∨ l !! j = Some y.
Proof. intros H. apply list_lookup_insert_Some in H as [(? & ? & ?)|[? ?]]; auto. Qed.

Lemma step_ok spurious s s' : step spurious s s' → system_ok s → system_ok s'.
Proof.
  intros Hstep Hok. pose proof Hok as [Hst Hget].
  destruct Hstep as [i s Hi|i s p state' Hi Hslow|i s Hi Hw|value s Hn|s Hn].
  - split; simpl; [done|]. intros j v [[-> Hv]|Hj]%lookup_insert_cases; [|by eapply Hget].
    destruct (state s); by simplify_eq/=.
  - destruct (slow_path_ok _ _ _ _ Hok Hslow) as [H1 H2]. split; simpl.
    + destruct state'; naive_solver.
    + intros j v [[-> ->]|Hj]%lookup_insert_cases; [|by apply H2; eapply Hget].
      destruct state'; naive_solver.
  - split; simpl; [done|]. intros j v [[-> Hv]|Hj]%lookup_insert_cases; [done|by eapply Hget].
  - unfold init. destruct (state s) as [rx|v] eqn:Es; rewrite Hn in *; simpl in *; [|done].
    destruct Hst as [o Ho]. split; simpl; [by eapply send_sent|].
    intros j v Hj. by specialize (Hget j v Hj).
  - unfold drop_initializer. destruct (state s) as [rx|v] eqn:Es; rewrite Hn in *; simpl in *; [|done].
    destruct Hst as [o Ho]. split; simpl; [by eapply drop_closed|].
    intros j v Hj. by specialize (Hget j v Hj).
Qed.

Lemma steps_ok spurious s s' : rtc (step spurious) s s' → system_ok s → system_ok s'.
Proof. induction 1 as [|x y z Hxy _ IH]; [done|]. eauto using step_ok. Qed.

(** Once initialised, always initialised with the same. *)
Lemma step_initialized spurious s s' r :
  step spurious s s' → initialized s = Some r → initialized s' = Some r.
Proof. intros [i t Hi|i t p st Hi Hs|i t Hi Hw|v t Hn|t Hn] H; simpl; congruence. Qed.

(** ** Waking *)

(** A single task that waits is registered with the channel, or woken. *)
Definition single_ok (s : system) : Prop :=
  ∃ p, getters s = [p] ∧
    (p = PollPending → 0 ∈ woken s ∨
       (initialized s = None ∧ ∃ rx, state s = Waiting rx ∧ status rx = Open (Some 0))).

Lemma single_ok_step s s' : step false s s' → system_ok s → single_ok s → single_ok s'.
Proof.
  intros Hstep Hok (p0 & Hp0 & Hw0).
  destruct Hstep as [i s Hi|i s p state' Hi Hslow|i s Hi Hw|value s Hn|s Hn].
  - rewrite Hp0 in Hi |- *. destruct i; [|done]. simplify_eq/=. eexists. split; [done|].
    by destruct (state s).
  - rewrite Hp0 in Hi |- *. destruct i; [|done]. simplify_eq/=. eexists. split; [done|]. simpl.
    destruct (slow_path_ok _ _ _ _ Hok Hslow) as [H1 _]. intros ->. right.
    destruct state' as [rx|v]; [|by destruct H1]. naive_solver.
  - rewrite Hp0 in Hi |- *. destruct i; [|done]. simplify_eq/=. by eexists.
  - exists p0. unfold init. destruct Hok as [Hst _]. destruct (state s) as [rx|v] eqn:Es; simpl.
    + split; [done|]. intros Hp. left. apply elem_of_app. destruct (Hw0 Hp) as [?|(_ & rx' & E & Ho)]; [by left|right].
      simplify_eq. destruct (send_sent value _ _ Ho) as [_ ->]. left.
    + split; [done|]. intros Hp. left. rewrite Hn in Hst. done.
  - exists p0. unfold drop_initializer. destruct Hok as [Hst _]. destruct (state s) as [rx|v] eqn:Es; simpl.
    + split; [done|]. intros Hp. left. apply elem_of_app. destruct (Hw0 Hp) as [?|(_ & rx' & E & Ho)]; [by left|right].
      simplify_eq. destruct (drop_closed _ _ Ho) as [_ ->]. left.
    + split; [done|]. intros Hp. left. rewrite Hn in Hst. done.
Qed.

(** A task that waits, is not woken, and will not be. *)
Definition forgotten (i : nat) (s : system) : Prop :=
  getters s !! i = Some PollPending ∧ (i ∉ woken s) ∧ initialized s ≠ None.

Lemma forgotten_step i s s' : step false s s' → forgotten i s → forgotten i s'.
Proof.
  intros Hstep (Hp & Hw & Hinit).
  destruct Hstep as [j s Hj|j s p state' Hj Hslow|j s Hj Hwj|value s Hn|s Hn]; try done.
  - split_and!; simpl; [|done..]. rewrite list_lookup_insert_ne; [done|]. congruence.
  - split_and!; simpl; [|done..]. rewrite list_lookup_insert_ne; [done|]. congruence.
  - destruct Hwj as [Hwj|]; [|done]. split_and!; simpl; [|by intros [_ ?]%list_elem_of_filter|done].
    rewrite list_lookup_insert_ne; [done|]. congruence.
Qed.

(** Nobody is woken before the [Initializer] has done its part. *)
Definition asleep (s : system) : Prop := initialized s = None → woken s = [].

Lemma asleep_step s s' : step false s s' → asleep s → asleep s'.
Proof.
  unfold asleep. intros [i t Hi|i t p st Hi Hs|i t Hi Hw|v t Hn|t Hn] H; simpl; try done.
  - intros Hn. by rewrite H.
  - unfold init. by destruct (state t).
  - unfold drop_initializer. by destruct (state t).
Qed.

(** The [Initializer] does its part: it sends a value, or it is dropped. *)
Definition settle (done : outcome) (s : system) : system :=
  match done with Some v => init v s | None => drop_initializer s end.

(** A task that waits and is not registered with the channel when the [Initializer]
    does its part is forgotten. *)
Lemma settle_forgets done i s rx o :
  asleep s → initialized s = None → state s = Waiting rx → status rx = Open o →
  o ≠ Some i → getters s !! i = Some PollPending → forgotten i (settle done s).
Proof.
  intros Hw Hn Hst Ho Hi Hp.
  assert (i ∉ woken s ++ option_list o) as Hnin.
  { rewrite Hw by done. cbn. destruct o as [j|]; cbn; [|apply not_elem_of_nil].
    by intros ->%list_elem_of_singleton. }
  destruct done as [v|]; cbn [settle]; unfold init, drop_initializer; rewrite Hst; split_and!; cbn; try done.
  - by rewrite (proj2 (send_sent v _ _ Ho)).
  - by rewrite (proj2 (drop_closed _ _ Ho)).
Qed.

Lemma forgotten_steps i s s' : rtc (step false) s s' → forgotten i s → forgotten i s'.
Proof. induction 1 as [|x y z Hxy _ IH]; [done|]. intros H. by eapply IH, forgotten_step. Qed.

Lemma reachable_asleep n s : rtc (step false) (new n) s → asleep s.
Proof.
  intros Hreach. assert (asleep (new n)) as H by done. revert Hreach H.
  induction 1 as [|x y z Hxy _ IH]; [done|]. intros H. by eapply IH, asleep_step.
Qed.

End delayed_init.

Arguments system T {oneshot}.
Arguments ReceiverState T {oneshot}.

(** ** Theorems *)

(** C38: whatever the interleaving of tasks (polled when woken or not), every [get]
    that returns gives what the [Initializer] did: its value, or an error if it was
    dropped; so all of them agree, and a value once returned is what every later
    [get] returns. *)
Theorem get_agrees {T : Type} {oneshot : Oneshot T} (n : nat) (s s' : system T) (i j : nat)
    (value value' : outcome)
    (Hreach : rtc (step true) (new n) s) (Hlater : rtc (step true) s s')
    (Hi : getters s !! i = Some (PollReady value)) (Hj : getters s' !! j = Some (PollReady value')) :
  value' = value ∧ initialized s = Some value ∧ state s' = Ready value ∧
  ∀ cx, poll cx (state s') = (PollReady value, state s').
Proof.
  pose proof (steps_ok _ _ _ Hreach (system_ok_new n)) as Hok.
  pose proof (steps_ok _ _ _ Hlater Hok) as Hok'.
  assert (Hinit : initialized s = Some value).
  { destruct Hok as [Hst Hget]. by rewrite (Hget _ _ Hi) in Hst. }
  assert (Hinit' : initialized s' = Some value).
  { clear -Hlater Hinit. induction Hlater as [|x y z Hxy _ IH]; [done|]. apply IH.
    by eapply step_initialized. }
  destruct Hok' as [Hst Hget]. specialize (Hget _ _ Hj). rewrite Hget in Hst.
  assert (value' = value) as -> by congruence. split_and!; [done..|].
  intros cx. by rewrite Hget.
Qed.

(** A single task never waits in vain: when the [Initializer] has done its part
    and the task is still pending, it has been woken. *)
Theorem single_get_is_woken {T : Type} {oneshot : Oneshot T} (s : system T)
    (Hreach : rtc (step false) (new 1) s) (Hpending : getters s = [PollPending])
    (Hinit : initialized s ≠ None) :
  0 ∈ woken s.
Proof.
  assert (single_ok s) as (p & Hp & Hw).
  { cut (system_ok s ∧ single_ok s); [tauto|].
    cut (system_ok (new (T := T) 1) ∧ single_ok (new (T := T) 1)).
    { clear -Hreach. induction Hreach as [|x y z Hxy _ IH]; [done|]. intros [H1 H2]. apply IH.
      split; [by eapply step_ok|by eapply single_ok_step]. }
    split; [apply system_ok_new|]. by exists Polling. }
  rewrite Hp in Hpending. injection Hpending as ->. destruct (Hw eq_refl) as [?|[? _]]; done.
Qed.

(** But of two tasks that wait, the first may wait for ever: the second poll
    replaces its waker in the channel, so initialising wakes the second task only,
    and nothing wakes the first afterwards, although the value is there. *)
Theorem second_get_steals_waker {T : Type} {oneshot : Oneshot T} (value : T) :
  ∃ s : system T, rtc (step false) (new 2) s ∧ state s = Ready (Some value) ∧
    getters s = [PollPending; PollReady (Some value)] ∧
    ∀ s', rtc (step false) s s' → getters s' !! 0 = Some PollPending.
Proof.
  destruct (poll_rx 0 channel) as [c1 o1] eqn:E1.
  destruct (poll_open 0 _ _ channel_open) as [P1 S1]. rewrite E1 in P1, S1. simpl in P1, S1. subst o1.
  destruct (poll_rx 1 c1) as [c2 o2] eqn:E2.
  destruct (poll_open 1 _ _ S1) as [P2 S2]. rewrite E2 in P2, S2. simpl in P2, S2. subst o2.
  destruct (send value c2) as [c3 w3] eqn:E3.
  destruct (send_sent value _ _ S2) as [S3 W3]. rewrite E3 in S3, W3. simpl in S3, W3. subst w3.
  destruct (poll_rx 1 c3) as [c4 o4] eqn:E4.
  pose proof (poll_sent 1 _ _ S3) as P4. rewrite E4 in P4. simpl in P4. subst o4.
  eexists. split; [|split; [|split]].
  - eapply rtc_l; [by eapply (step_read _ 0)|]. simpl.
    eapply rtc_l; [eapply (step_write _ 0); [done|simpl; by rewrite E1]|]. simpl.
    eapply rtc_l; [by eapply (step_read _ 1)|]. simpl.
    eapply rtc_l; [eapply (step_write _ 1); [done|simpl; by rewrite E2]|]. simpl.
    eapply rtc_l; [by eapply (step_init _ value)|]. unfold init. simpl. rewrite E3. simpl.
    eapply rtc_l; [eapply (step_wake _ 1); [done|left; left]|]. simpl.
    eapply rtc_l; [by eapply (step_read _ 1)|]. simpl.
    eapply rtc_l; [eapply (step_write _ 1); [done|simpl; by rewrite E4]|]. simpl. reflexivity.
  - done.
  - done.
  - intros s' Hs'. cut (forgotten 0 s'); [by intros [? _]|].
    match type of Hs' with rtc _ ?x _ => assert (forgotten 0 x) as Hf end.
    { split_and!; simpl; [done|apply not_elem_of_nil|done]. }
    by eapply forgotten_steps.
Qed.

(** C39: whenever two tasks wait at the time the value is sent, or the [Initializer] is
    dropped, one of them waits for ever, whatever happens afterwards: the channel keeps
    only the waker of the last poll, and a task that is not woken is not polled again. *)
Theorem one_of_two_waits_for_ever {T : Type} {oneshot : Oneshot T} (n : nat) (s : system T) (done : option T)
    (i j : nat) (Hreach : rtc (step false) (new n) s) (Hinit : initialized s = None) (Hne : i ≠ j)
    (Hi : getters s !! i = Some PollPending) (Hj : getters s !! j = Some PollPending) :
  let s1 := match done with Some value => init value s | None => drop_initializer s end in
  step false s s1 ∧
  ∃ k, (k = i ∨ k = j) ∧ ∀ s', rtc (step false) s1 s' → getters s' !! k = Some PollPending.
Proof.
  intros s1. split; [by destruct done; constructor|]. pose proof (steps_ok _ _ _ Hreach (system_ok_new n)) as [Hst _].
  pose proof (reachable_asleep _ _ Hreach) as Hw.
  destruct (state s) as [rx|v] eqn:Es; [|congruence]. rewrite Hinit in Hst. destruct Hst as [o Ho].
  assert (∃ k, (k = i ∨ k = j) ∧ o ≠ Some k ∧ getters s !! k = Some PollPending) as (k & Hk & Hok' & Hp).
  { destruct (decide (o = Some i)) as [->|]; [exists j|exists i]; (split_and!; [by auto| |done]); congruence. }
  exists k. split; [done|]. intros s' Hs'.
  destruct (forgotten_steps k _ _ Hs') as [H _]; [by eapply (settle_forgets done)|done].
Qed.

Lemma one_of_two_waits_for_ever_witness :
  ∃ (s : system nat) (k : nat), initialized s = None ∧
    ∀ s', rtc (step false) (init 7 s) s' → getters s' !! k = Some PollPending.
Proof.
  pose (s := mkSystem (T := nat) (Waiting (Open (Some 1))) None [PollPending; PollPending] []).
  assert (rtc (step false) (new 2) s) as H1.
  { eapply rtc_l; [eapply (step_read _ 0); reflexivity|].
    eapply rtc_l; [eapply (step_write _ 0); reflexivity|].
    eapply rtc_l; [eapply (step_read _ 1); reflexivity|].
    eapply rtc_l; [eapply (step_write _ 1); reflexivity|]. apply rtc_refl. }
  destruct (one_of_two_waits_for_ever 2 s (Some 7) 0 1 H1) as (_ & k & _ & Hk).
  - reflexivity.
  - discriminate.
  - reflexivity.
  - reflexivity.
  - exists s, k. split; [reflexivity|exact Hk].
Defined.

Lemma get_agrees_witness :
  ∃ s : system nat, rtc (step true) (new 1) s ∧ state s = Ready (Some 7) ∧
    poll 5 (state s) = (PollReady (Some 7), state s).
Proof.
  pose (s := mkSystem (T := nat) (Ready (Some 7)) (Some (Some 7)) [PollReady (Some 7)] []).
  assert (rtc (step true) (new 1) s) as H1.
  { eapply rtc_l; [eapply (step_init _ 7); reflexivity|].
    eapply rtc_l; [eapply (step_read _ 0); reflexivity|].
    eapply rtc_l; [eapply (step_write _ 0); reflexivity|]. apply rtc_refl. }
  assert (getters s !! 0 = Some (PollReady (Some 7))) as H2 by reflexivity.
  exists s. split; [exact H1|].
  destruct (get_agrees 1 s s 0 0 _ _ H1 (rtc_refl _ s) H2 H2) as (_ & _ & H3 & H4).
  split; [exact H3|apply H4].
Defined.

Lemma single_get_is_woken_witness :
  ∃ s : system nat, getters s = [PollPending] ∧ 0 ∈ woken s.
Proof.
  pose (s := mkSystem (T := nat) (Waiting (Sent 7)) (Some (Some 7)) [PollPending] [0]).
  assert (rtc (step false) (new 1) s) as H1.
  { eapply rtc_l; [eapply (step_read _ 0); reflexivity|].
    eapply rtc_l; [eapply (step_write _ 0); reflexivity|].
    eapply rtc_l; [eapply (step_init _ 7); reflexivity|]. apply rtc_refl. }
  exists s. split; [reflexivity|]. apply (single_get_is_woken s H1); [reflexivity|discriminate].
Defined.
