(* ===== verification/Kube.v ===== *)
(** What the Rust code of the operator shares: outcomes with errors and panics,
    ordered maps, and the part of the Kubernetes API types that the code reads. *)

From S2P Require Import Prelude PyStr.

(** ** Outcomes *)

(** A Rust function that returns [Result<A, E>] returns, fails or panics. *)
Inductive outcome (E A : Type) :=
  | Val (a : A)
  | Err (e : E)
  | Panic.
Arguments Val {E A} a.
Arguments Err {E A} e.
Arguments Panic {E A}.

Definition obind {E A B} (m : outcome E A) (k : A → outcome E B) : outcome E B :=
  match m with
  | Val a => k a
  | Err e => Err e
  | Panic => Panic
  end.

(** [o.expect(..)] and [o.context(e)?] *)
Definition expect {E A} (o : option A) : outcome E A :=
  match o with Some a => Val a | None => Panic end.
Definition context {E A} (e : E) (o : option A) : outcome E A :=
  match o with Some a => Val a | None => Err e end.

Declare Scope rust_scope.
Delimit Scope rust_scope with rust.
Notation "x <-! m ;; k" := (obind m (λ x, k))
  (at level 100, m at next level, right associativity, only parsing) : rust_scope.

(** ** Ordered maps *)

(** Comparing strings: by their code points, which is how UTF-8 bytes compare. *)
Fixpoint str_le (s t : str) : bool :=
  match s, t with
  | [], _ => true
  | _ :: _, [] => false
  | c :: s', d :: t' => (c <? d)%N || (c =? d)%N && str_le s' t'
  end.

Definition key_le {V} (p q : str * V) : Prop := str_le p.1 q.1 = true.

#[export] Instance key_le_dec {V} (p q : str * V) : Decision (key_le p q).
Proof. unfold key_le. apply _. Defined.

(** Iterating over a [BTreeMap]: in the order of the keys. *)
Definition btree_iter {V} (m : gmap str V) : list (str * V) := merge_sort key_le (map_to_list m).

Lemma elem_of_btree_iter {V} (m : gmap str V) k v : (k, v) ∈ btree_iter m ↔ m !! k = Some v.
Proof. unfold btree_iter. by rewrite merge_sort_Permutation, elem_of_map_to_list. Qed.

Lemma NoDup_btree_iter {V} (m : gmap str V) : NoDup (btree_iter m).*1.
Proof. unfold btree_iter. rewrite merge_sort_Permutation. apply NoDup_fst_map_to_list. Qed.

(** [map.iter().flatten()] of an optional map. *)
Definition iter_flatten {V} (m : option (gmap str V)) : list (str * V) :=
  match m with Some m => btree_iter m | None => [] end.

Lemma elem_of_iter_flatten {V} (m : option (gmap str V)) k v :
  (k, v) ∈ iter_flatten m ↔ ∃ m', m = Some m' ∧ m' !! k = Some v.
Proof.
  destruct m as [m|]; simpl; [rewrite elem_of_btree_iter|]; [naive_solver|].
  split; [by intros ?%not_elem_of_nil|naive_solver].
Qed.

(** [opt.iter().flatten()] of an optional list. *)
Definition flatten {A} (l : option (list A)) : list A := default [] l.

(** ** API types *)

Record ObjectMeta := mkObjectMeta {
  name : option str;
  namespace : option str;
  uid : option str;
  resource_version : option str;
  annotations : option (gmap str str);
  deletion_timestamp : option str;
}.

(** Volumes and environment variables, as far as they refer to ConfigMaps and
    Secrets. *)
Record Volume := mkVolume {
  config_map : option str;
  secret : option (option str);
}.

Record EnvVarSource := mkEnvVarSource {
  config_map_key_ref : option str;
  secret_key_ref : option str;
}.

Record EnvVar := mkEnvVar { value_from : option EnvVarSource }.

Record EnvFromSource := mkEnvFromSource {
  config_map_ref : option str;
  secret_ref : option str;
}.

Record Container := mkContainer {
  c_env : option (list EnvVar);
  c_env_from : option (list EnvFromSource);
}.

Record PodSpec := mkPodSpec {
  volumes : option (list Volume);
  containers : list Container;
  init_containers : option (list Container);
}.

Record PodTemplateSpec := mkPodTemplateSpec {
  t_metadata : option ObjectMeta;
  t_spec : option PodSpec;
}.

Record StatefulSetSpec := mkStatefulSetSpec { template : PodTemplateSpec }.

Record StatefulSet := mkStatefulSet {
  metadata : ObjectMeta;
  spec : option StatefulSetSpec;
}.

(** What a controller does next. *)
Inductive action :=
  | AwaitChange
  | Requeue (delay : Z).  (** in nanoseconds *)

Definition seconds (n : Z) : Z := (n * 1000000000)%Z.
