(* ===== verification/Restarter.v ===== *)
(** rust/operator-binary/src/restart_controller/statefulset.rs: annotating the pod
    template of a StatefulSet with the versions of the ConfigMaps and Secrets it
    uses, so that a change of one of them restarts its Pods. *)

From S2P Require Import Prelude PyStr PyDict Argparse RunTestsArgs Kube.

(** ** Errors and stores *)

Inductive Error :=
  | InvalidStatefulSet
  | PatchFailed
  | ConfigMapsUninitialized
  | SecretsUninitialized.

(** A reflector's store: the metadata of the objects it has seen, by namespace and
    name. *)
Definition Store : Type := gmap (str * str) ObjectMeta.

(** [Ctx]: the stores, once [DelayedInit] has delivered them ([None]: it was
    dropped). *)
Record Ctx := mkCtx {
  cms : option Store;
  secrets : option Store;
}.

(** ** References *)

Definition find_pod_refs (pod_spec : PodSpec) (volume_ref : Volume → option str)
    (env_var_ref : EnvVar → option str) (env_from_ref : EnvFromSource → option str) : list str :=
  let volume_refs := omap volume_ref (flatten (volumes pod_spec)) in
  let pod_containers := containers pod_spec ++ flatten (init_containers pod_spec) in
  let container_env_var_refs := omap env_var_ref (mjoin ((λ c, flatten (c_env c)) <$> pod_containers)) in
  let container_env_from_refs := omap env_from_ref (mjoin ((λ c, flatten (c_env_from c)) <$> pod_containers)) in
  volume_refs ++ container_env_var_refs ++ container_env_from_refs.

(** The pod specification of a StatefulSet, if there is one. *)
Definition pod_specs (sts : StatefulSet) : list PodSpec :=
  match spec sts with
  | Some sts_spec => option_list (t_spec (template sts_spec))
  | None => []
  end.

Definition cm_refs (sts : StatefulSet) : list str :=
  mjoin ((λ pod_spec,
    find_pod_refs pod_spec
      (λ volume, config_map volume)
      (λ env_var, value_from env_var ≫= config_map_key_ref)
      (λ env_from, config_map_ref env_from)) <$> pod_specs sts).

Definition secret_refs (sts : StatefulSet) : list str :=
  mjoin ((λ pod_spec,
    find_pod_refs pod_spec
      (λ volume, secret volume ≫= id)
      (λ env_var, value_from env_var ≫= secret_key_ref)
      (λ env_from, secret_ref env_from)) <$> pod_specs sts).

(** The values of the annotations with a prefix. *)
Definition ignored (prefix : str) (sts : StatefulSet) : list str :=
  (filter (λ kv : str * str, startswith prefix kv.1 = true) (iter_flatten (annotations (metadata sts)))).*2.

Definition changes_ignored : str := "changes-ignored".

(** The value of an annotation: the version of the object, unless it is unknown or
    to be ignored. *)
Definition version_value (ignored_names : list str) (object_name : str) (object : option ObjectMeta) : str :=
  match object with
  | Some object =>
      match uid object, resource_version object with
      | Some uid, Some resource_version =>
          if decide (object_name ∈ ignored_names) then changes_ignored
          else uid ++ "/" ++ resource_version
      | _, _ => changes_ignored
      end
  | None => changes_ignored
  end.

(** [annotations.extend(..)] for the objects referred to. *)
Definition extend (prefix ns : str) (ignored_names refs : list str) (store : Store) (m : gmap str str) :
    gmap str str :=
  foldl (λ m object_name,
    <[prefix ++ object_name := version_value ignored_names object_name (store !! (ns, object_name))]> m) m refs.

Definition cm_prefix : str := "configmap.restarter.stackable.tech/".
Definition secret_prefix : str := "secret.restarter.stackable.tech/".
Definition ignore_cm_prefix : str := "restarter.stackable.tech/ignore-configmap.".
Definition ignore_secret_prefix : str := "restarter.stackable.tech/ignore-secret.".

Local Open Scope rust_scope.

Definition get_updated_restarter_annotations (sts : StatefulSet) (ctx : Ctx) : outcome Error (gmap str str) :=
  ns <-! expect (namespace (metadata sts)) ;;
  cms <-! context ConfigMapsUninitialized (cms ctx) ;;
  let m := extend cm_prefix ns (ignored ignore_cm_prefix sts) (cm_refs sts) cms ∅ in
  secrets <-! context SecretsUninitialized (secrets ctx) ;;
  Val (extend secret_prefix ns (ignored ignore_secret_prefix sts) (secret_refs sts) secrets m).

(** ** Reconciling *)

(** The server-side apply that [reconcile] sends. *)
Record apply_request := mkApply {
  ap_namespace : str;
  ap_name : str;
  ap_uid : option str;
  ap_template_annotations : gmap str str;
}.

Class KubeClient := {
  (** whether the API server takes the patch *)
  kube_patch : apply_request → bool;
}.

(** The requests sent, and how it ends; [sts] is [None] for an object that could not
    be deserialised. *)
Definition reconcile `{KubeClient} (sts : option StatefulSet) (ctx : Ctx) :
    list apply_request * outcome Error action :=
  match sts with
  | None => ([], Err InvalidStatefulSet)
  | Some sts =>
      match (ns <-! expect (namespace (metadata sts)) ;;
             sts_name <-! expect (name (metadata sts)) ;;
             annotations <-! get_updated_restarter_annotations sts ctx ;;
             Val (mkApply ns sts_name (uid (metadata sts)) annotations)) with
      | Val request =>
          ([request], if kube_patch request then Val AwaitChange else Err PatchFailed)
      | Err e => ([], Err e)
      | Panic => ([], Panic)
      end
  end.

Definition error_policy (error : Error) : action :=
  match error with
  | InvalidStatefulSet => AwaitChange
  | _ => Requeue (seconds 5)
  end.

(** Every event of a ConfigMap or Secret asks for all StatefulSets known. *)
Definition trigger_all (store : list ObjectMeta) : list (option str * option str) :=
  (λ obj, (namespace obj, name obj)) <$> store.

(** ** Lemmas *)

Lemma extend_lookup prefix ns ign refs store m n :
  extend prefix ns ign refs store m !! (prefix ++ n) =
    if decide (n ∈ refs) then Some (version_value ign n (store !! (ns, n))) else m !! (prefix ++ n).
Proof.
  unfold extend. revert m. induction refs as [|r refs IH]; intros m; cbn [foldl].
  { rewrite decide_False; [done|]. apply not_elem_of_nil. }
  rewrite IH. destruct (decide (n ∈ refs)) as [Hin|Hin].
  { by rewrite decide_True by by right. }
  destruct (decide (r = n)) as [->|Hne].
  - by rewrite decide_True, lookup_insert_eq by left.
  - rewrite decide_False by (rewrite elem_of_cons; naive_solver).
    apply lookup_insert_ne. intros H. by apply app_inv_head in H.
Qed.

Lemma extend_lookup_other prefix ns ign refs store m k :
  startswith prefix k = false → extend prefix ns ign refs store m !! k = m !! k.
Proof.
  intros Hk. unfold extend. revert m. induction refs as [|r refs IH]; intros m; cbn [foldl]; [done|].
  rewrite IH. apply lookup_insert_ne. intros <-. by rewrite startswith_app in Hk.
Qed.

(** The annotations, key by key. *)
Definition annotation_for (sts : StatefulSet) (ns : str) (cms secrets : Store) (k : str) : option str :=
  if startswith cm_prefix k then
    let n := drop (length cm_prefix) k in
    if decide (n ∈ cm_refs sts)
    then Some (version_value (ignored ignore_cm_prefix sts) n (cms !! (ns, n))) else None
  else if startswith secret_prefix k then
    let n := drop (length secret_prefix) k in
    if decide (n ∈ secret_refs sts)
    then Some (version_value (ignored ignore_secret_prefix sts) n (secrets !! (ns, n))) else None
  else None.

Lemma cm_not_secret n : startswith secret_prefix (cm_prefix ++ n) = false.
Proof. reflexivity. Qed.

Lemma secret_not_cm n : startswith cm_prefix (secret_prefix ++ n) = false.
Proof. reflexivity. Qed.

Lemma annotations_lookup sts ns cm_store secret_store m :
  namespace (metadata sts) = Some ns →
  get_updated_restarter_annotations sts (mkCtx (Some cm_store) (Some secret_store)) = Val m →
  ∀ k, m !! k = annotation_for sts ns cm_store secret_store k.
Proof.
  unfold get_updated_restarter_annotations. intros -> H k. injection H as <-.
  unfold annotation_for. destruct (startswith cm_prefix k) eqn:Ec.
  { apply startswith_spec in Ec as [n ->]. rewrite drop_app_length.
    rewrite extend_lookup_other by apply cm_not_secret. rewrite extend_lookup.
    by destruct (decide _). }
  destruct (startswith secret_prefix k) eqn:Es.
  { apply startswith_spec in Es as [n ->]. rewrite drop_app_length, extend_lookup.
    destruct (decide _); [done|]. by rewrite extend_lookup_other by apply secret_not_cm. }
  rewrite (extend_lookup_other _ _ _ _ _ _ _ Es), (extend_lookup_other _ _ _ _ _ _ _ Ec). apply lookup_empty.
Qed.

Lemma elem_of_omap_join {A B} (f : A → list B) (g : B → option str) (l : list A) n :
  n ∈ omap g (mjoin (f <$> l)) ↔ ∃ c, c ∈ l ∧ ∃ e, e ∈ f c ∧ g e = Some n.
Proof.
  rewrite list_elem_of_omap. split.
  - intros (e & (k & Hk & (c & -> & Hc)%list_elem_of_fmap)%list_elem_of_join & He). eauto.
  - intros (c & Hc & e & He & Hg). exists e. split; [|done]. apply list_elem_of_join.
    exists (f c). split; [done|]. by apply list_elem_of_fmap_2.
Qed.

(** The references are those of the volumes and of all containers. *)
Lemma elem_of_find_pod_refs pod_spec f g h n :
  n ∈ find_pod_refs pod_spec f g h ↔
    (∃ v, v ∈ flatten (volumes pod_spec) ∧ f v = Some n) ∨
    ∃ c, c ∈ containers pod_spec ++ flatten (init_containers pod_spec) ∧
      ((∃ e, e ∈ flatten (c_env c) ∧ g e = Some n) ∨ (∃ e, e ∈ flatten (c_env_from c) ∧ h e = Some n)).
Proof.
  unfold find_pod_refs. rewrite !elem_of_app, !elem_of_omap_join, list_elem_of_omap.
  naive_solver.
Qed.

Lemma ignored_spec prefix sts v :
  v ∈ ignored prefix sts ↔
    ∃ k m, annotations (metadata sts) = Some m ∧ m !! k = Some v ∧ startswith prefix k = true.
Proof.
  unfold ignored. rewrite list_elem_of_fmap. split.
  - intros ([k v'] & -> & [Hk (m & ? & ?)%elem_of_iter_flatten]%list_elem_of_filter). eauto.
  - intros (k & m & Ha & Hm & Hk). exists (k, v). split; [done|]. apply list_elem_of_filter.
    split; [done|]. apply elem_of_iter_flatten. eauto.
Qed.

Lemma annotations_total sts ns cm_store secret_store :
  namespace (metadata sts) = Some ns →
  ∃ m, get_updated_restarter_annotations sts (mkCtx (Some cm_store) (Some secret_store)) = Val m.
Proof. intros H. unfold get_updated_restarter_annotations. rewrite H. simpl. eauto. Qed.

Lemma annotations_error sts ctx e :
  get_updated_restarter_annotations sts ctx = Err e →
  e = ConfigMapsUninitialized ∨ e = SecretsUninitialized.
Proof.
  unfold get_updated_restarter_annotations. destruct (namespace (metadata sts)); [|done]. simpl.
  destruct (cms ctx); simpl; [|naive_solver]. destruct (secrets ctx); simpl; naive_solver.
Qed.

(** The version of an object that is in the store. *)
Definition has_version (store : Store) (ns n u rv : str) : Prop :=
  ∃ o, store !! (ns, n) = Some o ∧ uid o = Some u ∧ resource_version o = Some rv.

Lemma version_value_present ign ns n store u rv :
  has_version store ns n u rv → (n ∉ ign) → version_value ign n (store !! (ns, n)) = u ++ "/" ++ rv.
Proof.
  intros (o & Ho & Hu & Hr) Hn. unfold version_value. rewrite Ho, Hu, Hr. by rewrite decide_False.
Qed.

(** ** Theorems *)

(** The ConfigMaps that a container, a container's environment or a volume names. *)
Definition refers_to_cm (p : PodSpec) (n : str) : Prop :=
  (∃ v, v ∈ flatten (volumes p) ∧ config_map v = Some n) ∨
  ∃ c, c ∈ containers p ++ flatten (init_containers p) ∧
    ((∃ e src, e ∈ flatten (c_env c) ∧ value_from e = Some src ∧ config_map_key_ref src = Some n) ∨
     (∃ e, e ∈ flatten (c_env_from c) ∧ config_map_ref e = Some n)).

Definition refers_to_secret (p : PodSpec) (n : str) : Prop :=
  (∃ v, v ∈ flatten (volumes p) ∧ secret v = Some (Some n)) ∨
  ∃ c, c ∈ containers p ++ flatten (init_containers p) ∧
    ((∃ e src, e ∈ flatten (c_env c) ∧ value_from e = Some src ∧ secret_key_ref src = Some n) ∨
     (∃ e, e ∈ flatten (c_env_from c) ∧ secret_ref e = Some n)).

Lemma elem_of_cm_refs sts n :
  n ∈ cm_refs sts ↔ ∃ sp p, spec sts = Some sp ∧ t_spec (template sp) = Some p ∧ refers_to_cm p n.
Proof.
  unfold cm_refs, pod_specs, refers_to_cm. destruct (spec sts) as [sp|]; simpl.
  2: { split; [by intros ?%not_elem_of_nil|naive_solver]. }
  destruct (t_spec (template sp)) as [p|] eqn:E; simpl.
  2: { split; [by intros ?%not_elem_of_nil|naive_solver]. }
  rewrite app_nil_r, elem_of_find_pod_refs. setoid_rewrite bind_Some. naive_solver.
Qed.

Lemma elem_of_secret_refs sts n :
  n ∈ secret_refs sts ↔ ∃ sp p, spec sts = Some sp ∧ t_spec (template sp) = Some p ∧ refers_to_secret p n.
Proof.
  unfold secret_refs, pod_specs, refers_to_secret. destruct (spec sts) as [sp|]; simpl.
  2: { split; [by intros ?%not_elem_of_nil|naive_solver]. }
  destruct (t_spec (template sp)) as [p|] eqn:E; simpl.
  2: { split; [by intros ?%not_elem_of_nil|naive_solver]. }
  rewrite app_nil_r, elem_of_find_pod_refs. setoid_rewrite bind_Some. naive_solver.
Qed.

(** An annotation of the StatefulSet whose key starts with [prefix] has the value [n]. *)
Definition told_to_ignore (prefix : str) (sts : StatefulSet) (n : str) : Prop :=
  ∃ m suffix, annotations (metadata sts) = Some m ∧ m !! (prefix ++ suffix) = Some n.

(** What is written for an object of a store: uid and resource version, or that its
    changes are ignored. *)
Definition written_version (store : Store) (ns n : str) (ignore : Prop) (v : str) : Prop :=
  (¬ ignore ∧ ∃ o u rv, store !! (ns, n) = Some o ∧ uid o = Some u ∧ resource_version o = Some rv ∧
     v = u ++ "/" ++ rv) ∨
  (v = "changes-ignored" ∧
     (ignore ∨ store !! (ns, n) = None ∨
      ∃ o, store !! (ns, n) = Some o ∧ (uid o = None ∨ resource_version o = None))).

Lemma version_value_spec prefix sts ns n store v :
  v = version_value (ignored prefix sts) n (store !! (ns, n)) ↔
    written_version store ns n (told_to_ignore prefix sts n) v.
Proof.
  assert (Hign : n ∈ ignored prefix sts ↔ told_to_ignore prefix sts n).
  { rewrite ignored_spec. unfold told_to_ignore. setoid_rewrite startswith_spec. split.
    - intros (k & m & Ha & Hm & [x ->]). eauto.
    - intros (m & x & Ha & Hm). eauto 6. }
  unfold version_value, written_version. destruct (store !! (ns, n)) as [o|]; [|naive_solver].
  destruct (uid o) as [u|] eqn:Eu, (resource_version o) as [rv|] eqn:Er;
    [case_decide as Hd; rewrite Hign in Hd| | |]; naive_solver.
Qed.

(** C33: the annotations of the pod template are computed whenever the stores are there,
    and they are exactly the following.  For each ConfigMap or Secret that the template
    names in a volume of that kind (projected volumes are not looked at), or in [env] or
    [envFrom] of a container or init container, there is one: uid and resource version
    of the object of that name in the StatefulSet's own namespace, joined by a slash, if
    the store has them and the StatefulSet has no annotation with the prefix for ignored
    objects whose value is the name; otherwise the constant "changes-ignored". *)
Theorem updated_annotations_spec (sts : StatefulSet) (ns : str) (cm_store secret_store : Store)
    (Hns : namespace (metadata sts) = Some ns) :
  ∃ m, get_updated_restarter_annotations sts (mkCtx (Some cm_store) (Some secret_store)) = Val m ∧
    (∀ k v, m !! k = Some v ↔
      ∃ sp p n, spec sts = Some sp ∧ t_spec (template sp) = Some p ∧
        ((k = "configmap.restarter.stackable.tech/" ++ n ∧ refers_to_cm p n ∧
          written_version cm_store ns n
            (told_to_ignore "restarter.stackable.tech/ignore-configmap." sts n) v) ∨
         (k = "secret.restarter.stackable.tech/" ++ n ∧ refers_to_secret p n ∧
          written_version secret_store ns n
            (told_to_ignore "restarter.stackable.tech/ignore-secret." sts n) v))).
Proof.
  setoid_rewrite <-version_value_spec.
  destruct (annotations_total sts ns cm_store secret_store Hns) as [m Hm]. exists m. split; [done|].
  intros k v. rewrite (annotations_lookup _ _ _ _ _ Hns Hm). unfold annotation_for.
  destruct (startswith cm_prefix k) eqn:Ec; [|destruct (startswith secret_prefix k) eqn:Es].
  - apply startswith_spec in Ec as [n ->]. rewrite drop_app_length. split.
    + case_decide as Hin; [|done]. intros [= <-]. apply elem_of_cm_refs in Hin as (sp & p & ? & ? & ?).
      exists sp, p, n. split_and!; [done..|]. by left.
    + intros (sp & p & n' & Hsp & Hp & [(Hk & Hr & ->)|(Hk & _)]); [|by apply (f_equal (startswith secret_prefix)) in Hk].
      apply app_inv_head in Hk as ->. rewrite decide_True; [done|]. apply elem_of_cm_refs. eauto.
  - apply startswith_spec in Es as [n ->]. rewrite drop_app_length. split.
    + case_decide as Hin; [|done]. intros [= <-]. apply elem_of_secret_refs in Hin as (sp & p & ? & ? & ?).
      exists sp, p, n. split_and!; [done..|]. by right.
    + intros (sp & p & n' & Hsp & Hp & [(Hk & _)|(Hk & Hr & ->)]); [by apply (f_equal (startswith cm_prefix)) in Hk|].
      apply app_inv_head in Hk as ->. rewrite decide_True; [done|]. apply elem_of_secret_refs. eauto.
  - split; [done|]. intros (sp & p & n & _ & _ & [(-> & _)|(-> & _)]).
    + by rewrite startswith_app in Ec.
    + by rewrite startswith_app in Es.
Qed.

(** Changes that do not concern a StatefulSet leave its annotations alone: if
    the objects it names have the same version in two states of the stores, the
    annotations are the same, so that nothing is restarted. *)
Theorem unrelated_changes_do_not_restart (sts : StatefulSet) (ns : str)
    (cms1 cms2 secrets1 secrets2 : Store) (Hns : namespace (metadata sts) = Some ns)
    (Hcms : ∀ n, n ∈ cm_refs sts → ∀ ign, version_value ign n (cms1 !! (ns, n)) = version_value ign n (cms2 !! (ns, n)))
    (Hsecrets : ∀ n, n ∈ secret_refs sts →
       ∀ ign, version_value ign n (secrets1 !! (ns, n)) = version_value ign n (secrets2 !! (ns, n))) :
  get_updated_restarter_annotations sts (mkCtx (Some cms1) (Some secrets1)) =
  get_updated_restarter_annotations sts (mkCtx (Some cms2) (Some secrets2)).
Proof.
  destruct (annotations_total sts ns cms1 secrets1 Hns) as [m1 H1].
  destruct (annotations_total sts ns cms2 secrets2 Hns) as [m2 H2].
  rewrite H1, H2. f_equal. apply map_eq. intros k.
  rewrite (annotations_lookup _ _ _ _ _ Hns H1), (annotations_lookup _ _ _ _ _ Hns H2).
  unfold annotation_for. repeat case_match; try done; f_equal; auto.
Qed.

(** And changes that do concern it are seen: when a ConfigMap or Secret that it
    names and does not ignore is updated (another resource version) or replaced
    (another uid), the annotations differ, and the Pods are restarted. *)
Theorem referenced_changes_restart (sts : StatefulSet) (ns n u1 u2 rv1 rv2 : str)
    (cms1 cms2 secrets1 secrets2 : Store) (Hns : namespace (metadata sts) = Some ns)
    (Huid : (47%N ∉ u1) ∧ (47%N ∉ u2)) (Hchange : u1 ≠ u2 ∨ rv1 ≠ rv2)
    (Href : (n ∈ cm_refs sts ∧ (n ∉ ignored ignore_cm_prefix sts) ∧
             has_version cms1 ns n u1 rv1 ∧ has_version cms2 ns n u2 rv2) ∨
            (n ∈ secret_refs sts ∧ (n ∉ ignored ignore_secret_prefix sts) ∧
             has_version secrets1 ns n u1 rv1 ∧ has_version secrets2 ns n u2 rv2)) :
  get_updated_restarter_annotations sts (mkCtx (Some cms1) (Some secrets1)) ≠
  get_updated_restarter_annotations sts (mkCtx (Some cms2) (Some secrets2)).
Proof.
  destruct (annotations_total sts ns cms1 secrets1 Hns) as [m1 H1].
  destruct (annotations_total sts ns cms2 secrets2 Hns) as [m2 H2].
  rewrite H1, H2. intros [= ->].
  assert (Hv : u1 ++ "/" ++ rv1 ≠ u2 ++ "/" ++ rv2).
  { intros H. apply (f_equal (split_once 47)) in H. destruct Huid.
    change ("/" ++ rv1) with (47%N :: rv1) in H. change ("/" ++ rv2) with (47%N :: rv2) in H.
    rewrite !split_once_app in H by done. naive_solver. }
  pose proof (annotations_lookup _ _ _ _ _ Hns H1) as L1.
  pose proof (annotations_lookup _ _ _ _ _ Hns H2) as L2.
  destruct Href as [(Hin & Hign & Hv1 & Hv2)|(Hin & Hign & Hv1 & Hv2)].
  - specialize (L1 (cm_prefix ++ n)). specialize (L2 (cm_prefix ++ n)). rewrite L1 in L2.
    unfold annotation_for in L2. rewrite startswith_app, drop_app_length, !decide_True in L2 by done.
    rewrite (version_value_present _ _ _ _ _ _ Hv1 Hign), (version_value_present _ _ _ _ _ _ Hv2 Hign) in L2.
    congruence.
  - specialize (L1 (secret_prefix ++ n)). specialize (L2 (secret_prefix ++ n)). rewrite L1 in L2.
    unfold annotation_for in L2. rewrite secret_not_cm, startswith_app, drop_app_length, !decide_True in L2 by done.
    rewrite (version_value_present _ _ _ _ _ _ Hv1 Hign), (version_value_present _ _ _ _ _ _ Hv2 Hign) in L2.
    congruence.
Qed.

(** C34: reconciling sends at most one request, and exactly when it succeeds or the
    API server refuses: it applies the updated annotations to the StatefulSet
    itself; an invalid object waits for a change, every other error is retried after
    five seconds. *)
Theorem reconcile_spec `{KubeClient} (sts : option StatefulSet) (ctx : Ctx) :
  let '(requests, r) := reconcile sts ctx in
  (r = Val AwaitChange ∨ r = Err PatchFailed →
     ∃ s ns n m, sts = Some s ∧ namespace (metadata s) = Some ns ∧ name (metadata s) = Some n ∧
       get_updated_restarter_annotations s ctx = Val m ∧
       requests = [mkApply ns n (uid (metadata s)) m] ∧
       (r = Val AwaitChange ↔ kube_patch (mkApply ns n (uid (metadata s)) m) = true)) ∧
  (r ≠ Val AwaitChange ∧ r ≠ Err PatchFailed → requests = []) ∧
  (r = Panic ↔ ∃ s, sts = Some s ∧ (namespace (metadata s) = None ∨ name (metadata s) = None)) ∧
  (∀ e, r = Err e → (e = InvalidStatefulSet ↔ sts = None) ∧
     error_policy e = (if decide (sts = None) then AwaitChange else Requeue 5000000000)).
Proof.
  unfold reconcile, expect. destruct sts as [s|].
  2: { split_and!; [by intros [?|?]|done| |].
       - split; [done|naive_solver].
       - intros e [= <-]. split; [done|]. by rewrite decide_True. }
  assert (Hpolicy : ∀ e : Error, e ≠ InvalidStatefulSet → (e = InvalidStatefulSet ↔ Some s = None) ∧
    error_policy e = (if decide (Some s = None) then AwaitChange else Requeue 5000000000)).
  { intros e He. rewrite decide_False by done. by destruct e. }
  destruct (namespace (metadata s)) as [ns|] eqn:Ens; simpl.
  2: { split_and!; [by intros [?|?]|done| |done]. split; [eauto|done]. }
  destruct (name (metadata s)) as [n|] eqn:En; simpl.
  2: { split_and!; [by intros [?|?]|done| |done]. split; [eauto|done]. }
  assert (Hpanic : ∀ r : outcome Error action, r ≠ Panic →
    (r = Panic ↔ ∃ s0, Some s = Some s0 ∧ (namespace (metadata s0) = None ∨ name (metadata s0) = None))).
  { intros r Hr. split; [done|]. intros (s0 & [= <-] & [?|?]); congruence. }
  destruct (get_updated_restarter_annotations s ctx) as [m|e|] eqn:Em; simpl.
  - set (req := mkApply _ _ _ _). destruct (kube_patch req) eqn:Ep.
    + split_and!; [|naive_solver|by apply Hpanic|done].
      intros _. exists s, ns, n, m. by split_and!.
    + split_and!; [|naive_solver|by apply Hpanic|intros e [= <-]; by apply Hpolicy].
      intros _. exists s, ns, n, m. fold req. rewrite Ep. by split_and!.
  - pose proof (annotations_error s ctx e Em) as He.
    split_and!; [|done|by apply Hpanic|].
    + intros [?|[= ->]]; by destruct He.
    + intros e' [= <-]. apply Hpolicy. by destruct He as [->| ->].
  - unfold get_updated_restarter_annotations in Em. rewrite Ens in Em. simpl in Em.
    by destruct (cms ctx), (secrets ctx).
Qed.

(** ** A concrete StatefulSet *)

Definition meta (n u rv : str) : ObjectMeta :=
  mkObjectMeta (Some n) (Some "default") (Some u) (Some rv) None None.

(** It mounts the ConfigMap "config" and ignores the Secret "hot". *)
Definition example_sts : StatefulSet :=
  mkStatefulSet
    (mkObjectMeta (Some "sts") (Some "default") (Some "u") (Some "1")
       (Some {[ ("restarter.stackable.tech/ignore-secret.0" : str) := ("hot" : str) ]}) None)
    (Some (mkStatefulSetSpec (mkPodTemplateSpec None (Some (mkPodSpec
       (Some [mkVolume (Some "config") None; mkVolume None (Some (Some "hot"))])
       [mkContainer (Some [mkEnvVar (Some (mkEnvVarSource None (Some "creds")))]) None] None))))).

Definition store_of (l : list (str * str * str)) : Store :=
  list_to_map ((λ x, (("default" : str, x.1.1), meta x.1.1 x.1.2 x.2)) <$> l).

Lemma updated_annotations_spec_witness :
  ∃ m, get_updated_restarter_annotations example_sts
      (mkCtx (Some (store_of [("config", "c", "3")])) (Some (store_of [("hot", "h", "5"); ("creds", "s", "7")])))
    = Val m ∧ m !! ("configmap.restarter.stackable.tech/config" : str) = Some ("c/3" : str).
Proof.
  destruct (updated_annotations_spec example_sts "default" (store_of [("config", "c", "3")])
    (store_of [("hot", "h", "5"); ("creds", "s", "7")]) eq_refl) as (m & Hm & Hk).
  exists m. split; [exact Hm|]. apply Hk. eexists _, _, "config".
  split; [reflexivity|split; [reflexivity|left; split; [reflexivity|split]]].
  - left. exists (mkVolume (Some "config") None). split; [left|reflexivity].
  - left. split.
    + intros (m' & suffix & Hm' & Hs). injection Hm' as <-. apply lookup_singleton_Some in Hs as [_ Hs].
      discriminate Hs.
    + eexists _, _, _. split; [reflexivity|split; [reflexivity|split; reflexivity]].
Defined.

Lemma unrelated_changes_do_not_restart_witness :
  get_updated_restarter_annotations example_sts
    (mkCtx (Some (store_of [("config", "c", "3")])) (Some (store_of [("other", "h", "5")]))) =
  get_updated_restarter_annotations example_sts
    (mkCtx (Some (store_of [("config", "c", "3"); ("more", "x", "1")])) (Some (store_of [("other", "h", "6")]))).
Proof.
  apply (unrelated_changes_do_not_restart example_sts "default").
  - reflexivity.
  - intros n Hn ign. apply (list_elem_of_In) in Hn. destruct Hn as [<-|[]]. reflexivity.
  - intros n Hn ign. apply (list_elem_of_In) in Hn. destruct Hn as [<-|[<-|[]]]; reflexivity.
Defined.

Lemma referenced_changes_restart_witness :
  get_updated_restarter_annotations example_sts
    (mkCtx (Some (store_of [("config", "c", "3")])) (Some ∅)) ≠
  get_updated_restarter_annotations example_sts
    (mkCtx (Some (store_of [("config", "c", "4")])) (Some ∅)).
Proof.
  apply (referenced_changes_restart example_sts "default" "config" "c" "c" "3" "4").
  - reflexivity.
  - split; apply (bool_decide_unpack _); vm_compute; done.
  - right. discriminate.
  - left. split; [left|]. split; [apply not_elem_of_nil|].
    split; eexists; (split; [reflexivity|split; reflexivity]).
Defined.
