(* ===== verification/RestartController.v ===== *)
(** rust/operator-binary/src/restart_controller/statefulset.rs, [start]: the streams
    of events that ask for reconciliations, and reconciliations that wait, read the
    stores and send their patch while more events arrive.

    Of the controller library the model relies on this.  A reflector first takes an
    event to its store and then hands it on.  The objects of a listing are collected
    beside the store, which they replace when the listing ends.  The streams of touched
    and of applied objects have an item for every object that is listed or changed, but
    none for the start and for the end of a listing: the item for a listed object comes
    before the store has the object.  Reconciliations are not started before the
    StatefulSets have been listed once.  A request that is queued is started once the
    object is not being reconciled any more, never twice at a time; the object that is
    handed to the reconciler is the one in the store at that moment. *)

From stdpp Require Import relations.
From S2P Require Import Prelude PyStr Kube Restarter.

(** ** State *)

(** [DeserializeGuard<StatefulSet>]: the metadata can be read even if the object
    cannot. *)
Record guard := mkGuard {
  g_metadata : ObjectMeta;
  g_object : option StatefulSet;
}.

(** [ObjectRef]: namespace and name. *)
Definition ref : Type := option str * option str.
Definition ref_of (g : guard) : ref := (namespace (g_metadata g), name (g_metadata g)).

(** An object that the API server sends has a namespace and a name. *)
Definition guard_ok (g : guard) : Prop :=
  is_Some (namespace (g_metadata g)) ∧ is_Some (name (g_metadata g)) ∧
  ∀ sts, g_object g = Some sts → metadata sts = g_metadata g.

(** Where a reconciliation is: before the ConfigMaps are there, before the Secrets
    are there, waiting for the answer to its patch. *)
Inductive phase :=
  | Started (g : guard)
  | AwaitSecrets (sts : StatefulSet) (ns : str) (annotations : gmap str str)
  | Patching (request : apply_request).

(** The listings under way of the three reflectors, and whether the store of
    StatefulSets is ready. *)
Record watches := mkWatches {
  cm_listing : option Store;
  secret_listing : option Store;
  sts_listing : option (gmap ref guard);
  sts_ready : bool;
}.

Definition unlisted : watches := mkWatches None None None false.

(** The stores of ConfigMaps and Secrets ([None]: not delivered yet; until then they
    are empty), the store of StatefulSets, the requests that wait, the reconciliations
    that run, the annotations that the API server has taken from the controller, and
    the listings. *)
Record system := mkSystem {
  cm_store : option Store;
  secret_store : option Store;
  sts_store : gmap ref guard;
  queue : gset ref;
  running : gmap ref phase;
  applied : gmap ref (gmap str str);
  watching : watches;
}.

Definition initial : system := mkSystem None None ∅ ∅ ∅ ∅ unlisted.

(** ** Reconciling, in parts *)

(** [get_updated_restarter_annotations] up to the second [await], and after it. *)
Definition cms_part (sts : StatefulSet) (ns : str) (cms : Store) : gmap str str :=
  extend cm_prefix ns (ignored ignore_cm_prefix sts) (cm_refs sts) cms ∅.

Definition secrets_part (sts : StatefulSet) (ns : str) (secrets : Store) (m : gmap str str) : gmap str str :=
  extend secret_prefix ns (ignored ignore_secret_prefix sts) (secret_refs sts) secrets m.

(** The parts make up the function. *)
Lemma parts_are_annotations sts ns cms secrets :
  namespace (metadata sts) = Some ns →
  get_updated_restarter_annotations sts (mkCtx (Some cms) (Some secrets))
  = Val (secrets_part sts ns secrets (cms_part sts ns cms)).
Proof. intros H. unfold get_updated_restarter_annotations. by rewrite H. Qed.

(** ** Events of a reflector *)

(** [watcher::Event], and an error. *)
Inductive watch_event (K V : Type) :=
  | Failed | Init | InitApply (k : K) (v : V) | InitDone | Apply (k : K) (v : V) | Delete (k : K).
Arguments Failed {K V}.
Arguments Init {K V}.
Arguments InitApply {K V}.
Arguments InitDone {K V}.
Arguments Apply {K V}.
Arguments Delete {K V}.

Section reflector.
Context {K V : Type} `{Countable K}.

(** A watcher lists only during a listing, and reports changes only outside of one. *)
Definition expected (listing : option (gmap K V)) (ev : watch_event K V) : bool :=
  match ev with
  | Failed | Init => true
  | InitApply _ _ | InitDone => bool_decide (is_Some listing)
  | Apply _ _ | Delete _ => bool_decide (listing = None)
  end.

(** What an event makes of the store and of the listing. *)
Definition reflect (ev : watch_event K V) (store : gmap K V) (listing : option (gmap K V)) :
    gmap K V * option (gmap K V) :=
  match ev with
  | Failed => (store, listing)
  | Init => (store, Some ∅)
  | InitApply k v => (store, insert k v <$> listing)
  | InitDone => (default ∅ listing, None)
  | Apply k v => (<[k := v]> store, listing)
  | Delete k => (delete k store, listing)
  end.

(** [touched_objects] and [applied_objects]. *)
Definition touched (ev : watch_event K V) : bool :=
  match ev with InitApply _ _ | Apply _ _ | Delete _ => true | _ => false end.

Definition applied_object (ev : watch_event K V) : option (K * V) :=
  match ev with InitApply k v | Apply k v => Some (k, v) | _ => None end.

(** A listing ends: what it has found becomes known. *)
Definition ends_listing (ev : watch_event K V) : bool := match ev with InitDone => true | _ => false end.

End reflector.

(** ** Steps *)

(** A ConfigMap or Secret was touched: all StatefulSets known are asked for. *)
Definition trigger (s : system) : gset ref :=
  queue s ∪ list_to_set (trigger_all (g_metadata <$> (map_to_list (sts_store s)).*2)).

Definition set_running (r : ref) (p : phase) (s : system) : system :=
  mkSystem (cm_store s) (secret_store s) (sts_store s) (queue s) (<[r := p]> (running s)) (applied s) (watching s).

(** A reconciliation ends; it is asked for again if it says so. *)
Definition finish (r : ref) (again : bool) (applied' : gmap ref (gmap str str)) (s : system) : system :=
  mkSystem (cm_store s) (secret_store s) (sts_store s)
    (if again then queue s ∪ {[r]} else queue s) (delete r (running s)) applied' (watching s).

Definition requeues (a : action) : bool := match a with AwaitChange => false | Requeue _ => true end.

(** What the controller does by itself, if the API server takes its patches. *)
Inductive internal : system → system → Prop :=
  | start_known r g s :
      sts_ready (watching s) = true → r ∈ queue s → running s !! r = None → sts_store s !! r = Some g →
      internal s (mkSystem (cm_store s) (secret_store s) (sts_store s) (queue s ∖ {[r]})
                    (<[r := Started g]> (running s)) (applied s) (watching s))
  | start_unknown r s :
      sts_ready (watching s) = true → r ∈ queue s → running s !! r = None → sts_store s !! r = None →
      internal s (mkSystem (cm_store s) (secret_store s) (sts_store s) (queue s ∖ {[r]}) (running s) (applied s) (watching s))
  | read_invalid r g s :
      running s !! r = Some (Started g) → g_object g = None →
      internal s (finish r (requeues (error_policy InvalidStatefulSet)) (applied s) s)
  | read_cms r g sts ns cms s :
      running s !! r = Some (Started g) → g_object g = Some sts → namespace (metadata sts) = Some ns →
      cm_store s = Some cms →
      internal s (set_running r (AwaitSecrets sts ns (cms_part sts ns cms)) s)
  | read_secrets r sts ns n m secrets s :
      running s !! r = Some (AwaitSecrets sts ns m) → name (metadata sts) = Some n →
      secret_store s = Some secrets →
      internal s (set_running r (Patching (mkApply ns n (uid (metadata sts)) (secrets_part sts ns secrets m))) s)
  | patch_taken r request s :
      running s !! r = Some (Patching request) →
      internal s (finish r (requeues AwaitChange) (<[r := ap_template_annotations request]> (applied s)) s).

(** An event of the ConfigMaps: the store changes, it is delivered if this is the first
    event, and all StatefulSets known are asked for if an object was touched. *)
Definition cm_event (ev : watch_event (str * str) ObjectMeta) (s : system) : system :=
  let '(store, listing) := reflect ev (default ∅ (cm_store s)) (cm_listing (watching s)) in
  mkSystem (Some store) (secret_store s) (sts_store s) (if touched ev then trigger s else queue s)
    (running s) (applied s)
    (mkWatches listing (secret_listing (watching s)) (sts_listing (watching s)) (sts_ready (watching s))).

Definition secret_event (ev : watch_event (str * str) ObjectMeta) (s : system) : system :=
  let '(store, listing) := reflect ev (default ∅ (secret_store s)) (secret_listing (watching s)) in
  mkSystem (cm_store s) (Some store) (sts_store s) (if touched ev then trigger s else queue s)
    (running s) (applied s)
    (mkWatches (cm_listing (watching s)) listing (sts_listing (watching s)) (sts_ready (watching s))).

(** An event of the StatefulSets: the object itself is asked for if it was applied. *)
Definition sts_event (ev : watch_event ref guard) (s : system) : system :=
  let '(store, listing) := reflect ev (sts_store s) (sts_listing (watching s)) in
  mkSystem (cm_store s) (secret_store s) store
    (match applied_object ev with Some (r, _) => queue s ∪ {[r]} | None => queue s end)
    (running s) (applied s)
    (mkWatches (cm_listing (watching s)) (secret_listing (watching s)) listing
      (match ev with InitDone => true | _ => sts_ready (watching s) end)).

(** What happens to the controller, and whether it is the end of a listing. *)
Inductive external : bool → system → system → Prop :=
  | cms_watched ev s :
      expected (cm_listing (watching s)) ev = true → external (ends_listing ev) s (cm_event ev s)
  | secrets_watched ev s :
      expected (secret_listing (watching s)) ev = true → external (ends_listing ev) s (secret_event ev s)
  | stses_watched ev s :
      expected (sts_listing (watching s)) ev = true →
      (∀ r g, applied_object ev = Some (r, g) → guard_ok g ∧ r = ref_of g) →
      external (ends_listing ev) s (sts_event ev s)
  | patch_refused r request s :
      running s !! r = Some (Patching request) →
      external false s (finish r (requeues (error_policy PatchFailed)) (applied s) s).

Definition step (s s' : system) : Prop := internal s s' ∨ ∃ listed, external listed s s'.

(** The controller's history up to a state, and whether a listing has ended while
    nobody asked for the object [r] and nobody has since. *)
Inductive history (r : ref) : bool → system → Prop :=
  | history_initial : history r false initial
  | history_internal missed s s' :
      history r missed s → internal s s' → history r (missed && bool_decide (r ∉ queue s')) s'
  | history_external missed listed s s' :
      history r missed s → external listed s s' → history r ((missed || listed) && bool_decide (r ∉ queue s')) s'.

(** ** The invariant *)

(** [m] is what the annotations have to be, as the stores are now. *)
Definition current (s : system) (sts : StatefulSet) (m : gmap str str) : Prop :=
  get_updated_restarter_annotations sts (mkCtx (cm_store s) (secret_store s)) = Val m.

(** Nobody waits for the object: its annotations are current or are about to be. *)
Definition settled (s : system) (r : ref) (sts : StatefulSet) : Prop :=
  match running s !! r with
  | None => ∃ m, applied s !! r = Some m ∧ current s sts m
  | Some (Started g) => g_object g = Some sts
  | Some (AwaitSecrets sts' ns m) =>
      sts' = sts ∧ namespace (metadata sts) = Some ns ∧ ∃ cms, cm_store s = Some cms ∧ m = cms_part sts ns cms
  | Some (Patching request) => current s sts (ap_template_annotations request)
  end.

Definition store_ok (s : system) : Prop :=
  (∀ r g, sts_store s !! r = Some g → guard_ok g ∧ r = ref_of g) ∧
  (∀ l r g, sts_listing (watching s) = Some l → l !! r = Some g → guard_ok g ∧ r = ref_of g).

(** A reconciliation has an object that the API server sent. *)
Definition phase_ok (p : phase) : Prop :=
  match p with
  | Started g => guard_ok g
  | AwaitSecrets sts _ _ => is_Some (name (metadata sts))
  | Patching _ => True
  end.

(** Every valid StatefulSet that is known and not asked for is settled, [except]ions apart. *)
Definition system_ok (except : ref → Prop) (s : system) : Prop :=
  store_ok s ∧ map_Forall (λ _, phase_ok) (running s) ∧
  ∀ r g sts, sts_store s !! r = Some g → g_object g = Some sts → r ∉ queue s → settled s r sts ∨ except r.

(** ** Lemmas *)

Lemma initial_ok except : system_ok except initial.
Proof.
  split_and!; [split|apply map_Forall_empty|].
  - intros r g H. cbn in H. by rewrite lookup_empty in H.
  - done.
  - intros r g sts H. cbn in H. by rewrite lookup_empty in H.
Qed.

Lemma system_ok_mono (P Q : ref → Prop) s :
  (∀ r, r ∉ queue s → P r → Q r) → system_ok P s → system_ok Q s.
Proof. intros HPQ (H1 & H2 & H3). split_and!; [done..|]. intros r g sts Hg Hsts Hq. destruct (H3 r g sts); auto. Qed.

(** A trigger asks for every StatefulSet of the store. *)
Lemma elem_of_trigger s r g : store_ok s → sts_store s !! r = Some g → r ∈ trigger s.
Proof.
  intros [Hok _] Hg. unfold trigger, trigger_all. apply elem_of_union_r, elem_of_list_to_set.
  destruct (Hok _ _ Hg) as [_ ->]. apply list_elem_of_fmap. exists (g_metadata g). split; [done|].
  apply list_elem_of_fmap_2. apply list_elem_of_fmap. exists (ref_of g, g). split; [done|].
  by apply elem_of_map_to_list.
Qed.

(** Objects other than the one a reconciliation is about stay settled. *)
Lemma settled_set_running r r' p s sts :
  r ≠ r' → settled s r' sts → settled (set_running r p s) r' sts.
Proof. intros Hne H. unfold settled, set_running in *. cbn. by rewrite lookup_insert_ne. Qed.

Lemma settled_finish r r' again m s sts :
  r ≠ r' → settled s r' sts → settled (finish r again (<[r := m]> (applied s)) s) r' sts.
Proof.
  intros Hne H. unfold settled, finish in *. cbn. rewrite lookup_delete_ne by done.
  by rewrite lookup_insert_ne.
Qed.

Lemma settled_finish_same r r' again s sts :
  r ≠ r' → settled s r' sts → settled (finish r again (applied s) s) r' sts.
Proof. intros Hne H. unfold settled, finish in *. cbn. by rewrite lookup_delete_ne. Qed.

Lemma internal_ok except s s' : internal s s' → system_ok except s → system_ok except s'.
Proof.
  intros Hstep (Hstore & Hphase & Hset). destruct Hstep as
    [r g s Hrdy Hq Hr Hg|r s Hrdy Hq Hr Hg|r g s Hr Hg|r g sts ns cms s Hr Hg Hns Hc|r sts ns n m secrets s Hr Hn Hs|r request s Hr];
    (split; [done|split]).
  - apply map_Forall_insert_2; [|done]. by destruct (proj1 Hstore _ _ Hg).
  - intros r' g' sts Hg' Hsts Hq'. cbn in *. destruct (decide (r = r')) as [<-|Hne].
    + left. unfold settled. cbn. rewrite lookup_insert_eq. by simplify_eq.
    + destruct (Hset r' g' sts) as [H|H]; [done|done|set_solver| |by right]. left. by eapply (settled_set_running r r').
  - done.
  - intros r' g' sts Hg' Hsts Hq'. cbn in *. apply (Hset _ g'); [done|done|].
    destruct (decide (r = r')) as [<-|Hne]; [congruence|set_solver].
  - by apply map_Forall_delete.
  - intros r' g' sts Hg' Hsts Hq'. cbn in *. destruct (Hset _ _ _ Hg' Hsts Hq') as [H|H]; [left|by right].
    destruct (decide (r = r')) as [<-|Hne]; [|by eapply settled_finish_same].
    unfold settled in H. rewrite Hr in H. congruence.
  - apply map_Forall_insert_2; [|done]. specialize (Hphase _ _ Hr).
    destruct Hphase as (_ & Hname & Hmeta). cbn. by rewrite (Hmeta _ Hg).
  - intros r' g' sts' Hg' Hsts Hq'. cbn in *. destruct (Hset _ _ _ Hg' Hsts Hq') as [H|H]; [left|by right].
    destruct (decide (r = r')) as [<-|Hne]; [|by eapply settled_set_running].
    unfold settled in *. rewrite Hr in H. cbn. rewrite lookup_insert_eq.
    assert (sts' = sts) as -> by congruence. split; [done|]. by split; [|exists cms].
  - by apply map_Forall_insert_2.
  - intros r' g' sts' Hg' Hsts Hq'. cbn in *. destruct (Hset _ _ _ Hg' Hsts Hq') as [H|H]; [left|by right].
    destruct (decide (r = r')) as [<-|Hne]; [|by eapply settled_set_running].
    unfold settled in *. rewrite Hr in H. cbn. rewrite lookup_insert_eq.
    destruct H as (-> & Hns & cms & Hc & ->). unfold current. cbn. rewrite Hc, Hs. by apply parts_are_annotations.
  - by apply map_Forall_delete.
  - intros r' g' sts' Hg' Hsts Hq'. cbn in *. destruct (Hset _ _ _ Hg' Hsts Hq') as [H|H]; [left|by right].
    destruct (decide (r = r')) as [<-|Hne]; [|by eapply settled_finish].
    unfold settled in *. rewrite Hr in H. cbn. rewrite lookup_delete_eq. eexists. by rewrite lookup_insert_eq.
Qed.

(** Annotations cannot be current while a store is missing. *)
Lemma current_stores s sts m : current s sts m → is_Some (cm_store s) ∧ is_Some (secret_store s).
Proof.
  unfold current, get_updated_restarter_annotations.
  destruct (namespace (metadata sts)), s as [[c|] [sc|] ? ? ? ? ?]; done.
Qed.

Lemma settled_stores s r sts :
  settled s r sts → match running s !! r with
                    | Some (Started _) => True
                    | Some (AwaitSecrets _ _ _) => is_Some (cm_store s)
                    | _ => is_Some (cm_store s) ∧ is_Some (secret_store s)
                    end.
Proof.
  unfold settled. destruct (running s !! r) as [[g|sts' ns m|request]|]; [done| | |].
  - intros (_ & _ & cms & -> & _). done.
  - apply current_stores.
  - intros (m & _ & H). by eapply current_stores.
Qed.

(** A store that is delivered spoils nothing: who is settled has not needed it. *)
Lemma settled_delivered s s' r sts :
  running s' = running s → applied s' = applied s →
  cm_store s = None ∨ cm_store s' = cm_store s → secret_store s = None ∨ secret_store s' = secret_store s →
  settled s r sts → settled s' r sts.
Proof.
  intros Hr Ha Hc Hs Hset. pose proof (settled_stores _ _ _ Hset) as H. unfold settled, current in *. rewrite Hr, Ha.
  destruct (running s !! r) as [[g|sts' ns m|request]|]; [done| | |].
  - destruct Hc as [Hc|Hc]; [rewrite Hc in H; by destruct H|by rewrite Hc].
  - destruct H as [Hsc Hss].
    destruct Hc as [Hc|Hc]; [rewrite Hc in Hsc; by destruct Hsc|]. destruct Hs as [Hs|Hs]; [rewrite Hs in Hss; by destruct Hss|].
    by rewrite Hc, Hs.
  - destruct H as [Hsc Hss].
    destruct Hc as [Hc|Hc]; [rewrite Hc in Hsc; by destruct Hsc|]. destruct Hs as [Hs|Hs]; [rewrite Hs in Hss; by destruct Hss|].
    by rewrite Hc, Hs.
Qed.

(** An event that is no end of a listing has settled objects stay settled, or asks for
    them. *)
Lemma external_ok except listed s s' :
  external listed s s' → system_ok except s → system_ok (λ r, except r ∨ listed = true) s'.
Proof.
  intros Hstep (Hstore & Hphase & Hset). destruct Hstep as [ev s Hev|ev s Hev|ev s Hev Hok|r request s Hr].
  - split; [by destruct ev|split; [by destruct ev|]]. intros r g sts Hg Hsts Hq. destruct ev as [| |k v| |k v|k]; cbn in Hg, Hq.
    1, 2: (destruct (Hset r g sts Hg Hsts Hq) as [H|H]; [left|by right; left];
           eapply settled_delivered, H; try done; cbn; [by destruct (cm_store s); [right|left]|by right]).
    2: by right; right.
    all: by destruct Hq; eapply elem_of_trigger.
  - split; [by destruct ev|split; [by destruct ev|]]. intros r g sts Hg Hsts Hq. destruct ev as [| |k v| |k v|k]; cbn in Hg, Hq.
    1, 2: (destruct (Hset r g sts Hg Hsts Hq) as [H|H]; [left|by right; left];
           eapply settled_delivered, H; try done; cbn; [by right|by destruct (secret_store s); [right|left]]).
    2: by right; right.
    all: by destruct Hq; eapply elem_of_trigger.
  - destruct Hstore as [Hst Hli].
    assert (Hkeep : ∀ r g sts, sts_store s !! r = Some g → g_object g = Some sts → r ∉ queue s →
      settled (sts_event ev s) r sts ∨ except r ∨ ends_listing ev = true).
    { intros r g sts Hg Hsts Hq. destruct (Hset r g sts Hg Hsts Hq) as [H|H]; [left|by right; left].
      unfold sts_event. destruct (reflect _ _ _). eapply settled_delivered, H; try done; by right. }
    destruct ev as [| |k v| |k v|k].
    + split; [done|split; [done|]]. intros r g sts Hg Hsts Hq. by eapply Hkeep.
    + split; [split; [done|]|split; [done|]]. { intros l r g [= <-] H. by rewrite lookup_empty in H. }
      intros r g sts Hg Hsts Hq. by eapply Hkeep.
    + split; [split; [done|]|split; [done|]].
      * intros l r g Hl H. cbn in Hl. destruct (sts_listing (watching s)) as [l0|] eqn:El; [|done]. injection Hl as <-.
        apply lookup_insert_Some in H as [[<- <-]|[_ H]]; [by apply Hok|by apply (Hli l0)].
      * intros r g sts Hg Hsts Hq. cbn in Hg, Hq. eapply Hkeep; [done|done|set_solver].
    + apply bool_decide_eq_true in Hev. split; [split|split; [done|]].
      * intros r g H. cbn in H. destruct Hev as [l El]. rewrite El in H. by apply (Hli l).
      * done.
      * intros r g sts Hg Hsts Hq. by right; right.
    + split; [split; [|done]|split; [done|]].
      * intros r g H. cbn in H. apply lookup_insert_Some in H as [[<- <-]|[_ H]]; [by apply Hok|by apply Hst].
      * intros r g sts Hg Hsts Hq. cbn in Hg, Hq. rewrite lookup_insert_ne in Hg by (intros <-; set_solver).
        eapply Hkeep; [done|done|set_solver].
    + split; [split; [|done]|split; [done|]].
      * intros r g H. cbn in H. apply lookup_delete_Some in H as [_ H]. by apply Hst.
      * intros r g sts Hg Hsts Hq. cbn in Hg, Hq. apply lookup_delete_Some in Hg as [_ Hg]. by eapply Hkeep.
  - split_and!; [done|by apply map_Forall_delete|].
    intros r' g' sts Hg' Hsts Hq. cbn in Hg', Hq. assert (r ≠ r') by (intros ->; set_solver).
    destruct (Hset r' g' sts) as [H'|H']; [done|done|set_solver| |by right; left]. left. by eapply settled_finish_same.
Qed.

(** The states of a history are in order, but for what a listing's end has left unseen. *)
Lemma history_ok r missed s : history r missed s → system_ok (λ r', r' ≠ r ∨ missed = true) s.
Proof.
  induction 1 as [|missed s s' _ IH Hi|missed listed s s' _ IH He]; [apply initial_ok| |].
  - eapply system_ok_mono; [|by eapply internal_ok]. intros r' Hq [?| ->]; [by left|].
    destruct (decide (r' = r)) as [->|]; [right|by left]. by rewrite bool_decide_true.
  - eapply system_ok_mono; [|by eapply external_ok]. intros r' Hq H. destruct (decide (r' = r)) as [->|]; [right|by left].
    rewrite bool_decide_true by done. destruct H as [[?| ->]| ->]; [done|done|by rewrite orb_true_r].
Qed.

Lemma reachable_ok s : rtc step initial s → system_ok (λ _, True) s.
Proof.
  revert s. apply (rtc_ind_r (λ s, system_ok (λ _, True) s)); [apply initial_ok|]. intros s s' _ [Hi|[listed He]] IH.
  - by eapply internal_ok.
  - eapply system_ok_mono; [|by eapply external_ok]. done.
Qed.

(** Work that is left: each step of the controller does some. *)
Definition phase_work (p : phase) : nat :=
  match p with Started _ => 3 | AwaitSecrets _ _ _ => 2 | Patching _ => 1 end.

Definition running_work (m : gmap ref phase) : nat := map_fold (λ _ p n, phase_work p + n) 0 m.

Definition work (s : system) : nat := 4 * size (queue s) + running_work (running s).

Lemma running_work_insert r p m : m !! r = None → running_work (<[r := p]> m) = phase_work p + running_work m.
Proof. intros H. unfold running_work. rewrite (map_fold_insert_L _ _ r p m); [done|lia|done]. Qed.

Lemma running_work_delete r p m : m !! r = Some p → running_work m = phase_work p + running_work (delete r m).
Proof.
  intros H. rewrite <- (running_work_insert r p) by apply lookup_delete_eq. by rewrite insert_delete_id.
Qed.

Lemma running_work_update r p q m :
  m !! r = Some p → running_work (<[r := q]> m) + phase_work p = phase_work q + running_work m.
Proof.
  intros H. rewrite (running_work_delete r q) by apply lookup_insert_eq.
  rewrite delete_insert_eq. rewrite (running_work_delete r p m H). lia.
Qed.

Lemma size_dequeue (r : ref) (q : gset ref) : r ∈ q → S (size (q ∖ {[r]})) = size q.
Proof.
  intros H. rewrite size_difference by set_solver. rewrite size_singleton.
  assert (size q ≠ 0); [|lia]. apply size_non_empty_iff. set_solver.
Qed.

Lemma internal_work s s' : internal s s' → work s' < work s.
Proof.
  intros Hstep. unfold work. destruct Hstep as
    [r g s Hrdy Hq Hr Hg|r s Hrdy Hq Hr Hg|r g s Hr Hg|r g sts ns cms s Hr Hg Hns Hc|r sts ns n m secrets s Hr Hn Hs|r request s Hr];
    cbn [finish set_running queue running requeues error_policy].
  - apply size_dequeue in Hq. rewrite running_work_insert by done. cbn. lia.
  - apply size_dequeue in Hq. lia.
  - rewrite (running_work_delete _ _ _ Hr). cbn. lia.
  - pose proof (running_work_update _ _ (AwaitSecrets sts ns (cms_part sts ns cms)) _ Hr) as H. cbn in H. lia.
  - pose proof (running_work_update _ _ (Patching (mkApply ns n (uid (metadata sts)) (secrets_part sts ns secrets m))) _ Hr) as H.
    cbn in H. lia.
  - rewrite (running_work_delete _ _ _ Hr). cbn. lia.
Qed.

Lemma internal_terminates s : sn internal s.
Proof.
  remember (work s) as n eqn:Hn. revert s Hn. induction (lt_wf n) as [n _ IH]. intros s ->.
  constructor. intros s' Hs'. by eapply IH, eq_refl; apply internal_work.
Qed.

(** The controller's own steps change neither the stores nor the invariant. *)
Lemma internal_stores except s s' :
  rtc internal s s' → system_ok except s →
  system_ok except s' ∧ cm_store s' = cm_store s ∧ secret_store s' = secret_store s ∧ sts_store s' = sts_store s ∧
  watching s' = watching s.
Proof.
  induction 1 as [|s1 s2 s3 Hstep _ IH]; [done|]. intros Hok.
  destruct IH as (H & -> & -> & -> & ->); [by eapply internal_ok|]. split; [done|]. by destruct Hstep.
Qed.

(** While something is queued or running, there is a step. *)
Lemma internal_progress except s :
  system_ok except s → sts_ready (watching s) = true → is_Some (cm_store s) → is_Some (secret_store s) →
  ¬ red internal s → queue s = ∅ ∧ running s = ∅.
Proof.
  intros (_ & Hphase & _) Hrdy [cms Hc] [secrets Hs] Hred.
  assert (running s = ∅) as Hr.
  { apply map_eq. intros r. rewrite lookup_empty. destruct (running s !! r) as [p|] eqn:Hr; [|done].
    destruct Hred. specialize (Hphase _ _ Hr). destruct p as [g|sts ns m|request].
    - destruct (g_object g) as [sts|] eqn:Hg; [|eexists; by eapply read_invalid].
      destruct Hphase as ([ns Hns] & _ & Hmeta). eexists. eapply read_cms; [done|done|by rewrite (Hmeta _ Hg)|done].
    - destruct Hphase as [n Hn]. eexists. by eapply read_secrets.
    - eexists. by eapply patch_taken. }
  split; [|done]. apply set_eq. intros r. split; [|set_solver]. intros Hq. destruct Hred.
  destruct (sts_store s !! r) as [g|] eqn:Hg; eexists.
  - eapply start_known; [done|done|by rewrite Hr, lookup_empty|done].
  - eapply start_unknown; [done|done|by rewrite Hr, lookup_empty|done].
Qed.

(** ** Theorems *)

(** C5: whatever the order of events and of the steps of reconciliations, when nothing
    is queued or running, every StatefulSet known has been given the annotations that
    the stores call for now, unless a listing has ended since it was last asked for: no
    change that comes as an event of its own is missed, also none that happens between
    a reconciliation's reading of the stores and its patch, and no listing that is
    followed by a request. *)
Theorem quiescent_is_current (s : system) (r : ref) (g : guard) (sts : StatefulSet)
    (Hhistory : history r false s) (Hqueue : queue s = ∅) (Hrunning : running s = ∅)
    (Hg : sts_store s !! r = Some g) (Hsts : g_object g = Some sts) :
  ∃ m, applied s !! r = Some m ∧
    get_updated_restarter_annotations sts (mkCtx (cm_store s) (secret_store s)) = Val m.
Proof.
  destruct (history_ok _ _ _ Hhistory) as (_ & _ & Hset).
  destruct (Hset r g sts Hg Hsts) as [H|[?|?]]; [set_solver| |done..].
  unfold settled in H. by rewrite Hrunning, lookup_empty in H.
Qed.

(** C11: and it gets there: once the ConfigMaps and Secrets have been delivered and the
    StatefulSets been listed, the controller's own steps end, if no events arrive and
    the API server takes the patches, and when no step is left (a reconciliation that
    waits for a store that is there has one), nothing is queued or running, and all
    annotations are current of the StatefulSets that are asked for, or that have been
    since the last listing ended. *)
Theorem controller_drains (s : system) (Hreach : rtc step initial s)
    (Hcms : is_Some (cm_store s)) (Hsecrets : is_Some (secret_store s)) (Hready : sts_ready (watching s) = true) :
  sn internal s ∧
  ∀ s', rtc internal s s' → ¬ red internal s' →
    queue s' = ∅ ∧ running s' = ∅ ∧
    ∀ r g sts, sts_store s !! r = Some g → g_object g = Some sts → r ∈ queue s ∨ history r false s →
      ∃ m, applied s' !! r = Some m ∧
        get_updated_restarter_annotations sts (mkCtx (cm_store s) (secret_store s)) = Val m.
Proof.
  split; [apply internal_terminates|]. intros s' Hsteps Hred. pose proof (reachable_ok _ Hreach) as Hok0.
  destruct (internal_stores _ _ _ Hsteps Hok0) as (Hok & Hc & Hs & Hst & Hw).
  destruct (internal_progress _ s' Hok) as [Hq Hr]; [by rewrite Hw|by rewrite Hc|by rewrite Hs|done|].
  split_and!; [done..|]. intros r g sts Hg Hsts Hasked. rewrite <- Hst in Hg.
  assert (Hok1 : system_ok (λ r', r' ≠ r) s).
  { destruct Hasked as [Hin|Hhist].
    - eapply system_ok_mono; [|exact Hok0]. intros r' Hq' _ ->. done.
    - eapply system_ok_mono; [|exact (history_ok _ _ _ Hhist)]. by intros r' _ [?|?]. }
  destruct (internal_stores _ _ _ Hsteps Hok1) as ((_ & _ & Hset) & _).
  destruct (Hset r g sts Hg Hsts) as [H|?]; [set_solver| |done].
  unfold settled, current in H. by rewrite Hr, Hc, Hs, lookup_empty in H.
Qed.

(** The controller's own steps are steps. *)
Lemma internal_steps s s' : rtc internal s s' → rtc step s s'.
Proof. induction 1 as [|x y z H _ IH]; [constructor|]. eapply rtc_l; [by left|done]. Qed.

(** ** A system that knows one StatefulSet *)

Section single.
Variables (g : guard) (sts : StatefulSet).
Hypotheses (Hg : guard_ok g) (Hsts : g_object g = Some sts).

Definition single (cms secrets : option Store) (queue : gset ref) (applied : gmap ref (gmap str str)) (w : watches) :
    system :=
  mkSystem cms secrets {[ref_of g := g]} queue ∅ applied w.

(** What is queued once objects have been listed. *)
Definition asked (listed : Store) (q : gset ref) : gset ref := if decide (listed = ∅) then q else q ∪ {[ref_of g]}.

Lemma asked_already listed : asked listed {[ref_of g]} = {[ref_of g]}.
Proof using Type. clear Hg Hsts sts. unfold asked. case_decide; [done|set_solver]. Qed.

Lemma asked_insert k v listed q : asked (<[k := v]> listed) q = asked listed q ∪ {[ref_of g]}.
Proof using Type. clear Hg Hsts sts. unfold asked. rewrite decide_False by apply insert_non_empty. case_decide; set_solver. Qed.

(** It is reconciled, and all is quiet. *)
Lemma single_round cms secrets m applied0 w :
  sts_ready w = true → get_updated_restarter_annotations sts (mkCtx (Some cms) (Some secrets)) = Val m →
  rtc internal (single (Some cms) (Some secrets) {[ref_of g]} applied0 w)
    (single (Some cms) (Some secrets) ∅ (<[ref_of g := m]> applied0) w).
Proof using Hg Hsts.
  destruct Hg as ([ns Hns] & [n Hn] & Hmeta). rewrite <- (Hmeta _ Hsts) in Hns, Hn. intros Hrdy Hm.
  rewrite (parts_are_annotations _ ns) in Hm by done. injection Hm as <-. unfold single.
  eapply rtc_l; [apply (start_known (ref_of g) g); [done|cbn; set_solver|done|apply lookup_insert_eq]|].
  eapply rtc_l; [by eapply (read_cms (ref_of g) g sts); [apply lookup_insert_eq|..]|].
  eapply rtc_l; [by eapply (read_secrets (ref_of g)); [apply lookup_insert_eq|..]|].
  eapply rtc_l; [eapply (patch_taken (ref_of g)), lookup_insert_eq|].
  unfold finish, set_running. cbn. rewrite difference_diag_L, !insert_insert_eq, delete_insert_id by done. constructor.
Qed.

(** If it is asked for; or it has the annotations already. *)
Lemma single_settles cms secrets m applied0 listed w :
  sts_ready w = true → get_updated_restarter_annotations sts (mkCtx (Some cms) (Some secrets)) = Val m →
  rtc internal (single (Some cms) (Some secrets) (asked listed ∅) (<[ref_of g := m]> applied0) w)
    (single (Some cms) (Some secrets) ∅ (<[ref_of g := m]> applied0) w).
Proof using Hg Hsts.
  intros Hrdy Hm. unfold asked. case_decide; [constructor|]. rewrite union_empty_l_L.
  pose proof (single_round cms secrets m (<[ref_of g := m]> applied0) w Hrdy Hm) as Hround.
  by rewrite insert_insert_eq in Hround.
Qed.

Lemma trigger_single cms secrets q applied0 w : trigger (single cms secrets q applied0 w) = q ∪ {[ref_of g]}.
Proof using Type.
  clear Hg Hsts sts.
  unfold trigger. cbn [queue sts_store single]. rewrite map_to_list_singleton.
  cbn -[union empty singleton]. change (Some _, Some _) with (ref_of g). set_solver.
Qed.

(** The first listing of the StatefulSets. *)
Lemma stses_listed applied0 :
  rtc step (mkSystem None None ∅ ∅ ∅ applied0 unlisted)
    (single None None {[ref_of g]} applied0 (mkWatches None None None true)).
Proof using Hg.
  eapply rtc_l; [right; eexists; by apply (stses_watched Init)|].
  eapply rtc_l; [right; eexists; apply (stses_watched (InitApply (ref_of g) g)); [done|by intros ? ? [= <- <-]]|].
  eapply rtc_l; [right; eexists; by apply (stses_watched InitDone)|].
  cbn. rewrite union_empty_l_L. constructor.
Qed.

(** A listing of ConfigMaps, but for its start and end: every one asks for the StatefulSet. *)
Lemma cms_collected cms secrets q applied0 l listed :
  rtc step (single (Some cms) secrets q applied0 (mkWatches (Some ∅) l None true))
    (single (Some cms) secrets (asked listed q) applied0 (mkWatches (Some listed) l None true)).
Proof using Type.
  clear Hg Hsts sts. induction listed as [|k v listed Hk IH] using map_ind; [constructor|]. eapply rtc_r; [exact IH|].
  right. eexists. match goal with |- external _ ?s ?s' => replace s' with (cm_event (InitApply k v) s); [by apply cms_watched|] end.
  unfold cm_event. cbn [reflect touched]. by rewrite trigger_single, asked_insert.
Qed.

Lemma cms_listed cms secrets q applied0 l listed :
  rtc step (single cms secrets q applied0 (mkWatches None l None true))
    (single (Some (default ∅ cms)) secrets (asked listed q) applied0 (mkWatches (Some listed) l None true)).
Proof using Type. eapply rtc_l; [right; eexists; by apply (cms_watched Init)|]. apply cms_collected. Qed.

Lemma cms_done cms secrets q applied0 l listed :
  step (single cms secrets q applied0 (mkWatches (Some listed) l None true))
    (single (Some listed) secrets q applied0 (mkWatches None l None true)).
Proof using Type. right. eexists. by apply (cms_watched InitDone). Qed.

Lemma secrets_collected cms secrets q applied0 l listed :
  rtc step (single cms (Some secrets) q applied0 (mkWatches l (Some ∅) None true))
    (single cms (Some secrets) (asked listed q) applied0 (mkWatches l (Some listed) None true)).
Proof using Type.
  clear Hg Hsts sts. induction listed as [|k v listed Hk IH] using map_ind; [constructor|]. eapply rtc_r; [exact IH|].
  right. eexists. match goal with |- external _ ?s ?s' => replace s' with (secret_event (InitApply k v) s); [by apply secrets_watched|] end.
  unfold secret_event. cbn [reflect touched]. by rewrite trigger_single, asked_insert.
Qed.

Lemma secrets_listed cms secrets q applied0 l listed :
  rtc step (single cms secrets q applied0 (mkWatches l None None true))
    (single cms (Some (default ∅ secrets)) (asked listed q) applied0 (mkWatches l (Some listed) None true)).
Proof using Type. eapply rtc_l; [right; eexists; by apply (secrets_watched Init)|]. apply secrets_collected. Qed.

Lemma secrets_done cms secrets q applied0 l listed :
  step (single cms secrets q applied0 (mkWatches l (Some listed) None true))
    (single cms (Some listed) q applied0 (mkWatches l None None true)).
Proof using Type. right. eexists. by apply (secrets_watched InitDone). Qed.

(** Everything has been listed. *)
Lemma all_listed cms secrets applied0 :
  rtc step (mkSystem None None ∅ ∅ ∅ applied0 unlisted)
    (single (Some cms) (Some secrets) {[ref_of g]} applied0 (mkWatches None None None true)).
Proof using Hg.
  etrans; [apply stses_listed|]. etrans; [apply (cms_listed _ _ _ _ _ cms)|].
  eapply rtc_l; [apply cms_done|]. etrans; [apply (secrets_listed _ _ _ _ _ secrets)|].
  eapply rtc_l; [apply secrets_done|]. rewrite !asked_already. constructor.
Qed.

End single.

(** ** What the streams leave out *)

(** C12: the end of a listing asks for nothing: whatever the ConfigMaps were before, a
    watcher that has to list them again can leave the controller with the new ones and
    a StatefulSet with the annotations for the old ones, and nothing queued, running or
    left to do, since the items of the listing come before the store has what they tell. *)
Theorem listing_can_be_missed (g : guard) (sts : StatefulSet) (cms cms' secrets : Store) (m : gmap str str)
    (Hg : guard_ok g) (Hsts : g_object g = Some sts)
    (Hm : get_updated_restarter_annotations sts (mkCtx (Some cms) (Some secrets)) = Val m)
    (Hm' : get_updated_restarter_annotations sts (mkCtx (Some cms') (Some secrets)) ≠ Val m) :
  ∃ s, rtc step initial s ∧ cm_store s = Some cms' ∧ secret_store s = Some secrets ∧
    sts_store s !! ref_of g = Some g ∧ watching s = mkWatches None None None true ∧
    queue s = ∅ ∧ running s = ∅ ∧ ¬ red internal s ∧
    applied s !! ref_of g = Some m ∧
    get_updated_restarter_annotations sts (mkCtx (cm_store s) (secret_store s)) ≠ Val m.
Proof.
  exists (single g (Some cms') (Some secrets) ∅ {[ref_of g := m]} (mkWatches None None None true)). split.
  - etrans; [by apply (all_listed g Hg cms secrets)|].
    etrans; [by eapply internal_steps, (single_round g sts)|].
    etrans; [apply (cms_listed g _ _ _ _ _ cms')|].
    etrans; [by eapply internal_steps, (single_settles g sts)|]. apply rtc_once, cms_done.
  - split_and!; try done; [apply lookup_insert_eq| |apply lookup_insert_eq].
    intros [s' Hs']. inversion Hs'; subst; cbn in *; by rewrite ?lookup_empty in *.
Qed.

(** C14: the stores are handed out with the first item of their streams, whatever it
    is: an error, or the start of a listing, when they are still empty.  A controller
    that starts that way asks for other annotations than those that a StatefulSet
    rightly has, and for the right ones again once the ConfigMaps and Secrets are
    known: its Pods restart twice although nothing has changed. *)
Theorem early_delivery_restarts (g : guard) (sts : StatefulSet) (cms secrets : Store) (m : gmap str str)
    (Hg : guard_ok g) (Hsts : g_object g = Some sts)
    (Hm : get_updated_restarter_annotations sts (mkCtx (Some cms) (Some secrets)) = Val m)
    (Hempty : get_updated_restarter_annotations sts (mkCtx (Some ∅) (Some ∅)) ≠ Val m) :
  let restarted := mkSystem None None ∅ ∅ ∅ {[ref_of g := m]} unlisted in
  ∃ s1 m1 s2, rtc step restarted s1 ∧ applied s1 !! ref_of g = Some m1 ∧ m1 ≠ m ∧
    rtc step s1 s2 ∧ queue s2 = ∅ ∧ running s2 = ∅ ∧ applied s2 !! ref_of g = Some m.
Proof.
  cbn zeta. destruct (get_updated_restarter_annotations sts (mkCtx (Some ∅) (Some ∅))) as [m1|e|] eqn:Hm1.
  2: { exfalso. revert Hm1. unfold get_updated_restarter_annotations. destruct (namespace _); done. }
  2: { exfalso. revert Hm Hm1. unfold get_updated_restarter_annotations. destruct (namespace _); done. }
  exists (single g (Some ∅) (Some ∅) ∅ (<[ref_of g := m1]> {[ref_of g := m]}) (mkWatches (Some ∅) (Some ∅) None true)), m1.
  exists (single g (Some cms) (Some secrets) ∅ (<[ref_of g := m]> (<[ref_of g := m1]> {[ref_of g := m]}))
    (mkWatches None None None true)).
  split_and!; [|apply lookup_insert_eq|naive_solver| |done|done|apply lookup_insert_eq].
  - etrans; [by apply (stses_listed g Hg)|]. etrans; [apply (cms_listed g _ _ _ _ _ ∅)|].
    etrans; [apply (secrets_listed g _ _ _ _ _ ∅)|]. by apply internal_steps, (single_round g sts).
  - etrans; [apply (cms_collected g _ _ _ _ _ cms)|]. eapply rtc_l; [apply cms_done|].
    etrans; [apply (secrets_collected g _ _ _ _ _ secrets)|]. eapply rtc_l; [apply secrets_done|].
    replace (asked g secrets (asked g cms ∅)) with ({[ref_of g]} : gset ref);
      [by apply internal_steps, (single_round g sts)|].
    unfold asked. repeat case_decide; subst; [congruence|set_solver..].
Qed.

(** ** A run *)

Definition example_guard : guard := mkGuard (metadata example_sts) (Some example_sts).
Definition example_ref : ref := (Some ("default" : str), Some ("sts" : str)).

Lemma example_guard_ok : guard_ok example_guard.
Proof. split; [by eexists|]. split; [by eexists|]. by intros sts [= <-]. Qed.

(** A history in which every state asks for the object, or in which no listing ends. *)
Lemma history_internals r s s' : history r false s → rtc internal s s' → history r false s'.
Proof. intros H Hs. induction Hs as [|x y z Hi _ IH]; [done|]. apply IH. by apply (history_internal r false x). Qed.

Lemma history_change r s s' : history r false s → external false s s' → history r false s'.
Proof. intros H He. by apply (history_external r false false s). Qed.

Lemma history_asked r listed s s' : history r false s → external listed s s' → r ∈ queue s' → history r false s'.
Proof.
  intros H He Hq. pose proof (history_external r false listed s s' H He) as Hh.
  rewrite bool_decide_false in Hh by tauto. by rewrite andb_false_r in Hh.
Qed.

(** The StatefulSet is listed, then the stores are delivered. *)
Definition example_start : system :=
  single example_guard (Some (store_of [("config", "c", "3")])) (Some ∅) {[example_ref]} ∅ (mkWatches None None None true).

Lemma example_history : history example_ref false example_start.
Proof.
  set (k := ("default", "config") : str * str). set (v := meta "config" "c" "3").
  set (cms := store_of [("config", "c", "3")]). set (w := mkWatches None None None true).
  assert (history example_ref false (single example_guard None None {[example_ref]} ∅ w)) as H1.
  { refine (history_asked _ _ _ _ _ (stses_watched InitDone (mkSystem None None ∅ {[example_ref]} ∅ ∅
      (mkWatches None None (Some {[example_ref := example_guard]}) false)) eq_refl _) _); [|done|cbn; set_solver].
    refine (history_change _ _ _ _ (stses_watched (InitApply example_ref example_guard) (mkSystem None None ∅ ∅ ∅ ∅
      (mkWatches None None (Some ∅) false)) eq_refl _)); [|by intros ? ? [= <- <-]; split; [exact example_guard_ok|]].
    refine (history_change _ _ _ _ (stses_watched Init initial eq_refl _)); [apply history_initial|done]. }
  assert (history example_ref false (single example_guard (Some cms) None {[example_ref]} ∅ w)) as H2.
  { refine (history_asked _ _ _ _ _ (cms_watched InitDone (single example_guard (Some ∅) None {[example_ref]} ∅
      (mkWatches (Some cms) None None true)) eq_refl) _); [|cbn; set_solver].
    refine (history_change _ _ _ _ (cms_watched (InitApply k v) (single example_guard (Some ∅) None {[example_ref]} ∅
      (mkWatches (Some ∅) None None true)) eq_refl)).
    exact (history_change _ _ _ H1 (cms_watched Init _ eq_refl)). }
  refine (history_asked _ _ _ _ _ (secrets_watched InitDone (single example_guard (Some cms) (Some ∅) {[example_ref]} ∅
    (mkWatches None (Some ∅) None true)) eq_refl) _); [|cbn; set_solver].
  exact (history_change _ _ _ H2 (secrets_watched Init _ eq_refl)).
Qed.

(** The ConfigMap changes once the StatefulSet has been patched: it is patched again. *)
Lemma example_run :
  ∃ s, history example_ref false s ∧ queue s = ∅ ∧ running s = ∅ ∧ sts_store s !! example_ref = Some example_guard ∧
    cm_store s = Some (store_of [("config", "c", "4")]).
Proof.
  destruct (annotations_total example_sts "default" (store_of [("config", "c", "3")]) ∅ eq_refl) as [m Hm].
  destruct (annotations_total example_sts "default" (store_of [("config", "c", "4")]) ∅ eq_refl) as [m' Hm'].
  eexists. split.
  - eapply history_internals; [|by apply (single_round example_guard example_sts example_guard_ok eq_refl
      (store_of [("config", "c", "4")]) ∅ m' (<[example_ref := m]> ∅) (mkWatches None None None true))].
    eapply history_change.
    + eapply history_internals; [exact example_history|].
      by apply (single_round example_guard example_sts example_guard_ok eq_refl _ _ m).
    + by apply (cms_watched (Apply ("default", "config") (meta "config" "c" "4"))).
  - split_and!; reflexivity.
Qed.

Lemma quiescent_is_current_witness :
  ∃ s m, history example_ref false s ∧ applied s !! example_ref = Some m ∧
    m !! ("configmap.restarter.stackable.tech/config" : str) = Some ("c/4" : str).
Proof.
  destruct example_run as (s & Hhist & Hq & Hr & Hg & Hc).
  destruct (quiescent_is_current s example_ref example_guard example_sts Hhist Hq Hr Hg eq_refl) as (m & Hm & Hcur).
  exists s, m. split; [exact Hhist|]. split; [exact Hm|]. rewrite Hc in Hcur.
  destruct (secret_store s) as [secrets|] eqn:Hs; [|discriminate].
  rewrite (annotations_lookup example_sts "default" _ _ m eq_refl Hcur). vm_compute. reflexivity.
Defined.

Lemma controller_drains_witness :
  rtc step initial example_start ∧ sn internal example_start ∧
  ∀ s', rtc internal example_start s' → ¬ red internal s' →
    ∃ m, applied s' !! example_ref = Some m ∧
      m !! ("configmap.restarter.stackable.tech/config" : str) = Some ("c/3" : str).
Proof.
  assert (rtc step initial example_start) as Hreach
    by exact (all_listed example_guard example_guard_ok (store_of [("config", "c", "3")]) ∅ ∅).
  destruct (controller_drains example_start Hreach) as [Hsn Hend]; [by eexists|by eexists|reflexivity|].
  split; [exact Hreach|]. split; [exact Hsn|].
  intros s' Hs' Hred. destruct (Hend s' Hs' Hred) as (_ & _ & H).
  destruct (H example_ref example_guard example_sts) as (m & Hm & Hcur); [reflexivity|reflexivity|left; set_solver|].
  exists m. split; [exact Hm|].
  rewrite (annotations_lookup example_sts "default" _ _ m eq_refl Hcur). vm_compute. reflexivity.
Defined.

(** The ConfigMap has got another version when it is listed again. *)
Lemma listing_can_be_missed_witness :
  ∃ s m, rtc step initial s ∧ cm_store s = Some (store_of [("config", "c", "4")]) ∧ queue s = ∅ ∧
    applied s !! example_ref = Some m ∧
    m !! ("configmap.restarter.stackable.tech/config" : str) = Some ("c/3" : str).
Proof.
  destruct (annotations_total example_sts "default" (store_of [("config", "c", "3")]) ∅ eq_refl) as [m Hm].
  assert (m !! ("configmap.restarter.stackable.tech/config" : str) = Some ("c/3" : str)) as Hlook.
  { rewrite (annotations_lookup example_sts "default" _ _ m eq_refl Hm). vm_compute. reflexivity. }
  destruct (listing_can_be_missed example_guard example_sts (store_of [("config", "c", "3")])
    (store_of [("config", "c", "4")]) ∅ m) as (s & Hreach & Hc & _ & _ & _ & Hq & _ & _ & Ha & _).
  - exact example_guard_ok.
  - reflexivity.
  - exact Hm.
  - intros He. rewrite (annotations_lookup example_sts "default" _ _ m eq_refl He) in Hlook.
    vm_compute in Hlook. discriminate Hlook.
  - exists s, m. split; [exact Hreach|]. split; [exact Hc|]. split; [exact Hq|]. split; [exact Ha|exact Hlook].
Defined.

Lemma early_delivery_restarts_witness :
  ∃ m s1 m1 s2, m !! ("configmap.restarter.stackable.tech/config" : str) = Some ("c/3" : str) ∧
    rtc step (mkSystem None None ∅ ∅ ∅ {[example_ref := m]} unlisted) s1 ∧ applied s1 !! example_ref = Some m1 ∧ m1 ≠ m ∧
    rtc step s1 s2 ∧ applied s2 !! example_ref = Some m.
Proof.
  destruct (annotations_total example_sts "default" (store_of [("config", "c", "3")]) ∅ eq_refl) as [m Hm].
  assert (m !! ("configmap.restarter.stackable.tech/config" : str) = Some ("c/3" : str)) as Hlook.
  { rewrite (annotations_lookup example_sts "default" _ _ m eq_refl Hm). vm_compute. reflexivity. }
  destruct (early_delivery_restarts example_guard example_sts (store_of [("config", "c", "3")]) ∅ m)
    as (s1 & m1 & s2 & H1 & H2 & H3 & H4 & _ & _ & H5).
  - exact example_guard_ok.
  - reflexivity.
  - exact Hm.
  - intros He. rewrite (annotations_lookup example_sts "default" _ _ m eq_refl He) in Hlook.
    vm_compute in Hlook. discriminate Hlook.
  - exists m, s1, m1, s2. split; [exact Hlook|]. split; [exact H1|]. split; [exact H2|]. split; [exact H3|].
    split; [exact H4|exact H5].
Defined.
