(* ===== verification/PodRestarter.v ===== *)
(** rust/operator-binary/src/restart_controller/pod.rs: evicting Pods whose expiry
    annotation has passed. *)

From S2P Require Import Prelude PyStr Kube.

(** ** Parameters *)

(** [DateTime::parse_from_rfc3339], as nanoseconds since the epoch; [None] is a
    parse error.  [DateTime]s compare by the instant they denote. *)
Class Chrono := { parse_from_rfc3339 : str → option Z }.

(** The API server's answer to an eviction. *)
Inductive kube_error :=
  | Api (code : Z) (message : str)
  | OtherKubeError.

Class EvictApi := { api_evict : str → str → option kube_error }.

(** ** Errors *)

Inductive Error :=
  | PodHasNoName
  | PodHasNoNamespace
  | UnparsableExpiryTimestamp (annotation value : str)
  | EvictPod (source : kube_error).

Definition expires_at_prefix : str := "restarter.stackable.tech/expires-at.".

(** ** The earliest expiry *)

(** The key of [min_by_key]: [(res.is_ok(), res.ok())], compared lexicographically,
    [false] and [None] first. *)
Definition expiry_key (res : Error + Z) : bool * option Z :=
  match res with inl _ => (false, None) | inr t => (true, Some t) end.

Definition key_lt (k k' : bool * option Z) : bool :=
  match k, k' with
  | (false, _), (true, _) => true
  | (true, Some t), (true, Some t') => (t <? t')%Z
  | _, _ => false
  end.

(** [Iterator::min_by_key]: the first of the smallest elements. *)
Definition min_by_key (l : list (Error + Z)) : option (Error + Z) :=
  match l with
  | [] => None
  | x :: l' => Some (foldl (λ best y, if key_lt (expiry_key y) (expiry_key best) then y else best) x l')
  end.

Section pod.
Context {chrono : Chrono} {evict_api : EvictApi}.

(** One expiry annotation, parsed. *)
Definition parse_expiry (kv : str * str) : Error + Z :=
  match parse_from_rfc3339 kv.2 with
  | Some t => inr t
  | None => inl (UnparsableExpiryTimestamp kv.1 kv.2)
  end.

Definition expiries (pod : ObjectMeta) : list (Error + Z) :=
  parse_expiry <$> filter (λ kv : str * str, startswith expires_at_prefix kv.1 = true) (iter_flatten (annotations pod)).

Definition pod_expires_at (pod : ObjectMeta) : outcome Error (option Z) :=
  match min_by_key (expiries pod) with
  | None => Val None
  | Some (inr t) => Val (Some t)
  | Some (inl e) => Err e
  end.

Local Open Scope rust_scope.

(** The evictions asked for, and how it ends; [now] is the current time. *)
Definition reconcile (now : Z) (pod : ObjectMeta) : list (str * str) * outcome Error action :=
  if bool_decide (is_Some (deletion_timestamp pod)) then ([], Val AwaitChange)
  else
    match pod_expires_at pod with
    | Err e => ([], Err e)
    | Panic => ([], Panic)
    | Val None => ([], Val AwaitChange)
    | Val (Some expires_at) =>
        let time_until_pod_expires := (expires_at - now)%Z in
        if (time_until_pod_expires <? 0)%Z then
          match (ns <-! context PodHasNoNamespace (namespace pod) ;;
                 n <-! context PodHasNoName (name pod) ;; Val (ns, n)) with
          | Val (ns, n) =>
              ([(ns, n)], match api_evict ns n with
                          | None => Val AwaitChange
                          | Some source => Err (EvictPod source)
                          end)
          | Err e => ([], Err e)
          | Panic => ([], Panic)
          end
        else ([], Val (Requeue time_until_pod_expires))
    end.

End pod.

Definition error_policy (_error : Error) : action := Requeue (seconds 5).

(** [report_result]: a result is logged quietly or reported as the controller
    library does; [Other] stands for the failures that are not the reconciler's. *)
Inductive controller_result :=
  | Reconciled (a : action)
  | ReconcilerFailed (e : Error)
  | OtherFailure.

Definition evict_error_message : str := "Cannot evict pod as it would violate the pod's disruption budget.".

(** Whether the result goes to [report_controller_reconciled]. *)
Definition reported (result : controller_result) : bool :=
  match result with
  | ReconcilerFailed (EvictPod (Api code message)) =>
      negb ((code =? 429)%Z && bool_decide (message = evict_error_message))
  | _ => true
  end.

(** ** Lemmas *)

(** Folding keeps a smallest element, the first of several. *)
Lemma min_by_key_spec l :
  match min_by_key l with
  | None => l = []
  | Some (inl e) => ∃ i, l !! i = Some (inl e) ∧ ∀ j e', (j < i)%nat → l !! j ≠ Some (inl e')
  | Some (inr t) => inr t ∈ l ∧ ∀ x, x ∈ l → ∃ t', x = inr t' ∧ (t ≤ t')%Z
  end.
Proof.
  destruct l as [|x l]; [done|]. cbn [min_by_key].
  set (f := λ best y, if key_lt (expiry_key y) (expiry_key best) then y else best).
  induction l as [|y l IH] using rev_ind.
  - cbn. destruct x as [e|t].
    + exists 0. split; [done|]. intros j t Hj. lia.
    + split; [left|]. intros x ->%list_elem_of_singleton. exists t. split; [done|lia].
  - rewrite foldl_app. cbn [foldl]. rewrite app_comm_cons. revert IH.
    generalize (x :: l) as L. intros L IH.
    destruct (foldl f x l) as [e|t] eqn:E; unfold f at 1.
    + replace (key_lt (expiry_key y) (expiry_key (inl e))) with false by (by destruct y).
      destruct IH as (i & Hi & Hmin). exists i. split; [by apply lookup_app_l_Some|].
      intros j t Hj. rewrite lookup_app_l; [by apply Hmin|]. apply lookup_lt_Some in Hi. lia.
    + destruct IH as [Hin Hmin]. destruct y as [e|t']; cbn.
      * exists (length L). split.
        -- rewrite lookup_app_r by lia. by rewrite Nat.sub_diag.
        -- intros j e' Hj. rewrite lookup_app_l by lia. intros H%list_elem_of_lookup_2.
           destruct (Hmin _ H) as (? & ? & _). done.
      * destruct (t' <? t)%Z eqn:Ht; cbn.
        -- split; [apply elem_of_app; right; left|]. intros z [Hz|Hz]%elem_of_app.
           ++ destruct (Hmin _ Hz) as (w & -> & ?). exists w. split; [done|lia].
           ++ apply list_elem_of_singleton in Hz as ->. exists t'. split; [done|lia].
        -- split; [apply elem_of_app; by left|]. intros z [Hz|Hz]%elem_of_app; [by apply Hmin|].
           apply list_elem_of_singleton in Hz as ->. exists t'. split; [done|lia].
Qed.

Section facts.
Context {chrono : Chrono} {evict_api : EvictApi}.

(** [k: v] is one of the Pod's expiry annotations. *)
Definition expiry_annotation (pod : ObjectMeta) (k v : str) : Prop :=
  startswith expires_at_prefix k = true ∧ ∃ m, annotations pod = Some m ∧ m !! k = Some v.

Lemma elem_of_expiries pod x :
  x ∈ expiries pod ↔ ∃ k v, expiry_annotation pod k v ∧ x = parse_expiry (k, v).
Proof.
  unfold expiries, expiry_annotation. rewrite list_elem_of_fmap. split.
  - intros ([k v] & -> & [Hk Hin]%list_elem_of_filter). exists k, v.
    split; [|done]. split; [exact Hk|]. by apply elem_of_iter_flatten.
  - intros (k & v & [Hk Hm] & ->). exists (k, v). split; [done|].
    apply list_elem_of_filter. split; [exact Hk|]. by apply elem_of_iter_flatten.
Qed.

(** Every expiry annotation is a timestamp. *)
Definition all_parse (pod : ObjectMeta) : Prop :=
  ∀ k v, expiry_annotation pod k v → is_Some (parse_from_rfc3339 v).

(** The earliest of the expiry timestamps. *)
Definition earliest (pod : ObjectMeta) (t : Z) : Prop :=
  (∃ k v, expiry_annotation pod k v ∧ parse_from_rfc3339 v = Some t) ∧
  (∀ k v t', expiry_annotation pod k v → parse_from_rfc3339 v = Some t' → (t ≤ t')%Z).

Lemma pod_expires_at_spec pod :
  match pod_expires_at pod with
  | Val None => ∀ k v, ¬ expiry_annotation pod k v
  | Val (Some t) => all_parse pod ∧ earliest pod t
  | Err e => ∃ k v, expiry_annotation pod k v ∧ parse_from_rfc3339 v = None ∧ e = UnparsableExpiryTimestamp k v
  | Panic => False
  end.
Proof.
  unfold pod_expires_at. pose proof (min_by_key_spec (expiries pod)) as H.
  destruct (min_by_key (expiries pod)) as [[e|t]|].
  - destruct H as (i & Hi%list_elem_of_lookup_2%elem_of_expiries & _).
    destruct Hi as (k & v & Hkv & He). exists k, v. unfold parse_expiry in He. cbn in He.
    destruct (parse_from_rfc3339 v); [done|]. by injection He as ->.
  - destruct H as [(k & v & Hkv & Ht)%elem_of_expiries Hall].
    assert (∀ k' v', expiry_annotation pod k' v' → ∃ t', parse_from_rfc3339 v' = Some t' ∧ (t ≤ t')%Z) as Hp.
    { intros k' v' Hkv'. destruct (Hall (parse_expiry (k', v'))) as (t' & Ht' & Hle).
      { apply elem_of_expiries. by exists k', v'. }
      unfold parse_expiry in Ht'. cbn in Ht'. destruct (parse_from_rfc3339 v'); [|done].
      injection Ht' as ->. by exists t'. }
    split; [|split].
    + intros k' v' Hkv'. by destruct (Hp _ _ Hkv') as (t' & -> & _).
    + exists k, v. split; [done|]. unfold parse_expiry in Ht. cbn in Ht.
      destruct (parse_from_rfc3339 v); [|done]. by injection Ht as ->.
    + intros k' v' t' Hkv' Ht'. destruct (Hp _ _ Hkv') as (t'' & Ht'' & ?). by simplify_eq.
  - intros k v Hkv. apply not_elem_of_nil with (x := parse_expiry (k, v)). rewrite <- H.
    apply elem_of_expiries. by exists k, v.
Qed.

Lemma earliest_unique pod t t' : earliest pod t → earliest pod t' → t = t'.
Proof.
  intros [(k & v & ? & ?) Hle] [(k' & v' & ? & ?) Hle'].
  specialize (Hle k' v' t'). specialize (Hle' k v t). apply Z.le_antisymm; auto.
Qed.

(** The cases of a reconciliation, by what the annotations say. *)
Lemma pod_expires_at_earliest pod t :
  all_parse pod → earliest pod t → pod_expires_at pod = Val (Some t).
Proof.
  intros Hp He. pose proof (pod_expires_at_spec pod) as H.
  destruct (pod_expires_at pod) as [[t'|]| |].
  - destruct H as [_ He']. by rewrite (earliest_unique _ _ _ He He').
  - destruct He as [(k & v & Hkv & _) _]. by destruct (H k v).
  - destruct H as (k & v & Hkv & Hn & _). destruct (Hp _ _ Hkv) as [? Hs]. by rewrite Hn in Hs.
  - done.
Qed.

Lemma pod_expires_at_none pod :
  (∀ k v, ¬ expiry_annotation pod k v) → pod_expires_at pod = Val None.
Proof.
  intros Hn. pose proof (pod_expires_at_spec pod) as H.
  destruct (pod_expires_at pod) as [[t'|]| |]; [|done| |done].
  - destruct H as [_ [(k & v & Hkv & _) _]]. by destruct (Hn k v).
  - destruct H as (k & v & Hkv & _). by destruct (Hn k v).
Qed.

Lemma pod_expires_at_error pod :
  ¬ all_parse pod → ∃ k v, expiry_annotation pod k v ∧ parse_from_rfc3339 v = None ∧
    pod_expires_at pod = Err (UnparsableExpiryTimestamp k v).
Proof.
  intros Hn. pose proof (pod_expires_at_spec pod) as H.
  destruct (pod_expires_at pod) as [[t'|]|e|]; [by destruct H| | |done].
  - destruct Hn. intros k v Hkv. by destruct (H _ _ Hkv).
  - destruct H as (k & v & ? & ? & ->). by exists k, v.
Qed.

(** What reconciling a Pod evicts. *)
Lemma reconcile_evictions (now : Z) (pod : ObjectMeta) ns n :
  (reconcile now pod).1 = [(ns, n)] ↔
    namespace pod = Some ns ∧ name pod = Some n ∧ deletion_timestamp pod = None ∧
    all_parse pod ∧ ∃ t, earliest pod t ∧ (t < now)%Z.
Proof.
  unfold reconcile. destruct (deletion_timestamp pod) as [d|].
  { rewrite bool_decide_true by done. cbn. naive_solver. }
  rewrite bool_decide_false by (by intros [? ?]).
  pose proof (pod_expires_at_spec pod) as H.
  destruct (pod_expires_at pod) as [[t|]|e|]; [| | |done].
  - destruct H as [Hp He]. destruct (t - now <? 0)%Z eqn:Ht.
    + destruct (namespace pod) as [ns'|], (name pod) as [n'|]; cbn; split; try naive_solver.
      intros [= <- <-]. split_and!; [done..|]. exists t. split; [done|lia].
    + assert (∀ t', earliest pod t' → ¬ (t' < now)%Z) as Hno.
      { intros t' He'. rewrite (earliest_unique _ _ _ He' He). lia. }
      cbn. naive_solver.
  - assert (∀ t, ¬ earliest pod t) as Hno by (intros t [(k & v & Hkv & _) _]; by destruct (H k v)).
    cbn. naive_solver.
  - destruct H as (k & v & Hkv & Hn & _).
    assert (¬ all_parse pod) by (intros Hp; destruct (Hp _ _ Hkv) as [? Hs]; by rewrite Hn in Hs).
    cbn. naive_solver.
Qed.

(** ** Theorems *)

(** C35: a Pod is evicted when, and only when, it is not being deleted already,
    every expiry annotation is a timestamp, and the earliest of them has passed; it
    is evicted once and nothing else is; an eviction that the API server refuses is
    an error, and so is an expired Pod without a namespace or a name. *)
Theorem evicts_iff_expired (now : Z) (pod : ObjectMeta) :
  (∀ ns n, (reconcile now pod).1 = [(ns, n)] ↔
     namespace pod = Some ns ∧ name pod = Some n ∧ deletion_timestamp pod = None ∧
     all_parse pod ∧ ∃ t, earliest pod t ∧ (t < now)%Z) ∧
  (length (reconcile now pod).1 ≤ 1)%nat ∧
  match (reconcile now pod).1 with
  | (ns, n) :: _ =>
      (reconcile now pod).2 = match api_evict ns n with
                              | None => Val AwaitChange
                              | Some source => Err (EvictPod source)
                              end
  | [] =>
      (deletion_timestamp pod = None ∧ all_parse pod ∧ ∃ t, earliest pod t ∧ (t < now)%Z) →
      (reconcile now pod).2 = Err (match namespace pod with Some _ => PodHasNoName | None => PodHasNoNamespace end)
  end.
Proof.
  split; [intros ns n; apply reconcile_evictions|].
  unfold reconcile. destruct (deletion_timestamp pod) as [d|].
  { rewrite bool_decide_true by done. cbn. split; [lia|naive_solver]. }
  rewrite bool_decide_false by (by intros [? ?]).
  pose proof (pod_expires_at_spec pod) as H.
  destruct (pod_expires_at pod) as [[t|]|e|]; [| | |done].
  - destruct H as [Hp He]. destruct (t - now <? 0)%Z eqn:Ht.
    + by destruct (namespace pod) as [ns|], (name pod) as [n|]; cbn; (split; [lia|]).
    + cbn. split; [lia|]. intros (_ & _ & t' & He' & Hlt).
      rewrite (earliest_unique _ _ _ He' He) in Hlt. lia.
  - cbn. split; [lia|]. intros (_ & _ & t & [(k & v & Hkv & _) _] & _). by destruct (H k v).
  - destruct H as (k & v & Hkv & Hn & _). cbn. split; [lia|]. intros (_ & Hp & _).
    destruct (Hp _ _ Hkv) as [? Hs]. by rewrite Hn in Hs.
Qed.

(** What a reconciliation answers for a Pod that is not evicted now: one that
    is being deleted or has no expiry annotation waits for a change; an annotation
    that is no timestamp is an error, whatever the others say; otherwise the check is
    repeated at the earliest expiry, from which moment on the Pod is evicted. *)
Theorem reconcile_outcome (now : Z) (pod : ObjectMeta) :
  (is_Some (deletion_timestamp pod) → (reconcile now pod).2 = Val AwaitChange) ∧
  (deletion_timestamp pod = None → (∀ k v, ¬ expiry_annotation pod k v) → (reconcile now pod).2 = Val AwaitChange) ∧
  (deletion_timestamp pod = None → ¬ all_parse pod → ∃ k v,
     expiry_annotation pod k v ∧ parse_from_rfc3339 v = None ∧
     reconcile now pod = ([], Err (UnparsableExpiryTimestamp k v))) ∧
  (∀ t, deletion_timestamp pod = None → all_parse pod → earliest pod t → (now ≤ t)%Z →
     (reconcile now pod).2 = Val (Requeue (t - now)) ∧
     ∀ now' ns n, namespace pod = Some ns → name pod = Some n →
       (reconcile now' pod).1 = (if (t <? now')%Z then [(ns, n)] else [])).
Proof.
  unfold reconcile. split_and!.
  - intros Hd. by rewrite bool_decide_true.
  - intros Hd Hn. rewrite Hd, (pod_expires_at_none _ Hn). done.
  - intros Hd Hn. destruct (pod_expires_at_error _ Hn) as (k & v & ? & ? & ->). rewrite Hd.
    by exists k, v.
  - intros t Hd Hp He Hle. rewrite Hd, (pod_expires_at_earliest _ _ Hp He). cbn.
    split; [by rewrite (proj2 (Z.ltb_ge _ _)) by lia|].
    intros now' ns n Hns Hname. rewrite Hns, Hname. cbn.
    destruct (t <? now')%Z eqn:Ht.
    + by rewrite (proj2 (Z.ltb_lt _ _)) by lia.
    + by rewrite (proj2 (Z.ltb_ge _ _)) by lia.
Qed.

(** Of all results of the controller, exactly the eviction refused because of a
    disruption budget is kept out of the error reports. *)
Lemma only_budget_refusals_are_silenced (result : controller_result) :
  reported result = false ↔
  result = ReconcilerFailed (EvictPod (Api 429 evict_error_message)).
Proof.
  split; [|by intros ->].
  destruct result as [a|[| | |[code message|]]|]; try done. cbn.
  intros [Hc Hm]%negb_false_iff%andb_true_iff.
  apply Z.eqb_eq in Hc as ->. apply bool_decide_eq_true in Hm as ->. done.
Qed.

End facts.

(** ** Concrete inputs *)

(** A clock on which two instants have a name. *)
Definition example_chrono : Chrono := {|
  parse_from_rfc3339 v :=
    if decide (v = ("2024-01-01T00:00:00Z" : str)) then Some 1704067200000000000
    else if decide (v = ("2024-01-01T00:00:05Z" : str)) then Some 1704067205000000000
    else None
|}%Z.

Definition example_pod : ObjectMeta :=
  mkObjectMeta (Some "trino-worker-default-0") (Some "default") None None
    (Some {["restarter.stackable.tech/expires-at.b" := ("2024-01-01T00:00:00Z" : str);
            "restarter.stackable.tech/expires-at.a" := ("2024-01-01T00:00:05Z" : str);
            "other" := ("soon" : str)]}) None.

Definition example_evict : EvictApi := {| api_evict _ _ := None |}.

Example evicted_after_expiry :
  reconcile (chrono := example_chrono) (evict_api := example_evict) 1704067200000000001 example_pod
  = ([("default" : str, "trino-worker-default-0" : str)], Val AwaitChange).
Proof. vm_compute. reflexivity. Qed.

Lemma reconcile_outcome_witness :
  (reconcile (chrono := example_chrono) (evict_api := example_evict) 1704067195000000000 example_pod).2
  = Val (Requeue (seconds 5)).
Proof.
  refine (proj1 (proj2 (proj2 (proj2 (reconcile_outcome (chrono := example_chrono)
    (evict_api := example_evict) 1704067195000000000 example_pod))) 1704067200000000000%Z _ _ _ _));
    [reflexivity| | |lia]; pose proof (pod_expires_at_spec (chrono := example_chrono) example_pod) as H;
    vm_compute pod_expires_at in H; [exact (proj1 H)|exact (proj2 H)].
Defined.
