(* ===== verification/PodController.v ===== *)
(** rust/operator-binary/src/restart_controller/pod.rs, [start]: Pods that come and
    go, reconciliations that are due at some time, and evictions that the API server
    takes or refuses.

    Of the controller library the model relies on this: a Pod that is created or
    changed is reconciled at once, a requeue comes after the delay asked for, of two
    requests for a Pod the earlier one counts, and a Pod is not reconciled twice at a
    time. *)

From stdpp Require Import relations.
From S2P Require Import Prelude PyStr Kube PodRestarter.

(** ** State *)

Definition ref : Type := option str * option str.
Definition ref_of (pod : ObjectMeta) : ref := (namespace pod, name pod).

(** An object that the API server sends has a namespace and a name. *)
Definition pod_ok (pod : ObjectMeta) : Prop := is_Some (namespace pod) ∧ is_Some (name pod).

(** An eviction that the API server has answered: when it was decided on, for which
    Pod, and whether it was taken. *)
Record eviction := mkEviction {
  ev_time : Z;
  ev_pod : ObjectMeta;
  ev_taken : bool;
}.

(** The clock, the Pods known and when each was last created or changed, when the
    next reconciliation of each is due, those whose eviction has been asked for (with
    the time of the decision), and the evictions answered. *)
Record system := mkSystem {
  now : Z;
  pods : gmap ref ObjectMeta;
  seen : gmap ref Z;
  due : gmap ref Z;
  evicting : gmap ref (ObjectMeta * Z);
  evictions : list eviction;
}.

Definition initial (t : Z) : system := mkSystem t ∅ ∅ ∅ ∅ [].

(** ** Scheduling *)

(** Of two requests the earlier one counts. *)
Definition schedule (r : ref) (t : Z) (d : gmap ref Z) : gmap ref Z :=
  <[r := match d !! r with Some t' => Z.min t t' | None => t end]> d.

(** What the end of a reconciliation asks for. *)
Definition action_of (result : outcome Error action) : action :=
  match result with
  | Val a => a
  | Err e => error_policy e
  | Panic => AwaitChange
  end.

Definition reschedule (r : ref) (t : Z) (a : action) (d : gmap ref Z) : gmap ref Z :=
  match a with
  | AwaitChange => d
  | Requeue delay => schedule r (t + delay)%Z d
  end.

Section pod_controller.
Context {chrono : Chrono}.

(** ** Steps *)

Inductive step : system → system → Prop :=
  | tick t s :
      (now s ≤ t)%Z → step s (mkSystem t (pods s) (seen s) (due s) (evicting s) (evictions s))
  | pod_applied pod s :
      pod_ok pod →
      step s (mkSystem (now s) (<[ref_of pod := pod]> (pods s)) (<[ref_of pod := now s]> (seen s))
                (schedule (ref_of pod) (now s) (due s)) (evicting s) (evictions s))
  | pod_deleted r s :
      step s (mkSystem (now s) (delete r (pods s)) (seen s) (due s) (evicting s) (evictions s))
  | start_gone r t s :
      due s !! r = Some t → (t ≤ now s)%Z → evicting s !! r = None → pods s !! r = None →
      step s (mkSystem (now s) (pods s) (seen s) (delete r (due s)) (evicting s) (evictions s))
  | start_quiet api r t pod s :
      due s !! r = Some t → (t ≤ now s)%Z → evicting s !! r = None → pods s !! r = Some pod →
      (reconcile (evict_api := api) (now s) pod).1 = [] →
      step s (mkSystem (now s) (pods s) (seen s)
                (reschedule r (now s) (action_of (reconcile (evict_api := api) (now s) pod).2) (delete r (due s)))
                (evicting s) (evictions s))
  | start_eviction api r t pod target s :
      due s !! r = Some t → (t ≤ now s)%Z → evicting s !! r = None → pods s !! r = Some pod →
      (reconcile (evict_api := api) (now s) pod).1 = [target] →
      step s (mkSystem (now s) (pods s) (seen s) (delete r (due s)) (<[r := (pod, now s)]> (evicting s)) (evictions s))
  | eviction_answered api r pod t0 ns n s :
      evicting s !! r = Some (pod, t0) → namespace pod = Some ns → name pod = Some n →
      step s (mkSystem (now s) (pods s) (seen s)
                (reschedule r (now s) (action_of (reconcile (evict_api := api) t0 pod).2) (due s))
                (delete r (evicting s))
                (evictions s ++ [mkEviction t0 pod (bool_decide (api_evict (EvictApi := api) ns n = None))])).

(** ** The invariant *)

(** The Pod has expired at [t]. *)
Definition expired (pod : ObjectMeta) (t : Z) : Prop :=
  deletion_timestamp pod = None ∧ all_parse pod ∧ ∃ t', earliest pod t' ∧ (t' < t)%Z.

(** The Pod has to be looked at again: no later than at its expiry, or in five
    seconds. *)
Definition in_time (s : system) (pod : ObjectMeta) (t : Z) : Prop :=
  (t ≤ now s + seconds 5)%Z ∨ (all_parse pod ∧ ∃ t', earliest pod t' ∧ (t ≤ t')%Z).

Definition watched (s : system) (r : ref) (pod : ObjectMeta) : Prop :=
  (∃ t, due s !! r = Some t ∧ in_time s pod t) ∨
  (∃ t0, evicting s !! r = Some (pod, t0)) ∨
  (∃ e, e ∈ evictions s ∧ ev_pod e = pod ∧ ev_taken e = true).

Definition system_ok (s : system) : Prop :=
  (∀ r pod, pods s !! r = Some pod → pod_ok pod ∧ r = ref_of pod) ∧
  (∀ r pod t, evicting s !! r = Some (pod, t) →
     pod_ok pod ∧ r = ref_of pod ∧ expired pod t ∧ (t ≤ now s)%Z) ∧
  (∀ e, e ∈ evictions s → expired (ev_pod e) (ev_time e) ∧ (ev_time e ≤ now s)%Z) ∧
  (∀ r pod k v, pods s !! r = Some pod → deletion_timestamp pod = None → expiry_annotation pod k v →
     watched s r pod).

(** ** Lemmas *)

Lemma initial_pods_ok t : system_ok (initial t).
Proof.
  split_and!.
  - intros r pod H. cbn in H. by rewrite lookup_empty in H.
  - intros r pod t' H. cbn in H. by rewrite lookup_empty in H.
  - intros e H. by apply not_elem_of_nil in H.
  - intros r pod k v H. cbn in H. by rewrite lookup_empty in H.
Qed.

Lemma schedule_lookup r t d : ∃ t', schedule r t d !! r = Some t' ∧ (t' ≤ t)%Z.
Proof.
  unfold schedule. rewrite lookup_insert_eq. eexists. split; [done|]. destruct (d !! r); lia.
Qed.

Lemma schedule_earlier r t d t0 : d !! r = Some t0 → ∃ t', schedule r t d !! r = Some t' ∧ (t' ≤ t0)%Z.
Proof. intros H. unfold schedule. rewrite lookup_insert_eq, H. eexists. split; [done|lia]. Qed.

Lemma schedule_ne r r' t d : r ≠ r' → schedule r t d !! r' = d !! r'.
Proof. intros. by apply lookup_insert_ne. Qed.

Lemma reschedule_ne r r' t a d : r ≠ r' → reschedule r t a d !! r' = d !! r'.
Proof. intros. destruct a; [done|]. by apply schedule_ne. Qed.

(** A request that is there stays, or becomes earlier. *)
Lemma reschedule_earlier r t a d t0 :
  d !! r = Some t0 → ∃ t', reschedule r t a d !! r = Some t' ∧ (t' ≤ t0)%Z.
Proof. intros H. destruct a; [by exists t0|]. by apply schedule_earlier. Qed.

Lemma in_time_le s s' pod t t' :
  (now s ≤ now s')%Z → (t' ≤ t)%Z → in_time s pod t → in_time s' pod t'.
Proof. intros Hn Ht [H|(Hp & t'' & He & H)]; [left; lia|right; eauto with lia]. Qed.

(** What a reconciliation that evicts nothing asks for, if there are annotations. *)
Lemma quiet_action (api : EvictApi) t pod k v :
  deletion_timestamp pod = None → expiry_annotation pod k v →
  (reconcile (evict_api := api) t pod).1 = [] → pod_ok pod →
  ∃ delay, action_of (reconcile (evict_api := api) t pod).2 = Requeue delay ∧
    ((delay ≤ seconds 5)%Z ∨ (all_parse pod ∧ ∃ t', earliest pod t' ∧ (t + delay ≤ t')%Z)).
Proof.
  intros Hd Hkv Hquiet [[ns Hns] [n Hn]]. revert Hquiet. unfold reconcile. rewrite Hd, Hns, Hn. cbn.
  pose proof (pod_expires_at_spec pod) as H. destruct (pod_expires_at pod) as [[t'|]|e|]; [| | |done].
  - destruct (t' - t <? 0)%Z; [done|]. intros _. exists (t' - t)%Z. split; [done|]. right.
    destruct H as [Hp He]. split; [done|]. exists t'. split; [done|lia].
  - by destruct (H k v).
  - intros _. exists (seconds 5). split; [done|by left].
Qed.

(** A reconciliation that asks for an eviction does so for an expired Pod. *)
Lemma eviction_expired (api : EvictApi) t pod target :
  (reconcile (evict_api := api) t pod).1 = [target] → expired pod t.
Proof.
  destruct target as [ns n]. intros (_ & _ & H)%(proj1 (reconcile_evictions t pod ns n)). exact H.
Qed.

(** And its answer decides whether it is tried again. *)
Lemma eviction_action (api : EvictApi) t pod ns n :
  expired pod t → namespace pod = Some ns → name pod = Some n →
  action_of (reconcile (evict_api := api) t pod).2 =
    if bool_decide (api_evict ns n = None) then AwaitChange else Requeue (seconds 5).
Proof.
  intros (Hd & Hp & t' & He & Hlt) Hns Hn. unfold reconcile.
  rewrite Hd, (pod_expires_at_earliest _ _ Hp He), Hns, Hn. cbn.
  rewrite (proj2 (Z.ltb_lt _ _)) by lia. cbn. by destruct (api_evict ns n).
Qed.

(** What keeps a Pod watched: nothing is forgotten. *)
Lemma watched_mono s s' r pod :
  (now s ≤ now s')%Z →
  (∀ t, due s !! r = Some t → ∃ t', due s' !! r = Some t' ∧ (t' ≤ t)%Z) →
  (∀ t0, evicting s !! r = Some (pod, t0) → watched s' r pod) →
  (∀ e, e ∈ evictions s → e ∈ evictions s') →
  watched s r pod → watched s' r pod.
Proof.
  intros Hn Hdue Hev Hlog [(t & Ht & Hin)|[[t0 H0]|(e & He & Hpod & Htaken)]].
  - destruct (Hdue t Ht) as (t' & Ht' & Hle). left. exists t'. split; [done|]. by eapply in_time_le.
  - by apply (Hev t0).
  - right; right. exists e. auto.
Qed.

Lemma watched_same s s' r pod :
  (now s ≤ now s')%Z → due s' !! r = due s !! r → evicting s' !! r = evicting s !! r →
  (∀ e, e ∈ evictions s → e ∈ evictions s') → watched s r pod → watched s' r pod.
Proof.
  intros Hn Hdue Hev Hlog. apply watched_mono; [done| | |done].
  - intros t Ht. exists t. by rewrite Hdue.
  - intros t0 H0. right; left. exists t0. by rewrite Hev.
Qed.

Lemma step_keeps_ok s s' : step s s' → system_ok s → system_ok s'.
Proof.
  intros Hstep (Hpods & Hev & Hlog & Hw). destruct Hstep as
    [t s Ht|pod s Hpod|r s|r t s Ht Hle Hr Hp|api r t pod s Ht Hle Hr Hp Hq|api r t pod target s Ht Hle Hr Hp Hq
    |api r pod t0 ns n s Hr Hns Hn].
  - split_and!; cbn.
    + done.
    + intros r pod t' H. destruct (Hev _ _ _ H) as (? & ? & ? & ?). split_and!; [done..|lia].
    + intros e He. destruct (Hlog e He). split; [done|lia].
    + intros r pod k v H Hd Hkv. by eapply watched_same, Hw.
  - split_and!; cbn.
    + intros r pod' [[<- <-]|[Hne H]]%lookup_insert_Some; [done|by apply Hpods].
    + done.
    + done.
    + intros r pod' k v [[<- <-]|[Hne H]]%lookup_insert_Some Hd Hkv.
      * left. destruct (schedule_lookup (ref_of pod) (now s) (due s)) as (t' & Ht' & Hle).
        exists t'. split; [done|]. left. cbn. unfold seconds. lia.
      * eapply watched_same, Hw; cbn; [lia|by apply schedule_ne|done..].
  - split_and!; cbn; [|done|done|].
    + intros r' pod [Hne H]%lookup_delete_Some. by apply Hpods.
    + intros r' pod k v [Hne H]%lookup_delete_Some Hd Hkv. by eapply watched_same, Hw.
  - split_and!; cbn; [done|done|done|]. intros r' pod k v H Hd Hkv.
    eapply watched_same, Hw; cbn; try done. apply lookup_delete_ne. congruence.
  - split_and!; cbn; [done|done|done|]. intros r' pod' k v H Hd Hkv. destruct (decide (r = r')) as [<-|Hne].
    + simplify_eq. destruct (Hpods _ _ Hp) as [Hok _].
      destruct (quiet_action api (now s) pod k v Hd Hkv Hq Hok) as (delay & Ha & Hdelay).
      rewrite Ha. left. cbn. destruct (schedule_lookup r (now s + delay) (delete r (due s))) as (t' & Ht' & Hle').
      exists t'. split; [done|]. destruct Hdelay as [Hl|(Hall & t'' & He & Hl)]; [left; cbn; lia|].
      right. split; [done|]. exists t''. split; [done|lia].
    + eapply watched_same, Hw; cbn; try done. rewrite reschedule_ne by done. by apply lookup_delete_ne.
  - destruct (Hpods _ _ Hp) as [Hok Href]. split_and!; cbn; [done| |done|].
    + intros r' pod' t' [[<- [= <- <-]]|[Hne H]]%lookup_insert_Some; [|by apply Hev].
      split_and!; [done..|by eapply eviction_expired|lia].
    + intros r' pod' k v H Hd Hkv. destruct (decide (r = r')) as [<-|Hne].
      * simplify_eq. right; left. exists (now s). apply lookup_insert_eq.
      * eapply watched_same, Hw; cbn; try done; [by apply lookup_delete_ne|by apply lookup_insert_ne].
  - destruct (Hev _ _ _ Hr) as (Hok & Href & Hexp & Hle). split_and!; cbn; [done| | |].
    + intros r' pod' t' [Hne H]%lookup_delete_Some. by apply Hev.
    + intros e [He|He]%elem_of_app; [by apply Hlog|]. apply list_elem_of_singleton in He as ->. done.
    + intros r' pod' k v H Hd Hkv. destruct (decide (r = r')) as [<-|Hne].
      * eapply watched_mono, Hw; cbn; try done.
        -- intros t Ht. by apply reschedule_earlier.
        -- intros t1 H1. assert (pod' = pod ∧ t1 = t0) as [-> ->] by (split; congruence).
           rewrite (eviction_action api t0 pod ns n Hexp Hns Hn).
           case_bool_decide as Hans; cbn.
           ++ right; right. eexists. split; [apply elem_of_app; right; left|]. done.
           ++ left. destruct (schedule_lookup r (now s + seconds 5) (due s)) as (t' & Ht' & Hl).
              exists t'. split; [done|]. left. cbn. lia.
        -- intros e He. apply elem_of_app. by left.
      * eapply watched_same, Hw; cbn; try done; [by apply reschedule_ne|by apply lookup_delete_ne|].
        intros e He. apply elem_of_app. by left.
Qed.

Lemma reachable_keeps_ok s s' : rtc step s s' → system_ok s → system_ok s'.
Proof. induction 1 as [|s1 s2 s3 Hs _ IH]; [done|]. intros Hok. apply IH. by eapply step_keeps_ok. Qed.

(** ** Prompt controllers *)

(** Steps of a controller that starts what is due and hears from the API server within
    [delta], and whose evictions are taken. *)
Definition prompt_step (delta : Z) (s s' : system) : Prop :=
  step s s' ∧
  (∀ r t, due s' !! r = Some t → (now s' ≤ t + delta)%Z) ∧
  (∀ r pod t0, evicting s' !! r = Some (pod, t0) → (now s' ≤ t0 + delta)%Z) ∧
  (∀ e, e ∈ evictions s' → ev_taken e = true).

Definition taken (s : system) (pod : ObjectMeta) : Prop :=
  ∃ e, e ∈ evictions s ∧ ev_pod e = pod ∧ ev_taken e = true.

(** A Pod with the expiry [t], last changed at [c], is looked at by the later of the
    two. *)
Definition scheduled (delta : Z) (s : system) (r : ref) (pod : ObjectMeta) (t : Z) : Prop :=
  ∃ c, seen s !! r = Some c ∧
  ((∃ d, due s !! r = Some d ∧ (d ≤ Z.max t c)%Z) ∨
   (∃ t0, evicting s !! r = Some (pod, t0) ∧ (t0 ≤ Z.max t c + delta)%Z) ∨
   taken s pod).

Definition prompt_ok (delta : Z) (s : system) : Prop :=
  system_ok s ∧
  (∀ r t, due s !! r = Some t → (now s ≤ t + delta)%Z) ∧
  (∀ r pod t0, evicting s !! r = Some (pod, t0) → (now s ≤ t0 + delta)%Z) ∧
  (∀ r pod t, pods s !! r = Some pod → deletion_timestamp pod = None → all_parse pod → earliest pod t →
     scheduled delta s r pod t).

Lemma scheduled_mono delta s s' r pod t :
  seen s' !! r = seen s !! r →
  (∀ d, due s !! r = Some d → ∃ d', due s' !! r = Some d' ∧ (d' ≤ d)%Z) →
  (∀ t0, evicting s !! r = Some (pod, t0) → evicting s' !! r = Some (pod, t0) ∨ taken s' pod) →
  (∀ e, e ∈ evictions s → e ∈ evictions s') →
  scheduled delta s r pod t → scheduled delta s' r pod t.
Proof.
  intros Hseen Hdue Hev Hlog (c & Hc & H). exists c. split; [by rewrite Hseen|].
  destruct H as [(d & Hd & Hle)|[(t0 & H0 & Hle)|(e & He & Htaken)]].
  - destruct (Hdue d Hd) as (d' & Hd' & Hle'). left. exists d'. split; [done|lia].
  - right. destruct (Hev t0 H0) as [H|H]; [left; by exists t0|by right].
  - right; right. exists e. auto.
Qed.

Lemma scheduled_same delta s s' r pod t :
  seen s' !! r = seen s !! r → due s' !! r = due s !! r → evicting s' !! r = evicting s !! r →
  (∀ e, e ∈ evictions s → e ∈ evictions s') →
  scheduled delta s r pod t → scheduled delta s' r pod t.
Proof.
  intros Hseen Hdue Hev Hlog. apply scheduled_mono; [done| | |done].
  - intros d Hd. exists d. by rewrite Hdue.
  - intros t0 H0. left. by rewrite Hev.
Qed.

(** A reconciliation that evicts nothing comes back at the expiry. *)
Lemma quiet_requeue (api : EvictApi) now0 pod t :
  deletion_timestamp pod = None → all_parse pod → earliest pod t → pod_ok pod →
  (reconcile (evict_api := api) now0 pod).1 = [] →
  action_of (reconcile (evict_api := api) now0 pod).2 = Requeue (t - now0).
Proof.
  intros Hd Hp He [[ns Hns] [n Hn]]. unfold reconcile.
  rewrite Hd, (pod_expires_at_earliest _ _ Hp He), Hns, Hn. cbn. by destruct (t - now0 <? 0)%Z.
Qed.

Lemma prompt_step_ok delta s s' :
  (0 ≤ delta)%Z → prompt_step delta s s' → prompt_ok delta s → prompt_ok delta s'.
Proof.
  intros Hdelta (Hstep & Hdue' & Hev' & Htaken) (Hok & Hdue & Hev & Hsch).
  split_and!; [by eapply step_keeps_ok|done..|].
  destruct Hok as (Hpods & Hevok & _ & _). destruct Hstep as
    [t s Ht|pod s Hpod|r s|r t s Ht Hle Hr Hp|api r t pod s Ht Hle Hr Hp Hq|api r t pod target s Ht Hle Hr Hp Hq
    |api r pod t0 ns n s Hr Hns Hn]; cbn in *.
  - intros r pod te H Hd Hp He. by eapply scheduled_same, Hsch.
  - intros r pod' te [[<- <-]|[Hne H]]%lookup_insert_Some Hd Hp He.
    + exists (now s). split; [apply lookup_insert_eq|]. left. cbn.
      destruct (schedule_lookup (ref_of pod) (now s) (due s)) as (d & Hd' & Hl). exists d. split; [done|lia].
    + eapply scheduled_same, Hsch; cbn; try done; [by apply lookup_insert_ne|by apply schedule_ne].
  - intros r' pod te [Hne H]%lookup_delete_Some Hd Hp He. by eapply scheduled_same, Hsch.
  - intros r' pod te H Hd Hp' He. eapply scheduled_same, Hsch; cbn; try done. apply lookup_delete_ne. congruence.
  - intros r' pod' te H Hd Hp' He. destruct (decide (r = r')) as [<-|Hne].
    + simplify_eq. destruct (Hsch r pod te Hp Hd Hp' He) as (c & Hc & _). exists c. split; [done|]. left.
      destruct (Hpods _ _ Hp) as [Hok _]. cbn. rewrite (quiet_requeue api _ pod te Hd Hp' He Hok Hq). cbn.
      destruct (schedule_lookup r (now s + (te - now s)) (delete r (due s))) as (d & Hd' & Hl).
      exists d. split; [done|lia].
    + eapply scheduled_same, Hsch; cbn; try done. rewrite reschedule_ne by done. by apply lookup_delete_ne.
  - intros r' pod' te H Hd Hp' He. destruct (decide (r = r')) as [<-|Hne].
    + simplify_eq. destruct (Hsch r pod te Hp Hd Hp' He) as (c & Hc & Hw). exists c. split; [done|]. right.
      destruct Hw as [(d & Hd' & Hl)|[(t0 & H0 & _)|Hw]]; [|congruence|by right].
      left. exists (now s). cbn. rewrite lookup_insert_eq. split; [done|]. specialize (Hdue _ _ Hd'). lia.
    + eapply scheduled_same, Hsch; cbn; try done; [by apply lookup_delete_ne|by apply lookup_insert_ne].
  - intros r' pod' te H Hd Hp' He. destruct (decide (r = r')) as [<-|Hne].
    + eapply scheduled_mono, Hsch; cbn; try done.
      * intros d Hd'. by apply reschedule_earlier.
      * intros t1 H1. assert (pod' = pod) as -> by congruence. right. eexists.
        split; [apply elem_of_app; right; left|]. split; [done|]. apply Htaken, elem_of_app. right. left.
      * intros e Hin. apply elem_of_app. by left.
    + eapply scheduled_same, Hsch; cbn; try done; [by apply reschedule_ne|by apply lookup_delete_ne|].
      intros e Hin. apply elem_of_app. by left.
Qed.

Lemma prompt_initial delta t : prompt_ok delta (initial t).
Proof.
  split_and!; [apply initial_pods_ok|..]; cbn.
  - intros r d H. by rewrite lookup_empty in H.
  - intros r pod d H. by rewrite lookup_empty in H.
  - intros r pod d H. by rewrite lookup_empty in H.
Qed.

Lemma prompt_reachable delta s s' :
  (0 ≤ delta)%Z → rtc (prompt_step delta) s s' → prompt_ok delta s → prompt_ok delta s'.
Proof. induction 2 as [|s1 s2 s3 Hs _ IH]; [done|]. intros Hok. apply IH. by eapply prompt_step_ok. Qed.

(** ** Theorems *)

(** Evictions hit expired Pods only: each one that was asked for, answered or
    not, was decided on for a Pod that was not being deleted, all of whose expiry
    annotations were timestamps, and the earliest of which had passed at the time. *)
Theorem only_expired_pods_are_evicted (t0 : Z) (s : system) (pod : ObjectMeta) (t : Z)
    (Hreach : rtc step (initial t0) s)
    (Hasked : (∃ r, evicting s !! r = Some (pod, t)) ∨
              (∃ e, e ∈ evictions s ∧ ev_pod e = pod ∧ ev_time e = t)) :
  expired pod t ∧ (t ≤ now s)%Z.
Proof.
  destruct (reachable_keeps_ok _ _ Hreach (initial_pods_ok t0)) as (_ & Hev & Hlog & _).
  destruct Hasked as [[r H]|(e & He & <- & <-)]; [|by apply Hlog].
  by destruct (Hev _ _ _ H) as (_ & _ & ? & ?).
Qed.

(** C6: no expired Pod is forgotten, whatever the order of events and whatever the API
    server answers: its eviction has been taken, or has been asked for, or the Pod is
    looked at again within five seconds, and then its eviction is asked for. *)
Theorem no_expired_pod_is_forgotten (t0 : Z) (s : system) (r : ref) (pod : ObjectMeta)
    (Hreach : rtc step (initial t0) s)
    (Hpod : pods s !! r = Some pod) (Hexp : expired pod (now s)) :
  taken s pod ∨ (∃ t, evicting s !! r = Some (pod, t)) ∨
  ∃ t ns n, due s !! r = Some t ∧ (t ≤ now s + seconds 5)%Z ∧ r = (Some ns, Some n) ∧
    ∀ t' api, (now s ≤ t')%Z → (reconcile (evict_api := api) t' pod).1 = [(ns, n)].
Proof.
  destruct (reachable_keeps_ok _ _ Hreach (initial_pods_ok t0)) as (Hpods & _ & _ & Hw).
  destruct Hexp as (Hd & Hp & te & He & Hlt). pose proof He as [(k & v & Hkv & Hv) Hmin].
  destruct (Hw r pod k v Hpod Hd Hkv) as [(t & Ht & Hin)|[Hev|Htaken]]; [|by right; left|by left].
  right; right. destruct (Hpods _ _ Hpod) as [[[ns Hns] [n Hn]] ->]. exists t, ns, n.
  split_and!; [done| |unfold ref_of; by rewrite Hns, Hn|].
  - destruct Hin as [H|(_ & te' & He' & H)]; [done|].
    rewrite (earliest_unique _ _ _ He' He) in H. unfold seconds. lia.
  - intros t' api Hle. apply reconcile_evictions. split_and!; try done. exists te. split; [done|lia].
Qed.

(** C13: with a controller that is never late by more than [delta] and an API server
    that takes its evictions, a Pod is evicted within [2 * delta] of its expiry, or of
    the Pod's last change if that came later. *)
Theorem evicted_in_time (delta t0 : Z) (s : system) (r : ref) (pod : ObjectMeta) (t : Z)
    (Hdelta : (0 ≤ delta)%Z) (Hreach : rtc (prompt_step delta) (initial t0) s)
    (Hpod : pods s !! r = Some pod) (Hdel : deletion_timestamp pod = None)
    (Hparse : all_parse pod) (Ht : earliest pod t) :
  ∃ c, seen s !! r = Some c ∧ ((Z.max t c + 2 * delta < now s)%Z → taken s pod).
Proof.
  destruct (prompt_reachable _ _ _ Hdelta Hreach (prompt_initial delta t0)) as (_ & Hdue & Hev & Hsch).
  destruct (Hsch r pod t Hpod Hdel Hparse Ht) as (c & Hc & H). exists c. split; [done|]. intros Hlate.
  destruct H as [(d & Hd & Hle)|[(t1 & H1 & Hle)|H]]; [| |done].
  - specialize (Hdue _ _ Hd). lia.
  - specialize (Hev _ _ _ H1). lia.
Qed.

End pod_controller.

(** ** A run *)

(** The Pod of PodRestarter.v is seen five seconds before its expiry. *)
Definition example_seen : Z := 1704067195000000000.
Definition example_expiry : Z := 1704067200000000000.
Definition example_ref : ref := (Some ("default" : str), Some ("trino-worker-default-0" : str)).

Definition example_system (t : Z) (d : gmap ref Z) (ev : gmap ref (ObjectMeta * Z)) (evs : list eviction) : system :=
  mkSystem t {[example_ref := example_pod]} {[example_ref := example_seen]} d ev evs.

Definition example_eviction : eviction := mkEviction (example_expiry + 1) example_pod true.

(** What is seen, waits for the expiry. *)
Definition example_waiting : system := example_system example_seen {[example_ref := example_expiry]} ∅ [].
(** A nanosecond after the expiry the eviction is asked for. *)
Definition example_asked : system :=
  example_system (example_expiry + 1) ∅ {[example_ref := (example_pod, example_expiry + 1)%Z]} [].
(** A minute later all is over. *)
Definition example_over : system :=
  example_system (example_expiry + seconds 60) ∅ ∅ [example_eviction].

Definition always_taken : EvictApi := {| api_evict _ _ := None |}.

Section example_run.
Local Existing Instance example_chrono.

(** The side conditions of a prompt step, with at most one request and one pending
    eviction. *)
Lemma prompt_intro s t d ev evs :
  step s (example_system t d ev evs) →
  (d = ∅ ∨ ∃ t', d = {[example_ref := t']} ∧ (t ≤ t' + 1)%Z) →
  (ev = ∅ ∨ ∃ pod t', ev = {[example_ref := (pod, t')]} ∧ (t ≤ t' + 1)%Z) →
  (∀ e, e ∈ evs → ev_taken e = true) →
  prompt_step 1 s (example_system t d ev evs).
Proof.
  intros Hstep Hd Hev Hevs. split_and!; [done|..|done]; cbn.
  - intros r t0 H. destruct Hd as [->|(t' & -> & Hle)]; [by rewrite lookup_empty in H|].
    apply lookup_singleton_Some in H as [_ <-]. done.
  - intros r pod t0 H. destruct Hev as [->|(pod' & t' & -> & Hle)]; [by rewrite lookup_empty in H|].
    apply lookup_singleton_Some in H as [_ [= _ <-]]. done.
Qed.

Lemma example_waits : rtc (prompt_step 1) (initial example_seen) example_waiting.
Proof.
  eapply rtc_l; [|eapply rtc_l; [|constructor]].
  - apply (prompt_intro _ example_seen {[example_ref := example_seen]} ∅ []).
    + refine (pod_applied example_pod (initial example_seen) _). split; by eexists.
    + right. exists example_seen. split; [done|lia].
    + by left.
    + by intros e ?%not_elem_of_nil.
  - apply prompt_intro.
    + refine (start_quiet always_taken example_ref example_seen example_pod
        (example_system example_seen {[example_ref := example_seen]} ∅ []) eq_refl _ eq_refl eq_refl _);
        [cbn; lia|vm_compute; reflexivity].
    + right. exists example_expiry. split; [done|vm_compute; done].
    + by left.
    + by intros e ?%not_elem_of_nil.
Qed.

Lemma example_asks : rtc (prompt_step 1) (initial example_seen) example_asked.
Proof.
  etrans; [exact example_waits|]. eapply rtc_l; [|eapply rtc_l; [|constructor]].
  - apply (prompt_intro _ (example_expiry + 1) {[example_ref := example_expiry]} ∅ []).
    + refine (tick (example_expiry + 1) example_waiting _). vm_compute. done.
    + right. exists example_expiry. split; [done|lia].
    + by left.
    + by intros e ?%not_elem_of_nil.
  - apply prompt_intro.
    + refine (start_eviction always_taken example_ref example_expiry example_pod _
        (example_system (example_expiry + 1) {[example_ref := example_expiry]} ∅ []) eq_refl _ eq_refl eq_refl _);
        [cbn; lia|vm_compute; reflexivity].
    + by left.
    + right. exists example_pod, (example_expiry + 1)%Z. split; [done|lia].
    + by intros e ?%not_elem_of_nil.
Qed.

Lemma example_ends : rtc (prompt_step 1) (initial example_seen) example_over.
Proof.
  assert (∀ e, e ∈ [example_eviction] → ev_taken e = true) as Hevs by by intros e ->%list_elem_of_singleton.
  etrans; [exact example_asks|]. eapply rtc_l; [|eapply rtc_l; [|constructor]].
  - apply (prompt_intro _ (example_expiry + 1) ∅ ∅ [example_eviction]); [|by left|by left|done].
    refine (eviction_answered always_taken example_ref example_pod _ _ _ example_asked eq_refl eq_refl eq_refl).
  - apply prompt_intro; [|by left|by left|done].
    refine (tick (example_expiry + seconds 60) (example_system (example_expiry + 1) ∅ ∅ [example_eviction]) _).
    vm_compute. done.
Qed.

Lemma prompt_steps delta s s' : rtc (prompt_step delta) s s' → rtc step s s'.
Proof. induction 1 as [|x y z [H _] _ IH]; [constructor|]. by eapply rtc_l. Qed.

Lemma example_earliest : all_parse example_pod ∧ earliest example_pod example_expiry.
Proof. pose proof (pod_expires_at_spec example_pod) as H. vm_compute pod_expires_at in H. exact H. Qed.
End example_run.

Lemma only_expired_pods_are_evicted_witness :
  expired (chrono := example_chrono) example_pod (example_expiry + 1).
Proof.
  apply (only_expired_pods_are_evicted (chrono := example_chrono) example_seen example_asked example_pod).
  - apply (prompt_steps 1), example_asks.
  - left. exists example_ref. reflexivity.
Defined.

Lemma no_expired_pod_is_forgotten_witness :
  taken example_over example_pod ∨ (∃ t, evicting example_over !! example_ref = Some (example_pod, t)) ∨
  ∃ t, due example_over !! example_ref = Some t.
Proof.
  destruct (no_expired_pod_is_forgotten (chrono := example_chrono) example_seen example_over example_ref example_pod)
    as [H|[H|(t & _ & _ & H & _)]].
  - apply (prompt_steps 1), example_ends.
  - reflexivity.
  - destruct example_earliest as [Hp He]. split; [reflexivity|]. split; [exact Hp|].
    exists example_expiry. split; [exact He|vm_compute; reflexivity].
  - by left.
  - by right; left.
  - right; right. by exists t.
Defined.

Lemma evicted_in_time_witness : taken example_over example_pod.
Proof.
  destruct example_earliest as [Hp He].
  destruct (evicted_in_time (chrono := example_chrono) 1 example_seen example_over example_ref example_pod
    example_expiry ltac:(lia) example_ends eq_refl eq_refl Hp He) as (c & Hc & H).
  apply H. change (Some example_seen = Some c) in Hc. injection Hc as <-. vm_compute. reflexivity.
Defined.
