(* ===== verification/StsWebhook.v ===== *)
(** rust/operator-binary/src/webhooks/restarter_mutate_sts.rs: the mutating webhook
    that annotates a StatefulSet with the versions of what it refers to when it is
    created, as a JSON patch. *)

From S2P Require Import Prelude PyStr PyDict Argparse RunTestsArgs Kube.
From S2P Require Import Restarter.

(** ** JSON documents and patches *)

(** The part of JSON that patches walk through: objects by key, and other values. *)
Inductive value :=
  | VString (s : str)
  | VObject (m : list (str * value))
  | VNull
  | VOther.

(** [lookup v p] is the value at the JSON pointer [p], given as its tokens
    (RFC 6901); arrays do not occur on the paths of the webhook. *)
Fixpoint lookup (v : value) (p : list str) : option value :=
  match p with
  | [] => Some v
  | k :: p' =>
      match v with
      | VObject m => match dget k m with Some w => lookup w p' | None => None end
      | _ => None
      end
  end.

(** An [add] operation: a path, and the value to put there. *)
Record add_operation := mkAdd {
  path : list str;
  add_value : value;
}.

(** ** The handler *)

Inductive admission_response :=
  | Patched (patch : list add_operation)
  | Invalid (reason : str).

Definition missing_object : str :=
  "object (of type StatefulSet) missing - for operation CREATE it must be always present".
Definition failed_annotations : str := "failed to get updated restarted annotations: ".

Definition failed_patch : str := "failed to add patch to AdmissionResponse: ".

Definition annotations_path : list str := ["spec"; "template"; "metadata"; "annotations"] : list str.

(** The metadata of the pod template, as far as there is one. *)
Definition template_metadata (sts : StatefulSet) : option ObjectMeta :=
  spec sts ≫= λ spec, t_metadata (template spec).

Definition paths_to_be_created (sts : StatefulSet) : list (list str) :=
  (match spec sts with None => [take 1 annotations_path] | Some _ => [] end) ++
  (match template_metadata sts with None => [take 3 annotations_path] | Some _ => [] end) ++
  (match template_metadata sts ≫= annotations with None => [annotations_path] | Some _ => [] end).

Definition create_paths (sts : StatefulSet) : list add_operation :=
  (λ p, mkAdd p (VObject [])) <$> paths_to_be_created sts.

Definition add_annotations (m : gmap str str) : list add_operation :=
  (λ kv : str * str, mkAdd (annotations_path ++ [kv.1]) (VString kv.2)) <$> btree_iter m.

Section handler.
(** How an error reads, and how turning a patch into a response fails. *)
Context (display : Error → str) (with_patch_error : list add_operation → option str).

Definition add_sts_restarter_annotations_handler (ctx : Ctx) (request : option StatefulSet) :
    outcome Error admission_response :=
  match request with
  | None => Val (Invalid missing_object)
  | Some sts =>
      match get_updated_restarter_annotations sts ctx with
      | Panic => Panic
      | Err err => Val (Invalid (failed_annotations ++ display err))
      | Val m =>
          let patch := create_paths sts ++ add_annotations m in
          match with_patch_error patch with
          | None => Val (Patched patch)
          | Some err => Val (Invalid (failed_patch ++ err))
          end
      end
  end.
End handler.

(** ** Applying the patch

    The API server applies the operations in order, and the patch fails when one of
    them does (RFC 6902, section 5). *)
Class JsonPatch := {
  add_op : add_operation → value → option value;
  (** Adding a member to an object that exists sets it. *)
  add_op_member d p k v m :
    lookup d p = Some (VObject m) →
    ∃ d' m', add_op (mkAdd (p ++ [k]) v) d = Some d' ∧ lookup d' p = Some (VObject m') ∧
      ∀ k', dget k' m' = if decide (k' = k) then Some v else dget k' m;
  (** The object that the member is added to has to exist. *)
  add_op_no_parent d p k v : lookup d p = None → add_op (mkAdd (p ++ [k]) v) d = None;
  (** The rest of the document stays as it is. *)
  add_op_frame d d' p v q :
    add_op (mkAdd p v) d = Some d' → ¬ p `prefix_of` q → ¬ q `prefix_of` p → lookup d' q = lookup d q;
}.

Fixpoint apply_patch `{JsonPatch} (patch : list add_operation) (d : value) : option value :=
  match patch with
  | [] => Some d
  | op :: patch' => match add_op op d with Some d' => apply_patch patch' d' | None => None end
  end.

(** ** The document of a StatefulSet *)

Definition absent (d : value) (p : list str) : Prop := lookup d p = None ∨ lookup d p = Some VNull.

Definition is_object (d : value) (p : list str) : Prop := ∃ m, lookup d p = Some (VObject m).

(** [d] is the document that was read as [sts], as far as the pod template's
    annotations go: an optional part is missing or null. *)
Definition document_of (d : value) (sts : StatefulSet) : Prop :=
  is_object d [] ∧
  match spec sts with
  | None => absent d (take 1 annotations_path)
  | Some spec =>
      is_object d (take 2 annotations_path) ∧
      match t_metadata (template spec) with
      | None => absent d (take 3 annotations_path)
      | Some metadata =>
          is_object d (take 3 annotations_path) ∧
          match annotations metadata with
          | None => absent d annotations_path
          | Some annotations =>
              ∃ m, lookup d annotations_path = Some (VObject m) ∧ ∀ k, dget k m = VString <$> annotations !! k
          end
      end
  end.

(** The annotations that the pod template has. *)
Definition old_annotations (sts : StatefulSet) : gmap str str :=
  default ∅ (template_metadata sts ≫= annotations).

(** ** Lemmas *)

Lemma lookup_app d p q : lookup d (p ++ q) = lookup d p ≫= λ v, lookup v q.
Proof.
  revert d. induction p as [|k p IH]; intros d; [done|]. cbn.
  destruct d as [| m | |]; try done. destruct (dget k m); [apply IH|done].
Qed.

Lemma lookup_absent d p k q : absent d p → lookup d (p ++ k :: q) = None.
Proof. intros [H|H]; by rewrite lookup_app, H. Qed.

(** Two documents that agree except at, above and below the path [p]. *)
Definition same_but (p : list str) (d d' : value) : Prop :=
  ∀ q, ¬ p `prefix_of` q → ¬ q `prefix_of` p → lookup d' q = lookup d q.

Lemma same_but_trans p d d' d'' : same_but p d d' → same_but p d' d'' → same_but p d d''.
Proof. intros H H' q Hq Hq'. by rewrite H', H. Qed.

Lemma same_but_below p k d d' : same_but (p ++ [k]) d d' → same_but p d d'.
Proof.
  intros H q Hq Hq'. apply H.
  - intros Hr. by apply Hq, (prefix_app_l _ _ [k]).
  - intros Hr. destruct (prefix_weak_total p q (p ++ [k])); [by apply prefix_app_r|done..].
Qed.

Section patch.
Context `{JsonPatch}.

Lemma apply_patch_app l l' d : apply_patch (l ++ l') d = apply_patch l d ≫= apply_patch l'.
Proof.
  revert d. induction l as [|op l IH]; intros d; [done|]. cbn.
  destruct (add_op op d); [apply IH|done].
Qed.

(** Adding an empty object where nothing is. *)
Lemma create_object d p k :
  is_object d p → absent d (p ++ [k]) →
  ∃ d', add_op (mkAdd (p ++ [k]) (VObject [])) d = Some d' ∧
    lookup d' (p ++ [k]) = Some (VObject []) ∧ ∀ k', same_but (p ++ [k; k']) d d'.
Proof.
  intros [m Hm] Ha. destruct (add_op_member d p k (VObject []) m Hm) as (d' & m' & Hop & Hm' & Hget).
  assert (lookup d' (p ++ [k]) = Some (VObject [])) as Hk.
  { rewrite lookup_app, Hm'. cbn. rewrite Hget. by rewrite decide_True. }
  exists d'. split_and!; [done..|]. intros k' q Hq Hq'.
  destruct (decide ((p ++ [k]) `prefix_of` q)) as [[r ->]|Hno].
  - destruct r as [|j r].
    { rewrite app_nil_r in Hq'. destruct Hq'. exists [k']. by rewrite <- app_assoc. }
    rewrite (lookup_absent d (p ++ [k]) j r Ha). by rewrite lookup_app, Hk.
  - apply (add_op_frame _ _ _ _ _ Hop); [done|]. intros Hr. apply Hq'.
    replace (p ++ [k; k']) with ((p ++ [k]) ++ [k']) by by rewrite <- app_assoc. by apply prefix_app_r.
Qed.

(** Adding annotations to the object that is there. *)
Lemma add_members l d m :
  lookup d annotations_path = Some (VObject m) →
  ∃ d' m', apply_patch ((λ kv : str * str, mkAdd (annotations_path ++ [kv.1]) (VString kv.2)) <$> l) d = Some d' ∧
    lookup d' annotations_path = Some (VObject m') ∧
    (∀ k, k ∉ l.*1 → dget k m' = dget k m) ∧
    (NoDup l.*1 → ∀ k v, (k, v) ∈ l → dget k m' = Some (VString v)) ∧
    same_but annotations_path d d'.
Proof.
  revert d m. induction l as [|[k v] l IH]; intros d m Hm.
  { exists d, m. split_and!; [done..| |done]. intros _ k v Hin. by apply not_elem_of_nil in Hin. }
  destruct (add_op_member d _ k (VString v) m Hm) as (d1 & m1 & Hop & Hm1 & Hget1).
  destruct (IH _ _ Hm1) as (d' & m' & Hp & Hm' & Hold & Hnew & Hsame).
  exists d', m'. cbn [fmap list_fmap apply_patch fst snd]. rewrite Hop. split_and!; [done..| | |].
  - intros j [Hne Hj]%not_elem_of_cons. rewrite (Hold _ Hj), Hget1. by rewrite decide_False.
  - intros [Hk Hnd]%NoDup_cons j w [[= -> ->]|Hin]%elem_of_cons; [|by apply Hnew].
    rewrite (Hold _ Hk), Hget1. by rewrite decide_True.
  - apply (same_but_trans _ _ d1); [|done]. apply (same_but_below _ k).
    intros q Hq Hq'. by apply (add_op_frame _ _ _ _ _ Hop).
Qed.

(** The annotations object is created where the metadata is. *)
Lemma create_annotations d :
  is_object d (take 3 annotations_path) → absent d annotations_path →
  ∃ d', add_op (mkAdd annotations_path (VObject [])) d = Some d' ∧
    lookup d' annotations_path = Some (VObject []) ∧ same_but annotations_path d d'.
Proof.
  intros Ho Ha. change annotations_path with (take 3 annotations_path ++ ["annotations" : str]) in Ha |- *.
  destruct (create_object _ _ _ Ho Ha) as (d' & Hop & Hk & Hsame). exists d'. split_and!; [done..|].
  intros q Hq Hq'. by apply (add_op_frame _ _ _ _ _ Hop).
Qed.

(** The paths that are created make room for the annotations. *)
Lemma create_paths_apply d sts :
  document_of d sts → is_Some (spec sts) →
  ∃ d' m, apply_patch (create_paths sts) d = Some d' ∧ same_but annotations_path d d' ∧
    lookup d' annotations_path = Some (VObject m) ∧ ∀ k, dget k m = VString <$> old_annotations sts !! k.
Proof.
  intros [_ Hdoc] [s Hs]. unfold create_paths, paths_to_be_created, old_annotations, template_metadata.
  rewrite Hs in *. cbn [mbind option_bind]. destruct Hdoc as [Ht Hdoc].
  destruct (t_metadata (template s)) as [md|].
  - destruct Hdoc as [Hmd Hdoc]. cbn [mbind option_bind]. destruct (annotations md) as [am|].
    + destruct Hdoc as (m & Hm & Hget). exists d, m. cbn. split_and!; done.
    + destruct (create_annotations _ Hmd Hdoc) as (d' & Hop & Hk & Hsame).
      exists d', []. cbn [app fmap list_fmap apply_patch]. rewrite Hop. split_and!; try done.
  - destruct (create_object d (take 2 annotations_path) "metadata" Ht Hdoc) as (d1 & Hop1 & Hk1 & Hsame1).
    destruct (create_annotations d1) as (d' & Hop & Hk & Hsame); [by exists []|left|].
    { change annotations_path with ((take 2 annotations_path ++ ["metadata" : str]) ++ ["annotations" : str]).
      by rewrite lookup_app, Hk1. }
    exists d', []. cbn [app fmap list_fmap apply_patch].
    change (take 2 annotations_path ++ ["metadata" : str]) with (take 3 annotations_path) in Hop1.
    rewrite Hop1. cbn. rewrite Hop.
    split_and!; try done. by apply (same_but_trans _ _ d1); [apply (Hsame1 "annotations")|].
Qed.

(** ** Theorems *)

Context (display : Error → str) (with_patch_error : list add_operation → option str).

(** C36: a StatefulSet that is created with a specification is patched, and the
    patch applies to its document: afterwards the pod template has an annotation
    for each ConfigMap and Secret that it refers to, next to those it had, and
    nothing else has changed.  What [reconcile] asks for afterwards, with the stores
    as they are, is in place already, so that it restarts no Pod. *)
Theorem created_statefulset_is_annotated (ctx : Ctx) (sts : StatefulSet) (d : value)
    (s : StatefulSetSpec) (m : gmap str str) `{KubeClient} :
  document_of d sts →
  spec sts = Some s →
  get_updated_restarter_annotations sts ctx = Val m →
  (∀ patch, with_patch_error patch = None) →
  ∃ patch d' am,
    add_sts_restarter_annotations_handler display with_patch_error ctx (Some sts) = Val (Patched patch) ∧
    apply_patch patch d = Some d' ∧
    lookup d' annotations_path = Some (VObject am) ∧
    (∀ k, dget k am = VString <$> (m ∪ old_annotations sts) !! k) ∧
    same_but annotations_path d d' ∧
    (∀ request k v, request ∈ (reconcile (Some sts) ctx).1 →
       ap_template_annotations request !! k = Some v → dget k am = Some (VString v)).
Proof.
  intros Hdoc Hs Hm Hok.
  destruct (create_paths_apply d sts Hdoc) as (d1 & m1 & Hp1 & Hsame1 & Hl1 & Hget1); [by exists s|].
  destruct (add_members (btree_iter m) _ _ Hl1) as (d' & am & Hp & Hl & Hold & Hnew & Hsame).
  assert (∀ k, dget k am = VString <$> (m ∪ old_annotations sts) !! k) as Hget.
  { intros k. destruct (m !! k) as [v|] eqn:Hk.
    - rewrite (lookup_union_Some_l _ _ _ _ Hk). apply (Hnew (NoDup_btree_iter m)). by apply elem_of_btree_iter.
    - rewrite (lookup_union_r _ _ _ Hk), <- Hget1. apply Hold.
      intros ([j v] & -> & Hin%elem_of_btree_iter)%list_elem_of_fmap. cbn in Hk. congruence. }
  exists (create_paths sts ++ add_annotations m), d', am.
  unfold add_sts_restarter_annotations_handler. rewrite Hm. cbn zeta. rewrite Hok.
  rewrite apply_patch_app, Hp1. split_and!; [done|exact Hp|done|done|by apply (same_but_trans _ _ d1)|].
  intros request k v Hin Hk. rewrite Hget. rewrite (lookup_union_Some_l _ _ _ v); [done|].
  rewrite <- Hk. f_equal. revert Hin. unfold reconcile. rewrite Hm.
  destruct (namespace (metadata sts)), (name (metadata sts)); cbn;
    try (by intros ?%not_elem_of_nil); by intros ->%list_elem_of_singleton.
Qed.

(** What the webhook answers otherwise: a request without an object and
    annotations that cannot be determined are invalid, and it never fails except
    for a StatefulSet without a namespace. *)
Lemma handler_errors (ctx : Ctx) (request : option StatefulSet) :
  match request with
  | None =>
      add_sts_restarter_annotations_handler display with_patch_error ctx request = Val (Invalid missing_object)
  | Some sts =>
      (add_sts_restarter_annotations_handler display with_patch_error ctx request = Panic ↔
         namespace (metadata sts) = None) ∧
      ((cms ctx = None ∨ secrets ctx = None) → is_Some (namespace (metadata sts)) →
         ∃ e, get_updated_restarter_annotations sts ctx = Err e ∧
         add_sts_restarter_annotations_handler display with_patch_error ctx request
           = Val (Invalid (failed_annotations ++ display e)))
  end.
Proof.
  destruct request as [sts|]; [|done].
  unfold add_sts_restarter_annotations_handler, get_updated_restarter_annotations.
  destruct (namespace (metadata sts)) as [ns|]; cbn; [|by split; [|intros _ [? ?]]].
  destruct (cms ctx) as [c|], (secrets ctx) as [sc|]; cbn.
  - split; [|by intros [?|?]]. by destruct (with_patch_error _).
  - split; [done|]. intros _ _. by exists SecretsUninitialized.
  - split; [done|]. intros _ _. by exists ConfigMapsUninitialized.
  - split; [done|]. intros _ _. by exists ConfigMapsUninitialized.
Qed.

(** For a StatefulSet without a specification the patch cannot be applied:
    [/spec] is created, but [/spec/template], which the next operation needs, is
    not. *)
Theorem patch_without_spec_fails (ctx : Ctx) (sts : StatefulSet) (d : value) (patch : list add_operation) :
  document_of d sts →
  spec sts = None →
  add_sts_restarter_annotations_handler display with_patch_error ctx (Some sts) = Val (Patched patch) →
  apply_patch patch d = None.
Proof.
  intros [Hroot Hdoc] Hs Hpatch. rewrite Hs in Hdoc.
  assert (∃ l, patch = create_paths sts ++ l) as [l ->].
  { revert Hpatch. unfold add_sts_restarter_annotations_handler.
    destruct (get_updated_restarter_annotations sts ctx) as [m| |]; [|done..]. cbn zeta.
    destruct (with_patch_error _); [done|]. intros [= <-]. by eexists. }
  destruct (create_object d [] "spec" Hroot Hdoc) as (d1 & Hop & Hk & _).
  rewrite apply_patch_app. unfold create_paths, paths_to_be_created, template_metadata. rewrite Hs.
  change (take 1 annotations_path) with ([] ++ ["spec" : str]). cbn [app fmap list_fmap apply_patch].
  cbn [app] in Hop. rewrite Hop. cbn.
  rewrite (add_op_no_parent d1 ["spec" : str; "template" : str] "metadata"); [done|].
  change ["spec" : str; "template" : str] with (["spec" : str] ++ ["template" : str]).
  cbn [app] in Hk. by rewrite lookup_app, Hk.
Qed.

End patch.

(** ** A server *)

Fixpoint add_at (p : list str) (v d : value) : option value :=
  match p, d with
  | [], _ => Some v
  | k :: p', VObject m =>
      match p' with
      | [] => Some (VObject (dset k v m))
      | _ :: _ =>
          match dget k m with
          | Some w => match add_at p' v w with Some w' => Some (VObject (dset k w' m)) | None => None end
          | None => None
          end
      end
  | _ :: _, _ => None
  end.

Lemma add_at_snoc j p k v m :
  add_at (j :: p ++ [k]) v (VObject m) =
    match dget j m with
    | Some w => match add_at (p ++ [k]) v w with Some w' => Some (VObject (dset j w' m)) | None => None end
    | None => None
    end.
Proof. by destruct p. Qed.

Lemma add_at_member d p k v m :
  lookup d p = Some (VObject m) →
  ∃ d' m', add_at (p ++ [k]) v d = Some d' ∧ lookup d' p = Some (VObject m') ∧
    ∀ k', dget k' m' = if decide (k' = k) then Some v else dget k' m.
Proof.
  revert d. induction p as [|j p IH]; intros d Hd.
  - cbn in Hd. injection Hd as ->. exists (VObject (dset k v m)), (dset k v m). split_and!; [done..|].
    intros k'. destruct (decide (k' = k)) as [->|]; [by rewrite dget_dset_eq|by rewrite dget_dset_ne].
  - cbn in Hd. destruct d as [|o| |]; try done. destruct (dget j o) as [w|] eqn:Hw; [|done].
    destruct (IH _ Hd) as (w' & m' & Ha & Hl & Hget). exists (VObject (dset j w' o)), m'.
    rewrite <- app_comm_cons, add_at_snoc, Hw, Ha. split_and!; [done| |done]. cbn. by rewrite dget_dset_eq.
Qed.

Lemma add_at_no_parent d p k v : lookup d p = None → add_at (p ++ [k]) v d = None.
Proof.
  revert d. induction p as [|j p IH]; intros d Hd; [done|].
  cbn in Hd. destruct d as [|o| |]; try done. rewrite <- app_comm_cons, add_at_snoc.
  destruct (dget j o) as [w|]; [|done]. by rewrite (IH _ Hd).
Qed.

Lemma add_at_frame d d' p v q :
  add_at p v d = Some d' → ¬ p `prefix_of` q → ¬ q `prefix_of` p → lookup d' q = lookup d q.
Proof.
  revert d d' q. induction p as [|j p IH]; intros d d' q Hadd Hp Hq.
  { destruct Hp. apply prefix_nil. }
  destruct q as [|i q]; [destruct Hq; apply prefix_nil|].
  cbn in Hadd. destruct d as [|o| |]; try done.
  destruct (decide (i = j)) as [->|Hne].
  - destruct p as [|j' p].
    { destruct Hp. exists q. done. }
    destruct (dget j o) as [w|] eqn:Hw; [|done]. destruct (add_at (j' :: p) v w) as [w'|] eqn:Hw'; [|done].
    injection Hadd as <-. cbn [lookup]. rewrite dget_dset_eq, Hw. apply (IH _ _ _ Hw').
    + intros ?. by apply Hp, prefix_cons.
    + intros ?. by apply Hq, prefix_cons.
  - assert (∃ w', d' = VObject (dset j w' o)) as [w' ->].
    { destruct p; [injection Hadd as <-; by eexists|].
      destruct (dget j o); [|done]. destruct (add_at _ _ _); [|done]. injection Hadd as <-. by eexists. }
    cbn. by rewrite dget_dset_ne.
Qed.

Definition simple_server : JsonPatch := {|
  add_op op d := add_at (path op) (add_value op) d;
  add_op_member := add_at_member;
  add_op_no_parent := add_at_no_parent;
  add_op_frame d d' p v q := add_at_frame d d' p v q;
|}.

(** ** Concrete inputs *)

(** The StatefulSet of Restarter.v, with one annotation in its pod template. *)
Definition webhook_sts : StatefulSet :=
  mkStatefulSet (metadata example_sts)
    (Some (mkStatefulSetSpec (mkPodTemplateSpec
      (Some (mkObjectMeta None None None None (Some {["a" := ("b" : str)]}) None))
      (spec example_sts ≫= λ s, t_spec (template s))))).

Definition webhook_document : value :=
  VObject [("kind" : str, VString "StatefulSet");
    ("spec" : str, VObject [("replicas" : str, VOther);
      ("template" : str, VObject [("metadata" : str, VObject
        [("annotations" : str, VObject [("a" : str, VString "b")])])])])].

Definition webhook_ctx : Ctx :=
  mkCtx (Some (store_of [("config", "c", "3")])) (Some (store_of [("hot", "h", "5"); ("creds", "s", "7")])).

Lemma webhook_document_ok : document_of webhook_document webhook_sts.
Proof.
  split; [by eexists|]. split; [by eexists|]. split; [by eexists|]. cbn -[lookup].
  eexists. split; [reflexivity|]. intros k. cbn [dget].
  destruct (decide (("a" : str) = k)) as [<-|Hne]; [reflexivity|].
  change (None = VString <$> ({["a" : str := "b" : str]} : gmap str str) !! k).
  by rewrite lookup_singleton_ne.
Qed.

Lemma created_statefulset_is_annotated_witness :
  ∃ d' am, lookup d' annotations_path = Some (VObject am) ∧ dget "a" am = Some (VString "b") ∧
    dget "configmap.restarter.stackable.tech/config" am = Some (VString "c/3").
Proof.
  destruct (annotations_total webhook_sts "default" (store_of [("config", "c", "3")])
    (store_of [("hot", "h", "5"); ("creds", "s", "7")]) eq_refl) as [m Hm].
  pose proof (annotations_lookup webhook_sts "default" _ _ m eq_refl Hm) as Hk.
  destruct (created_statefulset_is_annotated (H := simple_server) (λ _, []) (λ _, None) webhook_ctx webhook_sts
    webhook_document _ m (H0 := {| kube_patch _ := true |}) webhook_document_ok eq_refl Hm (λ _, eq_refl))
    as (patch & d' & am & _ & _ & Hl & Hget & _).
  exists d', am. split; [exact Hl|]. rewrite !Hget.
  rewrite lookup_union, Hk.
  rewrite lookup_union, Hk.
  split; vm_compute; reflexivity.
Defined.

Lemma patch_without_spec_fails_witness :
  ∃ patch,
    add_sts_restarter_annotations_handler (λ _, []) (λ _, None) webhook_ctx
      (Some (mkStatefulSet (metadata example_sts) None)) = Val (Patched patch) ∧
    apply_patch (H := simple_server) patch (VObject []) = None.
Proof.
  eexists. split; [vm_compute; reflexivity|].
  apply (patch_without_spec_fails (H := simple_server) (λ _, []) (λ _, None) webhook_ctx
    (mkStatefulSet (metadata example_sts) None)).
  - split; [by eexists|by left].
  - reflexivity.
  - vm_compute. reflexivity.
Defined.
