(* ===== verification/Operator.v ===== *)
(** The parts of the operator together: the webhook annotates a StatefulSet when it is
    created, the restart controller looks at it afterwards, and its own patches come
    back to it as events. *)

From stdpp Require Import relations.
From S2P Require Import Prelude PyStr Kube Restarter RestartController StsWebhook.

(** ** What the annotations depend on *)

(** Two states of a StatefulSet that refer to the same objects and ignore the same. *)
Definition same_references (sts sts' : StatefulSet) : Prop :=
  namespace (metadata sts') = namespace (metadata sts) ∧
  cm_refs sts' = cm_refs sts ∧ secret_refs sts' = secret_refs sts ∧
  ignored ignore_cm_prefix sts' = ignored ignore_cm_prefix sts ∧
  ignored ignore_secret_prefix sts' = ignored ignore_secret_prefix sts.

#[global] Instance same_references_preorder : PreOrder same_references.
Proof.
  unfold same_references. split; [by intros sts|].
  intros s1 s2 s3 (? & ? & ? & ? & ?) (? & ? & ? & ? & ?). split_and!; congruence.
Qed.

(** The StatefulSet after a patch of its pod template's annotations. *)
Definition with_template_annotations (m : gmap str str) (sts : StatefulSet) : StatefulSet :=
  mkStatefulSet (metadata sts)
    ((λ s, mkStatefulSetSpec (mkPodTemplateSpec
        (Some (match t_metadata (template s) with
               | Some o => mkObjectMeta (name o) (namespace o) (uid o) (resource_version o) (Some m) (deletion_timestamp o)
               | None => mkObjectMeta None None None None (Some m) None
               end))
        (t_spec (template s)))) <$> spec sts).

(** Neither the webhook's patch nor the controller's changes what is referred to. *)
Lemma patched_same_references m sts : same_references sts (with_template_annotations m sts).
Proof.
  assert (pod_specs (with_template_annotations m sts) = pod_specs sts) as Hp by (by destruct sts as [? [?|]]).
  unfold same_references, cm_refs, secret_refs. by rewrite Hp.
Qed.

Lemma same_references_annotations sts sts' ctx :
  same_references sts sts' → get_updated_restarter_annotations sts' ctx = get_updated_restarter_annotations sts ctx.
Proof. intros (H1 & H2 & H3 & H4 & H5). unfold get_updated_restarter_annotations. by rewrite H1, H2, H3, H4, H5. Qed.

(** ** Quiet times *)

Section calm.
Variables (cms secrets : Store) (r : ref) (sts : StatefulSet).

(** Anything happens, but the ConfigMaps and Secrets stay as they are, and so does
    what the StatefulSet [r] refers to. *)
Definition calm (s s' : system) : Prop :=
  step s s' ∧ cm_store s' = Some cms ∧ secret_store s' = Some secrets ∧
  ∀ g sts', sts_store s' !! r = Some g → g_object g = Some sts' → same_references sts sts'.

(** Before the StatefulSet is created. *)
Definition unknown (s : system) : Prop :=
  cm_store s = Some cms ∧ secret_store s = Some secrets ∧
  sts_store s !! r = None ∧ running s !! r = None ∧ applied s !! r = None.

(** All that is on its way for the StatefulSet are the annotations [m]. *)
Definition calm_phase (m : gmap str str) (p : phase) : Prop :=
  match p with
  | Started g => ∀ sts', g_object g = Some sts' → same_references sts sts'
  | AwaitSecrets sts' ns m' =>
      same_references sts sts' ∧ namespace (metadata sts') = Some ns ∧ m' = cms_part sts' ns cms
  | Patching request => ap_template_annotations request = m
  end.

Definition calm_ok (m : gmap str str) (s : system) : Prop :=
  cm_store s = Some cms ∧ secret_store s = Some secrets ∧
  (∀ g sts', sts_store s !! r = Some g → g_object g = Some sts' → same_references sts sts') ∧
  (∀ p, running s !! r = Some p → calm_phase m p) ∧
  (∀ m', applied s !! r = Some m' → m' = m).

Lemma unknown_calm_ok m s : unknown s → calm_ok m s.
Proof. intros (H1 & H2 & H3 & H4 & H5). split_and!; [done|done| | |]; intros; simplify_eq. Qed.

Lemma calm_internal m s s' :
  get_updated_restarter_annotations sts (mkCtx (Some cms) (Some secrets)) = Val m →
  internal s s' → calm_ok m s →
  (∀ p, running s' !! r = Some p → calm_phase m p) ∧ (∀ m', applied s' !! r = Some m' → m' = m).
Proof.
  intros Hm Hstep (Hc & Hs & Hst & Hr & Ha). destruct Hstep as
    [r' g s Hrdy Hq Hr' Hg|r' s Hrdy Hq Hr' Hg|r' g s Hr' Hg|r' g sts' ns cms' s Hr' Hg Hns Hc'|r' sts' ns n m' secrets' s Hr' Hn Hs'|r' request s Hr'];
    cbn -[calm_phase] in *; (split; [|try done]).
  - intros p [[<- <-]|[_ H]]%lookup_insert_Some; [|by apply Hr]. intros sts'. by apply Hst.
  - done.
  - intros p [_ H]%lookup_delete_Some. by apply Hr.
  - intros p [[<- <-]|[_ H]]%lookup_insert_Some; [|by apply Hr].
    split; [by apply (Hr _ Hr')|]. split; [done|]. congruence.
  - intros p [[<- <-]|[_ H]]%lookup_insert_Some; [|by apply Hr].
    destruct (Hr _ Hr') as (Hsame & Hns & ->). cbn. simplify_eq.
    rewrite <- (same_references_annotations _ _ _ Hsame), (parts_are_annotations _ _ _ _ Hns) in Hm. congruence.
  - intros p [_ H]%lookup_delete_Some. by apply Hr.
  - intros m' [[<- <-]|[_ H]]%lookup_insert_Some; [|by apply Ha]. apply (Hr _ Hr').
Qed.

Lemma calm_external m listed s s' :
  external listed s s' → calm_ok m s →
  (∀ p, running s' !! r = Some p → calm_phase m p) ∧ (∀ m', applied s' !! r = Some m' → m' = m).
Proof.
  intros Hstep (_ & _ & _ & Hr & Ha). destruct Hstep as [ev s _|ev s _|ev s _ _|r' request s Hr']; [by destruct ev..|].
  cbn. split; [|done]. intros p [_ Hp]%lookup_delete_Some. by apply Hr.
Qed.

Lemma calm_step m s s' :
  get_updated_restarter_annotations sts (mkCtx (Some cms) (Some secrets)) = Val m →
  calm s s' → calm_ok m s → calm_ok m s'.
Proof.
  intros Hm ([Hi|[listed He]] & Hc & Hs & Hst) Hok.
  - destruct (calm_internal _ _ _ Hm Hi Hok). by split_and!.
  - destruct (calm_external _ _ _ _ He Hok). by split_and!.
Qed.

Lemma calm_steps m s s' :
  get_updated_restarter_annotations sts (mkCtx (Some cms) (Some secrets)) = Val m →
  rtc calm s s' → calm_ok m s → calm_ok m s'.
Proof. intros Hm. induction 1 as [|x y z H _ IH]; [done|]. intros Hok. by eapply IH, calm_step. Qed.

End calm.

(** ** Theorem *)

(** C37: a StatefulSet that is created through the webhook is not restarted by the
    controller: as long as the ConfigMaps, the Secrets and what the StatefulSet refers
    to stay as they are, every patch that the controller sends for it, whatever
    happens besides (its own patches coming back as events included), asks for exactly
    the annotations that the webhook has put there, and so do those that the API
    server has taken. *)
Theorem fresh_statefulset_not_restarted (display : Error → str) (with_patch_error : list add_operation → option str)
    (cms secrets : Store) (sts : StatefulSet) (r : ref) (patch : list add_operation) (s0 s : system)
    (Hpatch : add_sts_restarter_annotations_handler display with_patch_error (mkCtx (Some cms) (Some secrets))
                (Some sts) = Val (Patched patch))
    (Hnew : unknown cms secrets r s0) (Hsteps : rtc (calm cms secrets r sts) s0 s) :
  ∃ m, (∀ k v, m !! k = Some v ↔ mkAdd (annotations_path ++ [k]) (VString v) ∈ patch) ∧
    (∀ request, running s !! r = Some (Patching request) → ap_template_annotations request = m) ∧
    (∀ m', applied s !! r = Some m' → m' = m) ∧
    ∀ g sts', sts_store s !! r = Some g → g_object g = Some sts' →
      ∀ m', same_references sts (with_template_annotations m' sts').
Proof.
  unfold add_sts_restarter_annotations_handler in Hpatch.
  destruct (get_updated_restarter_annotations sts (mkCtx (Some cms) (Some secrets))) as [m|e|] eqn:Hm; [|done..].
  cbn zeta in Hpatch. destruct (with_patch_error _); [done|]. injection Hpatch as <-.
  destruct (calm_steps _ _ _ _ _ _ _ Hm Hsteps (unknown_calm_ok _ _ _ sts m _ Hnew)) as (_ & _ & Hst & Hr & Ha).
  exists m. split_and!; [|intros request; apply Hr|done|].
  - intros k v. rewrite elem_of_app. unfold add_annotations. split.
    + intros Hk. right. apply list_elem_of_fmap. exists (k, v). split; [done|]. by apply elem_of_btree_iter.
    + intros [Hin|Hin].
      * apply list_elem_of_fmap in Hin as (p & Hp & _). by injection Hp.
      * apply list_elem_of_fmap in Hin as ([k' v'] & Hp & Hin). injection Hp as Hk Hv.
        apply elem_of_btree_iter in Hin. cbn in Hk, Hv. by subst.
  - intros g sts' Hg Hsts m'. etrans; [by eapply Hst|]. apply patched_same_references.
Qed.

(** ** A StatefulSet is created *)

Definition example_before : system := mkSystem (Some (store_of [("config", "c", "3")])) (Some ∅) ∅ ∅ ∅ ∅
  (mkWatches None None None true).

(** It is seen, and its reconciliation is about to be answered. *)
Lemma example_created :
  ∃ s request, rtc (calm (store_of [("config", "c", "3")]) ∅ example_ref example_sts) example_before s ∧
    running s !! example_ref = Some (Patching request).
Proof.
  assert (Hcalm : ∀ s s', step s s' → cm_store s' = Some (store_of [("config", "c", "3")]) →
    secret_store s' = Some ∅ → sts_store s' = {[example_ref := example_guard]} →
    calm (store_of [("config", "c", "3")]) ∅ example_ref example_sts s s').
  { intros s s' H1 H2 H3 H4. split_and!; [done..|]. rewrite H4. intros g sts' [= <-] [= <-]. done. }
  eexists _, _. split.
  - eapply rtc_l; [apply Hcalm; [right; eexists; apply (stses_watched (Apply example_ref example_guard)); [reflexivity|
      by intros ? ? [= <- <-]; split; [exact example_guard_ok|]]|done..]|].
    eapply rtc_l; [apply Hcalm; [left; apply (start_known example_ref example_guard); [done|cbn; set_solver|done..]|done..]|].
    eapply rtc_l; [apply Hcalm; [left; eapply (read_cms example_ref example_guard example_sts); reflexivity|done..]|].
    eapply rtc_l; [apply Hcalm; [left; eapply (read_secrets example_ref); reflexivity|done..]|].
    constructor.
  - reflexivity.
Qed.

Lemma fresh_statefulset_not_restarted_witness :
  ∃ s request (patch : list add_operation), running s !! example_ref = Some (Patching request) ∧
    ∀ k v, ap_template_annotations request !! k = Some v ↔ mkAdd (annotations_path ++ [k]) (VString v) ∈ patch.
Proof.
  destruct example_created as (s & request & Hsteps & Hr).
  destruct (annotations_total example_sts "default" (store_of [("config", "c", "3")]) ∅ eq_refl) as [m Hm].
  destruct (fresh_statefulset_not_restarted (λ _, []) (λ _, None) (store_of [("config", "c", "3")]) ∅ example_sts
    example_ref (create_paths example_sts ++ add_annotations m) example_before s) as (m' & Hpatch & Hreq & _).
  - unfold add_sts_restarter_annotations_handler. rewrite Hm. reflexivity.
  - split_and!; reflexivity.
  - exact Hsteps.
  - exists s, request, (create_paths example_sts ++ add_annotations m). split; [exact Hr|].
    rewrite (Hreq request Hr). exact Hpatch.
Defined.
