(* ===== verification/Webhooks.v ===== *)
(** rust/operator-binary/src/webhooks: which webhooks the server offers, how the
    restarter's webhook is registered (restarter_mutate_sts.rs, mod.rs), and that it
    is asked for the StatefulSets that the restart controller watches. *)

From S2P Require Import Prelude PyStr PyDict Argparse Kube.

(** ** Registration *)

Record RuleWithOperations := mkRule {
  api_groups : option (list str);
  api_versions : option (list str);
  resources : option (list str);
  operations : option (list str);
  scope : option str;
}.

(** The code gives no match expressions. *)
Record LabelSelector := mkSelector { match_labels : option (gmap str str) }.

(** The client configuration is left to the library that serves the webhook. *)
Record MutatingWebhook := mkMutatingWebhook {
  mw_name : str;
  admission_review_versions : list str;
  rules : option (list RuleWithOperations);
  object_selector : option LabelSelector;
  failure_policy : option str;
  reinvocation_policy : option str;
  side_effects : str;
}.

Record MutatingWebhookConfiguration := mkConfiguration {
  mwc_name : str;
  mwc_labels : list (str * str);
  webhooks : option (list MutatingWebhook);
}.

Record MutatingWebhookOptions := mkMutatingOptions {
  disable_mwc_maintenance : bool;
  mo_field_manager : str;
}.

Record ConversionWebhookOptions := mkConversionOptions {
  disable_crd_maintenance : bool;
  co_field_manager : str;
}.

Definition OPERATOR_NAME : str := "commons.stackable.tech".
Definition FIELD_MANAGER : str := "commons-operator".

Definition webhook_name : str := "restarter-sts-enricher.stackable.tech".
Definition enabled_label : str := "restarter.stackable.tech/enabled".

(** The custom resources of the conversion webhook, all in version [V1Alpha1]. *)
Inductive resource := AuthenticationClass | S3Connection | S3Bucket.

#[export] Instance resource_eq_dec : EqDecision resource.
Proof. solve_decision. Defined.

Record WebhookServerOptions := mkServerOptions {
  socket_addr : str;
  webhook_namespace : str;
  webhook_service_name : str;
}.

(** [OperatorEnvironmentOptions] *)
Record OperatorEnvironmentOptions := mkEnvironmentOptions {
  operator_namespace : str;
  operator_service_name : str;
}.

(** mod.rs, [Error]; the source of the error is left out. *)
Inductive Error := CreateWebhookServer.

Section server.
(** The labels that the operator framework makes; [None] is an invalid label. *)
Context (stackable_vendor : str * str) (managed_by : str → str → option (str * str)).
(** The definitions of custom resources, [merged_crd(V1Alpha1)], and the conversions
    [try_convert]. *)
Context {Crd Handler Server : Type} (merged_crd : resource → option Crd) (try_convert : resource → Handler).
(** [WebhookServer::DEFAULT_SOCKET_ADDRESS] *)
Context (default_socket_address : str).

Inductive Webhook :=
  | Mutating (configuration : MutatingWebhookConfiguration) (options : MutatingWebhookOptions)
  | Conversion (crds_and_handlers : list (Crd * Handler)) (options : ConversionWebhookOptions).

(** [WebhookServer::new] *)
Context (server_new : list Webhook → WebhookServerOptions → option Server).

Definition sts_rule : RuleWithOperations :=
  mkRule (Some ["apps" : str]) (Some ["v1" : str]) (Some ["statefulsets" : str]) (Some ["CREATE" : str])
    (Some ("Namespaced" : str)).

Definition sts_webhook : MutatingWebhook :=
  mkMutatingWebhook webhook_name ["v1"] (Some [sts_rule])
    (Some (mkSelector (Some {[enabled_label := "true" : str]})))
    (Some ("Ignore" : str)) (Some ("IfNeeded" : str)) "None".

Definition get_sts_restarter_mutating_webhook_configuration :
    outcome Error MutatingWebhookConfiguration :=
  obind (expect (managed_by OPERATOR_NAME webhook_name)) (λ label,
    Val (mkConfiguration webhook_name [stackable_vendor; label] (Some [sts_webhook]))).

(** restarter_mutate_sts.rs, [create_webhook] *)
Definition create_restarter_webhook (disable_restarter_mutating_webhook : bool) :
    outcome Error (option Webhook) :=
  if disable_restarter_mutating_webhook then Val None
  else obind get_sts_restarter_mutating_webhook_configuration (λ configuration,
    Val (Some (Mutating configuration
      (mkMutatingOptions disable_restarter_mutating_webhook FIELD_MANAGER)))).

(** conversion.rs, [create_webhook] *)
Definition create_conversion_webhook (disable_crd_maintenance : bool) : outcome Error Webhook :=
  obind (expect (merged_crd AuthenticationClass)) (λ authentication_class,
  obind (expect (merged_crd S3Connection)) (λ s3_connection,
  obind (expect (merged_crd S3Bucket)) (λ s3_bucket,
    Val (Conversion
      [(authentication_class, try_convert AuthenticationClass); (s3_connection, try_convert S3Connection);
       (s3_bucket, try_convert S3Bucket)]
      (mkConversionOptions disable_crd_maintenance FIELD_MANAGER))))).

(** mod.rs, [create_webhook_server] *)
Definition create_webhook_server (operator_environment : OperatorEnvironmentOptions)
    (disable_restarter_mutating_webhook disable_crd_maintenance : bool) : outcome Error Server :=
  obind (create_restarter_webhook disable_restarter_mutating_webhook) (λ webhook,
  obind (create_conversion_webhook disable_crd_maintenance) (λ conversion,
    let webhooks := match webhook with Some webhook => [webhook] | None => [] end ++ [conversion] in
    let webhook_options := mkServerOptions default_socket_address
      (operator_namespace operator_environment) (operator_service_name operator_environment) in
    context CreateWebhookServer (server_new webhooks webhook_options))).

End server.

(** ** The watches of statefulset.rs, [start] *)

Definition sts_selector : str := "restarter.stackable.tech/enabled=true".
Definition ignore_selector : str := "restarter.stackable.tech/ignore != true".

(** ** What the API server does *)

(** A request that changes an object, with the labels of the object and of the one it
    replaces. *)
Record api_request := mkApiRequest {
  rq_group : str;
  rq_version : str;
  rq_resource : str;
  rq_operation : str;
  rq_namespaced : bool;
  rq_labels : gmap str str;
  rq_old_labels : option (gmap str str);
}.

(** A list of a rule admits a value if it has it, or a star. *)
Definition admits (l : option (list str)) (x : str) : Prop := ∃ l', l = Some l' ∧ (x ∈ l' ∨ ("*" : str) ∈ l').

Definition scope_admits (scope : option str) (namespaced : bool) : Prop :=
  scope = Some ("*" : str) ∨ scope = None ∨
  scope = Some (if namespaced then "Namespaced" else "Cluster" : str).

Definition rule_matches (rule : RuleWithOperations) (rq : api_request) : Prop :=
  admits (api_groups rule) (rq_group rq) ∧ admits (api_versions rule) (rq_version rq) ∧
  admits (resources rule) (rq_resource rq) ∧ admits (operations rule) (rq_operation rq) ∧
  scope_admits (scope rule) (rq_namespaced rq).

Definition has_labels (sel : option LabelSelector) (labels : gmap str str) : Prop :=
  ∀ m k v, (sel ≫= match_labels) = Some m → m !! k = Some v → labels !! k = Some v.

(** How the API server picks the webhooks to ask, and the objects of a watch. *)
Class ApiServer := {
  asks : MutatingWebhook → api_request → bool;
  (** A webhook is asked when a rule matches and the object, or the one it replaces,
      has all labels of the selector. *)
  asks_spec w rq :
    asks w rq = true ↔
      (∃ rule l, rules w = Some l ∧ rule ∈ l ∧ rule_matches rule rq) ∧
      (has_labels (object_selector w) (rq_labels rq) ∨
       ∃ labels, rq_old_labels rq = Some labels ∧ has_labels (object_selector w) labels);
  selects : str → gmap str str → bool;
  (** An equality-based requirement. *)
  selects_equal k v labels :
    61%N ∉ k → 61%N ∉ v → 33%N ∉ k → selects (k ++ "=" ++ v) labels = true ↔ labels !! k = Some v;
}.

(** ** Theorem *)

(** Unless it is turned off, the server is made from the restarter's webhook, and the
    API server asks it for the creation of StatefulSets only, and there exactly for
    those that the restart controller watches; whether or not, the conversion webhook
    for all three custom resources is there. *)
Theorem webhook_asked_for_watched_statefulsets `{ApiServer} {Crd Handler : Type} (vendor label : str * str)
    (managed_by : str → str → option (str * str)) (merged_crd : resource → option Crd)
    (try_convert : resource → Handler) (crd : resource → Crd) (address : str)
    (environment : OperatorEnvironmentOptions) (disable disable_crds : bool)
    (Hlabel : managed_by OPERATOR_NAME webhook_name = Some label)
    (Hcrds : ∀ r, merged_crd r = Some (crd r)) :
  ∃ l, (∀ Server (server_new : list Webhook → WebhookServerOptions → option Server),
     create_webhook_server vendor managed_by merged_crd try_convert address server_new environment disable disable_crds =
       context CreateWebhookServer (server_new l (mkServerOptions address
         (operator_namespace environment) (operator_service_name environment)))) ∧
    (∃ crds, last l = Some (Conversion crds (mkConversionOptions disable_crds FIELD_MANAGER)) ∧
       ∀ r, (crd r, try_convert r) ∈ crds) ∧
    (disable = true → length l = 1) ∧
    (disable = false → ∃ configuration options w,
       l !! 0 = Some (Mutating configuration options) ∧ webhooks configuration = Some [w] ∧
       disable_mwc_maintenance options = false ∧ failure_policy w = Some ("Ignore" : str) ∧
       ∀ rq, (rq_operation rq = "CREATE" → rq_old_labels rq = None) →
         asks w rq = true ↔
         rq_group rq = "apps" ∧ rq_version rq = "v1" ∧ rq_resource rq = "statefulsets" ∧
         rq_operation rq = "CREATE" ∧ rq_namespaced rq = true ∧ selects sts_selector (rq_labels rq) = true).
Proof.
  unfold create_webhook_server, create_restarter_webhook, get_sts_restarter_mutating_webhook_configuration,
    create_conversion_webhook.
  assert (∀ r, (crd r, try_convert r) ∈ [(crd AuthenticationClass, try_convert AuthenticationClass);
    (crd S3Connection, try_convert S3Connection); (crd S3Bucket, try_convert S3Bucket)]) as Hall.
  { intros []; rewrite !elem_of_cons; auto. }
  rewrite Hlabel, !Hcrds. destruct disable; cbn [obind expect app].
  { eexists. split; [intros Server server_new; reflexivity|]. split; [by eexists|done]. }
  eexists. split; [intros Server server_new; reflexivity|]. split; [by eexists|]. split; [done|]. intros _.
  do 3 eexists. split; [done|]. split; [done|]. split; [done|]. split; [done|]. intros rq Hold.
  assert (∀ x y : str, admits (Some [x]) y ↔ y = x ∨ x = "*") as Hadm.
  { intros x y. unfold admits. split.
    - intros (l' & [= <-] & [->%list_elem_of_singleton|Hs%list_elem_of_singleton]); auto.
    - intros [->| ->]; eexists; (split; [done|]); [left|right]; left. }
  change sts_selector with (enabled_label ++ "=" ++ "true"). rewrite selects_equal by (vm_compute; set_solver).
  rewrite asks_spec. cbn [rules object_selector sts_webhook]. split.
  - intros ((rule & l & [= <-] & ->%list_elem_of_singleton & Hg & Hv & Hr & Ho & Hs) & Hsel).
    cbn in Hg, Hv, Hr, Ho, Hs. rewrite Hadm in Hg, Hv, Hr, Ho.
    destruct Hg as [Hg|[=]], Hv as [Hv|[=]], Hr as [Hr|[=]], Ho as [Ho|[=]].
    destruct Hs as [[=]|[[=]|Hs]].
    destruct Hsel as [Hsel|(labels & Heq & _)]; [|by rewrite Hold in Heq].
    split_and!; [done..| |].
    + destruct (rq_namespaced rq); [done|discriminate Hs].
    + eapply Hsel; [done|]. apply lookup_singleton_eq.
  - intros (Hg & Hv & Hr & Ho & Hs & Hl). split.
    + exists sts_rule, [sts_rule]. split; [done|]. split; [left|].
      unfold rule_matches. cbn. rewrite !Hadm, Hs. split_and!; auto. by right; right.
    + left. intros m k v [= <-] [<- <-]%lookup_singleton_Some. done.
Qed.

(** ** An API server *)

Definition admitsb (l : option (list str)) (x : str) : bool :=
  match l with Some l' => bool_decide (x ∈ l') || bool_decide (("*" : str) ∈ l') | None => false end.

Definition rule_matchesb (rule : RuleWithOperations) (rq : api_request) : bool :=
  admitsb (api_groups rule) (rq_group rq) && admitsb (api_versions rule) (rq_version rq) &&
  admitsb (resources rule) (rq_resource rq) && admitsb (operations rule) (rq_operation rq) &&
  (bool_decide (scope rule = Some ("*" : str)) || bool_decide (scope rule = None) ||
   bool_decide (scope rule = Some (if rq_namespaced rq then "Namespaced" else "Cluster" : str))).

Definition has_labelsb (sel : option LabelSelector) (labels : gmap str str) : bool :=
  match sel ≫= match_labels with
  | Some m => forallb (λ kv : str * str, bool_decide (labels !! kv.1 = Some kv.2)) (map_to_list m)
  | None => true
  end.

Lemma admitsb_spec l x : admitsb l x = true ↔ admits l x.
Proof.
  unfold admitsb, admits. destruct l as [l|]; [|naive_solver].
  rewrite orb_true_iff, !bool_decide_eq_true. naive_solver.
Qed.

Lemma rule_matchesb_spec rule rq : rule_matchesb rule rq = true ↔ rule_matches rule rq.
Proof.
  unfold rule_matchesb, rule_matches, scope_admits.
  rewrite !andb_true_iff, !orb_true_iff, !admitsb_spec, !bool_decide_eq_true. tauto.
Qed.

Lemma has_labelsb_spec sel labels : has_labelsb sel labels = true ↔ has_labels sel labels.
Proof.
  unfold has_labelsb, has_labels. destruct (sel ≫= match_labels) as [m|]; [|naive_solver].
  rewrite forallb_forall. split.
  - intros Hall m' k v [= <-] Hk. apply elem_of_map_to_list, list_elem_of_In, Hall in Hk.
    by apply bool_decide_eq_true in Hk.
  - intros Hall [k v] Hk%list_elem_of_In%elem_of_map_to_list. apply bool_decide_eq_true. by eapply Hall.
Qed.

#[local] Program Instance example_server : ApiServer := {|
  asks w rq :=
    existsb (λ rule, rule_matchesb rule rq) (default [] (rules w)) &&
    (has_labelsb (object_selector w) (rq_labels rq) ||
     match rq_old_labels rq with Some labels => has_labelsb (object_selector w) labels | None => false end);
  selects s labels :=
    match split_once 61 s with Some (k, v) => bool_decide (labels !! k = Some v) | None => false end;
|}.
Next Obligation.
  intros w rq. cbn. rewrite andb_true_iff, orb_true_iff, existsb_exists, has_labelsb_spec. f_equiv.
  - split.
    + intros (rule & Hin & Hm%rule_matchesb_spec). destruct (rules w) as [l|]; [|done].
      exists rule, l. by apply list_elem_of_In in Hin.
    + intros (rule & l & -> & Hin & Hm). exists rule. by rewrite rule_matchesb_spec, <- list_elem_of_In.
  - destruct (rq_old_labels rq) as [labels|]; [rewrite has_labelsb_spec|]; naive_solver.
Qed.
Next Obligation.
  intros k v labels Hk _ _. change (k ++ "=" ++ v) with (k ++ 61%N :: v).
  cbn. rewrite split_once_app by done. apply bool_decide_eq_true.
Qed.

Lemma webhook_asked_for_watched_statefulsets_witness :
  ∃ l : list (Webhook (Crd := resource) (Handler := resource)), create_webhook_server ("stackable.tech/vendor" : str, "Stackable" : str)
      (λ o n, Some ("app.kubernetes.io/managed-by" : str, o ++ "_" ++ n)) (λ r, Some r) (λ r, r) "0.0.0.0:8443"
      (λ l o, Some (length l, webhook_namespace o))
      (mkEnvironmentOptions "stackable-operators" "commons") false true =
    Val (length l, "stackable-operators" : str) ∧ length l = 2.
Proof.
  destruct (webhook_asked_for_watched_statefulsets ("stackable.tech/vendor" : str, "Stackable" : str)
    ("app.kubernetes.io/managed-by" : str, OPERATOR_NAME ++ "_" ++ webhook_name)
    (λ o n, Some ("app.kubernetes.io/managed-by" : str, o ++ "_" ++ n)) (λ r, Some r) (λ r, r) (λ r, r) "0.0.0.0:8443"
    (mkEnvironmentOptions "stackable-operators" "commons") false true) as (l & Hl & _).
  - reflexivity.
  - reflexivity.
  - exists l. rewrite Hl. split; [reflexivity|].
    specialize (Hl nat (λ l _, Some (length l))).
    by injection Hl as <-.
Defined.
