(* ===== verification/OperatorMain.v ===== *)
(** rust/operator-binary/src/main.rs: the two commands of the operator, the order in
    which it starts its parts, and how they end together. *)

From stdpp Require Import relations.
From S2P Require Import Prelude PyStr Kube Webhooks.

Local Open Scope rust_scope.

(** ** Command line *)

Record CommonsOperatorRunArguments := mkRunArguments {
  operator_environment : OperatorEnvironmentOptions;
  ra_disable_crd_maintenance : bool;
  disable_restarter_mutating_webhook : bool;
}.

Inductive Command :=
  | CmdCrd
  | CmdRun (arguments : CommonsOperatorRunArguments).

(** Where an error comes from; [anyhow] keeps their sources too. *)
Inductive main_error :=
  | CrdFailed (r : resource)
  | TracingFailed
  | SigtermFailed
  | EndOfSupportFailed
  | ClientFailed
  | ServerFailed (e : Webhooks.Error)
  | FailedToRunWebhook.

(** ** Starting *)

(** What main.rs calls; [None] and [false] are errors. *)
Class Framework := {
  Crd : Type;
  Handler : Type;
  Server : Type;
  merged_crd : resource → option Crd;
  print_yaml_schema : Crd → bool;
  tracing_init : bool;
  sigterm : bool;
  end_of_support_checker : bool;
  initialize_operator : bool;
  stackable_vendor : str * str;
  managed_by : str → str → option (str * str);
  try_convert : resource → Handler;
  default_socket_address : str;
  server_new : list (Webhook (Crd := Crd) (Handler := Handler)) → WebhookServerOptions → option Server;
}.

Section main.
Context {framework : Framework}.

Definition require (e : main_error) (b : bool) : outcome main_error unit :=
  if b then Val tt else Err e.

Definition map_err {E E' A} (f : E → E') (m : outcome E A) : outcome E' A :=
  match m with Val x => Val x | Err e => Err (f e) | Panic => Panic end.

(** [Crd]: what is printed, and how it ends. *)
Fixpoint print_crds (l : list resource) : list Crd * outcome main_error unit :=
  match l with
  | [] => ([], Val tt)
  | r :: l' =>
      match merged_crd r with
      | None => ([], Err (CrdFailed r))
      | Some crd =>
          if print_yaml_schema crd then let '(printed, e) := print_crds l' in (crd :: printed, e)
          else ([], Err (CrdFailed r))
      end
  end.

Definition crd_command : list Crd * outcome main_error unit :=
  print_crds [AuthenticationClass; S3Connection; S3Bucket].

(** [Run], up to [try_join!]: the webhook server. *)
Definition start_up (arguments : CommonsOperatorRunArguments) : outcome main_error Server :=
  _ <-! require TracingFailed tracing_init ;;
  _ <-! require SigtermFailed sigterm ;;
  _ <-! require EndOfSupportFailed end_of_support_checker ;;
  _ <-! require ClientFailed initialize_operator ;;
  map_err ServerFailed
    (create_webhook_server stackable_vendor managed_by merged_crd try_convert default_socket_address server_new
       (operator_environment arguments) (disable_restarter_mutating_webhook arguments)
       (ra_disable_crd_maintenance arguments)).

(** ** Running together *)

(** The futures of [try_join!]. *)
Inductive member := StsRestartController | PodRestartController | WebhookServer | EosChecker.

#[export] Instance member_eq_dec : EqDecision member.
Proof. solve_decision. Defined.

(** The process: its futures that are still running, or the result of [main]. *)
Inductive process :=
  | Joining (running : list member)
  | Exited (r : outcome main_error unit).

(** How a future ends: it returns, or fails.  Only that of the webhook server can fail;
    [map(anyhow::Ok)] makes the others ones that do not.  A failure drops the futures
    that are still running. *)
Inductive ending := Returned (m : member) | Failed.

Inductive join_step : process → ending → process → Prop :=
  | join_return m running :
      m ∈ running → filter (λ m', m' ≠ m) running ≠ [] →
      join_step (Joining running) (Returned m) (Joining (filter (λ m', m' ≠ m) running))
  | join_last m running :
      m ∈ running → filter (λ m', m' ≠ m) running = [] →
      join_step (Joining running) (Returned m) (Exited (Val tt))
  | join_fail running :
      WebhookServer ∈ running → join_step (Joining running) Failed (Exited (Err FailedToRunWebhook)).

(** A process that goes through a sequence of endings. *)
Inductive joins : process → list ending → process → Prop :=
  | joins_nil p : joins p [] p
  | joins_cons p e p1 l p' : join_step p e p1 → joins p1 l p' → joins p (e :: l) p'.

Definition all_members : list member := [StsRestartController; PodRestartController; WebhookServer; EosChecker].

(** [main] *)
Definition main (cmd : Command) : process :=
  match cmd with
  | CmdCrd => Exited crd_command.2
  | CmdRun arguments =>
      match start_up arguments with
      | Val _ => Joining all_members
      | Err e => Exited (Err e)
      | Panic => Exited Panic
      end
  end.

(** ** Lemmas *)

Lemma joins_exited r l p : joins (Exited r) l p → l = [] ∧ p = Exited r.
Proof. intros H. inversion H as [|? ? ? ? ? Hstep]; [done|]. inversion Hstep. Qed.

Lemma remove_member (m : member) running :
  NoDup running → m ∈ running → m :: filter (λ m', m' ≠ m) running ≡ₚ running.
Proof.
  intros Hnd Hm. apply NoDup_Permutation; [|done|].
  - constructor; [by intros [? _]%list_elem_of_filter|by apply NoDup_filter].
  - intros m'. rewrite elem_of_cons, list_elem_of_filter. destruct (decide (m' = m)) as [->|]; naive_solver.
Qed.

(** What the endings of a join were when it is over. *)
Lemma joins_result running l r :
  NoDup running → joins (Joining running) l (Exited r) →
  (r = Val tt ∧ ∃ ms, l = Returned <$> ms ∧ ms ≡ₚ running) ∨
  (r = Err FailedToRunWebhook ∧ ∃ ms, l = (Returned <$> ms) ++ [Failed] ∧ NoDup ms ∧ ms ⊆ running ∧
     (WebhookServer ∉ ms) ∧ WebhookServer ∈ running).
Proof.
  revert running. induction l as [|e l IH]; intros running Hnd H.
  { inversion H. }
  inversion H as [|? ? p1 ? ? Hstep Hrest]; subst. inversion Hstep as [m ? Hm Hne|m ? Hm Hnil|? Hm]; subst.
  - destruct (IH _ (NoDup_filter _ _ Hnd) Hrest) as [(-> & ms & -> & Hp)|(-> & ms & -> & Hms & Hsub & Hw & Hin)].
    + left. split; [done|]. exists (m :: ms). split; [done|]. rewrite Hp. by apply remove_member.
    + right. split; [done|]. exists (m :: ms). split; [done|]. split_and!.
      * constructor; [|done]. by intros [? _]%Hsub%list_elem_of_filter.
      * intros m' [->|[_ ?]%Hsub%list_elem_of_filter]%elem_of_cons; done.
      * intros [<-|?]%elem_of_cons; [|done]. by apply list_elem_of_filter in Hin as [? _].
      * by apply list_elem_of_filter in Hin as [_ ?].
  - apply joins_exited in Hrest as [-> [= <-]]. left. split; [done|]. exists [m]. split; [done|].
    rewrite <-(remove_member m running) by done. by rewrite Hnil.
  - apply joins_exited in Hrest as [-> [= <-]]. right. split; [done|]. exists []. split; [done|].
    split_and!; [constructor|set_solver|apply not_elem_of_nil|done].
Qed.

End main.

(** ** Theorem *)

(** The operator runs its parts only after every step of its start-up has succeeded, the
    webhook server's creation included, and otherwise fails as the first step that did
    not; it ends successfully only when all four parts have returned, each of them once;
    the only failure afterwards is that of the webhook server, which had not returned. *)
Theorem run_result {framework : Framework} (arguments : CommonsOperatorRunArguments) (l : list ending)
    (r : outcome main_error unit) (Hend : joins (main (CmdRun arguments)) l (Exited r)) :
  match start_up arguments with
  | Val _ =>
      tracing_init = true ∧ sigterm = true ∧ end_of_support_checker = true ∧ initialize_operator = true ∧
      ((r = Val tt ∧ ∃ ms, l = Returned <$> ms ∧ ms ≡ₚ all_members) ∨
       (r = Err FailedToRunWebhook ∧
        ∃ ms, l = (Returned <$> ms) ++ [Failed] ∧ NoDup ms ∧ (WebhookServer ∉ ms)))
  | Err e => r = Err e ∧ l = []
  | Panic => r = Panic ∧ l = []
  end.
Proof.
  cbn [main] in Hend. destruct (start_up arguments) as [server|e|] eqn:E.
  - unfold start_up, require, obind in E. destruct tracing_init, sigterm, end_of_support_checker, initialize_operator;
      try discriminate E. split_and!; [done..|].
    apply joins_result in Hend; [|apply (bool_decide_unpack _); vm_compute; done].
    destruct Hend as [?|(? & ms & ? & ? & _ & ? & _)]; [by left|right]. split; [done|]. by exists ms.
  - apply joins_exited in Hend as [-> [= <-]]. done.
  - apply joins_exited in Hend as [-> [= <-]]. done.
Qed.

(** A framework whose calls succeed. *)
#[local] Instance example_framework : Framework := {|
  Crd := resource;
  Handler := unit;
  Server := nat;
  merged_crd := Some;
  print_yaml_schema _ := true;
  tracing_init := true;
  sigterm := true;
  end_of_support_checker := true;
  initialize_operator := true;
  stackable_vendor := ("stackable.tech/vendor", "Stackable");
  managed_by o n := Some ("app.kubernetes.io/managed-by" : str, o ++ "_" ++ n);
  try_convert _ := tt;
  default_socket_address := "0.0.0.0:8443";
  server_new l _ := Some (length l);
|}.

Example print_all : crd_command = ([AuthenticationClass; S3Connection; S3Bucket], Val tt).
Proof. reflexivity. Qed.

Lemma run_result_witness :
  let arguments := mkRunArguments (mkEnvironmentOptions "stackable-operators" "commons") false false in
  joins (main (CmdRun arguments)) [Returned EosChecker; Failed] (Exited (Err FailedToRunWebhook)) ∧
  ∃ ms, [Returned EosChecker; Failed] = (Returned <$> ms) ++ [Failed].
Proof.
  intros arguments.
  assert (joins (main (CmdRun arguments)) [Returned EosChecker; Failed] (Exited (Err FailedToRunWebhook))) as H.
  { eapply joins_cons; [apply (join_return EosChecker)|]; [apply (bool_decide_unpack _); vm_compute; done|done|].
    eapply joins_cons; [apply join_fail; apply (bool_decide_unpack _); vm_compute; done|apply joins_nil]. }
  split; [exact H|].
  destruct (run_result arguments _ _ H) as (_ & _ & _ & _ & [[Hr _]|(_ & ms & Hl & _)]); [discriminate Hr|].
  exists ms. exact Hl.
Defined.
